(* ===== verification/_CoqProject ===== *)
-Q . S2P
Prelude.v
Memory.v
CString.v
KStdlib.v
Float64.v
Ftoa.v
Mm.v
Paging.v
Mutex.v
Ports.v
Malloc.v
HeapPages.v
Ext2.v
Ide.v
LassIsa.v
Lass.v
LassSpec.v
Vga.v
Printf.v
Console.v
Stream.v
Devices.v
Keyboard.v
X86.v
Elf.v
AddrSpace.v
ElfLoad.v
UserHeap.v
Apic.v
Acpi.v
Trap.v
UserLib.v
Ext2Touch.v
Boot.v
Start.v
Path.v
Listings.v
SelfTest.v
UserCalls.v
PageCopy.v
Lists.v
Cpuid.v
Vfs.v
Sched.v
