(* ===== verification/Prelude.v ===== *)
(** * Verification of the baremetal (xiphos/crunchy) kernel and its assembler

    The program is a 32-bit x86 hobby kernel in C with a small user library
    and an assembler, lass, that runs on it.  This library translates the C
    functions into executable Rocq functions and proves what they do.

    ** Parts of the program and the files that model them

    Foundations
    - Prelude (this file): machine integers as [Z] with explicit wrap-around,
      bit lemmas, counted loops, and the outcome monad [M]: [Ok] a result,
      [Spin] waiting for ever, [Undef] use of an indeterminate value.
    - Memory: byte-addressed memory [mem] with 8-, 16- and 32-bit little-endian
      accesses; all components that share memory work on it.
    - CString: kernel/lib/string.c, every function on memory.
    - KStdlib: kernel/lib/stdlib.c, number and string conversion.  Float64: the
      C type double as binary64 numbers with the operations the code uses; Ftoa:
      [ftoa] and [dlog10] of kernel/lib/stdlib.c and libc/usr/stdlib.

    Memory management
    - Mm: kernel/mem/mm.c, the early allocator [mm_alloc] and the physical page
      bitmaps ([mm_state] holds MM_HEAP, MM_CURRENT_PD, MM_CURRENT_PT).  The
      abstract specification is a pool of pages.
    - Paging: kernel/mem/paging.c, directories and tables in memory over the
      page allocator; the specification is the processor's two-level walk [mmu].
      PageCopy: [page_copy] of the same file, through the kernel heap.
    - Malloc: kernel/mem/malloc.c, the block table, [sbrk], [malloc], [free],
      [realloc]; it uses paging through the class [PageSupply].  HeapPages
      proves that the kernel's page allocator and paging implement that class.
    - AddrSpace: [k_create_pagedir] and [k_map_kernel] as a new address space;
      [uspace] describes its user pages.
    - UserHeap: [sys_brk] and [sys_sbrk] of kernel/syscall.c and the allocator
      of libc/usr/glue.c on the process's pages.
    - Boot: the tables of kernel/arch/start.s and the first calls of
      [kernel_initialize] (kernel/kernel.c), with a second instance of
      [PageSupply] for the time before the page directory is set.  Start:
      [kernel_initialize] from its first line to the buffer cache as one run
      over memory, interrupt controllers, serial port, keyboard, timer, screen
      and disk.

    Processors and interrupts
    - Mutex: kernel/mutex.c ([pushcli], [popcli]) and the lock primitives of
      kernel/arch/sched.s as a step relation of several processors.
    - Ports: the flags register and the port instructions of kernel/arch/x86.c
      over the class [IoBus], whose devices answer as they like.
    - X86: kernel/arch/x86.c and kernel/include/x86.h, segment and interrupt
      descriptors as bit fields and as the hardware decodes them.
    - Apic: kernel/arch/lapic.c and ioapic.c as register writes; the start of
      the other processors as a step relation.  Acpi: kernel/acpi.c, reading
      the firmware's tables through the page tables.  Cpuid: kernel/cpuid.c.
    - Sched: the part of [kernel_initialize] that starts the other processors,
      their way through [mp_enter], and [scheduler] (kernel/kernel.c), as a step
      relation on the locks km and proc_m, the counter ncpu, the word that passes
      the stacks and the console.
    - Trap: kernel/arch/trap.c, the page fault handler and the system calls of
      kernel/syscall.c over one record [kernel] that joins the components.

    Files, programs, devices
    - Ext2: kernel/fs/ext2.c and kernel/fs/ext2_debug.c over the interface
      [BlockCache] (where the buffer cache puts a block in memory).  Ext2Touch:
      creating a file, end to end.  Path: [pathize] and [open].
    - Ide: kernel/drivers/ide.c, request queue, interrupt handler and buffer
      cache as records linked by address.
    - Elf, ElfLoad: kernel/elf.c, kernel symbols, and loading a program into a
      new address space through the translated accesses [vread8], [vwrite8].
    - Vga, Printf, Console: kernel/drivers/vga.c and kernel/lib/printf.c, the
      screen, [vsnprintf], and [printf] which joins them.
    - Stream: kernel/lib/stdio.c.  Keyboard: kernel/drivers/keyboard.c.
      Devices: kernel/arch/pic.c and kernel/drivers/rtc.c, timer.c, uart.c.
      Vfs: kernel/fs/vfs.c and the pixel routine of kernel/drivers/vesa.c.
    - Listings: the functions that print what a component holds (registers, page
      directories, heap blocks, directories, superblock, buffers).  SelfTest:
      [mm_test], [k_heap_test] and [mutex_test].

    User side and stand-alone programs
    - LassIsa, Lass, LassSpec: user/opcodes.h and user/lass.c; the instruction
      table row by row, tokens, operands, symbols, encoding, the two passes.
    - UserLib: libc/usr/stdlib, libc/usr/stdio and libc/usr/string, where they
      differ from the kernel's versions.
    - UserCalls: the system call stubs of libc/usr/glue.c with two and three
      arguments, [open], [printf], user/user.c, and [elf_execute] of
      kernel/elf.c.
    - Lists: list.c, lquad.c and pmm_test.c, in the modules Ring, Quad and Pmm.

    ** Interaction

    [kernel_initialize] sets up the page allocator, then the heap, then the
    page directory.  [malloc] takes a lock, searches the block table, and grows
    the heap with [sbrk], which asks the page allocator for frames and maps
    them; every kernel component that builds strings or buffers gets its blocks
    from it.  Where a function only needs the address of a block that [malloc]
    returned, that address is an argument of the definition.  The file system
    reads and writes blocks through the buffer cache, which queues requests that
    the disk's interrupt handler completes; [pathize] splits a path with the
    string library and looks the names up in the file system.  The loader builds
    an address space from the page allocator and copies a file read from the
    disk into it; the program comes back through [trap], which runs the handler
    of the device, the page fault or the system call and acknowledges the
    interrupt.  [printf] formats into a buffer and prints it on the screen; the
    keyboard handler echoes keys there.  The assembler uses the user library's
    string functions; its lines are modelled as lists of characters and
    [strtok_slices_agree] relates them to [strtok] on memory.

    ** What the theorems show

    - Refinement: the page allocator against the abstract pool; [malloc] against
      an abstract best-fit heap (blocks disjoint, contents kept); line tokens
      against [strtok] on memory; the kernel's pages against [PageSupply].
    - Equivalence: the user library's comparisons with the kernel's; the pages
      [walk_pagedir] lists with those the processor maps.
    - Start of the kernel: after the drivers' initialisation the heap holds their
      blocks, their interrupt lines are open, the cache is a list of free
      buffers; the page allocator passes its own test.
    - Address translation: mapping, unmapping and translating agree with the
      two-level walk and leave other pages alone; new address spaces map the
      kernel's window; boot leaves a heap that [malloc]'s contract applies to.
    - Concurrency: mutual exclusion and progress of the lock for any number of
      processors and any interleaving; processors counted exactly at their
      start, and started in full before any announces itself, without getting
      stuck as long as no two were given one stack; nesting of interrupt
      disabling.
    - Disk and files: requests are queued and completed in order; the cache
      keeps one buffer per block; files are read block by block; a file that
      was created is found and read back; paths resolve name by name.
    - Programs: segments are loaded where the file says, with a heap page; the
      break grows by fresh pages, the system call leaving the rest of the kernel
      alone; a fault at the top of the kernel heap is repaired.
    - Assembler: termination on every line; the bytes of register, immediate and
      jump instructions; labels; which table rows can never be selected.
    - Console: cursor and memory bounds; what strings and formats show; the
      formatters of the kernel and of the user library.
    - Floating point: the digits and decimals [ftoa] writes, exact for numbers
      n/2^k with n < 2^53 and k <= 49.
    - Round trips: printing and reading numbers, stream write and read, port
      block transfers, page and block reuse, label definition and use, file
      creation and reading.
    - Error behaviour: exhausted heap, prefix comparison, offsets of the clock,
      tables and lists that are never passed.

    ** Bounds and fuel

    Loops that end at a terminator take as fuel one more than the number of
    bytes memory holds ([strfuel]): a string without terminator would need more
    non-zero bytes than there are.  Linked lists take the number of buffers or
    of nodes.  Token loops take the length of the line, as each token moves
    forward; [pathize] takes [strfuel] of the path.  Directory walks take the
    size of the directory, as every record has a length; an entry of length 0
    runs out of fuel where the C code loops for ever, and so do the table walk
    of Acpi and the search for room in Ext2Touch (1025 steps for 1024 bytes).
    Functions that would go on for ever in C (a format with an unknown
    conversion, [itoa] in base 8 of a long number) return [None] or [Spin];
    theorems that state a result prove that the fuel suffices.  The [goto] in
    [find_best_free] is bounded by the memory's cells times the table.  File
    contents are proved for files of direct blocks (12 read, 11 written), where
    the code's use of the indirect block is right.

    ** Not modelled

    Entry code in assembly other than the tables of start.s and the lock
    primitives: the interrupt stubs, the first instructions of the other
    processors, the jump to user mode and the code after it.  The run of Start
    is one in which no interrupt arrives, and it ends at the buffer cache: what
    follows in [kernel_initialize] (kernel symbols, ACPI, the other processors)
    is modelled in Elf, Path, Acpi, Apic and Sched and not joined to it.
    Headers that only declare (kernel/include/limits.h, string.h, prototypes),
    and constants no code uses.  [find_and_allocate] of pmm_test.c is not a valid
    C function.  Floating-point results are proved where every operation is
    exact; the model of the operations rounds as binary64 does elsewhere.
    Time between port accesses and the devices' own state are not modelled: the
    bytes a driver reads are arguments, the bytes it writes a trace, and in Ports
    the bus is an arbitrary instance of [IoBus].  Waiting loops on a status byte
    are left out of Ide and of the device set-up where nothing depends on the
    answer.  [assert] and [panic] only print in this kernel; the lines they and
    the loader print are left out.  In Trap and Start a printed line has its
    effect on the heap and is recorded, and what it does to the screen is in
    Console.  Ext2 reads blocks where [BlockCache] puts them: a read that is still
    pending, and the reuse of a buffer, are in Ide and not joined to it.  The
    assembler's output buffer has no end in the model; the code's has 129
    bytes. *)

From stdpp Require Import base numbers list gmap.
From Stdlib Require Import ZArith Lia Btauto.
Open Scope Z_scope.

(** ** Machine integers

    A C integer of width [w] is a [Z]; the wrap-around of the unsigned types
    and the two's-complement reading of [int] are written out. *)

Definition u8 (z : Z) : Z := z mod 0x100.
Definition u16 (z : Z) : Z := z mod 0x10000.
Definition u32 (z : Z) : Z := z mod 0x100000000.
Definition s32 (z : Z) : Z := (z + 0x80000000) mod 0x100000000 - 0x80000000.
Definition s8 (z : Z) : Z := (z + 0x80) mod 0x100 - 0x80.

(** Bitwise complement of a [uint32_t]. *)
Definition not32 (z : Z) : Z := Z.lxor (u32 z) 0xFFFFFFFF.

Declare Scope c_scope.
Delimit Scope c_scope with C.
Notation "x .& y" := (Z.land x y) (at level 40, left associativity) : c_scope.
Notation "x .| y" := (Z.lor x y) (at level 50, left associativity) : c_scope.
Notation "x .<< y" := (Z.shiftl x y) (at level 34, left associativity) : c_scope.
Notation "x .>> y" := (Z.shiftr x y) (at level 34, left associativity) : c_scope.
Open Scope c_scope.

Create HintDb cint.
Create Rewrite HintDb bits.
Create Rewrite HintDb cint.

Lemma u8_range z : 0 <= u8 z < 0x100.
Proof. apply Z.mod_pos_bound; lia. Qed.

Lemma u16_range z : 0 <= u16 z < 0x10000.
Proof. apply Z.mod_pos_bound; lia. Qed.

Lemma u32_range z : 0 <= u32 z < 0x100000000.
Proof. apply Z.mod_pos_bound; lia. Qed.

Lemma s32_range z : -0x80000000 <= s32 z < 0x80000000.
Proof. unfold s32. pose proof (Z.mod_pos_bound (z + 0x80000000) 0x100000000). lia. Qed.

Lemma u8_small z : 0 <= z < 0x100 -> u8 z = z.
Proof. apply Z.mod_small. Qed.

Lemma u16_small z : 0 <= z < 0x10000 -> u16 z = z.
Proof. apply Z.mod_small. Qed.

Lemma u32_small z : 0 <= z < 0x100000000 -> u32 z = z.
Proof. apply Z.mod_small. Qed.

Lemma s32_small z : -0x80000000 <= z < 0x80000000 -> s32 z = z.
Proof. intros. unfold s32. rewrite Z.mod_small; lia. Qed.

Lemma u8_idemp z : u8 (u8 z) = u8 z.
Proof. apply u8_small, u8_range. Qed.

Lemma u32_idemp z : u32 (u32 z) = u32 z.
Proof. apply u32_small, u32_range. Qed.

Lemma u32_add_l a b : u32 (u32 a + b) = u32 (a + b).
Proof. apply Zplus_mod_idemp_l. Qed.

Lemma u32_add_r a b : u32 (a + u32 b) = u32 (a + b).
Proof. apply Zplus_mod_idemp_r. Qed.

#[export] Hint Rewrite u8_idemp u32_idemp u32_add_l u32_add_r : cint.
#[export] Hint Resolve u8_range u16_range u32_range s32_range : cint.

(** [csimp] removes the wrap-around of values known to fit their width. *)
Ltac csimp :=
  repeat match goal with
  | |- context [u8 ?z] => rewrite (u8_small z) by lia
  | |- context [u16 ?z] => rewrite (u16_small z) by lia
  | |- context [u32 ?z] => rewrite (u32_small z) by lia
  | |- context [s32 ?z] => rewrite (s32_small z) by lia
  end.

(** Make the ranges of every wrapped value visible to [lia]. *)
Ltac cranges :=
  repeat match goal with
  | |- context [u8 ?z] => lazymatch goal with
      | H : 0 <= u8 z < _ |- _ => fail | _ => pose proof (u8_range z) end
  | |- context [u32 ?z] => lazymatch goal with
      | H : 0 <= u32 z < _ |- _ => fail | _ => pose proof (u32_range z) end
  | H' : context [u32 ?z] |- _ => lazymatch goal with
      | H : 0 <= u32 z < _ |- _ => fail | _ => pose proof (u32_range z) end
  end.

(** Case analysis on the boolean tests that the C conditions become. *)
Ltac bcase :=
  match goal with
  | |- context [Z.eqb ?a ?b] => destruct (Z.eqb_spec a b)
  | |- context [Z.ltb ?a ?b] => destruct (Z.ltb_spec a b)
  | |- context [Z.leb ?a ?b] => destruct (Z.leb_spec a b)
  | |- context [Z.gtb ?a ?b] => rewrite (Z.gtb_ltb a b)
  | |- context [Z.geb ?a ?b] => rewrite (Z.geb_leb a b)
  end.
Ltac bsimp := repeat (bcase; simpl; try lia).

(** ** Bits of machine words *)

Lemma testbit_u32 z i : 0 <= i -> Z.testbit (u32 z) i = (i <? 32) && Z.testbit z i.
Proof.
  intros Hi. unfold u32. change 0x100000000 with (2 ^ 32).
  destruct (Z.ltb_spec i 32); simpl.
  - apply Z.mod_pow2_bits_low; lia.
  - apply Z.mod_pow2_bits_high; lia.
Qed.

Lemma testbit_high z w i : 0 <= z < 2 ^ w -> 0 <= w <= i -> Z.testbit z i = false.
Proof.
  intros Hz Hi. rewrite <- (Z.mod_small z (2 ^ w)) by lia.
  apply Z.mod_pow2_bits_high; lia.
Qed.

Lemma testbit_ones n i : 0 <= n -> 0 <= i -> Z.testbit (Z.ones n) i = (i <? n).
Proof.
  intros. destruct (Z.ltb_spec i n).
  - apply Z.ones_spec_low; lia.
  - apply Z.ones_spec_high; lia.
Qed.

Lemma testbit_one_shift k i : 0 <= k -> 0 <= i -> Z.testbit (1 .<< k) i = (i =? k).
Proof.
  intros. rewrite Z.shiftl_1_l, Z.pow2_bits_eqb by lia. apply Z.eqb_sym.
Qed.

Lemma testbit_not32 z i : 0 <= i -> Z.testbit (not32 z) i = (i <? 32) && negb (Z.testbit z i).
Proof.
  intros. unfold not32. rewrite Z.lxor_spec, testbit_u32 by lia.
  change 0xFFFFFFFF with (Z.ones 32). rewrite testbit_ones by lia.
  destruct (i <? 32), (Z.testbit z i); reflexivity.
Qed.

#[export] Hint Rewrite Z.land_spec Z.lor_spec Z.lxor_spec Z.bits_0 : bits.
#[export] Hint Rewrite testbit_u32 testbit_not32 testbit_ones testbit_one_shift
  Z.shiftr_spec using lia : bits.

(** Equality of words bit by bit. *)
Ltac bitwise i :=
  apply Z.bits_inj'; intros i ?; autorewrite with bits.

Lemma u32_bits_bound z : (forall i, 32 <= i -> Z.testbit z i = false) -> 0 <= z -> z < 2 ^ 32.
Proof.
  intros Hb Hz. destruct (Z.eq_dec z 0) as [->|]; [lia|].
  apply Z.log2_lt_pow2; [lia|].
  destruct (Z.lt_ge_cases (Z.log2 z) 32); [assumption|].
  specialize (Hb _ H). rewrite Z.bit_log2 in Hb by lia. discriminate.
Qed.

Lemma lor_u32_bound a b :
  0 <= a < 0x100000000 -> 0 <= b < 0x100000000 -> 0 <= a .| b < 0x100000000.
Proof.
  intros Ha Hb. split; [apply Z.lor_nonneg; lia|].
  apply u32_bits_bound; [|apply Z.lor_nonneg; lia].
  intros i Hi. rewrite Z.lor_spec, (testbit_high a 32), (testbit_high b 32); lia || reflexivity.
Qed.

Lemma land_u32_bound a b : 0 <= a < 0x100000000 -> 0 <= b -> 0 <= a .& b < 0x100000000.
Proof.
  intros Ha Hb. split; [apply Z.land_nonneg; lia|].
  apply u32_bits_bound; [|apply Z.land_nonneg; lia].
  intros i Hi. rewrite Z.land_spec, (testbit_high a 32); lia || reflexivity.
Qed.

Lemma not32_range z : 0 <= not32 z < 0x100000000.
Proof.
  assert (0 <= not32 z) by (apply Z.lxor_nonneg; pose proof (u32_range z); lia).
  split; [assumption|]. apply u32_bits_bound; [|assumption].
  intros i Hi. rewrite testbit_not32 by lia. destruct (Z.ltb_spec i 32); [lia|reflexivity].
Qed.

(** Masking the low [k] bits away rounds down to a multiple of [2^k]. *)
Lemma land_not_ones k a :
  0 <= k <= 32 -> 0 <= a < 0x100000000 -> a .& not32 (Z.ones k) = a - a mod 2 ^ k.
Proof.
  intros Hk Ha.
  transitivity (Z.ldiff a (Z.ones k)).
  - bitwise i. rewrite Z.ldiff_spec.
    destruct (Z.ltb_spec i 32); simpl.
    + rewrite testbit_ones by lia. btauto.
    + rewrite (testbit_high a 32) by lia. reflexivity.
  - rewrite Z.ldiff_ones_r by lia.
    rewrite Z.shiftl_mul_pow2, Z.shiftr_div_pow2 by lia.
    pose proof (Z.div_mod a (2 ^ k)). lia.
Qed.

Lemma land_ones_mod k a : 0 <= k -> a .& Z.ones k = a mod 2 ^ k.
Proof. apply Z.land_ones. Qed.

(** A value aligned to [2^k] and flags below [2^k] occupy different bits. *)
Lemma lor_disjoint_add k a f : 0 <= k -> a mod 2 ^ k = 0 -> 0 <= f < 2 ^ k -> a .| f = a + f.
Proof.
  intros Hk Ha Hf. symmetry. apply Z.add_nocarry_lor.
  bitwise i.
  destruct (Z.lt_ge_cases i k).
  - replace (Z.testbit a i) with false; [reflexivity|].
    rewrite <- (Z.mod_pow2_bits_low a k i), Ha, Z.bits_0 by lia. reflexivity.
  - rewrite (testbit_high f k) by lia. apply andb_false_r.
Qed.

(** ** Counted loops

    [for_up n i f s] runs [s = f(i, s)] for [n] consecutive values of the
    counter starting at [i]; [find_up n i p] is the scan with an early return
    at the first counter value that satisfies [p]. *)

Fixpoint for_up {S : Type} (n : nat) (i : Z) (f : Z -> S -> S) (s : S) : S :=
  match n with
  | O => s
  | S n' => for_up n' (i + 1) f (f i s)
  end.

Fixpoint find_up (n : nat) (i : Z) (p : Z -> bool) : option Z :=
  match n with
  | O => None
  | S n' => if p i then Some i else find_up n' (i + 1) p
  end.

(** The loop rule: an invariant indexed by the counter. *)
Lemma for_up_inv {S : Type} (P : Z -> S -> Prop) n i f s :
  P i s ->
  (forall j t, i <= j < i + Z.of_nat n -> P j t -> P (j + 1) (f j t)) ->
  P (i + Z.of_nat n) (for_up n i f s).
Proof.
  revert i s. induction n as [|n IH]; intros i s H0 Hstep; simpl for_up.
  - replace (i + Z.of_nat 0) with i by lia. exact H0.
  - replace (i + Z.of_nat (Datatypes.S n)) with (i + 1 + Z.of_nat n) by lia.
    apply IH.
    + apply Hstep; [lia|exact H0].
    + intros j t Hj. apply Hstep. lia.
Qed.

Lemma for_up_split {S : Type} n1 n2 i (f : Z -> S -> S) s :
  for_up (n1 + n2) i f s = for_up n2 (i + Z.of_nat n1) f (for_up n1 i f s).
Proof.
  revert i s. induction n1 as [|n1 IH]; intros i s; cbn [Nat.add for_up].
  - replace (i + Z.of_nat 0) with i by lia. reflexivity.
  - rewrite IH. f_equal. lia.
Qed.

Lemma for_up_snoc {S : Type} n i (f : Z -> S -> S) s :
  for_up (Datatypes.S n) i f s = f (i + Z.of_nat n) (for_up n i f s).
Proof.
  replace (Datatypes.S n) with (n + 1)%nat by lia. rewrite for_up_split. reflexivity.
Qed.

Lemma for_up_ext {S : Type} n i (f g : Z -> S -> S) s :
  (forall j t, i <= j < i + Z.of_nat n -> f j t = g j t) -> for_up n i f s = for_up n i g s.
Proof.
  revert i s. induction n as [|n IH]; intros i s H; simpl; [reflexivity|].
  rewrite H by lia. apply IH. intros; apply H; lia.
Qed.

Lemma find_up_Some n i p r :
  find_up n i p = Some r <->
  (i <= r < i + Z.of_nat n /\ p r = true /\ forall j, i <= j < r -> p j = false).
Proof.
  revert i. induction n as [|n IH]; intros i; simpl find_up.
  - split; [discriminate|intros ((? & ?) & _); lia].
  - destruct (p i) eqn:Hp.
    + split.
      * intros [= <-]. split; [lia|]. split; [assumption|]. intros; lia.
      * intros (Hr & Hpr & Hlt). f_equal.
        destruct (Z.eq_dec i r); [assumption|]. rewrite Hlt in Hp by lia. discriminate.
    + rewrite IH. split; intros (Hr & Hpr & Hlt); (split; [|split; [assumption|]]).
      * lia.
      * intros j Hj. destruct (Z.eq_dec j i) as [->|]; [assumption|apply Hlt; lia].
      * destruct (Z.eq_dec i r) as [->|]; [congruence|lia].
      * intros j Hj. apply Hlt; lia.
Qed.

Lemma find_up_None n i p :
  find_up n i p = None <-> forall j, i <= j < i + Z.of_nat n -> p j = false.
Proof.
  revert i. induction n as [|n IH]; intros i; simpl find_up.
  - split; [intros; lia|reflexivity].
  - destruct (p i) eqn:Hp.
    + split; [discriminate|]. intros H. rewrite H in Hp by lia. discriminate.
    + rewrite IH. split; intros H j Hj.
      * destruct (Z.eq_dec j i) as [->|]; [assumption|apply H; lia].
      * apply H; lia.
Qed.

Lemma find_up_ext n i p q :
  (forall j, i <= j < i + Z.of_nat n -> p j = q j) -> find_up n i p = find_up n i q.
Proof.
  revert i. induction n as [|n IH]; intros i H; simpl; [reflexivity|].
  rewrite H by lia. destruct (q i); [reflexivity|]. apply IH. intros; apply H; lia.
Qed.

(** ** Outcomes of stateful code

    [Ok a s]: the function returned [a] in state [s].  [Spin]: it waits for
    ever (a spinlock that is already held).  [Undef]: the C program uses an
    indeterminate value, so the source gives its behaviour no meaning. *)

Inductive outcome (S A : Type) : Type :=
| Ok (a : A) (s : S)
| Spin
| Undef.
Arguments Ok {S A} a s.
Arguments Spin {S A}.
Arguments Undef {S A}.

Definition M (S A : Type) : Type := S -> outcome S A.

Definition ret {S A : Type} (a : A) : M S A := fun s => Ok a s.
Definition bind {S A B : Type} (c : M S A) (k : A -> M S B) : M S B :=
  fun s => match c s with
           | Ok a s' => k a s'
           | Spin => Spin
           | Undef => Undef
           end.
Definition get {S : Type} : M S S := fun s => Ok s s.
Definition gets {S A : Type} (f : S -> A) : M S A := fun s => Ok (f s) s.
Definition modify {S : Type} (f : S -> S) : M S unit := fun s => Ok tt (f s).

(** A C object that may hold an indeterminate value; using one is undefined. *)
Definition cval := option Z.
Definition use {S : Type} (v : cval) : M S Z :=
  match v with Some z => ret z | None => fun _ => Undef end.

Declare Scope m_scope.
Delimit Scope m_scope with M.
Notation "x <-- c ;; k" := (bind c (fun x => k))
  (at level 62, c at next level, right associativity) : m_scope.
Notation "c ;;; k" := (bind c (fun _ => k)) (at level 62, right associativity) : m_scope.
Open Scope m_scope.

Lemma bind_ret_l {S A B : Type} (a : A) (k : A -> M S B) s : bind (ret a) k s = k a s.
Proof. reflexivity. Qed.

Lemma bind_assoc {S A B C : Type} (c : M S A) (k : A -> M S B) (h : B -> M S C) s :
  bind (bind c k) h s = bind c (fun a => bind (k a) h) s.
Proof. unfold bind. destruct (c s); reflexivity. Qed.

Lemma bind_Ok {S A B : Type} (c : M S A) (k : A -> M S B) s a s' :
  c s = Ok a s' -> bind c k s = k a s'.
Proof. intros H. unfold bind. rewrite H. reflexivity. Qed.

Lemma bind_ext {S A B : Type} (c c' : M S A) (k k' : A -> M S B) s :
  c s = c' s -> (forall a s', c' s = Ok a s' -> k a s' = k' a s') -> bind c k s = bind c' k' s.
Proof. intros E H. unfold bind. rewrite E. destruct (c' s) as [a s'| |]; [apply H|..]; reflexivity. Qed.

Lemma bind_modify {S B : Type} (f : S -> S) (k : unit -> M S B) s : bind (modify f) k s = k tt (f s).
Proof. reflexivity. Qed.

Lemma bind_Ok_inv {S A B : Type} (c : M S A) (k : A -> M S B) s b s'' :
  bind c k s = Ok b s'' -> exists a s', c s = Ok a s' /\ k a s' = Ok b s''.
Proof. unfold bind. destruct (c s); try discriminate. eauto. Qed.

#[export] Hint Rewrite @bind_ret_l : cint.

(** ** Sums over the elements of a list *)

Lemma sum_insert {A : Type} (f : A -> nat) (l : list A) i x y :
  l !! i = Some x -> (sum_list_with f (<[i := y]> l) + f x = sum_list_with f l + f y)%nat.
Proof.
  revert i. induction l as [|z l IH]; intros [|i] H; simplify_eq/=; [lia|]. specialize (IH i H). lia.
Qed.

Lemma sum_at {A : Type} (f : A -> nat) (l : list A) i x : l !! i = Some x -> (f x <= sum_list_with f l)%nat.
Proof. revert i. induction l as [|z l IH]; intros [|i] H; simplify_eq/=; [lia|]. specialize (IH i H). lia. Qed.

Lemma sum_two {A : Type} (f : A -> nat) (l : list A) i j x y :
  i <> j -> l !! i = Some x -> l !! j = Some y -> (f x + f y <= sum_list_with f l)%nat.
Proof.
  revert i j. induction l as [|z l IH]; intros [|i] [|j] Hne Hi Hj; simplify_eq/=.
  - pose proof (sum_at f l j y Hj). lia.
  - pose proof (sum_at f l i x Hi). lia.
  - specialize (IH i j ltac:(congruence) Hi Hj). lia.
Qed.

Lemma Z_to_nat_nonpos z : z <= 0 -> Z.to_nat z = 0%nat.
Proof. lia. Qed.

(** [lia] with the division and modulo operations by constants. *)
Ltac dlia := Z.to_euclidean_division_equations; lia.
