(* ===== verification/Memory.v ===== *)
(** * Byte-addressed memory

    The memory every component works on: a finite map from addresses to bytes
    with default 0, read and written one byte, one 16-bit or one 32-bit
    little-endian word at a time.  [mem_eq] (same bytes everywhere) is the
    equality that matters; every access respects it. *)

From stdpp Require Import base numbers list gmap.
From Stdlib Require Import ZArith Lia Morphisms.
From S2P Require Import Prelude.
Open Scope Z_scope.

Abbreviation mem := (gmap Z Z).

Definition load8 (m : mem) (a : Z) : Z := u8 (default 0 (m !! a)).
Definition store8 (m : mem) (a v : Z) : mem := <[a := u8 v]> m.

Definition load16 (m : mem) (a : Z) : Z := load8 m a + 0x100 * load8 m (a + 1).
Definition store16 (m : mem) (a v : Z) : mem :=
  store8 (store8 m a v) (a + 1) (v .>> 8).

Definition load32 (m : mem) (a : Z) : Z :=
  load8 m a + 0x100 * load8 m (a + 1) + 0x10000 * load8 m (a + 2) + 0x1000000 * load8 m (a + 3).
Definition store32 (m : mem) (a v : Z) : mem :=
  store8 (store8 (store8 (store8 m a v) (a + 1) (v .>> 8)) (a + 2) (v .>> 16)) (a + 3) (v .>> 24).

(** Two memories with the same bytes. *)
Definition mem_eq (m1 m2 : mem) : Prop := forall a, load8 m1 a = load8 m2 a.

(** Memory is unchanged outside [[lo, hi)]. *)
Definition same_outside (lo hi : Z) (m1 m2 : mem) : Prop :=
  forall a, a < lo \/ hi <= a -> load8 m2 a = load8 m1 a.

Create HintDb memory.
Create Rewrite HintDb memory.

Lemma load8_range m a : 0 <= load8 m a < 0x100.
Proof. apply u8_range. Qed.

Lemma load8_store8 m a v b : load8 (store8 m a v) b = if b =? a then u8 v else load8 m b.
Proof.
  unfold load8, store8. destruct (Z.eqb_spec b a) as [->|Hne].
  - rewrite lookup_insert_eq. apply u8_idemp.
  - rewrite lookup_insert_ne by congruence. reflexivity.
Qed.

Lemma load8_store8_eq m a v : load8 (store8 m a v) a = u8 v.
Proof. rewrite load8_store8, Z.eqb_refl. reflexivity. Qed.

Lemma load8_store8_ne m a v b : b <> a -> load8 (store8 m a v) b = load8 m b.
Proof. intros. rewrite load8_store8. destruct (Z.eqb_spec b a); congruence. Qed.

#[export] Hint Rewrite load8_store8_eq : memory.
#[export] Hint Rewrite load8_store8_ne using lia : memory.
#[export] Hint Resolve load8_range : memory.

#[export] Instance mem_eq_equiv : Equivalence mem_eq.
Proof.
  split.
  - intros m a. reflexivity.
  - intros m1 m2 H a. symmetry. apply H.
  - intros m1 m2 m3 H1 H2 a. rewrite H1. apply H2.
Qed.

#[export] Instance load8_proper : Proper (mem_eq ==> eq ==> eq) load8.
Proof. intros m1 m2 H a ? <-. apply H. Qed.

#[export] Instance store8_proper : Proper (mem_eq ==> eq ==> eq ==> mem_eq) store8.
Proof. intros m1 m2 H a ? <- v ? <- b. rewrite !load8_store8, H. reflexivity. Qed.

#[export] Instance load32_proper : Proper (mem_eq ==> eq ==> eq) load32.
Proof. intros m1 m2 H a ? <-. unfold load32. rewrite !H. reflexivity. Qed.

#[export] Instance store32_proper : Proper (mem_eq ==> eq ==> eq ==> mem_eq) store32.
Proof. intros m1 m2 H a ? <- v ? <-. unfold store32. rewrite H. reflexivity. Qed.

Lemma load32_range m a : 0 <= load32 m a < 0x100000000.
Proof.
  unfold load32.
  pose proof (load8_range m a). pose proof (load8_range m (a + 1)).
  pose proof (load8_range m (a + 2)). pose proof (load8_range m (a + 3)). lia.
Qed.

Lemma u32_load32 m a : u32 (load32 m a) = load32 m a.
Proof. apply u32_small, load32_range. Qed.

(** The four bytes of a word determine it. *)
Lemma u8_split32 v :
  u8 v + 0x100 * u8 (v .>> 8) + 0x10000 * u8 (v .>> 16) + 0x1000000 * u8 (v .>> 24) = u32 v.
Proof.
  unfold u8, u32. rewrite !Z.shiftr_div_pow2 by lia.
  change (2 ^ 8) with 256. change (2 ^ 16) with 65536. change (2 ^ 24) with 16777216.
  Z.to_euclidean_division_equations. lia.
Qed.

Lemma load32_store32_eq m a v : load32 (store32 m a v) a = u32 v.
Proof.
  unfold load32, store32. autorewrite with memory. apply u8_split32.
Qed.

Lemma load8_store32_ne m a v b : b < a \/ a + 4 <= b -> load8 (store32 m a v) b = load8 m b.
Proof. intros. unfold store32. autorewrite with memory. reflexivity. Qed.

Lemma load32_store8_ne m a v b : a < b \/ b + 4 <= a -> load32 (store8 m a v) b = load32 m b.
Proof. intros. unfold load32. autorewrite with memory. reflexivity. Qed.

Lemma load32_store32_ne m a v b : b + 4 <= a \/ a + 4 <= b -> load32 (store32 m a v) b = load32 m b.
Proof.
  intros. unfold load32. rewrite !load8_store32_ne by lia. reflexivity.
Qed.

Lemma load16_store16_eq m a v : load16 (store16 m a v) a = u16 v.
Proof.
  unfold load16, store16. autorewrite with memory. unfold u8, u16. rewrite Z.shiftr_div_pow2 by lia.
  change (2 ^ 8) with 256. Z.to_euclidean_division_equations. lia.
Qed.

Lemma load16_store16_ne m a v b : b + 2 <= a \/ a + 2 <= b -> load16 (store16 m a v) b = load16 m b.
Proof. intros. unfold load16, store16. autorewrite with memory. reflexivity. Qed.

#[export] Hint Rewrite load32_store32_eq u32_load32 load16_store16_eq : memory.
#[export] Hint Rewrite load32_store32_ne load8_store32_ne load32_store8_ne using lia : memory.
#[export] Hint Resolve load32_range : memory.

Lemma load32_ext m1 m2 a :
  (forall i, 0 <= i < 4 -> load8 m1 (a + i) = load8 m2 (a + i)) -> load32 m1 a = load32 m2 a.
Proof.
  intros H. unfold load32.
  rewrite <- (H 1), <- (H 2), <- (H 3) by lia.
  replace a with (a + 0) at 1 5 by lia. rewrite <- (H 0) by lia. reflexivity.
Qed.

Lemma store32_same_outside m a v : same_outside a (a + 4) m (store32 m a v).
Proof. intros b Hb. apply load8_store32_ne. lia. Qed.

Lemma same_outside_trans lo hi m1 m2 m3 :
  same_outside lo hi m1 m2 -> same_outside lo hi m2 m3 -> same_outside lo hi m1 m3.
Proof. intros H1 H2 a Ha. rewrite H2 by assumption. apply H1; assumption. Qed.

Lemma same_outside_weaken lo hi lo' hi' m1 m2 :
  lo' <= lo -> hi <= hi' -> same_outside lo hi m1 m2 -> same_outside lo' hi' m1 m2.
Proof. intros ? ? H a Ha. apply H. lia. Qed.

Lemma same_outside_refl lo hi m : same_outside lo hi m m.
Proof. intros a _. reflexivity. Qed.

Lemma same_outside_load32 lo hi m1 m2 a :
  same_outside lo hi m1 m2 -> a + 4 <= lo \/ hi <= a -> load32 m2 a = load32 m1 a.
Proof. intros H Ha. apply load32_ext. intros i Hi. apply H. lia. Qed.

#[export] Hint Resolve same_outside_refl store32_same_outside : memory.

(** The bytes [[a, a+n)] as a list. *)
Definition bytes_at (m : mem) (a : Z) (n : nat) : list Z := (fun i : nat => load8 m (a + Z.of_nat i)) <$> seq 0 n.

Lemma bytes_at_length m a n : length (bytes_at m a n) = n.
Proof. unfold bytes_at. rewrite length_fmap, length_seq. reflexivity. Qed.

Lemma bytes_at_lookup m a n i :
  (i < n)%nat -> bytes_at m a n !! i = Some (load8 m (a + Z.of_nat i)).
Proof. intros. unfold bytes_at. rewrite list_lookup_fmap, lookup_seq_lt by lia. reflexivity. Qed.

Lemma bytes_at_eq m1 a1 m2 a2 n :
  bytes_at m1 a1 n = bytes_at m2 a2 n <->
  forall i, 0 <= i < Z.of_nat n -> load8 m1 (a1 + i) = load8 m2 (a2 + i).
Proof.
  split.
  - intros H i Hi.
    assert (Hl : bytes_at m1 a1 n !! Z.to_nat i = bytes_at m2 a2 n !! Z.to_nat i) by (rewrite H; reflexivity).
    rewrite !bytes_at_lookup in Hl by lia. rewrite Z2Nat.id in Hl by lia. congruence.
  - intros H. apply list_eq_same_length with n; rewrite ?bytes_at_length; [reflexivity..|].
    intros i x y Hi. rewrite !bytes_at_lookup by lia. intros [= <-] [= <-]. apply H. lia.
Qed.
