(* ===== verification/CString.v ===== *)
(** * kernel/lib/string.c: the kernel's string library

    Every function of the file as a function of the memory it reads and
    writes.  A pointer is an address, NULL is 0.  Loops that stop at the NUL
    terminator run with the fuel [strfuel], which [strfuel_enough] shows to be
    enough for every memory and every address. *)

From stdpp Require Import base numbers list gmap.
From Stdlib Require Import ZArith Lia.
From S2P Require Import Prelude Memory.
Open Scope Z_scope.

Definition NULL : Z := 0.

(** A run of non-NUL bytes occupies distinct cells of the finite map. *)
Definition strfuel (m : mem) : nat := S (size m).

(** A [char] of memory; plain [char] is signed on i686. *)
Definition char_at (m : mem) (a : Z) : Z := s8 (load8 m a).

Fixpoint strlen_loop (fuel : nat) (m : mem) (s i : Z) : Z :=
  match fuel with
  | O => i
  | S f => if load8 m s =? 0 then i else strlen_loop f m (s + 1) (i + 1)
  end.
Definition strlen (m : mem) (s : Z) : Z := strlen_loop (strfuel m) m s 0.

Fixpoint strncat_loop (k : nat) (m : mem) (dst source i : Z) : mem * Z :=
  match k with
  | O => (m, i)
  | S k' => let c := load8 m (source + i) in
            if c =? 0 then (m, i) else strncat_loop k' (store8 m (dst + i) c) dst source (i + 1)
  end.
Definition strncat (m : mem) (destination source n : Z) : mem * Z :=
  let length := strlen m destination in
  let '(m1, i) := strncat_loop (Z.to_nat n) m (destination + length) source 0 in
  (store8 m1 (destination + length + i) 0, destination).

Definition strcat (m : mem) (destination source : Z) : mem * Z :=
  strncat m destination source (strlen m source).

(** [n] is a [uint16_t]: the argument is truncated by the call. *)
Definition strncpy (m : mem) (dest src n : Z) : mem * Z :=
  let n := u16 n in
  let '(m1, i) := strncat_loop (Z.to_nat n) m dest src 0 in
  (for_up (Z.to_nat (n - i)) i (fun j m => store8 m (dest + j) 0) m1, dest).

Definition strcpy (m : mem) (dest src : Z) : mem * Z := strncpy m dest src (strlen m src).

Definition strncmp (m : mem) (s1 s2 n : Z) : Z :=
  match find_up (Z.to_nat n) 0 (fun i => negb (load8 m (s1 + i) =? load8 m (s2 + i))) with
  | Some i => load8 m (s1 + i) - load8 m (s2 + i)
  | None => 0
  end.

Definition strcmp (m : mem) (s1 s2 : Z) : Z := strncmp m s1 s2 (strlen m s1).

Fixpoint strchr_loop (fuel : nat) (m : mem) (s c : Z) : Z :=
  match fuel with
  | O => NULL
  | S f => if load8 m s =? 0 then NULL
           else if char_at m s =? c then s else strchr_loop f m (s + 1) c
  end.
Definition strchr (m : mem) (s c : Z) : Z := strchr_loop (strfuel m) m s c.

(** [p] is the block [malloc(strlen(s))] returned. *)
Definition strdup (m : mem) (s p : Z) : mem * Z := strcpy m p s.

Definition swap_bytes (a b : Z) (m : mem) : mem :=
  let temp := load8 m a in
  let m1 := store8 m a (load8 m b) in
  store8 m1 b temp.
Definition strrev (m : mem) (s : Z) : mem * Z :=
  let length := strlen m s - 1 in
  (for_up (Z.to_nat (Z.quot length 2 + 1)) 0 (fun i m => swap_bytes (s + i) (s + (length - i)) m) m, s).

Definition memcpy (m : mem) (s1 s2 n : Z) : mem :=
  for_up (Z.to_nat n) 0 (fun i m => store8 m (s1 + i) (load8 m (s2 + i))) m.

Definition memset (m : mem) (s c n : Z) : mem :=
  for_up (Z.to_nat n) 0 (fun i m => store8 m (s + i) c) m.

Definition memsetw (m : mem) (s c n : Z) : mem :=
  for_up (Z.to_nat n) 0 (fun i m => store16 m (s + 2 * i) c) m.

(** [temp] is the block [malloc(n)] returned; [free(temp)] leaves the bytes. *)
Definition memmove (m : mem) (s1 s2 n temp : Z) : mem :=
  memcpy (memcpy m temp s2 n) s1 temp n.

Definition memchr (m : mem) (s c n : Z) : Z :=
  match find_up (Z.to_nat n) 0 (fun i => load8 m (s + i) =? c) with
  | Some i => s + i + 1
  | None => NULL
  end.

Definition memrchr (m : mem) (s c n : Z) : mem * Z :=
  let '(m1, s') := strrev m s in
  strrev m1 (memchr m1 s' c n).

(** The loop tests [*s1 == *s2 && n--]: the bytes at the final pointers are compared. *)
Definition memcmp (m : mem) (s1 s2 n : Z) : Z :=
  match find_up (Z.to_nat n) 0 (fun i => negb (load8 m (s1 + i) =? load8 m (s2 + i))) with
  | Some i => load8 m (s1 + i) - load8 m (s2 + i)
  | None => load8 m (s1 + n) - load8 m (s2 + n)
  end.

Definition in_delim (m : mem) (c delim : Z) : bool :=
  match find_up (Z.to_nat (strlen m delim)) 0 (fun q => c =? char_at m (delim + q)) with
  | Some _ => true
  | None => false
  end.

(** The loop condition is [*s++]: the first character is skipped, the terminator is looked at. *)
Fixpoint strpbrk_loop (fuel : nat) (m : mem) (s delim : Z) : Z :=
  match fuel with
  | O => NULL
  | S f => if load8 m s =? 0 then NULL
           else if in_delim m (char_at m (s + 1)) delim then s + 1
           else strpbrk_loop f m (s + 1) delim
  end.
Definition strpbrk (m : mem) (s delim : Z) : Z := strpbrk_loop (strfuel m) m s delim.

Fixpoint strstr_loop (fuel : nat) (m : mem) (s1 s2 : Z) : Z :=
  match fuel with
  | O => NULL
  | S f => if load8 m s1 =? 0 then NULL
           else if strncmp m (s1 + 1) s2 (strlen m s2) =? 0 then s1 + 1
           else strstr_loop f m (s1 + 1) s2
  end.
Definition strstr (m : mem) (s1 s2 : Z) : Z := strstr_loop (strfuel m) m s1 s2.

Definition strspn (m : mem) (s1 s2 : Z) : Z :=
  match find_up (Z.to_nat (strlen m s1)) 0 (fun i => strchr m s2 (char_at m (s1 + i)) =? NULL) with
  | Some i => i
  | None => strlen m s1
  end.

(** The static variable [ptr] is threaded as the first component. *)
Definition strtok (m : mem) (ptr s delim : Z) : mem * Z * Z :=
  let ptr := if s =? NULL then ptr else s in
  if (ptr =? NULL) && (s =? NULL) then (m, ptr, NULL)
  else
    let ptr := u32 (ptr + strspn m ptr delim) in
    let t := strpbrk m ptr delim in
    if t =? NULL then (m, NULL, ptr) else (store8 m t 0, t + 1, ptr).

(** ** NUL-terminated strings *)

(** The string at [a] has length [n]. *)
Definition str_len (m : mem) (a n : Z) : Prop :=
  0 <= n /\ load8 m (a + n) = 0 /\ forall j, 0 <= j < n -> load8 m (a + j) <> 0.

(** The string at [a] is the list of bytes [s]. *)
Definition cstr (m : mem) (a : Z) (s : list Z) : Prop :=
  bytes_at m a (length s) = s /\ str_len m a (Z.of_nat (length s)).

Lemma nonzero_dom m a : load8 m a <> 0 -> a ∈ dom m.
Proof.
  intros H. apply elem_of_dom. unfold load8 in H.
  destruct (m !! a); [eauto|]. exfalso. apply H. reflexivity.
Qed.

(** Every address starts a string whose length is at most the number of cells. *)
Lemma strfuel_enough m a : exists n, str_len m a n /\ n < Z.of_nat (strfuel m).
Proof.
  destruct (find_up (strfuel m) 0 (fun i => load8 m (a + i) =? 0)) as [n|] eqn:E.
  - apply find_up_Some in E as (Hr & Hz & Hlt). exists n.
    apply Z.eqb_eq in Hz. split; [|lia]. split; [lia|]. split; [assumption|].
    intros j Hj. specialize (Hlt j Hj). lia.
  - exfalso. pose proof (proj1 (find_up_None _ _ _) E) as H. clear E.
    set (l := (fun i => a + Z.of_nat i) <$> seq 0 (strfuel m)).
    assert (Hnd : NoDup l).
    { apply NoDup_fmap_2; [intros x y; lia|apply NoDup_seq]. }
    assert (Hsub : (list_to_set l : gset Z) ⊆ dom m).
    { intros x Hx. apply elem_of_list_to_set in Hx.
      apply list_elem_of_fmap in Hx as (i & -> & Hi). apply elem_of_seq in Hi.
      apply nonzero_dom. specialize (H (Z.of_nat i)). lia. }
    apply subseteq_size in Hsub. rewrite size_list_to_set, size_dom in Hsub by exact Hnd.
    unfold l in Hsub. rewrite length_fmap, length_seq in Hsub. unfold strfuel in Hsub. lia.
Qed.

Lemma str_len_unique m a n1 n2 : str_len m a n1 -> str_len m a n2 -> n1 = n2.
Proof.
  intros (? & Hz1 & Hn1) (? & Hz2 & Hn2).
  destruct (Z.lt_trichotomy n1 n2) as [|[|]]; [|assumption|].
  - specialize (Hn2 n1). lia.
  - specialize (Hn1 n2). lia.
Qed.

Lemma str_len_succ m a n : str_len m a n -> load8 m a <> 0 -> 0 < n /\ str_len m (a + 1) (n - 1).
Proof.
  intros (Hn & Hz & Hlt) Ha.
  assert (n <> 0) by (intros ->; rewrite Z.add_0_r in Hz; congruence).
  split; [lia|]. split; [lia|]. split.
  - replace (a + 1 + (n - 1)) with (a + n) by lia. assumption.
  - intros j Hj. replace (a + 1 + j) with (a + (j + 1)) by lia. apply Hlt. lia.
Qed.

Lemma str_len_0 m a n : str_len m a n -> load8 m a = 0 -> n = 0.
Proof.
  intros H Ha. apply (str_len_unique m a); [assumption|].
  split; [lia|]. rewrite Z.add_0_r. split; [assumption|intros; lia].
Qed.

Lemma strlen_loop_spec fuel m s i n :
  str_len m s n -> n < Z.of_nat fuel -> strlen_loop fuel m s i = i + n.
Proof.
  revert s i n. induction fuel as [|f IH]; intros s i n Hs Hn; [destruct Hs; lia|].
  simpl. destruct (Z.eqb_spec (load8 m s) 0) as [Hz|Hz].
  - rewrite (str_len_0 m s n); [lia|assumption..].
  - apply str_len_succ in Hs as [Hpos Hs]; [|assumption].
    rewrite (IH (s + 1) (i + 1) (n - 1)); [lia|assumption|lia].
Qed.

(** [strlen] always terminates and returns the distance to the first NUL. *)
Lemma strlen_str_len m s : str_len m s (strlen m s).
Proof.
  destruct (strfuel_enough m s) as (n & Hn & Hlt). unfold strlen.
  rewrite (strlen_loop_spec _ _ _ _ n) by assumption. exact Hn.
Qed.

Lemma strlen_eq m s n : str_len m s n -> strlen m s = n.
Proof. intros H. apply (str_len_unique m s); [apply strlen_str_len|assumption]. Qed.

Lemma strlen_nonneg m s : 0 <= strlen m s.
Proof. apply strlen_str_len. Qed.

Lemma strlen_cstr m s l : cstr m s l -> strlen m s = Z.of_nat (length l).
Proof. intros [_ H]. apply strlen_eq, H. Qed.

Lemma cstr_exists m s : cstr m s (bytes_at m s (Z.to_nat (strlen m s))).
Proof.
  unfold cstr. rewrite bytes_at_length. split; [reflexivity|].
  rewrite Z2Nat.id by apply strlen_nonneg. apply strlen_str_len.
Qed.

Lemma cstr_unique m s l1 l2 : cstr m s l1 -> cstr m s l2 -> l1 = l2.
Proof.
  intros [E1 H1] [E2 H2]. pose proof (str_len_unique _ _ _ _ H1 H2) as E.
  apply Nat2Z.inj in E. congruence.
Qed.

Lemma cstr_lookup m s l i :
  cstr m s l -> 0 <= i < Z.of_nat (length l) -> l !! Z.to_nat i = Some (load8 m (s + i)).
Proof.
  intros [E _] Hi. rewrite <- E. rewrite bytes_at_lookup by lia. rewrite Z2Nat.id by lia. reflexivity.
Qed.

(** Criterion: a list of non-NUL bytes and a terminator in place. *)
Lemma cstr_intro m s l :
  (forall i, 0 <= i < Z.of_nat (length l) ->
     exists x, l !! Z.to_nat i = Some x /\ load8 m (s + i) = x /\ x <> 0) ->
  load8 m (s + Z.of_nat (length l)) = 0 -> cstr m s l.
Proof.
  intros H Hz. split.
  - apply list_eq_same_length with (length l); rewrite ?bytes_at_length; [reflexivity..|].
    intros i x y Hi. rewrite bytes_at_lookup by assumption. intros [= <-] Hy.
    destruct (H (Z.of_nat i)) as (z & Hz1 & Hz2 & _); [lia|]. rewrite Nat2Z.id in Hz1. congruence.
  - split; [lia|]. split; [assumption|]. intros j Hj. destruct (H j Hj) as (x & _ & -> & ?). assumption.
Qed.

(** Strings of memories that agree on the string's own bytes. *)
Lemma cstr_frame m1 m2 s l :
  cstr m1 s l -> (forall i, 0 <= i <= Z.of_nat (length l) -> load8 m2 (s + i) = load8 m1 (s + i)) ->
  cstr m2 s l.
Proof.
  intros Hc H. pose proof Hc as [_ (_ & Hz & Hnz)]. apply cstr_intro.
  - intros i Hi. eexists. split; [eapply cstr_lookup; eassumption|].
    rewrite H by lia. split; [reflexivity|apply Hnz; lia].
  - rewrite H by lia. assumption.
Qed.

(** ** Block operations *)

Lemma load8_memset m s c n b :
  load8 (memset m s c n) b = if (s <=? b) && (b <? s + n) then u8 c else load8 m b.
Proof.
  unfold memset.
  pose proof (for_up_inv (fun i m' => forall b, load8 m' b =
    if (s <=? b) && (b <? s + i) then u8 c else load8 m b) (Z.to_nat n) 0
    (fun i m => store8 m (s + i) c) m) as L. simpl in L.
  destruct (Z.lt_ge_cases n 0).
  - rewrite (Z_to_nat_nonpos n) by lia. simpl. bsimp; reflexivity.
  - rewrite Z2Nat.id in L by lia. apply L; clear L b.
    + intros b. bsimp; reflexivity.
    + intros j t Hj IH b. rewrite load8_store8, IH. bsimp; reflexivity.
Qed.

(** The forward copy is right when the regions are disjoint or the
    destination starts below the source. *)
Lemma load8_memcpy m d s n b :
  d <= s \/ s + n <= d ->
  load8 (memcpy m d s n) b = if (d <=? b) && (b <? d + n) then load8 m (s + (b - d)) else load8 m b.
Proof.
  intros Hov. unfold memcpy.
  pose proof (for_up_inv (fun i m' => forall b, load8 m' b =
    if (d <=? b) && (b <? d + i) then load8 m (s + (b - d)) else load8 m b) (Z.to_nat n) 0
    (fun i m => store8 m (d + i) (load8 m (s + i))) m) as L. simpl in L.
  destruct (Z.lt_ge_cases n 0).
  - rewrite (Z_to_nat_nonpos n) by lia. simpl. bsimp; reflexivity.
  - rewrite Z2Nat.id in L by lia. apply L; clear L b.
    + intros b. bsimp; reflexivity.
    + intros j t Hj IH b. rewrite load8_store8, !IH.
      bcase; [subst b|].
      * rewrite u8_small by (bsimp; apply load8_range).
        bsimp; f_equal; lia.
      * bsimp; reflexivity.
Qed.

Lemma memset_same_outside m s c n : same_outside s (s + n) m (memset m s c n).
Proof. intros b Hb. rewrite load8_memset. bsimp; reflexivity. Qed.

Lemma memcpy_same_outside m d s n : same_outside d (d + n) m (memcpy m d s n).
Proof.
  unfold memcpy. intros b Hb.
  destruct (Z.lt_ge_cases n 0).
  - rewrite (Z_to_nat_nonpos n) by lia. reflexivity.
  - apply (for_up_inv (fun _ t => load8 t b = load8 m b)); [reflexivity|].
    intros j t Hj <-. apply load8_store8_ne. lia.
Qed.

Lemma load32_memset_0 m s n b :
  s <= b -> b + 4 <= s + n -> load32 (memset m s 0 n) b = 0.
Proof.
  intros. unfold load32. rewrite !load8_memset. bsimp; reflexivity.
Qed.

#[export] Hint Resolve memset_same_outside memcpy_same_outside : memory.

(** [memcpy] moves the bytes and nothing else. *)
Lemma memcpy_bytes m d s n :
  0 <= n -> d <= s \/ s + n <= d ->
  bytes_at (memcpy m d s n) d (Z.to_nat n) = bytes_at m s (Z.to_nat n).
Proof.
  intros Hn Hov. apply bytes_at_eq. intros i Hi. rewrite load8_memcpy by assumption.
  bsimp. f_equal. lia.
Qed.

(** [memmove] goes through a temporary block and so handles any overlap. *)
Lemma memmove_bytes m s1 s2 n temp :
  0 <= n -> (temp + n <= s2 \/ s2 + n <= temp) -> (temp + n <= s1 \/ s1 + n <= temp) ->
  bytes_at (memmove m s1 s2 n temp) s1 (Z.to_nat n) = bytes_at m s2 (Z.to_nat n) /\
  forall b, b < s1 \/ s1 + n <= b -> b < temp \/ temp + n <= b ->
    load8 (memmove m s1 s2 n temp) b = load8 m b.
Proof.
  intros Hn H2 H1. unfold memmove. split.
  - apply bytes_at_eq. intros i Hi. rewrite load8_memcpy by lia.
    destruct (Z.leb_spec s1 (s1 + i)); [|lia]. destruct (Z.ltb_spec (s1 + i) (s1 + n)); [|lia]. simpl.
    rewrite load8_memcpy by lia. bsimp. f_equal. lia.
  - intros b Hb Ht. rewrite memcpy_same_outside by assumption.
    apply memcpy_same_outside. assumption.
Qed.

(** ** Copying up to the terminator *)

Lemma strncat_loop_spec k m dst src i ns :
  str_len m src ns -> 0 <= i <= ns ->
  dst + Z.min (i + Z.of_nat k) ns <= src \/ src + ns < dst + i ->
  let r := Z.min (i + Z.of_nat k) ns in
  exists m', strncat_loop k m dst src i = (m', r) /\
    forall b, load8 m' b = if (dst + i <=? b) && (b <? dst + r) then load8 m (src + (b - dst)) else load8 m b.
Proof.
  revert m i. induction k as [|k IH]; intros m i Hs Hi Hd; cbn [strncat_loop].
  - exists m. split; [f_equal; lia|]. intros b. bsimp; reflexivity.
  - destruct (Z.eqb_spec (load8 m (src + i)) 0) as [Hz|Hnz].
    + assert (i = ns).
      { destruct (Z.eq_dec i ns); [assumption|].
        destruct Hs as (_ & _ & Hs). exfalso. apply (Hs i); [lia|assumption]. }
      exists m. split; [f_equal; lia|]. intros b. bsimp; reflexivity.
    + assert (i < ns) by (destruct Hs as (? & Hz & _); destruct (Z.eq_dec i ns) as [->|]; [congruence|lia]).
      set (m1 := store8 m (dst + i) (load8 m (src + i))).
      assert (Hs1 : str_len m1 src ns).
      { destruct Hs as (Hn & Hz & Hlt). unfold m1. split; [assumption|]. split.
        - rewrite load8_store8_ne by lia. assumption.
        - intros j Hj. rewrite load8_store8_ne by lia. apply Hlt. assumption. }
      destruct (IH m1 (i + 1)) as (m' & E & H'); [assumption|lia|lia|].
      exists m'. split; [rewrite E; f_equal; lia|]. intros b. rewrite H'. unfold m1.
      destruct (Z.eq_dec b (dst + i)) as [->|].
      * autorewrite with memory. rewrite u8_small by apply load8_range.
        bsimp; f_equal; lia.
      * rewrite (load8_store8_ne _ _ _ b) by assumption.
        bsimp; try reflexivity; apply load8_store8_ne; lia.
Qed.

Lemma strcat_cstr m d src s1 s2 :
  cstr m d s1 -> cstr m src s2 ->
  d + Z.of_nat (length s1 + length s2) < src \/ src + Z.of_nat (length s2) < d + Z.of_nat (length s1) ->
  let '(m', r) := strcat m d src in
  r = d /\ cstr m' d (s1 ++ s2) /\
  same_outside (d + Z.of_nat (length s1)) (d + Z.of_nat (length s1 + length s2) + 1) m m'.
Proof.
  intros H1 H2 Hd. unfold strcat, strncat.
  rewrite (strlen_cstr _ _ _ H1), (strlen_cstr _ _ _ H2).
  set (n1 := length s1) in *. set (n2 := length s2) in *.
  destruct (strncat_loop_spec (Z.to_nat (Z.of_nat n2)) m (d + Z.of_nat n1) src 0 (Z.of_nat n2))
    as (m' & E & H'); [apply H2|lia|lia|]. rewrite E. clear E.
  replace (Z.min (0 + Z.of_nat (Z.to_nat (Z.of_nat n2))) (Z.of_nat n2)) with (Z.of_nat n2) in * by lia.
  split; [reflexivity|]. split.
  - pose proof H1 as [_ (_ & _ & Hn1)]. pose proof H2 as [_ (_ & _ & Hn2)].
    apply cstr_intro; rewrite length_app.
    + intros i Hi. rewrite load8_store8_ne, H' by lia.
      destruct (Z.lt_ge_cases i (Z.of_nat n1)).
      * exists (load8 m (d + i)). rewrite lookup_app_l by lia.
        split; [eapply cstr_lookup; [eassumption|lia]|]. split; [bsimp; reflexivity|apply Hn1; lia].
      * exists (load8 m (src + (i - Z.of_nat n1))). rewrite lookup_app_r by lia.
        replace (Z.to_nat i - length s1)%nat with (Z.to_nat (i - Z.of_nat n1)) by lia.
        split; [eapply cstr_lookup; [eassumption|lia]|].
        split; [bsimp; f_equal; lia|apply Hn2; lia].
    + replace (d + Z.of_nat (length s1 + length s2)) with (d + Z.of_nat n1 + Z.of_nat n2) by lia.
      autorewrite with memory. reflexivity.
  - intros b Hb. rewrite load8_store8_ne, H' by lia. bsimp; reflexivity.
Qed.

(** [strcpy] copies the characters and stops: the byte after them is not written. *)
Lemma strcpy_bytes m d src s :
  cstr m src s -> Z.of_nat (length s) < 0x10000 ->
  d + Z.of_nat (length s) <= src \/ src + Z.of_nat (length s) < d ->
  let '(m', r) := strcpy m d src in
  r = d /\ bytes_at m' d (length s) = s /\ same_outside d (d + Z.of_nat (length s)) m m'.
Proof.
  intros Hs Hn Hd. unfold strcpy, strncpy. rewrite (strlen_cstr _ _ _ Hs), u16_small by lia.
  destruct (strncat_loop_spec (Z.to_nat (Z.of_nat (length s))) m d src 0 (Z.of_nat (length s)))
    as (m' & E & H'); [apply Hs|lia|lia|]. rewrite E. clear E.
  replace (Z.min (0 + Z.of_nat (Z.to_nat (Z.of_nat (length s)))) (Z.of_nat (length s)))
    with (Z.of_nat (length s)) in * by lia.
  rewrite Z.sub_diag. simpl. split; [reflexivity|]. split.
  - rewrite <- (proj1 Hs) at 2. apply bytes_at_eq. intros i Hi. rewrite H'. bsimp. f_equal. lia.
  - intros b Hb. rewrite H'. bsimp; reflexivity.
Qed.

(** ** Comparison *)

Lemma strncmp_0 m p1 p2 n :
  strncmp m p1 p2 n = 0 <-> forall i, 0 <= i < n -> load8 m (p1 + i) = load8 m (p2 + i).
Proof.
  unfold strncmp. destruct (find_up _ _ _) as [r|] eqn:E.
  - apply find_up_Some in E as (Hr & Hp & _). apply negb_true_iff in Hp.
    apply Z.eqb_neq in Hp. split; [lia|]. intros H. specialize (H r). lia.
  - pose proof (proj1 (find_up_None _ _ _) E) as H. split; [|reflexivity]. intros _ i Hi.
    specialize (H i). rewrite negb_false_iff in H. apply Z.eqb_eq, H. lia.
Qed.

Lemma cstr_prefix m p1 p2 s1 s2 :
  cstr m p1 s1 -> cstr m p2 s2 ->
  (forall i, 0 <= i < Z.of_nat (length s1) -> load8 m (p1 + i) = load8 m (p2 + i)) <->
  s1 `prefix_of` s2.
Proof.
  intros H1 H2. pose proof H1 as [E1 (_ & _ & Hn1)]. pose proof H2 as [E2 (_ & Hz2 & _)]. split.
  - intros H.
    assert (length s1 <= length s2)%nat.
    { destruct (Nat.le_gt_cases (length s1) (length s2)); [assumption|]. exfalso.
      apply (Hn1 (Z.of_nat (length s2))); [lia|]. rewrite H by lia. assumption. }
    exists (drop (length s1) s2). rewrite <- (take_drop (length s1) s2) at 1. f_equal.
    apply list_eq_same_length with (length s1); rewrite ?length_take; [lia|lia|].
    intros i x y Hi. rewrite lookup_take_lt by lia.
    pose proof (cstr_lookup m p1 s1 (Z.of_nat i) H1) as L1.
    pose proof (cstr_lookup m p2 s2 (Z.of_nat i) H2) as L2.
    rewrite Nat2Z.id in L1, L2. rewrite L1, L2 by lia. intros [= <-] [= <-].
    symmetry. apply H. lia.
  - intros [k ->] i Hi. rewrite length_app in *.
    pose proof (cstr_lookup m p1 s1 i H1 Hi) as L1.
    assert (L2 : (s1 ++ k) !! Z.to_nat i = Some (load8 m (p2 + i)))
      by (apply cstr_lookup; [assumption|rewrite length_app; lia]).
    rewrite lookup_app_l in L2 by lia. congruence.
Qed.

Lemma strcmp_prefix m p1 p2 s1 s2 :
  cstr m p1 s1 -> cstr m p2 s2 -> (strcmp m p1 p2 = 0 <-> s1 `prefix_of` s2).
Proof.
  intros H1 H2. unfold strcmp. rewrite (strlen_cstr _ _ _ H1), strncmp_0.
  apply cstr_prefix; assumption.
Qed.

(** [memcmp] is 0 exactly when the [n] bytes and the one after them agree. *)
Lemma memcmp_0 m p1 p2 n :
  0 <= n -> (memcmp m p1 p2 n = 0 <-> forall i, 0 <= i <= n -> load8 m (p1 + i) = load8 m (p2 + i)).
Proof.
  intros Hn. unfold memcmp. destruct (find_up _ _ _) as [r|] eqn:E.
  - apply find_up_Some in E as (Hr & Hp & _). apply negb_true_iff in Hp.
    apply Z.eqb_neq in Hp. split; [lia|]. intros H. specialize (H r). lia.
  - pose proof (proj1 (find_up_None _ _ _) E) as H. split.
    + intros Hd i Hi. destruct (Z.eq_dec i n) as [->|]; [lia|].
      specialize (H i). rewrite negb_false_iff in H. apply Z.eqb_eq, H. lia.
    + intros Hall. rewrite Hall by lia. lia.
Qed.

(** ** In-place reversal *)

Lemma load8_swap m a b c :
  load8 (swap_bytes a b m) c = if c =? b then load8 m a else if c =? a then load8 m b else load8 m c.
Proof.
  unfold swap_bytes. rewrite !load8_store8.
  rewrite !u8_small by apply load8_range. reflexivity.
Qed.

(** After [k] swaps the outer [k] bytes on both sides are exchanged. *)
Lemma strrev_loop m s len k :
  0 <= k <= len / 2 + 1 -> 0 <= len -> forall j, 0 <= j <= len ->
  load8 (for_up (Z.to_nat k) 0 (fun i m => swap_bytes (s + i) (s + (len - i)) m) m) (s + j) =
  if (j <? k) || (len - k <? j) then load8 m (s + (len - j)) else load8 m (s + j).
Proof.
  intros Hk Hlen.
  pose proof (for_up_inv (fun i t => forall j, 0 <= j <= len -> load8 t (s + j) =
    if (j <? i) || (len - i <? j) then load8 m (s + (len - j)) else load8 m (s + j))
    (Z.to_nat k) 0 (fun i m => swap_bytes (s + i) (s + (len - i)) m) m) as L.
  simpl in L. rewrite Z2Nat.id in L by lia. apply L; clear L.
  - intros j Hj. bsimp; reflexivity.
  - intros i t Hi IH j Hj.
    assert (2 * i <= len) by (pose proof (Z.mul_div_le len 2); lia).
    rewrite load8_swap.
    destruct (Z.eqb_spec (s + j) (s + (len - i))); [|destruct (Z.eqb_spec (s + j) (s + i))].
    + rewrite (IH i) by lia. replace j with (len - i) by lia.
      bsimp; f_equal; lia.
    + rewrite (IH (len - i)) by lia. replace j with i by lia. bsimp; f_equal; lia.
    + rewrite IH by lia. bsimp; reflexivity.
Qed.

Lemma strrev_outside m s len k b :
  0 <= k -> k <= len / 2 + 1 -> 0 <= len -> b < s \/ s + len < b ->
  load8 (for_up (Z.to_nat k) 0 (fun i m => swap_bytes (s + i) (s + (len - i)) m) m) b = load8 m b.
Proof.
  intros. apply (for_up_inv (fun _ t => load8 t b = load8 m b)); [reflexivity|].
  intros j t Hj IH. rewrite load8_swap, IH. pose proof (Z.mul_div_le len 2). bsimp; reflexivity.
Qed.

(** On a non-empty string, [strrev] reverses it in place. *)
Lemma strrev_cstr m p s :
  cstr m p s -> s <> [] ->
  let '(m', r) := strrev m p in
  r = p /\ cstr m' p (reverse s) /\ same_outside p (p + Z.of_nat (length s)) m m'.
Proof.
  intros Hs Hne. unfold strrev. rewrite (strlen_cstr _ _ _ Hs).
  assert (Hl : (0 < length s)%nat) by (destruct s; simpl; [congruence|lia]).
  set (len := Z.of_nat (length s) - 1). assert (0 <= len) by (unfold len; lia).
  rewrite Z.quot_div_nonneg by lia.
  pose proof (Z.mul_div_le len 2). pose proof (Z.mul_succ_div_gt len 2).
  pose proof (Z.div_pos len 2).
  split; [reflexivity|]. pose proof Hs as [_ (_ & Hz & Hnz)]. split.
  - apply cstr_intro; rewrite length_reverse.
    + intros i Hi. exists (load8 m (p + (len - i))). rewrite reverse_lookup by lia.
      replace (length s - S (Z.to_nat i))%nat with (Z.to_nat (len - i)) by lia.
      split; [eapply cstr_lookup; [eassumption|lia]|]. rewrite strrev_loop by lia.
      split; [|apply Hnz; lia].
      destruct ((i <? _) || _) eqn:E; [reflexivity|f_equal; lia].
    + rewrite strrev_outside by lia. assumption.
  - intros b Hb. apply strrev_outside; lia.
Qed.

(** ** Searching and tokens *)

Lemma s8_inj a b : 0 <= a < 0x100 -> 0 <= b < 0x100 -> s8 a = s8 b -> a = b.
Proof. unfold s8. intros. Z.to_euclidean_division_equations. lia. Qed.

Lemma char_at_eq m a b : (char_at m a =? char_at m b) = (load8 m a =? load8 m b).
Proof.
  unfold char_at. destruct (Z.eqb_spec (load8 m a) (load8 m b)) as [->|Hne]; [apply Z.eqb_refl|].
  apply Z.eqb_neq. intros E. apply Hne, s8_inj; [apply load8_range..|assumption].
Qed.

Lemma cstr_elem m p s x :
  cstr m p s -> (x ∈ s <-> exists i, 0 <= i < Z.of_nat (length s) /\ load8 m (p + i) = x).
Proof.
  intros Hs. split.
  - intros Hx. apply list_elem_of_lookup in Hx as (i & Hi).
    pose proof (lookup_lt_Some _ _ _ Hi). exists (Z.of_nat i). split; [lia|].
    pose proof (cstr_lookup m p s (Z.of_nat i) Hs) as L. rewrite Nat2Z.id, Hi in L.
    assert (E : Some x = Some (load8 m (p + Z.of_nat i))) by (apply L; lia). congruence.
  - intros (i & Hi & <-). apply list_elem_of_lookup. exists (Z.to_nat i).
    apply cstr_lookup; assumption.
Qed.

Lemma cstr_no_nul m p s : cstr m p s -> 0 ∉ s.
Proof.
  intros Hs H. apply (cstr_elem _ _ _ _ Hs) in H as (i & Hi & E).
  destruct Hs as [_ (_ & _ & Hnz)]. exact (Hnz i Hi E).
Qed.

Lemma in_delim_spec m a d ds :
  cstr m d ds -> in_delim m (char_at m a) d = bool_decide (load8 m a ∈ ds).
Proof.
  intros Hd. unfold in_delim. rewrite (strlen_cstr _ _ _ Hd), Nat2Z.id.
  destruct (find_up _ _ _) as [q|] eqn:E; symmetry.
  - apply find_up_Some in E as (Hr & Hq & _). rewrite char_at_eq in Hq.
    apply bool_decide_eq_true. apply (cstr_elem _ _ _ _ Hd). exists q. lia.
  - pose proof (proj1 (find_up_None _ _ _) E) as H. apply bool_decide_eq_false. intros Hin.
    apply (cstr_elem _ _ _ _ Hd) in Hin as (q & Hq & Eq). specialize (H q).
    cbv beta in H. rewrite char_at_eq in H. lia.
Qed.

(** [strchr] answers whether a character of memory occurs in a string. *)
Lemma strchr_loop_NULL fuel m p a s :
  cstr m p s -> 0 < p -> (length s < fuel)%nat ->
  (strchr_loop fuel m p (char_at m a) =? NULL) = bool_decide (load8 m a ∉ s).
Proof.
  revert p s. induction fuel as [|f IH]; intros p s Hs Hp Hf; [lia|]. simpl.
  pose proof Hs as [E Hl].
  destruct (Z.eqb_spec (load8 m p) 0) as [Hz|Hnz].
  - pose proof (str_len_0 _ _ _ Hl Hz). destruct s; [|simpl in *; lia].
    symmetry. apply bool_decide_eq_true. apply not_elem_of_nil.
  - apply str_len_succ in Hl as [Hpos Hl]; [|assumption].
    destruct s as [|x s]; [simpl in *; lia|]. rewrite char_at_eq.
    assert (Hx : load8 m p = x).
    { pose proof (cstr_lookup m p (x :: s) 0 Hs) as L. rewrite Z.add_0_r in L. simpl in L.
      assert (Some x = Some (load8 m p)) by (apply L; lia). congruence. }
    destruct (Z.eqb_spec (load8 m p) (load8 m a)) as [He|He].
    + unfold NULL. destruct (Z.eqb_spec p 0); [lia|]. symmetry. apply bool_decide_eq_false.
      rewrite not_elem_of_cons. intros [? _]. congruence.
    + rewrite (IH (p + 1) s); [|split| lia|simpl in Hf; lia].
      * apply bool_decide_ext. rewrite not_elem_of_cons. intuition congruence.
      * assert (Hd : drop 1 (bytes_at m p (length (x :: s))) = s) by (rewrite E; reflexivity).
        rewrite <- Hd at 2. unfold bytes_at. simpl. rewrite <- fmap_S_seq, <- list_fmap_compose.
        apply list_fmap_ext. intros i y _. simpl. f_equal. lia.
      * simpl length in Hl. replace (Z.of_nat (S (length s)) - 1) with (Z.of_nat (length s)) in Hl by lia.
        exact Hl.
Qed.

Lemma cstr_fuel m p s : cstr m p s -> (length s < strfuel m)%nat.
Proof.
  intros [_ Hs]. destruct (strfuel_enough m p) as (n & Hn & Hlt).
  pose proof (str_len_unique _ _ _ _ Hs Hn). lia.
Qed.

(** [strspn] is the length of the longest prefix made of delimiters. *)
Lemma strspn_spec m p d s ds k :
  cstr m p s -> cstr m d ds -> 0 < d -> 0 <= k <= Z.of_nat (length s) ->
  (forall j, 0 <= j < k -> load8 m (p + j) ∈ ds) ->
  (k < Z.of_nat (length s) -> load8 m (p + k) ∉ ds) -> strspn m p d = k.
Proof.
  intros Hs Hd Hd0 Hk Hin Hout. unfold strspn. rewrite (strlen_cstr _ _ _ Hs), Nat2Z.id.
  rewrite (find_up_ext _ _ _ (fun i => bool_decide (load8 m (p + i) ∉ ds))).
  2:{ intros j _. apply strchr_loop_NULL; [assumption|assumption|]. eapply cstr_fuel; eassumption. }
  destruct (find_up _ _ _) as [r|] eqn:E.
  - apply find_up_Some in E as (Hr & Hr1 & Hr2). apply bool_decide_eq_true in Hr1.
    destruct (Z.lt_trichotomy r k) as [|[|]]; [exfalso; apply Hr1, Hin; lia|assumption|].
    specialize (Hr2 k). rewrite bool_decide_eq_false in Hr2. exfalso. apply Hr2; [lia|]. apply Hout. lia.
  - pose proof (proj1 (find_up_None _ _ _) E) as H.
    destruct (Z.eq_dec k (Z.of_nat (length s))) as [|]; [lia|].
    specialize (H k). rewrite bool_decide_eq_false in H. exfalso. apply H; [lia|]. apply Hout. lia.
Qed.

(** [strpbrk] looks for a delimiter from the second character on. *)
Lemma strpbrk_loop_spec fuel m p d ds n k :
  cstr m d ds -> str_len m p n -> n < Z.of_nat fuel -> 1 <= k ->
  (forall j, 1 <= j < k -> load8 m (p + j) ∉ ds) ->
  (k <= n -> load8 m (p + k) ∈ ds) ->
  strpbrk_loop fuel m p d = if k <=? n then p + k else NULL.
Proof.
  intros Hd. revert p n k. induction fuel as [|f IH]; intros p n k Hp Hn Hk Hout Hin; [destruct Hp; lia|].
  simpl. destruct (Z.eqb_spec (load8 m p) 0) as [Hz|Hnz].
  - rewrite (str_len_0 m p n); [bsimp; reflexivity|assumption..].
  - apply str_len_succ in Hp as [Hpos Hp]; [|assumption]. rewrite (in_delim_spec _ _ _ _ Hd).
    destruct (Z.eq_dec k 1) as [->|].
    + rewrite bool_decide_eq_true_2 by (apply Hin; lia). bsimp.
    + rewrite bool_decide_eq_false_2 by (apply Hout; lia).
      rewrite (IH (p + 1) (n - 1) (k - 1)); [bsimp; lia|assumption|lia|lia| |].
      * intros j Hj. replace (p + 1 + j) with (p + (j + 1)) by lia. apply Hout. lia.
      * intros Hle. replace (p + 1 + (k - 1)) with (p + k) by lia. apply Hin. lia.
Qed.

Lemma cstr_suffix m p a b : cstr m p (a ++ b) -> cstr m (p + Z.of_nat (length a)) b.
Proof.
  intros H. pose proof H as [_ (_ & Hz & Hnz)]. rewrite length_app in *. apply cstr_intro.
  - intros i Hi.
    pose proof (cstr_lookup m p (a ++ b) (Z.of_nat (length a) + i) H) as L.
    rewrite length_app, lookup_app_r in L by lia.
    replace (Z.to_nat (Z.of_nat (length a) + i) - length a)%nat with (Z.to_nat i) in L by lia.
    replace (p + Z.of_nat (length a) + i) with (p + (Z.of_nat (length a) + i)) by lia.
    eexists. split; [apply L; lia|]. split; [reflexivity|]. apply Hnz. lia.
  - rewrite <- Hz. f_equal. lia.
Qed.

Lemma cstr_app_lookup m p a b i x :
  cstr m p (a ++ b) -> a !! i = Some x -> load8 m (p + Z.of_nat i) = x.
Proof.
  intros H Hx. pose proof (lookup_lt_Some _ _ _ Hx).
  pose proof (cstr_lookup m p (a ++ b) (Z.of_nat i) H) as L.
  rewrite length_app, lookup_app_l, Nat2Z.id in L by lia.
  assert (E : a !! i = Some (load8 m (p + Z.of_nat i))) by (apply L; lia). congruence.
Qed.

(** Ending a string early. *)
Lemma cstr_cut m p a b : cstr m p (a ++ b) -> cstr (store8 m (p + Z.of_nat (length a)) 0) p a.
Proof.
  intros H. pose proof H as [_ (_ & _ & Hnz)]. rewrite length_app in Hnz. apply cstr_intro.
  - intros i Hi. destruct (lookup_lt_is_Some_2 a (Z.to_nat i)) as [x Hx]; [lia|].
    exists x. split; [assumption|]. rewrite load8_store8_ne by lia.
    pose proof (cstr_app_lookup _ _ _ _ _ _ H Hx) as E. rewrite Z2Nat.id in E by lia.
    split; [assumption|]. rewrite <- E. apply Hnz. lia.
  - autorewrite with memory. reflexivity.
Qed.

Lemma strtok_resume m ptr d : ptr <> NULL -> strtok m ptr NULL d = strtok m NULL ptr d.
Proof.
  intros H. unfold strtok, NULL in *. simpl. destruct (Z.eqb_spec ptr 0); [congruence|].
  rewrite andb_false_r. reflexivity.
Qed.

Lemma Forall_lookup_load m p a b i (P : Z -> Prop) :
  cstr m p (a ++ b) -> Forall P a -> 0 <= i < Z.of_nat (length a) -> P (load8 m (p + i)).
Proof.
  intros H HF Hi. destruct (lookup_lt_is_Some_2 a (Z.to_nat i)) as [x Hx]; [lia|].
  rewrite <- (Z2Nat.id i) by lia. rewrite (cstr_app_lookup _ _ _ _ _ _ H Hx).
  eapply Forall_lookup_1; eassumption.
Qed.

(** One call of [strtok] on a string that still holds a token: the leading
    delimiters are skipped, the token is terminated in place, the static
    pointer moves past the delimiter that ended it. *)
Lemma strtok_token m ptr p d lead tok tail ds :
  cstr m p (lead ++ tok ++ tail) -> cstr m d ds -> 0 < p -> 0 < d ->
  p + Z.of_nat (length (lead ++ tok ++ tail)) < 0x100000000 ->
  Forall (fun c => c ∈ ds) lead -> Forall (fun c => c ∉ ds) tok -> tok <> [] ->
  (forall c, head tail = Some c -> c ∈ ds) ->
  let r := p + Z.of_nat (length lead) in
  strtok m ptr p d =
    match tail with
    | [] => (m, NULL, r)
    | _ :: _ => (store8 m (r + Z.of_nat (length tok)) 0, r + Z.of_nat (length tok) + 1, r)
    end.
Proof.
  intros Hs Hd Hp Hd0 Hb Hlead Htok Hne Htail r. unfold strtok.
  rewrite !length_app in Hb.
  assert (Hl : (0 < length tok)%nat) by (destruct tok; simpl; [congruence|lia]).
  unfold NULL. assert (Ep : (p =? 0) = false) by lia. rewrite Ep, andb_false_r. clear Ep.
  rewrite (strspn_spec m p d (lead ++ tok ++ tail) ds (Z.of_nat (length lead)));
    [|assumption|assumption|assumption|rewrite length_app; lia| |].
  2:{ intros j Hj. apply (Forall_lookup_load m p lead (tok ++ tail) j (fun c => c ∈ ds)); assumption. }
  2:{ intros _. pose proof (cstr_suffix _ _ _ _ Hs) as Hr.
      pose proof (Forall_lookup_load m _ tok tail 0 (fun c => c ∉ ds) Hr Htok) as H0.
      rewrite Z.add_0_r in H0. apply H0. lia. }
  rewrite u32_small by lia. fold r.
  pose proof (cstr_suffix _ _ _ _ Hs) as Hr. fold r in Hr.
  pose proof (cstr_fuel _ _ _ Hr) as Hf. pose proof (cstr_suffix _ _ _ _ Hr) as Ht.
  unfold strpbrk. rewrite length_app in Hf.
  destruct tail as [|c tail].
  - rewrite app_nil_r in *. simpl in Hf.
    rewrite (strpbrk_loop_spec _ m r d ds (Z.of_nat (length tok)) (Z.of_nat (length tok) + 1));
      [|assumption|apply Hr|lia|lia| |lia].
    2:{ intros j Hj. destruct (Z.eq_dec j (Z.of_nat (length tok))) as [->|].
        - destruct Hr as [_ (_ & -> & _)]. eapply cstr_no_nul; eassumption.
        - rewrite <- (app_nil_r tok) in Hr.
          apply (Forall_lookup_load m r tok [] j (fun c => c ∉ ds)); [assumption..|lia]. }
    destruct (Z.leb_spec (Z.of_nat (length tok) + 1) (Z.of_nat (length tok))); [lia|].
    unfold NULL. reflexivity.
  - simpl in Hf, Hb. rewrite (strpbrk_loop_spec _ m r d ds (Z.of_nat (length (tok ++ c :: tail))) (Z.of_nat (length tok)));
      [|assumption|apply Hr|rewrite length_app; simpl; lia|lia| |].
    2:{ intros j Hj. apply (Forall_lookup_load m r tok (c :: tail) j (fun c => c ∉ ds)); [assumption..|lia]. }
    2:{ intros _. pose proof (cstr_app_lookup m (r + Z.of_nat (length tok)) [c] tail 0 c Ht eq_refl) as E.
        simpl in E. rewrite Z.add_0_r in E. rewrite E. apply Htail. reflexivity. }
    rewrite length_app. destruct (Z.leb_spec (Z.of_nat (length tok)) (Z.of_nat (length tok + length (c :: tail)))); [|lia].
    unfold NULL. destruct (Z.eqb_spec (r + Z.of_nat (length tok)) 0); [lia|]. reflexivity.
Qed.

(** On a string of delimiters only, [strtok] returns the empty string at its
    end (a non-NULL pointer) and not NULL. *)
Lemma strtok_empty m ptr p d lead ds :
  cstr m p lead -> cstr m d ds -> 0 < p -> 0 < d -> p + Z.of_nat (length lead) < 0x100000000 ->
  Forall (fun c => c ∈ ds) lead ->
  strtok m ptr p d = (m, NULL, p + Z.of_nat (length lead)).
Proof.
  intros Hs Hd Hp Hd0 Hb Hlead. unfold strtok. rewrite <- (app_nil_r lead) in Hs.
  unfold NULL. assert (Ep : (p =? 0) = false) by lia. rewrite Ep, andb_false_r. clear Ep.
  rewrite (strspn_spec m p d (lead ++ []) ds (Z.of_nat (length lead)));
    [|assumption|assumption|assumption|rewrite length_app; lia| |rewrite length_app; simpl; lia].
  2:{ intros j Hj. apply (Forall_lookup_load m p lead [] j (fun c => c ∈ ds)); assumption. }
  rewrite u32_small by lia. pose proof (cstr_suffix _ _ _ _ Hs) as Hr.
  unfold strpbrk. rewrite (strpbrk_loop_spec _ m _ d ds 0 1); [|assumption|apply Hr| |lia|lia|lia].
  - reflexivity.
  - unfold strfuel. lia.
Qed.

(** ** The library's contracts *)

(** A memory holding the string [s] at [p], for the concrete instances. *)
Fixpoint put_str (m : mem) (p : Z) (s : list Z) : mem :=
  match s with
  | [] => store8 m p 0
  | c :: s' => put_str (store8 m p c) (p + 1) s'
  end.

(** Decide [cstr] by running [strlen]. *)
Definition is_cstr (m : mem) (p : Z) (s : list Z) : bool :=
  bool_decide (bytes_at m p (Z.to_nat (strlen m p)) = s).

Lemma is_cstr_sound m p s : is_cstr m p s = true -> cstr m p s.
Proof. intros H. apply bool_decide_eq_true in H. rewrite <- H. apply cstr_exists. Qed.

(** [strcat] appends: the destination becomes the concatenation and only
    the bytes from its old terminator to the new one change, as long as the
    source does not overlap the part that is written. *)
Theorem strcat_appends m d src s1 s2 :
  cstr m d s1 -> cstr m src s2 ->
  d + Z.of_nat (length s1 + length s2) < src \/ src + Z.of_nat (length s2) < d + Z.of_nat (length s1) ->
  (strcat m d src).2 = d /\ cstr (strcat m d src).1 d (s1 ++ s2) /\
  same_outside (d + Z.of_nat (length s1)) (d + Z.of_nat (length s1 + length s2) + 1) m (strcat m d src).1.
Proof.
  intros H1 H2 Hd. pose proof (strcat_cstr m d src s1 s2 H1 H2 Hd) as H.
  destruct (strcat m d src) as [m' r]. exact H.
Qed.

Lemma strcat_appends_witness :
  let m := put_str (put_str ∅ 100 [97; 98]) 200 [99] in
  (strcat m 100 200).2 = 100 /\ cstr (strcat m 100 200).1 100 [97; 98; 99] /\
  same_outside 102 104 m (strcat m 100 200).1.
Proof.
  apply (strcat_appends (put_str (put_str ∅ 100 [97; 98]) 200 [99]) 100 200 [97; 98] [99]);
    [apply is_cstr_sound; reflexivity..|left; simpl; lia].
Defined.

(** [strrev] reverses a non-empty string in place, so reversing twice
    restores it, and writes nothing outside it. *)
Theorem strrev_involutive m p s :
  cstr m p s -> s <> [] ->
  cstr (strrev m p).1 p (reverse s) /\
  cstr (strrev (strrev m p).1 p).1 p s /\
  same_outside p (p + Z.of_nat (length s)) m (strrev (strrev m p).1 p).1.
Proof.
  intros Hs Hne. pose proof (strrev_cstr m p s Hs Hne) as H.
  destruct (strrev m p) as [m1 r1]. destruct H as (_ & H1 & O1). cbn [fst].
  assert (Hne' : reverse s <> []) by (intros E; apply (f_equal length) in E; rewrite length_reverse in E; destruct s;
    [congruence|discriminate]).
  pose proof (strrev_cstr m1 p _ H1 Hne') as H. destruct (strrev m1 p) as [m2 r2].
  destruct H as (_ & H2 & O2). rewrite reverse_involutive in H2. rewrite length_reverse in O2. cbn [fst].
  split; [assumption|]. split; [assumption|]. eapply same_outside_trans; eassumption.
Qed.

Lemma strrev_involutive_witness :
  let m := put_str ∅ 100 [97; 98; 99] in
  cstr (strrev m 100).1 100 [99; 98; 97] /\ cstr (strrev (strrev m 100).1 100).1 100 [97; 98; 99] /\
  same_outside 100 103 m (strrev (strrev m 100).1 100).1.
Proof.
  apply (strrev_involutive (put_str ∅ 100 [97; 98; 99]) 100 [97; 98; 99]);
    [apply is_cstr_sound; reflexivity|discriminate].
Defined.

(** [strcmp(s1, s2)] is 0 exactly when [s1] is a prefix of [s2]; it is not
    string equality. *)
Theorem strcmp_zero_iff_prefix m p1 p2 s1 s2 :
  cstr m p1 s1 -> cstr m p2 s2 -> (strcmp m p1 p2 = 0 <-> s1 `prefix_of` s2).
Proof. apply strcmp_prefix. Qed.

Lemma strcmp_zero_iff_prefix_witness :
  let m := put_str (put_str ∅ 100 [106; 98]) 200 [106; 98; 101] in
  strcmp m 100 200 = 0 <-> [106; 98] `prefix_of` [106; 98; 101].
Proof.
  apply (strcmp_zero_iff_prefix (put_str (put_str ∅ 100 [106; 98]) 200 [106; 98; 101]));
    apply is_cstr_sound; reflexivity.
Defined.

(** [memmove] copies any two ranges, overlapping or not, through its
    temporary block, and changes nothing outside the destination and that
    block. *)
Theorem memmove_copies m s1 s2 n temp :
  0 <= n -> (temp + n <= s2 \/ s2 + n <= temp) -> (temp + n <= s1 \/ s1 + n <= temp) ->
  bytes_at (memmove m s1 s2 n temp) s1 (Z.to_nat n) = bytes_at m s2 (Z.to_nat n) /\
  forall b, b < s1 \/ s1 + n <= b -> b < temp \/ temp + n <= b ->
    load8 (memmove m s1 s2 n temp) b = load8 m b.
Proof. apply memmove_bytes. Qed.

Lemma memmove_copies_witness :
  let m := put_str ∅ 100 [1; 2; 3; 4] in
  bytes_at (memmove m 101 100 3 500) 101 3 = bytes_at m 100 3 /\
  forall b, b < 101 \/ 101 + 3 <= b -> b < 500 \/ 500 + 3 <= b -> load8 (memmove m 101 100 3 500) b = load8 m b.
Proof. apply (memmove_copies (put_str ∅ 100 [1; 2; 3; 4]) 101 100 3 500); lia. Defined.

(** ** Repeated calls of [strtok] *)

(** [n] calls, the first on [s] and the others on NULL. *)
Fixpoint strtok_calls (n : nat) (m : mem) (ptr s delim : Z) : mem * list Z :=
  match n with
  | O => (m, [])
  | S n' =>
      let '(m1, ptr1, t) := strtok m ptr s delim in
      let '(m2, ts) := strtok_calls n' m1 ptr1 NULL delim in
      (m2, t :: ts)
  end.

(** Words separated by the delimiter [c]. *)
Fixpoint join (c : Z) (ws : list (list Z)) : list Z :=
  match ws with
  | [] => []
  | [w] => w
  | w :: ws' => w ++ c :: join c ws'
  end.
Fixpoint word_starts (p : Z) (ws : list (list Z)) : list Z :=
  match ws with
  | [] => []
  | w :: ws' => p :: word_starts (p + Z.of_nat (length w) + 1) ws'
  end.

Section tokens.
Context (d : Z) (ds : list Z) (c : Z).
Hypothesis Hd0 : 0 < d.
Hypothesis Hc : c ∈ ds.

Definition is_word (w : list Z) : Prop := w <> [] /\ Forall (fun x => x ∉ ds) w.

(** A cut at a word's end leaves the rest of the line in place. *)
Lemma cstr_rest m p w rest :
  cstr m p (w ++ c :: rest) ->
  cstr (store8 m (p + Z.of_nat (length w)) 0) (p + Z.of_nat (length w) + 1) rest.
Proof using.
  intros H. assert (H' : cstr m (p + Z.of_nat (length w) + 1) rest).
  { pose proof (cstr_suffix m p (w ++ [c]) rest) as L. rewrite <- app_assoc in L. specialize (L H).
    rewrite length_app in L. simpl in L.
    replace (p + Z.of_nat (length w) + 1) with (p + Z.of_nat (length w + 1)) by lia. exact L. }
  apply (cstr_frame _ _ _ _ H'). intros i Hi. apply load8_store8_ne. lia.
Qed.

(** The calls return the starts of the words, each of them now a string of its
    own; memory below [p] and above the line is untouched. *)
Lemma strtok_calls_spec ws : forall m ptr p,
  cstr m p (join c ws) -> cstr m d ds -> 0 < p -> Forall is_word ws ->
  p + Z.of_nat (length (join c ws)) < 0x100000000 ->
  d + Z.of_nat (length ds) < p \/ p + Z.of_nat (length (join c ws)) < d ->
  exists m', strtok_calls (length ws) m ptr p d = (m', word_starts p ws) /\
    Forall2 (cstr m') (word_starts p ws) ws /\
    same_outside p (p + Z.of_nat (length (join c ws))) m m'.
Proof using Hd0 Hc.
  induction ws as [|w ws IH]; intros m ptr p Hs Hd Hp Hws Hb Hdis.
  { exists m. split; [reflexivity|]. split; [constructor|apply same_outside_refl]. }
  apply Forall_cons in Hws as [[Hne Hw] Hws]. cbn [length strtok_calls word_starts].
  assert (Hlead : forall tail, cstr m p (w ++ tail) -> length (w ++ tail) = length (join c (w :: ws)) ->
    (forall x, head tail = Some x -> x ∈ ds) -> strtok m ptr p d =
    match tail with
    | [] => (m, NULL, p)
    | _ :: _ => (store8 m (p + Z.of_nat (length w)) 0, p + Z.of_nat (length w) + 1, p)
    end).
  { intros tail Ht Hlen Hhd. pose proof (strtok_token m ptr p d [] w tail ds Ht Hd Hp Hd0) as L.
    simpl app in L. rewrite Hlen in L. simpl length in L. rewrite Z.add_0_r in L. apply L; auto. }
  destruct ws as [|w2 ws].
  - rewrite (Hlead []); [|rewrite app_nil_r; assumption|rewrite app_nil_r; reflexivity|discriminate].
    exists m. split; [reflexivity|]. split; [constructor; [assumption|constructor]|apply same_outside_refl].
  - set (rest := join c (w2 :: ws)) in *.
    change (join c (w :: w2 :: ws)) with (w ++ c :: rest) in *. rewrite length_app in *. cbn [length] in *.
    rewrite (Hlead (c :: rest)); [|assumption|rewrite length_app; reflexivity|intros x [= <-]; exact Hc].
    set (m1 := store8 m _ 0). set (p1 := p + Z.of_nat (length w) + 1).
    destruct (IH m1 p1 p1) as (m' & E & Hall & Hout); try assumption; try (subst p1; lia).
    + apply cstr_rest. assumption.
    + apply (cstr_frame _ _ _ _ Hd). intros i Hi. apply load8_store8_ne. lia.
    + assert (E' : strtok_calls (S (length ws)) m1 p1 NULL d = strtok_calls (S (length ws)) m1 p1 p1 d).
      { cbn [strtok_calls]. rewrite strtok_resume by (unfold NULL; subst p1; lia).
        assert (En : strtok m1 NULL p1 d = strtok m1 p1 p1 d)
          by (unfold strtok; replace (p1 =? NULL) with false by (unfold NULL; subst p1; lia); reflexivity).
        rewrite En. reflexivity. }
      rewrite E', E. exists m'. split; [reflexivity|]. split.
      * constructor; [|exact Hall]. apply (cstr_frame m1).
        -- apply cstr_cut with (b := c :: rest). assumption.
        -- intros i Hi. apply Hout. subst p1. lia.
      * intros b Hbd. rewrite Hout by (subst p1; lia). apply load8_store8_ne. lia.
Qed.
End tokens.

(** Splitting a line with [strtok].  On [w1 c w2 c ... wn], with words
    free of delimiters, [n] calls return the addresses of the words in order,
    and each is then a NUL-terminated string of its own; no byte outside the
    line changes. *)
Theorem strtok_splits_words ws m ptr p d ds c :
  0 < d -> c ∈ ds -> cstr m p (join c ws) -> cstr m d ds -> 0 < p -> Forall (is_word ds) ws ->
  p + Z.of_nat (length (join c ws)) < 0x100000000 ->
  d + Z.of_nat (length ds) < p \/ p + Z.of_nat (length (join c ws)) < d ->
  exists m', strtok_calls (length ws) m ptr p d = (m', word_starts p ws) /\
    Forall2 (cstr m') (word_starts p ws) ws /\
    same_outside p (p + Z.of_nat (length (join c ws))) m m'.
Proof. intros. eapply strtok_calls_spec; eassumption. Qed.

Lemma strtok_splits_words_witness :
  let m := put_str (put_str ∅ 1000 [108; 115; 32; 97; 32; 98; 99]) 2000 [32] in
  exists m', strtok_calls 3 m 0 1000 2000 = (m', [1000; 1003; 1005]) /\
    Forall2 (cstr m') [1000; 1003; 1005] [[108; 115]; [97]; [98; 99]] /\ same_outside 1000 1007 m m'.
Proof.
  apply (strtok_splits_words [[108; 115]; [97]; [98; 99]]
    (put_str (put_str ∅ 1000 [108; 115; 32; 97; 32; 98; 99]) 2000 [32]) 0 1000 2000 [32] 32);
    try (apply is_cstr_sound; reflexivity); try (simpl; lia); try set_solver.
  repeat constructor; try discriminate; set_solver.
Defined.
