(* ===== verification/KStdlib.v ===== *)
(** * kernel/lib/stdlib.c: number/string conversions

    [itoa], [sitoa], [atoi] on memory, and the integer helpers [abs], [log10]
    and [pow].  The [double] functions of the file are in Ftoa. *)

From stdpp Require Import base numbers list gmap.
From Stdlib Require Import ZArith Lia.
From S2P Require Import Prelude Memory CString.
Open Scope Z_scope.

(** kernel/include/ctype.h *)
Definition isdigit (c : Z) : bool := (48 <=? c) && (c <=? 57).

(** [abs] returns a [uint32_t]. *)
Definition abs (x : Z) : Z := if x <? 0 then u32 (x * -1) else u32 x.

(** The argument is compared with unsigned constants. *)
Definition log10 (v : Z) : Z :=
  let v := u32 v in
  if 1000000000 <=? v then 9 else if 100000000 <=? v then 8
  else if 10000000 <=? v then 7 else if 1000000 <=? v then 6
  else if 100000 <=? v then 5 else if 10000 <=? v then 4
  else if 1000 <=? v then 3 else if 100 <=? v then 2 else if 10 <=? v then 1 else 0.

(** [while (x-- > 1) n = n * n;] *)
Fixpoint pow_loop (k : nat) (n x : Z) : Z :=
  match k with
  | O => n
  | S k' => if 1 <? x then pow_loop k' (s32 (n * n)) (x - 1) else n
  end.
(** [if (x = 0)] assigns 0 to [x] and tests it. *)
Definition pow (n x : Z) : Z :=
  let x := 0 in
  if negb (x =? 0) then 1 else pow_loop (Z.to_nat x) n x.

Definition atoi_step (m : mem) (s i num : Z) : Z :=
  if isdigit (char_at m (s + i)) then s32 (num * 10 + (char_at m (s + i) - 48)) else num.
Definition atoi (m : mem) (s : Z) : Z :=
  let sign := if char_at m s =? 45 then -1 else 1 in
  sign * for_up (Z.to_nat (strlen m s)) 0 (atoi_step m s) 0.

Definition digit_char (remainder : Z) : Z :=
  if 9 <? remainder then (remainder - 10) + 65 else remainder + 48.

(** [while (num != 0 && len--)] with [len] counted down from [k]; the result
    is the memory, the index and the final [len] (-1 when digits are left). *)
Fixpoint itoa_digits (k : nat) (m : mem) (buffer i num base : Z) : mem * Z * Z :=
  if num =? 0 then (m, i, Z.of_nat k)
  else match k with
       | O => (m, i, -1)
       | S k' => itoa_digits k' (store8 m (buffer + i) (digit_char (u32 num mod base)))
                   buffer (i + 1) (u32 num / base) base
       end.

(** [None]: the padding loop [while (len-- && base != 10)] starts with a
    negative [len] and runs away over all of memory. *)
Definition itoa (m : mem) (num buffer base : Z) : option (mem * Z) :=
  let len := if base =? 2 then 32 else 8 in
  if (num =? 0) && (base =? 2) then
    Some (store8 (for_up (Z.to_nat len) 0 (fun i m => store8 m (buffer + i) 48) m) (buffer + len) 0, buffer)
  else
    let '(m1, i, len) := itoa_digits (Z.to_nat len) m buffer 0 num base in
    if base =? 10 then Some (strrev (store8 m1 (buffer + i) 0) buffer)
    else if len <? 0 then None
    else
      let m2 := for_up (Z.to_nat len) i (fun j m => store8 m (buffer + j) 48) m1 in
      Some (strrev (store8 m2 (buffer + (i + len)) 0) buffer).

(** The digit loop of [sitoa] works on [int]: truncating division. *)
Fixpoint sitoa_digits (k : nat) (m : mem) (buffer i num base : Z) : mem * Z :=
  if num =? 0 then (m, i)
  else match k with
       | O => (m, i)
       | S k' => sitoa_digits k' (store8 m (buffer + i) (digit_char (Z.rem num base)))
                   buffer (i + 1) (Z.quot num base) base
       end.
Definition sitoa (m : mem) (num buffer base : Z) : mem * Z :=
  if (num =? 0) || (base =? 0) then (store8 (store8 m buffer 48) (buffer + 1) 0, buffer)
  else
    let num := if num <? 0 then s32 (abs num) else num in
    let '(m1, i) := sitoa_digits 8 m buffer 0 num base in
    strrev (store8 m1 (buffer + i) 0) buffer.

(** ** Digits *)

(** The value of a most-significant-first digit string. *)
Definition digit_val (c : Z) : Z := if 65 <=? c then c - 55 else c - 48.
Definition digits_val (base : Z) (s : list Z) : Z :=
  foldl (fun acc c => acc * base + digit_val c) 0 s.

(** The digits of [num], least significant first. *)
Fixpoint digits_le (k : nat) (num base : Z) : list Z :=
  if num =? 0 then []
  else match k with
       | O => []
       | S k' => digit_char (num mod base) :: digits_le k' (num / base) base
       end.

Lemma digit_char_range r : 0 <= r < 16 -> 0 < digit_char r < 0x100.
Proof. intros. unfold digit_char. bsimp. Qed.

Lemma digit_val_char r : 0 <= r < 16 -> digit_val (digit_char r) = r.
Proof. intros. unfold digit_val, digit_char. bsimp. Qed.

Lemma digits_le_length k num base : (length (digits_le k num base) <= k)%nat.
Proof.
  revert num. induction k as [|k IH]; intros num; simpl; destruct (num =? 0); simpl; try lia.
  specialize (IH (num / base)). lia.
Qed.

Lemma digits_le_nonnul k num base :
  2 <= base <= 16 -> Forall (fun c => 0 < c < 0x100) (digits_le k num base).
Proof.
  intros Hb. revert num. induction k as [|k IH]; intros num; simpl; destruct (num =? 0); auto.
  constructor; [|apply IH]. apply digit_char_range.
  pose proof (Z.mod_pos_bound num base). lia.
Qed.

Lemma digits_val_app base s1 s2 :
  digits_val base (s1 ++ s2) = foldl (fun acc c => acc * base + digit_val c) (digits_val base s1) s2.
Proof. apply foldl_app. Qed.

(** Reading the digits back gives the number, as long as [k] digits suffice. *)
Lemma digits_le_val k num base :
  2 <= base <= 16 -> 0 <= num < base ^ Z.of_nat k -> digits_val base (reverse (digits_le k num base)) = num.
Proof.
  intros Hb. revert num. induction k as [|k IH]; intros num Hn.
  - simpl in *. assert (num = 0) by lia. subst. reflexivity.
  - cbn [digits_le]. destruct (Z.eqb_spec num 0); [subst; reflexivity|].
    rewrite reverse_cons, digits_val_app. cbn [foldl]. rewrite IH.
    + rewrite digit_val_char by (pose proof (Z.mod_pos_bound num base); lia).
      pose proof (Z.div_mod num base). lia.
    + split; [apply Z.div_pos; lia|]. apply Z.div_lt_upper_bound; [lia|].
      rewrite Nat2Z.inj_succ, Z.pow_succ_r in Hn by lia. lia.
Qed.

Lemma digits_le_nil k num base : (0 < k)%nat -> digits_le k num base = [] -> num = 0.
Proof. destruct k; [lia|]. simpl. destruct (Z.eqb_spec num 0); [auto|discriminate]. Qed.

(** What the loop of [itoa] leaves in memory: the low digits, least
    significant first, and the count of unused places. *)
Lemma itoa_digits_spec k m buffer i num base :
  2 <= base <= 16 -> 0 <= num < 0x100000000 -> 0 <= i ->
  let l := digits_le k num base in
  exists m' len, itoa_digits k m buffer i num base = (m', i + Z.of_nat (length l), len) /\
    (num < base ^ Z.of_nat k -> len = Z.of_nat k - Z.of_nat (length l)) /\
    bytes_at m' (buffer + i) (length l) = l /\
    same_outside (buffer + i) (buffer + i + Z.of_nat (length l)) m m'.
Proof.
  intros Hb. revert m i num. induction k as [|k IH]; intros m i num Hn Hi; cbn [itoa_digits digits_le].
  - destruct (Z.eqb_spec num 0); (do 2 eexists; split; [simpl; rewrite Z.add_0_r; reflexivity|]);
      (split; [simpl; lia|]); split; try reflexivity; apply same_outside_refl.
  - destruct (Z.eqb_spec num 0) as [->|Hnz].
    + do 2 eexists. split; [simpl; rewrite Z.add_0_r; reflexivity|]. split; [simpl; lia|].
      split; [reflexivity|apply same_outside_refl].
    + rewrite u32_small by lia.
      destruct (IH (store8 m (buffer + i) (digit_char (num mod base))) (i + 1) (num / base))
        as (m' & len & E & Hlen & Hbytes & Hout); [|lia|].
      { split; [apply Z.div_pos; lia|]. apply Z.div_lt_upper_bound; nia. }
      exists m', len. rewrite E. cbn [length]. split; [f_equal; f_equal; lia|]. split; [|split].
      * intros Hlt. rewrite Hlen; [lia|]. apply Z.div_lt_upper_bound; [lia|].
        rewrite Nat2Z.inj_succ, Z.pow_succ_r in Hlt by lia. lia.
      * unfold bytes_at in *. cbn [seq fmap list_fmap]. f_equal.
        -- rewrite (Hout (buffer + i + Z.of_nat 0)) by lia.
           replace (buffer + i + Z.of_nat 0) with (buffer + i) by lia. autorewrite with memory.
           pose proof (digit_char_range (num mod base)). pose proof (Z.mod_pos_bound num base).
           apply u8_small. lia.
        -- rewrite <- Hbytes at 2. rewrite <- fmap_S_seq, <- list_fmap_compose.
           apply list_fmap_ext. intros j y _. simpl. f_equal. lia.
      * intros b Hbd. rewrite Hout by lia. apply load8_store8_ne. lia.
Qed.

Lemma cstr_of_bytes m p l :
  bytes_at m p (length l) = l -> Forall (fun c => 0 < c < 0x100) l ->
  load8 m (p + Z.of_nat (length l)) = 0 -> cstr m p l.
Proof.
  intros Hb Hl Hz. apply cstr_intro; [|assumption]. intros i Hi.
  destruct (lookup_lt_is_Some_2 l (Z.to_nat i)) as [x Hx]; [lia|].
  exists x. split; [assumption|]. pose proof (Forall_lookup_1 _ _ _ _ Hl Hx). simpl in *.
  split; [|lia]. rewrite <- Hb in Hx. rewrite bytes_at_lookup in Hx by lia.
  rewrite Z2Nat.id in Hx by lia. congruence.
Qed.

Lemma bytes_at_app m p n1 n2 :
  bytes_at m p (n1 + n2) = bytes_at m p n1 ++ bytes_at m (p + Z.of_nat n1) n2.
Proof.
  apply list_eq. intros i. destruct (Nat.lt_ge_cases i n1).
  - rewrite lookup_app_l by (rewrite bytes_at_length; lia). rewrite !bytes_at_lookup by lia. reflexivity.
  - rewrite lookup_app_r, bytes_at_length by (rewrite bytes_at_length; lia).
    destruct (Nat.lt_ge_cases i (n1 + n2)).
    + rewrite !bytes_at_lookup by lia. f_equal. f_equal. lia.
    + rewrite !lookup_ge_None_2 by (rewrite bytes_at_length; lia). reflexivity.
Qed.

Lemma bytes_at_frame lo hi m1 m2 p n :
  same_outside lo hi m1 m2 -> p + Z.of_nat n <= lo \/ hi <= p -> bytes_at m2 p n = bytes_at m1 p n.
Proof. intros H Hd. apply bytes_at_eq. intros i Hi. apply H. lia. Qed.

(** The zero padding is a [memset] of the rest of the buffer. *)
Lemma pad_loop m buffer i len :
  0 <= len ->
  let m' := for_up (Z.to_nat len) i (fun j m => store8 m (buffer + j) 48) m in
  bytes_at m' (buffer + i) (Z.to_nat len) = replicate (Z.to_nat len) 48 /\
  same_outside (buffer + i) (buffer + i + len) m m'.
Proof.
  intros Hlen m'.
  assert (H : forall b, load8 m' b =
    if (buffer + i <=? b) && (b <? buffer + (i + Z.of_nat (Z.to_nat len))) then 48 else load8 m b).
  { apply (for_up_inv (fun k t => forall b, load8 t b =
      if (buffer + i <=? b) && (b <? buffer + k) then 48 else load8 m b)).
    - intros b. bsimp; reflexivity.
    - intros j t Hj IH b. rewrite load8_store8, IH. bsimp; reflexivity. }
  rewrite Z2Nat.id in H by lia. split.
  - apply list_eq_same_length with (Z.to_nat len); rewrite ?bytes_at_length, ?length_replicate; [reflexivity..|].
    intros k x y Hk. rewrite bytes_at_lookup, lookup_replicate by lia. intros [= <-] [-> _].
    rewrite H. bsimp; reflexivity.
  - intros b Hb. rewrite H. bsimp; reflexivity.
Qed.

Lemma digits_val_zeros base n s : digits_val base (replicate n 48 ++ s) = digits_val base s.
Proof.
  unfold digits_val. rewrite foldl_app. f_equal.
  induction n as [|n IH]; [reflexivity|]. simpl. exact IH.
Qed.

(** Decimal output of the numbers that fit the 8 places of [itoa]. *)
Lemma itoa_dec m num buffer :
  0 < num < 10 ^ 8 ->
  exists m' s, itoa m num buffer 10 = Some (m', buffer) /\ cstr m' buffer s /\
    s = reverse (digits_le 8 num 10) /\ digits_val 10 s = num /\
    same_outside buffer (buffer + 9) m m'.
Proof.
  intros Hn. unfold itoa. cbn [Z.eqb Pos.eqb]. rewrite andb_false_r.
  destruct (itoa_digits_spec (Z.to_nat 8) m buffer 0 num 10) as (m1 & len & E & _ & Hb & Ho); [lia..|].
  change (Z.to_nat 8) with 8%nat in *. rewrite E. clear E.
  set (l := digits_le 8 num 10) in *. rewrite Z.add_0_r in Hb, Ho. rewrite ?Z.add_0_l.
  pose proof (digits_le_length 8 num 10) as Hlen. fold l in Hlen.
  assert (Hc : cstr (store8 m1 (buffer + Z.of_nat (length l)) 0) buffer l).
  { apply cstr_of_bytes; [|apply digits_le_nonnul; lia|autorewrite with memory; reflexivity].
    transitivity (bytes_at m1 buffer (length l)); [|exact Hb].
    apply bytes_at_eq. intros i Hi. apply load8_store8_ne. lia. }
  assert (l <> []) by (intros Hnil; apply digits_le_nil in Hnil; lia).
  pose proof (strrev_cstr _ _ _ Hc) as Hrev. destruct (strrev _ _) as [m' r].
  destruct Hrev as (-> & Hcs & Hos); [assumption|].
  exists m', (reverse l). split; [reflexivity|]. split; [assumption|]. split; [reflexivity|].
  split; [apply digits_le_val; lia|].
  intros b Hbd. rewrite Hos, load8_store8_ne, Ho by lia. reflexivity.
Qed.

(** The eight hexadecimal digits of a word. *)
Definition hex8 (num : Z) : list Z :=
  reverse (digits_le 8 num 16 ++ replicate (8 - length (digits_le 8 num 16)) 48).

Lemma hex8_length num : length (hex8 num) = 8%nat.
Proof.
  unfold hex8. rewrite length_reverse, length_app, length_replicate. pose proof (digits_le_length 8 num 16). lia.
Qed.

Lemma hex8_val num : 0 <= num < 0x100000000 -> digits_val 16 (hex8 num) = num.
Proof.
  intros H. unfold hex8. rewrite reverse_app, reverse_replicate, digits_val_zeros. apply digits_le_val; lia.
Qed.

Lemma digits_le_hex k num : Forall (fun c => 48 <= c <= 57 \/ 65 <= c <= 70) (digits_le k num 16).
Proof.
  revert num. induction k as [|k IH]; intros num; cbn [digits_le]; destruct (num =? 0); auto.
  constructor; [|apply IH]. pose proof (Z.mod_pos_bound num 16 ltac:(lia)). unfold digit_char. bsimp.
Qed.

Lemma hex8_chars num : Forall (fun c => 48 <= c <= 57 \/ 65 <= c <= 70) (hex8 num).
Proof.
  unfold hex8. apply Forall_reverse, Forall_app. split; [apply digits_le_hex|]. apply Forall_replicate. lia.
Qed.

Lemma itoa_hex m num buffer :
  0 <= num < 0x100000000 ->
  exists m', itoa m num buffer 16 = Some (m', buffer) /\ cstr m' buffer (hex8 num) /\ same_outside buffer (buffer + 9) m m'.
Proof.
  intros Hn. unfold itoa. cbn [Z.eqb Pos.eqb]. rewrite andb_false_r.
  destruct (itoa_digits_spec (Z.to_nat 8) m buffer 0 num 16) as (m1 & len & E & Hl & Hb & Ho); [lia..|].
  change (Z.to_nat 8) with 8%nat in *. rewrite E. clear E. specialize (Hl ltac:(lia)).
  set (l := digits_le 8 num 16) in *. rewrite Z.add_0_r in Hb, Ho. rewrite ?Z.add_0_l.
  pose proof (digits_le_length 8 num 16) as Hlen. fold l in Hlen.
  destruct (Z.ltb_spec len 0); [lia|].
  pose proof (pad_loop m1 buffer (Z.of_nat (length l)) len ltac:(lia)) as [Hp Hpo].
  set (m2 := for_up _ _ _ _) in *. set (l2 := l ++ replicate (Z.to_nat len) 48).
  assert (Hl2 : length l2 = 8%nat) by (unfold l2; rewrite length_app, length_replicate; lia).
  replace (Z.of_nat (length l) + len) with (Z.of_nat (length l2)) by lia.
  assert (Hc : cstr (store8 m2 (buffer + Z.of_nat (length l2)) 0) buffer l2).
  { apply cstr_of_bytes; [| |autorewrite with memory; reflexivity].
    - transitivity (bytes_at m2 buffer (length l2)).
      { apply bytes_at_eq. intros i Hi. apply load8_store8_ne. lia. }
      unfold l2. rewrite length_app, length_replicate, bytes_at_app, Hp. f_equal.
      rewrite (bytes_at_frame _ _ _ _ _ _ Hpo) by lia. exact Hb.
    - apply Forall_app. split; [apply digits_le_nonnul; lia|]. apply Forall_replicate. lia. }
  assert (l2 <> []) by (intros ->; discriminate).
  pose proof (strrev_cstr _ _ _ Hc) as Hrev. destruct (strrev _ _) as [m' r].
  destruct Hrev as (-> & Hcs & Hos); [assumption|].
  exists m'. split; [reflexivity|]. split.
  - unfold hex8. fold l. replace (8 - length l)%nat with (Z.to_nat len) by lia. assumption.
  - intros b Hbd. rewrite Hos, load8_store8_ne, Hpo, Ho by lia. reflexivity.
Qed.

(** ** Reading numbers *)

Lemma digit_char_isdigit c : isdigit c = true -> s8 c = c /\ digit_val c = c - 48 /\ 0 <= c - 48 <= 9.
Proof. unfold isdigit, digit_val, s8. intros. rewrite Z.mod_small by lia. bsimp. Qed.

Lemma digits_val_mono base s acc :
  1 <= base -> 0 <= acc -> Forall (fun c => isdigit c = true) s ->
  acc <= foldl (fun acc c => acc * base + digit_val c) acc s.
Proof.
  intros Hb. revert acc. induction s as [|c s IH]; intros acc Ha Hs; simpl; [lia|].
  apply Forall_cons in Hs as [Hc Hs]. pose proof (digit_char_isdigit c Hc).
  etransitivity; [|apply IH; [nia|assumption]]. nia.
Qed.

Lemma atoi_loop m p s n acc :
  (forall i, 0 <= i < Z.of_nat (length s) -> s !! Z.to_nat i = Some (load8 m (p + (n + i)))) ->
  Forall (fun c => isdigit c = true) s -> 0 <= acc ->
  foldl (fun acc c => acc * 10 + digit_val c) acc s < 0x80000000 ->
  for_up (length s) n (atoi_step m p) acc = foldl (fun acc c => acc * 10 + digit_val c) acc s.
Proof.
  revert n acc. induction s as [|c s IH]; intros n acc Hl Hd Ha Hmax; [reflexivity|].
  cbn [length for_up foldl] in *. apply Forall_cons in Hd as [Hc Hd].
  pose proof (digit_char_isdigit c Hc) as (Hs8 & Hv & Hr).
  assert (E : load8 m (p + n) = c).
  { specialize (Hl 0 ltac:(lia)). simpl in Hl. rewrite Z.add_0_r in Hl. congruence. }
  assert (Estep : atoi_step m p n acc = acc * 10 + digit_val c).
  { unfold atoi_step, char_at. rewrite E, Hs8, Hc.
    pose proof (digits_val_mono 10 s (acc * 10 + digit_val c)) as Hm.
    rewrite Hv in *. apply s32_small. specialize (Hm ltac:(lia) ltac:(lia) Hd). lia. }
  rewrite Estep. apply IH; [|assumption|lia|assumption].
  intros i Hi. specialize (Hl (i + 1) ltac:(lia)).
  replace (Z.to_nat (i + 1)) with (S (Z.to_nat i)) in Hl by lia. simpl in Hl.
  rewrite Hl. do 2 f_equal. lia.
Qed.

(** [atoi] of a digit string that fits an [int]. *)
Lemma atoi_digits m p s :
  cstr m p s -> Forall (fun c => isdigit c = true) s -> digits_val 10 s < 0x80000000 ->
  atoi m p = digits_val 10 s.
Proof.
  intros Hc Hd Hmax. unfold atoi. rewrite (strlen_cstr _ _ _ Hc), Nat2Z.id.
  rewrite (atoi_loop m p s 0 0); [|intros i Hi; apply cstr_lookup; assumption|assumption|lia|assumption].
  replace (char_at m p =? 45) with false; [apply Z.mul_1_l|]. symmetry. apply Z.eqb_neq. unfold char_at.
  destruct s as [|c s].
  - destruct Hc as [_ (_ & Hz & _)]. simpl in Hz. rewrite Z.add_0_r in Hz. rewrite Hz. discriminate.
  - pose proof (cstr_lookup m p (c :: s) 0 Hc ltac:(simpl; lia)) as L. simpl in L.
    rewrite Z.add_0_r in L. injection L as ->. apply Forall_cons in Hd as [Hd _].
    pose proof (digit_char_isdigit _ Hd). lia.
Qed.

Lemma digits_le_isdigit k num : 0 <= num -> Forall (fun c => isdigit c = true) (digits_le k num 10).
Proof.
  revert num. induction k as [|k IH]; intros num Hn; simpl; destruct (num =? 0); auto.
  pose proof (Z.mod_pos_bound num 10 ltac:(lia)). constructor.
  - unfold isdigit, digit_char. bsimp; reflexivity.
  - apply IH. apply Z.div_pos; lia.
Qed.

(** Printing a number below 10^8 in decimal and reading it back gives the
    number; the buffer is a string of at most 8 digits and nothing outside its
    9 bytes changes. *)
Theorem itoa_atoi_roundtrip m num buffer :
  0 < num < 10 ^ 8 ->
  exists m' s, itoa m num buffer 10 = Some (m', buffer) /\ cstr m' buffer s /\
    atoi m' buffer = num /\ same_outside buffer (buffer + 9) m m'.
Proof.
  intros Hn. destruct (itoa_dec m num buffer Hn) as (m' & s & E & Hc & Hs & Hv & Ho).
  exists m', s. split; [assumption|]. split; [assumption|]. split; [|assumption].
  rewrite (atoi_digits m' buffer s); [assumption|assumption| |lia].
  subst s. apply Forall_reverse, digits_le_isdigit. lia.
Qed.

Lemma itoa_atoi_roundtrip_witness :
  exists m' s, itoa ∅ 65536 0x2000 10 = Some (m', 0x2000) /\ cstr m' 0x2000 s /\
    atoi m' 0x2000 = 65536 /\ same_outside 0x2000 0x2009 ∅ m'.
Proof. apply (itoa_atoi_roundtrip ∅ 65536 0x2000). lia. Defined.

(** Hexadecimal printing is total and exact on all 32-bit words: always 8
    digits, whose value is the number. *)
Theorem itoa_hex_exact m num buffer :
  0 <= num < 0x100000000 ->
  exists m' s, itoa m num buffer 16 = Some (m', buffer) /\ cstr m' buffer s /\
    length s = 8%nat /\ digits_val 16 s = num /\ same_outside buffer (buffer + 9) m m'.
Proof.
  intros H. destruct (itoa_hex m num buffer H) as (m' & E & Hc & Hf). exists m', (hex8 num).
  split; [exact E|]. split; [exact Hc|]. split; [apply hex8_length|]. split; [apply hex8_val; exact H|exact Hf].
Qed.

Lemma itoa_hex_exact_witness :
  exists m' s, itoa ∅ 0xCAFEBABE 0x2000 16 = Some (m', 0x2000) /\ cstr m' 0x2000 s /\
    length s = 8%nat /\ digits_val 16 s = 0xCAFEBABE /\ same_outside 0x2000 0x2009 ∅ m'.
Proof. apply (itoa_hex_exact ∅ 0xCAFEBABE 0x2000). lia. Defined.

(** [log10] of a positive word is the position of its leading decimal
    digit. *)
Theorem log10_leading_digit v :
  0 < u32 v -> 10 ^ log10 v <= u32 v < 10 ^ (log10 v + 1).
Proof.
  intros Hv. pose proof (u32_range v). unfold log10.
  repeat match goal with |- context [?a <=? ?b] => destruct (Z.leb_spec a b) end; simpl; lia.
Qed.

Lemma log10_leading_digit_witness : 10 ^ log10 4096 <= u32 4096 < 10 ^ (log10 4096 + 1).
Proof. apply log10_leading_digit. reflexivity. Defined.

(** [pow(n, x)] returns [n] whatever [x] is: the guard [if (x = 0)] assigns. *)
Lemma pow_returns_base n x : pow n x = n.
Proof. reflexivity. Qed.
