(* ===== verification/Float64.v ===== *)
(** * The C type double

    The [double] of the number conversions: an IEEE binary64 value, with
    comparison, multiplication and subtraction rounded to nearest even as the
    Standard Library's executable specification defines them.  [dbl n e] is the
    double nearest to [n * 2^e]; the lemmas say that the operations are exact
    on numbers that need no more than 53 bits. *)

From stdpp Require Import base numbers list.
From Stdlib Require Import ZArith Lia SpecFloat.
From S2P Require Import Prelude.
Open Scope Z_scope.

(** ** The operations *)

Abbreviation double := spec_float.

Definition dbl (n e : Z) : double := binary_normalize 53 1024 n e false.

(** The conversion from an integer type. *)
Definition double_of_int (z : Z) : double := dbl z 0.

Definition dmul (x y : double) : double := SFmul 53 1024 x y.
Definition dsub (x y : double) : double := SFsub 53 1024 x y.
Definition dge (x y : double) : bool := SFleb y x.

(** The conversion to [int] drops the fraction; outside the range of [int] and
    on the special values the C conversion is undefined. *)
Definition trunc (x : double) : option Z :=
  match x with
  | S754_zero _ => Some 0
  | S754_finite s m e =>
      let a := Z.shiftl (Zpos m) e in
      Some (if s then - a else a)
  | _ => None
  end.
Definition int_of_double (x : double) : option Z :=
  match trunc x with
  | Some z => if (-0x80000000 <=? z) && (z <? 0x80000000) then Some z else None
  | None => None
  end.

(** ** Digits and shifts *)

Lemma digits2_bound m : 2 ^ (Zpos (digits2_pos m) - 1) <= Zpos m < 2 ^ Zpos (digits2_pos m).
Proof.
  induction m as [m IH|m IH|]; cbn [digits2_pos]; [| |cbn; lia];
    rewrite Pos2Z.inj_succ; replace (Z.succ (Zpos (digits2_pos m)) - 1) with (Z.succ (Zpos (digits2_pos m) - 1)) by lia;
    rewrite !Z.pow_succ_r by lia; lia.
Qed.

Lemma digits2_unique m d : 0 < d -> 2 ^ (d - 1) <= Zpos m < 2 ^ d -> Zpos (digits2_pos m) = d.
Proof.
  intros Hd [H1 H2]. destruct (digits2_bound m) as [B1 B2].
  assert (d - 1 < Zpos (digits2_pos m)) by (apply (Z.pow_lt_mono_r_iff 2); lia).
  assert (Zpos (digits2_pos m) - 1 < d) by (apply (Z.pow_lt_mono_r_iff 2); lia). lia.
Qed.

Lemma digits2_shift c k m : 2 ^ 52 <= c < 2 ^ 53 -> 0 <= k -> Zpos m = c * 2 ^ k -> Zpos (digits2_pos m) = 53 + k.
Proof.
  intros Hc Hk E. apply digits2_unique; [lia|]. rewrite E.
  replace (53 + k - 1) with (52 + k) by lia. rewrite !Z.pow_add_r by lia.
  assert (0 < 2 ^ k) by lia. nia.
Qed.

(** Shifting out zeros loses nothing. *)
Lemma shr_1_even x : 0 < x ->
  shr_1 {| shr_m := 2 * x; shr_r := false; shr_s := false |} = {| shr_m := x; shr_r := false; shr_s := false |}.
Proof. destruct x as [|x|x]; [lia|reflexivity|lia]. Qed.

Lemma shr_exact p c e : 0 < c ->
  shr {| shr_m := c * 2 ^ Zpos p; shr_r := false; shr_s := false |} e (Zpos p) =
    ({| shr_m := c; shr_r := false; shr_s := false |}, e + Zpos p).
Proof.
  intros Hc. unfold shr. f_equal. revert c Hc. induction p as [p IH|p IH|]; intros c Hc; cbn [iter_pos].
  - replace (c * 2 ^ Zpos p~1) with (2 * ((c * 2 ^ Zpos p) * 2 ^ Zpos p)).
    2: { rewrite (Pos2Z.inj_xI p), Z.pow_add_r, Z.pow_twice_r by lia. ring. }
    rewrite shr_1_even by (apply Z.mul_pos_pos; [apply Z.mul_pos_pos|]; lia).
    rewrite !IH by (try apply Z.mul_pos_pos; lia). reflexivity.
  - rewrite (Pos2Z.inj_xO p), Z.pow_twice_r, Z.mul_assoc, !IH by (try apply Z.mul_pos_pos; lia). reflexivity.
  - rewrite Z.pow_1_r, Z.mul_comm. apply shr_1_even. assumption.
Qed.

Lemma iter_xO m d : Zpos (Pos.iter xO m d) = Zpos m * 2 ^ Zpos d.
Proof.
  induction d as [|d IH] using Pos.peano_ind; [cbn; lia|].
  rewrite Pos.iter_succ, Pos2Z.inj_xO, IH, Pos2Z.inj_succ, Z.pow_succ_r by lia. ring.
Qed.

(** ** The canonical form *)

Definition exponent_ok (e : Z) : Prop := -1000 <= e <= 800.

Lemma fexp_normal d e : exponent_ok e -> 0 <= d <= 200 -> fexp 53 1024 (d + e) = d + e - 53.
Proof. unfold exponent_ok, fexp, emin. lia. Qed.

(** Rounding a number that is a 53-bit significand times a power of two. *)
Lemma round_aux_exact c k e s :
  2 ^ 52 <= c < 2 ^ 53 -> 0 <= k <= 120 -> exponent_ok e ->
  binary_round_aux 53 1024 s (c * 2 ^ k) e loc_Exact = S754_finite s (Z.to_pos c) (e + k).
Proof.
  intros Hc Hk He. unfold binary_round_aux, shr_fexp. cbn [shr_record_of_loc].
  assert (Hm : 0 < c * 2 ^ k) by (apply Z.mul_pos_pos; lia).
  destruct (c * 2 ^ k) as [|m|m] eqn:Em; [lia| |lia]. cbn [Zdigits2].
  rewrite (digits2_shift c k m), fexp_normal by (assumption || lia || (symmetry; exact Em)).
  replace (53 + k + e - 53 - e) with k by lia. rewrite <- Em.
  assert (E1 : shr {| shr_m := c * 2 ^ k; shr_r := false; shr_s := false |} e k =
    ({| shr_m := c; shr_r := false; shr_s := false |}, e + k)).
  { destruct k as [|k|k]; [|apply shr_exact; lia|lia]. cbn [shr]. rewrite Z.pow_0_r, Z.mul_1_r, Z.add_0_r. reflexivity. }
  rewrite E1. cbn [shr_m loc_of_shr_record round_nearest_even].
  destruct c as [|c|c]; [lia| |lia]. cbn [Zdigits2 Z.to_pos].
  rewrite (digits2_unique c 53) by lia. unfold exponent_ok in *.
  replace (fexp 53 1024 (53 + (e + k)) - (e + k)) with 0 by (unfold fexp, emin; lia).
  cbn [shr shr_m]. replace (e + k <=? 1024 - 53) with true by lia. reflexivity.
Qed.

(** Every non-zero double in range is its canonical form. *)
Lemma dbl_canonical c k e :
  2 ^ 52 <= c < 2 ^ 53 -> 0 <= k <= 120 -> exponent_ok e -> dbl (c * 2 ^ k) e = S754_finite false (Z.to_pos c) (e + k).
Proof.
  intros Hc Hk He. unfold dbl, binary_normalize.
  assert (Hm : 0 < c * 2 ^ k) by (apply Z.mul_pos_pos; lia).
  destruct (c * 2 ^ k) as [|m|m] eqn:Em; [lia| |lia].
  unfold binary_round, shl_align. rewrite (digits2_shift c k m), fexp_normal by (assumption || lia || (symmetry; exact Em)).
  replace (53 + k + e - 53 - e) with k by lia.
  destruct k as [|k|k]; [| |lia]; rewrite <- Em; apply round_aux_exact; assumption.
Qed.

Lemma dbl_canonical_up m d e :
  0 < m -> 0 <= d -> 2 ^ 52 <= m * 2 ^ d < 2 ^ 53 -> exponent_ok e -> exponent_ok (e - d) ->
  dbl m e = S754_finite false (Z.to_pos (m * 2 ^ d)) (e - d).
Proof.
  intros Hm Hd Hc He He'. destruct (Z.eq_dec d 0) as [->|].
  { rewrite Z.pow_0_r, Z.mul_1_r in *. replace m with (m * 2 ^ 0) at 1 by lia. rewrite dbl_canonical by lia || assumption.
    f_equal; lia. }
  assert (d <= 52).
  { destruct (Z.le_gt_cases d 52); [assumption|]. assert (2 ^ 53 <= 2 ^ d) by (apply Z.pow_le_mono_r; lia). nia. }
  destruct m as [|m|m]; [lia| |lia]. unfold dbl, binary_normalize, binary_round, shl_align.
  assert (Ed : Zpos (digits2_pos m) = 53 - d).
  { apply digits2_unique; [lia|]. split.
    - apply (Z.mul_le_mono_pos_r _ _ (2 ^ d)); [lia|]. rewrite <- Z.pow_add_r by lia. replace (53 - d - 1 + d) with 52 by lia. lia.
    - apply (Z.mul_lt_mono_pos_r (2 ^ d)); [lia|]. rewrite <- Z.pow_add_r by lia. replace (53 - d + d) with 53 by lia. lia. }
  rewrite Ed. unfold exponent_ok in *. replace (fexp 53 1024 (53 - d + e)) with (e - d) by (unfold fexp, emin; lia).
  replace (e - d - e) with (- d) by lia. destruct d as [|d|d]; [lia| |lia]. change (- Zpos d) with (Zneg d). cbv iota.
  change (Zpos (PosDef.Pos.iter xO m d)) with (Zpos (Pos.iter xO m d)). rewrite iter_xO. replace (Zpos m * 2 ^ Zpos d) with (Zpos m * 2 ^ Zpos d * 2 ^ 0) at 1 by lia.
  rewrite round_aux_exact by (unfold exponent_ok; lia). f_equal; lia.
Qed.

(** The significand scaled to 53 bits. *)
Lemma scale_exists n : 0 < n < 2 ^ 53 -> exists d, 0 <= d <= 52 /\ 2 ^ 52 <= n * 2 ^ d < 2 ^ 53.
Proof.
  intros Hn. exists (52 - Z.log2 n). destruct (Z.log2_spec n) as [H1 H2]; [lia|].
  assert (Hl : 0 <= Z.log2 n < 53) by (split; [apply Z.log2_nonneg|apply Z.log2_lt_pow2; lia]).
  split; [lia|]. assert (E : 2 ^ 52 = 2 ^ Z.log2 n * 2 ^ (52 - Z.log2 n)) by (rewrite <- Z.pow_add_r by lia; f_equal; lia).
  assert (E' : 2 ^ 53 = 2 ^ Z.succ (Z.log2 n) * 2 ^ (52 - Z.log2 n)) by (rewrite <- Z.pow_add_r by lia; f_equal; lia).
  assert (0 < 2 ^ (52 - Z.log2 n)) by lia. split; nia.
Qed.

Definition small_exponent (e : Z) : Prop := -200 <= e <= 200.

Lemma dbl_finite n e : 0 < n < 2 ^ 53 -> small_exponent e ->
  exists d, 0 <= d <= 52 /\ 2 ^ 52 <= n * 2 ^ d < 2 ^ 53 /\ dbl n e = S754_finite false (Z.to_pos (n * 2 ^ d)) (e - d).
Proof.
  intros Hn He. destruct (scale_exists n Hn) as (d & Hd & Hc). exists d. split; [assumption|]. split; [assumption|].
  unfold small_exponent in *. apply dbl_canonical_up; (lia || unfold exponent_ok; lia).
Qed.

(** Trailing zeros can move into the exponent. *)
Lemma dbl_shift n e j : 0 <= n < 2 ^ 53 -> 0 <= j <= 120 -> small_exponent e -> small_exponent (e + j) ->
  dbl (n * 2 ^ j) e = dbl n (e + j).
Proof.
  intros Hn Hj He He'. destruct (Z.eq_dec n 0) as [->|]; [reflexivity|].
  destruct (dbl_finite n (e + j)) as (d & Hd & Hc & ->); [lia|assumption|].
  unfold small_exponent in *. destruct (Z.le_gt_cases d j).
  - replace (n * 2 ^ j) with (n * 2 ^ d * 2 ^ (j - d)) by (rewrite <- Z.mul_assoc, <- Z.pow_add_r by lia; do 2 f_equal; lia).
    rewrite dbl_canonical by (unfold exponent_ok; lia). f_equal; lia.
  - assert (E : n * 2 ^ j * 2 ^ (d - j) = n * 2 ^ d) by (rewrite <- Z.mul_assoc, <- Z.pow_add_r by lia; do 2 f_equal; lia).
    rewrite (dbl_canonical_up _ (d - j)), E by ((rewrite E; assumption) || (unfold exponent_ok; lia) ||
      (apply Z.mul_pos_pos; lia)). f_equal; lia.
Qed.

(** ** The operations are exact on 53 bits *)

Lemma double_of_int_scaled z k : 0 <= z < 2 ^ 53 -> 0 <= k <= 120 -> double_of_int z = dbl (z * 2 ^ k) (- k).
Proof.
  intros Hz Hk. rewrite dbl_shift by (unfold small_exponent; lia). unfold double_of_int. f_equal. lia.
Qed.

Lemma dmul_exact a b ea eb :
  0 <= a < 2 ^ 53 -> 0 <= b < 2 ^ 53 -> a * b < 2 ^ 53 ->
  small_exponent ea -> small_exponent eb -> small_exponent (ea + eb) ->
  dmul (dbl a ea) (dbl b eb) = dbl (a * b) (ea + eb).
Proof.
  intros Ha Hb Hab Hea Heb Hee. unfold dmul. destruct (Z.eq_dec a 0) as [->|].
  { destruct (Z.eq_dec b 0) as [->|]; [reflexivity|]. destruct (dbl_finite b eb) as (d & _ & _ & ->); [lia|assumption|].
    reflexivity. }
  destruct (dbl_finite a ea) as (da & Hda & Hca & ->); [lia|assumption|].
  destruct (Z.eq_dec b 0) as [->|]; [rewrite Z.mul_0_r; reflexivity|].
  destruct (dbl_finite b eb) as (db & Hdb & Hcb & ->); [lia|assumption|].
  destruct (dbl_finite (a * b) (ea + eb)) as (d & Hd & Hc & ->); [nia|assumption|].
  assert (Hp : a * 2 ^ da * (b * 2 ^ db) = a * b * 2 ^ (da + db)) by (rewrite Z.pow_add_r by lia; ring).
  assert (Hk : d <= da + db).
  { destruct (Z.le_gt_cases d (da + db)); [assumption|].
    assert (2 ^ (da + db) <= 2 ^ d) by (apply Z.pow_le_mono_r; lia).
    assert (2 ^ 52 * 2 ^ 52 <= a * b * 2 ^ (da + db)) by (rewrite <- Hp; apply Z.mul_le_mono_nonneg; lia).
    assert (a * b * 2 ^ (da + db) <= a * b * 2 ^ d) by (apply Z.mul_le_mono_nonneg_l; lia). lia. }
  unfold SFmul. rewrite Pos2Z.inj_mul, !Z2Pos.id, Hp by lia.
  replace (a * b * 2 ^ (da + db)) with (a * b * 2 ^ d * 2 ^ (da + db - d))
    by (rewrite <- Z.mul_assoc, <- Z.pow_add_r by lia; do 2 f_equal; lia).
  unfold small_exponent in *. rewrite round_aux_exact by (unfold exponent_ok; lia). cbn [xorb]. f_equal. lia.
Qed.

Lemma shl_align_val m ex ez : ez <= ex -> Zpos (fst (shl_align m ex ez)) = Zpos m * 2 ^ (ex - ez).
Proof.
  intros He. unfold shl_align. change (IntDef.Z.sub ez ex) with (ez - ex).
  replace (ex - ez) with (- (ez - ex)) by lia. destruct (ez - ex) as [|p|p] eqn:E; [cbn; lia|lia|].
  cbn [fst Z.opp]. apply iter_xO.
Qed.

Lemma dsub_exact a b e : 0 <= b <= a -> a < 2 ^ 53 -> small_exponent e -> small_exponent (e - 52) ->
  dsub (dbl a e) (dbl b e) = dbl (a - b) e.
Proof.
  intros Hb Ha He He'. unfold dsub. destruct (Z.eq_dec a 0) as [->|].
  { replace b with 0 by lia. reflexivity. }
  destruct (dbl_finite a e) as (da & Hda & Hca & Ea); [lia|assumption|].
  destruct (Z.eq_dec b 0) as [->|]; [rewrite Ea, Z.sub_0_r, Ea; reflexivity|].
  destruct (dbl_finite b e) as (db & Hdb & Hcb & Eb); [lia|assumption|]. rewrite Ea, Eb.
  unfold SFsub. cbn [cond_Zopp]. rewrite !shl_align_val, !Z2Pos.id by lia.
  set (mx := Z.max da db). replace (Z.min (e - da) (e - db)) with (e - mx) by lia.
  replace (e - da - (e - mx)) with (mx - da) by lia. replace (e - db - (e - mx)) with (mx - db) by lia.
  rewrite <- !Z.mul_assoc, <- !Z.pow_add_r by lia.
  replace (da + (mx - da)) with mx by lia. replace (db + (mx - db)) with mx by lia.
  rewrite <- Z.mul_sub_distr_r. fold (dbl ((a - b) * 2 ^ mx) (e - mx)).
  unfold small_exponent in *. rewrite dbl_shift by (unfold small_exponent; lia). f_equal. lia.
Qed.

Lemma trunc_dbl n e : 0 <= n < 2 ^ 53 -> small_exponent e -> trunc (dbl n e) = Some (Z.shiftl n e).
Proof.
  intros Hn He. destruct (Z.eq_dec n 0) as [->|]; [rewrite Z.shiftl_0_l; reflexivity|].
  destruct (dbl_finite n e) as (d & Hd & Hc & ->); [lia|assumption|]. unfold trunc.
  rewrite Z2Pos.id by lia. rewrite <- Z.shiftl_mul_pow2, Z.shiftl_shiftl by lia. do 2 f_equal. lia.
Qed.

Lemma int_of_double_frac n k : 0 <= n < 2 ^ 53 -> 0 <= k <= 200 -> n / 2 ^ k < 0x80000000 ->
  int_of_double (dbl n (- k)) = Some (n / 2 ^ k).
Proof.
  intros Hn Hk Hi. unfold int_of_double. rewrite trunc_dbl by (unfold small_exponent; lia).
  rewrite Z.shiftl_opp_r, Z.shiftr_div_pow2 by lia.
  assert (0 <= n / 2 ^ k) by (apply Z.div_pos; lia).
  replace ((-0x80000000 <=? n / 2 ^ k) && (n / 2 ^ k <? 0x80000000)) with true by lia. reflexivity.
Qed.

(** Significands of 53 bits compare as their exponents do. *)
Lemma scaled_lt a b da db : 0 <= da -> 0 <= db < da -> 2 ^ 52 <= b * 2 ^ db -> a * 2 ^ da < 2 ^ 53 -> a < b.
Proof.
  intros Ha Hb H1 H2. apply (Z.mul_lt_mono_pos_r (2 ^ da)); [lia|].
  replace da with (db + (da - db)) at 2 by lia. rewrite Z.pow_add_r, Z.mul_assoc by lia.
  assert (2 ^ 1 <= 2 ^ (da - db)) by (apply Z.pow_le_mono_r; lia). nia.
Qed.

Lemma dge_dbl a b e j : 0 <= a < 2 ^ 53 -> 0 <= b < 2 ^ 53 -> 0 <= j <= 120 -> small_exponent e -> small_exponent (e + j) ->
  dge (dbl a e) (dbl b (e + j)) = (b * 2 ^ j <=? a).
Proof.
  intros Ha Hb Hj He He'. unfold dge, SFleb. assert (Hp : 0 < 2 ^ j) by lia.
  destruct (Z.eq_dec b 0) as [->|].
  { destruct (Z.eq_dec a 0) as [->|]; [reflexivity|].
    destruct (dbl_finite a e) as (d & _ & _ & ->); [lia|assumption|]. cbn. lia. }
  destruct (dbl_finite b (e + j)) as (db & Hdb & Hcb & ->); [lia|assumption|].
  destruct (Z.eq_dec a 0) as [->|]; [cbn; symmetry; apply Z.leb_gt; nia|].
  destruct (dbl_finite a e) as (da & Hda & Hca & ->); [lia|assumption|]. unfold SFcompare.
  change (IntDef.Z.compare (e + j - db) (e - da)) with (e + j - db ?= e - da).
  destruct (Z.compare_spec (e + j - db) (e - da)) as [Hee|Hlt|Hgt].
  - assert (db = da + j) as -> by lia.
    change (PosDef.Pos.compare_cont Eq (Z.to_pos (b * 2 ^ (da + j))) (Z.to_pos (a * 2 ^ da)))
      with (Pos.compare (Z.to_pos (b * 2 ^ (da + j))) (Z.to_pos (a * 2 ^ da))).
    rewrite Pos2Z.inj_compare, !Z2Pos.id by lia.
    replace (b * 2 ^ (da + j)) with (b * 2 ^ j * 2 ^ da) by (rewrite Z.pow_add_r by lia; ring).
    rewrite <- Zmult_compare_compat_r by lia. destruct (Z.compare_spec (b * 2 ^ j) a); lia.
  - assert (b * 2 ^ j * 2 ^ (db - j) = b * 2 ^ db) by (rewrite <- Z.mul_assoc, <- Z.pow_add_r by lia; do 2 f_equal; lia).
    pose proof (scaled_lt (b * 2 ^ j) a (db - j) da). lia.
  - destruct (Z.le_gt_cases j db).
    + assert (b * 2 ^ j * 2 ^ (db - j) = b * 2 ^ db) by (rewrite <- Z.mul_assoc, <- Z.pow_add_r by lia; do 2 f_equal; lia).
      pose proof (scaled_lt a (b * 2 ^ j) da (db - j)). lia.
    + assert (2 ^ (db + 1) <= 2 ^ j) by (apply Z.pow_le_mono_r; lia). rewrite Z.pow_add_r in * by lia.
      assert (b * (2 ^ db * 2 ^ 1) <= b * 2 ^ j) by (apply Z.mul_le_mono_nonneg_l; lia). lia.
Qed.
