(* ===== verification/Ftoa.v ===== *)
(** * ftoa and dlog10 (kernel/lib/stdlib.c, libc/usr/stdlib/ftoa.c, dlog10.c)

    Printing a [double]: the whole part, a point and four decimals.  The two
    libraries share [dlog10] and the loop for the decimals and differ in the
    loop for the whole part.  A conversion to [int] that C leaves undefined
    makes the result [None].  The theorems are about numbers [n / 2^k] with at
    most 49 fractional bits, on which no operation of the loops rounds. *)

From stdpp Require Import base numbers list gmap.
From Stdlib Require Import ZArith Lia.
From S2P Require Import Prelude Memory CString KStdlib Float64.
Open Scope Z_scope.

(** ** The code *)

Definition dlog10 (v : double) : Z :=
  if dge v (double_of_int 1000000000) then 9 else if dge v (double_of_int 100000000) then 8
  else if dge v (double_of_int 10000000) then 7 else if dge v (double_of_int 1000000) then 6
  else if dge v (double_of_int 100000) then 5 else if dge v (double_of_int 10000) then 4
  else if dge v (double_of_int 1000) then 3 else if dge v (double_of_int 100) then 2
  else if dge v (double_of_int 10) then 1 else 0.

(** Digits go from [index] down; the loop leaves early when [index] is -1. *)
Fixpoint ftoa_whole (fuel : nat) (m : mem) (str whole_part log_value i digit index : Z) : mem :=
  match fuel with
  | O => m
  | S f =>
      if i <? log_value + 2 then
        let wt := KStdlib.pow 10 i in
        let reminder := Z.rem whole_part wt in
        let digit := Z.quot (reminder - digit) (Z.quot wt 10) in
        let m := store8 m (str + index) (digit + 48) in
        let index := index - 1 in
        if index =? -1 then m else ftoa_whole f m str whole_part log_value (i + 1) digit index
      else m
  end.

(** [for (int i = 1; i < PRECISION; i++)]: four decimals after [index]. *)
Definition PRECISION : Z := 5.
Fixpoint ftoa_fraction (count : nat) (m : mem) (str index : Z) (tmp1 : double) : option mem :=
  match count with
  | O => Some m
  | S c =>
      let tmp := dmul tmp1 (double_of_int 10) in
      match int_of_double tmp with
      | Some digit =>
          ftoa_fraction c (store8 m (str + (index + 1)) (digit + 48)) str (index + 1) (dsub tmp (double_of_int digit))
      | None => None
      end
  end.

Definition ftoa (num : double) (m : mem) (str : Z) : option (mem * Z) :=
  match int_of_double num with
  | None => None
  | Some whole_part =>
      let log_value := dlog10 num in
      let m1 := memset m str 0 20 in
      let m2 := ftoa_whole (S (Z.to_nat log_value)) m1 str whole_part log_value 1 0 log_value in
      let index := log_value + 1 in
      let m3 := store8 m2 (str + index) 46 in
      let fraction_part := dsub num (double_of_int whole_part) in
      (., str) <$> ftoa_fraction (Z.to_nat (PRECISION - 1)) m3 str index fraction_part
  end.

(** libc/usr/stdlib/dlog10.c, the same text. *)
Definition user_dlog10 (v : double) : Z := dlog10 v.

(** libc/usr/stdlib/ftoa.c: [while (whole_part != 0)]; an [int] has at most
    ten digits. *)
Fixpoint user_whole (fuel : nat) (m : mem) (str i whole_part : Z) : mem :=
  match fuel with
  | O => m
  | S f =>
      if whole_part =? 0 then m
      else user_whole f (store8 m (str + i) (Z.rem whole_part 10 + 48)) str (i + 1) (Z.quot whole_part 10)
  end.
Definition user_ftoa (num : double) (m : mem) (str : Z) : option (mem * Z) :=
  match int_of_double num with
  | None => None
  | Some whole_part =>
      let log_value := user_dlog10 num in
      let fraction_part := dsub num (double_of_int whole_part) in
      let m1 := user_whole 11 m str 0 whole_part in
      let m2 := fst (strrev m1 str) in
      let index := log_value + 1 in
      let m3 := store8 m2 (str + index) 46 in
      (., str) <$> ftoa_fraction (Z.to_nat (PRECISION - 1)) m3 str index fraction_part
  end.

(** ** The decimals *)

(** The decimals of [r / d], [c] of them. *)
Fixpoint decimals (c : nat) (r d : Z) : list Z :=
  match c with
  | O => []
  | S c' => (10 * r / d + 48) :: decimals c' (10 * r mod d) d
  end.

Lemma decimals_length c r d : length (decimals c r d) = c.
Proof. revert r. induction c as [|c IH]; intros r; simpl; [reflexivity|]. rewrite IH. reflexivity. Qed.

Lemma decimals_digits c r d : 0 < d -> 0 <= r < d -> Forall (fun x => 48 <= x <= 57) (decimals c r d).
Proof.
  intros Hd. revert r. induction c as [|c IH]; intros r Hr; simpl; constructor.
  - assert (0 <= 10 * r / d) by (apply Z.div_pos; lia). assert (10 * r / d < 10) by (apply Z.div_lt_upper_bound; lia). lia.
  - apply IH. apply Z.mod_pos_bound. lia.
Qed.

(** Read as a number they are [r / d] scaled by [10^c], rounded down. *)
Lemma decimals_val_acc c r d acc : 0 < d -> 0 <= r < d ->
  foldl (fun acc x => acc * 10 + digit_val x) acc (decimals c r d) = acc * 10 ^ Z.of_nat c + 10 ^ Z.of_nat c * r / d.
Proof.
  intros Hd. revert r acc. induction c as [|c IH]; intros r acc Hr; cbn [decimals foldl].
  - change (10 ^ Z.of_nat 0) with 1. rewrite Z.mul_1_l, Z.div_small by lia. lia.
  - rewrite IH by (apply Z.mod_pos_bound; lia).
    assert (0 <= 10 * r / d) by (apply Z.div_pos; lia). assert (10 * r / d < 10) by (apply Z.div_lt_upper_bound; lia).
    unfold digit_val. replace (65 <=? 10 * r / d + 48) with false by lia.
    rewrite Nat2Z.inj_succ, Z.pow_succ_r by lia. set (p := 10 ^ Z.of_nat c).
    replace (10 * p * r) with (p * (10 * r mod d) + p * (10 * r / d) * d) by (pose proof (Z.div_mod (10 * r) d); nia).
    rewrite Z.div_add by lia. lia.
Qed.

Lemma decimals_val c r d : 0 < d -> 0 <= r < d -> digits_val 10 (decimals c r d) = 10 ^ Z.of_nat c * r / d.
Proof. intros. unfold digits_val. rewrite decimals_val_acc by assumption. lia. Qed.

Lemma ftoa_fraction_spec c k r m str index : 0 <= k <= 49 -> 0 <= r < 2 ^ k ->
  exists m', ftoa_fraction c m str index (dbl r (- k)) = Some m' /\
    bytes_at m' (str + index + 1) c = decimals c r (2 ^ k) /\
    same_outside (str + index + 1) (str + index + 1 + Z.of_nat c) m m'.
Proof.
  intros Hk. assert (Hk2 : 0 < 2 ^ k <= 2 ^ 49) by (split; [lia|apply Z.pow_le_mono_r; lia]).
  revert r m index. induction c as [|c IH]; intros r m index Hr; cbn [ftoa_fraction decimals].
  { exists m. split; [reflexivity|]. split; [reflexivity|apply same_outside_refl]. }
  assert (0 <= 10 * r / 2 ^ k) by (apply Z.div_pos; lia).
  assert (10 * r / 2 ^ k < 10) by (apply Z.div_lt_upper_bound; lia).
  change (double_of_int 10) with (dbl 10 0). rewrite dmul_exact by (unfold small_exponent; lia).
  rewrite (Z.mul_comm r 10), Z.add_0_r, int_of_double_frac by lia.
  rewrite (double_of_int_scaled _ k), dsub_exact by (unfold small_exponent; pose proof (Z.mul_div_le (10 * r) (2 ^ k)); lia).
  replace (10 * r - 10 * r / 2 ^ k * 2 ^ k) with (10 * r mod 2 ^ k) by (rewrite Z.mod_eq by lia; ring).
  destruct (IH (10 * r mod 2 ^ k) (store8 m (str + (index + 1)) (10 * r / 2 ^ k + 48)) (index + 1)) as (m' & E & Hb & Ho).
  { apply Z.mod_pos_bound. lia. }
  exists m'. split; [exact E|]. split.
  - change (S c) with (1 + c)%nat. rewrite bytes_at_app. change (?x :: ?l) with ([x] ++ l). f_equal.
    + unfold bytes_at. cbn. rewrite Ho by lia.
      replace (str + index + 1 + Z.of_nat 0) with (str + (index + 1)) by lia. autorewrite with memory. f_equal. csimp. reflexivity.
    + rewrite <- Hb. f_equal. lia.
  - intros b Hb'. rewrite Ho by lia. apply load8_store8_ne. lia.
Qed.

(** ** The whole part *)

(** [dlog10] on [n / 2^k] is [log10] of its whole part. *)
Lemma dge_const n k c : 0 <= k <= 49 -> 0 <= n < 2 ^ 53 -> 0 <= c < 2 ^ 53 ->
  dge (dbl n (- k)) (double_of_int c) = (c <=? n / 2 ^ k).
Proof.
  intros Hk Hn Hc. assert (Hp : 0 < 2 ^ k) by lia.
  unfold double_of_int. replace 0 with (- k + k) by lia. rewrite dge_dbl by (unfold small_exponent; lia).
  pose proof (Z.mul_div_le n (2 ^ k)). pose proof (Z.mul_succ_div_gt n (2 ^ k)).
  destruct (Z.leb_spec c (n / 2 ^ k)), (Z.leb_spec (c * 2 ^ k) n); try reflexivity; nia.
Qed.

Lemma dlog10_whole n k : 0 <= k <= 49 -> 0 <= n < 2 ^ 53 -> n / 2 ^ k < 0x80000000 ->
  dlog10 (dbl n (- k)) = log10 (n / 2 ^ k).
Proof.
  intros Hk Hn Hw. assert (0 <= n / 2 ^ k) by (apply Z.div_pos; lia). unfold dlog10, log10.
  rewrite !dge_const by lia. rewrite u32_small by lia. reflexivity.
Qed.

Lemma log10_bounds w : 0 < w < 0x80000000 -> 0 <= log10 w <= 9 /\ 10 ^ log10 w <= w < 10 ^ (log10 w + 1).
Proof. intros Hw. unfold log10. rewrite u32_small by lia. bsimp. Qed.

(** The kernel's loop divides by [pow(10, i)], which is 10 whatever [i] is:
    from the right it writes the last digit and zero in turn. *)
Fixpoint alternate (n : nat) (a b : Z) : list Z :=
  match n with
  | O => []
  | S n' => alternate n' b a ++ [a]
  end.

Lemma alternate_length n a b : length (alternate n a b) = n.
Proof. revert a b. induction n as [|n IH]; intros a b; simpl; [reflexivity|]. rewrite length_app, IH. simpl. lia. Qed.

Lemma alternate_Forall (P : Z -> Prop) n a b : P a -> P b -> Forall P (alternate n a b).
Proof. revert a b. induction n as [|n IH]; intros a b Ha Hb; simpl; [constructor|]. apply Forall_app_2; auto. Qed.

Lemma ftoa_whole_spec n fuel m str w L i a b :
  0 <= w -> 0 <= a < 10 -> 0 <= b < 10 -> w mod 10 = a + b -> Z.of_nat n = L + 1 - i -> (n < fuel)%nat ->
  bytes_at (ftoa_whole fuel m str w L i b (Z.of_nat n)) str (S n) = alternate (S n) (a + 48) (b + 48) /\
  same_outside str (str + Z.of_nat (S n)) m (ftoa_whole fuel m str w L i b (Z.of_nat n)).
Proof.
  intros Hw. revert n m i a b. induction fuel as [|fuel IH]; intros n m i a b Ha Hb Hd Hn Hf; [lia|].
  cbn [ftoa_whole]. replace (i <? L + 2) with true by lia. rewrite pow_returns_base.
  change (Z.quot 10 10) with 1. rewrite Z.quot_1_r, Z.rem_mod_nonneg by lia.
  replace (w mod 10 - b) with a by lia. set (m1 := store8 m (str + Z.of_nat n) (a + 48)).
  cbn [alternate]. replace (S n) with (n + 1)%nat by lia. rewrite bytes_at_app.
  assert (Hlast : forall m', load8 m' (str + Z.of_nat n) = a + 48 -> bytes_at m' (str + Z.of_nat n) 1 = [a + 48]).
  { intros m' E. unfold bytes_at. cbn. rewrite Z.add_0_r, E. reflexivity. }
  assert (E1 : load8 m1 (str + Z.of_nat n) = a + 48) by (unfold m1; autorewrite with memory; csimp; reflexivity).
  destruct n as [|n].
  - change (Z.of_nat 0 - 1 =? -1) with true. cbv iota. split; [cbn [alternate app bytes_at]; apply Hlast, E1|].
    intros c Hc. apply load8_store8_ne. lia.
  - replace (Z.of_nat (S n) - 1 =? -1) with false by (symmetry; apply Z.eqb_neq; lia). replace (Z.of_nat (S n) - 1) with (Z.of_nat n) by lia.
    destruct (IH n m1 (i + 1) b a) as [Hb1 Ho1]; [lia..|]. split.
    + rewrite Hb1. f_equal. apply Hlast. rewrite Ho1 by lia. exact E1.
    + intros c Hc. rewrite Ho1 by lia. apply load8_store8_ne. lia.
Qed.

(** What the kernel's [ftoa] prints. *)
Definition ftoa_text (w r d : Z) : list Z :=
  alternate (S (Z.to_nat (log10 w))) (w mod 10 + 48) 48 ++ [46] ++ decimals 4 r d.

Lemma log10_range w : 0 <= log10 w <= 9.
Proof. unfold log10. bsimp. Qed.

Section ftoa_run.
Context (n k : Z) (m : mem) (str : Z).
Hypothesis Hk : 0 <= k <= 49.
Hypothesis Hn : 0 <= n < 2 ^ 53.
Hypothesis Hw : n / 2 ^ k < 0x80000000.
Let w := n / 2 ^ k.
Let r := n mod 2 ^ k.

Lemma whole_nonneg : 0 <= w.
Proof using Hk Hn. apply Z.div_pos; lia. Qed.

Lemma fraction_range : 0 <= r < 2 ^ k.
Proof using Hk. apply Z.mod_pos_bound. lia. Qed.

Lemma fraction_part_exact : dsub (dbl n (- k)) (double_of_int w) = dbl r (- k).
Proof using Hk Hn Hw.
  pose proof whole_nonneg. pose proof (Z.mul_div_le n (2 ^ k)). unfold w in *.
  rewrite (double_of_int_scaled _ k), dsub_exact by (unfold small_exponent; lia).
  f_equal. unfold r. rewrite Z.mod_eq by lia. ring.
Qed.

(** The point and the decimals, after a whole part in [m2]. *)
Lemma ftoa_tail m2 :
  exists m', ftoa_fraction (Z.to_nat (PRECISION - 1)) (store8 m2 (str + (log10 w + 1)) 46) str (log10 w + 1)
      (dsub (dbl n (- k)) (double_of_int w)) = Some m' /\
    bytes_at m' (str + (log10 w + 1)) 5 = [46] ++ decimals 4 r (2 ^ k) /\
    same_outside (str + (log10 w + 1)) (str + (log10 w + 6)) m2 m'.
Proof using Hk Hn Hw.
  rewrite fraction_part_exact. change (Z.to_nat (PRECISION - 1)) with 4%nat.
  destruct (ftoa_fraction_spec 4 k r (store8 m2 (str + (log10 w + 1)) 46) str (log10 w + 1) Hk fraction_range)
    as (m' & E & Hb & Ho).
  exists m'. split; [exact E|]. split.
  - change 5%nat with (1 + 4)%nat. rewrite bytes_at_app. f_equal.
    + unfold bytes_at. cbn. rewrite Ho by lia. rewrite Z.add_0_r. autorewrite with memory. reflexivity.
    + rewrite <- Hb. f_equal; lia.
  - intros c Hc. rewrite Ho by lia. apply load8_store8_ne. lia.
Qed.

Lemma ftoa_spec :
  exists m', ftoa (dbl n (- k)) m str = Some (m', str) /\ cstr m' str (ftoa_text w r (2 ^ k)) /\
    same_outside str (str + 20) m m'.
Proof using All.
  pose proof whole_nonneg. pose proof fraction_range. pose proof (log10_range w) as HL. unfold ftoa.
  rewrite int_of_double_frac by lia. fold w. rewrite dlog10_whole by assumption. fold w.
  set (m1 := memset m str 0 20). set (m2 := ftoa_whole _ _ _ _ _ _ _ _).
  destruct (ftoa_whole_spec (Z.to_nat (log10 w)) (S (Z.to_nat (log10 w))) m1 str w (log10 w) 1 (w mod 10) 0) as [Hb2 Ho2];
    [lia|apply Z.mod_pos_bound; lia|lia..|].
  rewrite Z2Nat.id in Hb2, Ho2 by lia. fold m2 in Hb2, Ho2.
  destruct (ftoa_tail m2) as (m' & E & Hb & Ho). exists m'. rewrite E. split; [reflexivity|].
  assert (Hlen : length (ftoa_text w r (2 ^ k)) = (Z.to_nat (log10 w) + 6)%nat).
  { unfold ftoa_text. rewrite !length_app, alternate_length, decimals_length. cbn [length]. lia. }
  assert (Hout : same_outside str (str + 20) m m').
  { intros c Hc. rewrite Ho, Ho2 by lia. apply (memset_same_outside m str 0 20). lia. }
  split; [|assumption]. apply cstr_of_bytes.
  - rewrite Hlen. replace (Z.to_nat (log10 w) + 6)%nat with (S (Z.to_nat (log10 w)) + 5)%nat by lia.
    rewrite bytes_at_app. unfold ftoa_text. f_equal.
    + rewrite (bytes_at_frame _ _ _ _ _ _ Ho) by lia. rewrite Hb2. reflexivity.
    + rewrite <- Hb. f_equal; lia.
  - unfold ftoa_text. pose proof (Z.mod_pos_bound w 10). rewrite !Forall_app. split; [|split].
    + apply alternate_Forall; lia.
    + repeat constructor; lia.
    + eapply Forall_impl; [apply decimals_digits; lia|]. simpl. lia.
  - rewrite Hlen, Ho, Ho2 by lia. unfold m1. rewrite load8_memset. bsimp; try reflexivity.
Qed.
End ftoa_run.

(** The user library's loop is the digit loop of [itoa]. *)
Lemma user_whole_itoa k m str i w :
  0 <= w < 0x80000000 -> w < 10 ^ Z.of_nat k -> user_whole (S k) m str i w = fst (fst (itoa_digits k m str i w 10)).
Proof.
  revert m i w. induction k as [|k IH]; intros m i w Hw Hlt.
  - change (10 ^ Z.of_nat 0) with 1 in Hlt. replace w with 0 by lia. reflexivity.
  - cbn [user_whole itoa_digits]. destruct (Z.eqb_spec w 0); [reflexivity|].
    rewrite Z.rem_mod_nonneg, Z.quot_div_nonneg, u32_small by lia. pose proof (Z.mod_pos_bound w 10).
    replace (w mod 10 + 48) with (digit_char (w mod 10)) by (unfold digit_char; bsimp).
    rewrite Nat2Z.inj_succ, Z.pow_succ_r in Hlt by lia.
    apply IH; [dlia|apply Z.div_lt_upper_bound; lia].
Qed.

Lemma digits_le_count k w : 0 < w < 10 ^ Z.of_nat k ->
  10 ^ (Z.of_nat (length (digits_le k w 10)) - 1) <= w < 10 ^ Z.of_nat (length (digits_le k w 10)).
Proof.
  revert w. induction k as [|k IH]; intros w Hw; [simpl in Hw; lia|].
  cbn [digits_le]. replace (w =? 0) with false by lia. cbn [length].
  rewrite Nat2Z.inj_succ, Z.pow_succ_r in Hw |- * by lia. pose proof (Z.div_mod w 10). pose proof (Z.mod_pos_bound w 10).
  replace (Z.succ (Z.of_nat (length (digits_le k (w / 10) 10))) - 1) with (Z.of_nat (length (digits_le k (w / 10) 10))) by lia.
  destruct (Z.eq_dec (w / 10) 0) as [E|E].
  - rewrite E. destruct k; cbn; lia.
  - assert (Hq : 0 < w / 10 < 10 ^ Z.of_nat k) by dlia. specialize (IH _ Hq).
    set (l := Z.of_nat (length (digits_le k (w / 10) 10))) in *.
    assert (0 < l). { destruct (Z.le_gt_cases l 0); [|assumption]. replace l with 0 in IH by lia. cbn in IH. lia. }
    replace (10 ^ l) with (10 * 10 ^ (l - 1)) in * by (rewrite <- Z.pow_succ_r by lia; f_equal; lia). lia.
Qed.

Lemma digits_le_log10 w : 0 < w < 0x80000000 -> length (digits_le 10 w 10) = S (Z.to_nat (log10 w)).
Proof.
  intros Hw. destruct (log10_bounds w Hw) as [HL [H1 H2]]. destruct (digits_le_count 10 w) as [H3 H4]; [lia|].
  set (l := Z.of_nat (length (digits_le 10 w 10))) in *.
  assert (log10 w < l) by (apply (Z.pow_lt_mono_r_iff 10); lia).
  assert (l - 1 < log10 w + 1) by (apply (Z.pow_lt_mono_r_iff 10); lia). lia.
Qed.

(** ** Theorems *)

(** The kernel's [ftoa] of [n / 2^k]: the decimals are the right ones, four of
    them; the whole part is right when it has one digit, and otherwise its last
    digit and zero alternate.  The string is terminated within the 20 bytes. *)
Theorem ftoa_prints n k m str :
  0 <= k <= 49 -> 0 <= n < 2 ^ 53 -> n / 2 ^ k < 0x80000000 ->
  let w := n / 2 ^ k in
  let r := n mod 2 ^ k in
  exists m', ftoa (dbl n (- k)) m str = Some (m', str) /\
    cstr m' str (alternate (S (Z.to_nat (log10 w))) (w mod 10 + 48) 48 ++ [46] ++ decimals 4 r (2 ^ k)) /\
    digits_val 10 (decimals 4 r (2 ^ k)) = 10000 * r / 2 ^ k /\
    (w < 10 -> alternate (S (Z.to_nat (log10 w))) (w mod 10 + 48) 48 = [w + 48]) /\
    same_outside str (str + 20) m m'.
Proof.
  intros Hk Hn Hw w r. destruct (ftoa_spec n k m str Hk Hn Hw) as (m' & E & Hc & Ho).
  exists m'. split; [exact E|]. split; [exact Hc|]. split; [apply decimals_val; [lia|apply Z.mod_pos_bound; lia]|].
  split; [|assumption]. intros Hlt. assert (0 <= w) by (apply Z.div_pos; lia).
  unfold log10. rewrite u32_small by lia. rewrite Z.mod_small by lia. bsimp. reflexivity.
Qed.

(** C39: The user library's [ftoa] of [n / 2^k] with a whole part of one or more
    digits, into a buffer whose byte after these digits is zero: the digits of
    the whole part, the point and four decimals. *)
Theorem user_ftoa_decimal n k m str :
  0 <= k <= 49 -> 0 <= n < 2 ^ 53 -> 0 < n / 2 ^ k < 0x80000000 -> load8 m (str + (log10 (n / 2 ^ k) + 1)) = 0 ->
  let w := n / 2 ^ k in
  let r := n mod 2 ^ k in
  exists m' s, user_ftoa (dbl n (- k)) m str = Some (m', str) /\
    bytes_at m' str (length s + 5) = s ++ [46] ++ decimals 4 r (2 ^ k) /\
    digits_val 10 s = w /\ Z.of_nat (length s) = log10 w + 1 /\
    digits_val 10 (decimals 4 r (2 ^ k)) = 10000 * r / 2 ^ k /\
    same_outside str (str + Z.of_nat (length s) + 5) m m'.
Proof.
  intros Hk Hn [Hw0 Hw] Hz w r. pose proof (log10_range w) as HL. unfold user_ftoa, user_dlog10.
  rewrite int_of_double_frac, dlog10_whole, user_whole_itoa by lia. fold w in Hw0, Hw, Hz |- *. set (l := digits_le 10 w 10).
  destruct (itoa_digits_spec 10 m str 0 w 10) as (m1 & len & E1 & _ & Hb1 & Ho1); [lia..|].
  fold l in E1, Hb1, Ho1. rewrite E1. cbn [fst]. rewrite Z.add_0_r in Hb1, Ho1.
  assert (Hlen : Z.of_nat (length l) = log10 w + 1) by (unfold l; rewrite digits_le_log10 by lia; lia).
  assert (Hc : cstr m1 str l).
  { apply cstr_of_bytes; [exact Hb1|apply digits_le_nonnul; lia|]. rewrite Ho1, Hlen by lia. exact Hz. }
  pose proof (strrev_cstr m1 str l Hc) as Hrev. destruct (strrev m1 str) as [m2 q].
  destruct Hrev as (_ & [Hb2 _] & Ho2); [intros ->; cbn in Hlen; lia|]. cbn [fst].
  destruct (ftoa_tail n k str Hk Hn Hw m2) as (m' & E & Hb & Ho). fold w r in E, Hb, Ho.
  exists m', (reverse l). rewrite E, length_reverse in *. split; [reflexivity|]. split; [|split; [|split; [|split]]].
  - rewrite bytes_at_app, Hlen, Hb. f_equal. rewrite (bytes_at_frame _ _ _ _ _ _ Ho) by lia. exact Hb2.
  - apply digits_le_val; lia.
  - exact Hlen.
  - apply decimals_val; [lia|apply Z.mod_pos_bound; lia].
  - intros c Hc'. rewrite Ho, Ho2, Ho1 by lia. reflexivity.
Qed.

(** 3.5 is 7 / 2. *)
Lemma ftoa_prints_witness :
  exists m', ftoa (dbl 7 (- 1)) ∅ 0x1000 = Some (m', 0x1000) /\ cstr m' 0x1000 [51; 46; 53; 48; 48; 48].
Proof.
  destruct (ftoa_prints 7 1 ∅ 0x1000) as (m' & E & Hc & _); [lia|lia|reflexivity|]. exists m'. split; [exact E|exact Hc].
Defined.

Lemma user_ftoa_decimal_witness :
  exists m' s, user_ftoa (dbl 25 (- 1)) ∅ 0x1000 = Some (m', 0x1000) /\
    bytes_at m' 0x1000 (length s + 5) = s ++ [46; 53; 48; 48; 48] /\ digits_val 10 s = 12.
Proof.
  destruct (user_ftoa_decimal 25 1 ∅ 0x1000) as (m' & s & E & Hb & Hs & _);
    [lia|lia|split; reflexivity|reflexivity|]. exists m', s. split; [exact E|]. split; [exact Hb|exact Hs].
Defined.

(** 12.5 comes out as "02.5000". *)
Lemma ftoa_two_digits_wrong :
  exists m', ftoa (dbl 25 (- 1)) ∅ 0x1000 = Some (m', 0x1000) /\ cstr m' 0x1000 [48; 50; 46; 53; 48; 48; 48].
Proof.
  destruct (ftoa_prints 25 1 ∅ 0x1000) as (m' & E & Hc & _); [lia|lia|reflexivity|]. exists m'. split; [exact E|exact Hc].
Qed.

(** Below 1 the user library's loop writes no digit, and [strrev] of the empty
    string exchanges the byte before the buffer with its first byte. *)
Lemma user_ftoa_below_one :
  exists m', user_ftoa (dbl 1 (- 1)) (store8 ∅ 0xFFF 77) 0x1000 = Some (m', 0x1000) /\
    bytes_at m' 0xFFF 7 = [0; 77; 46; 53; 48; 48; 48].
Proof. eexists. split; vm_compute; reflexivity. Qed.
