(* ===== verification/Mm.v ===== *)
(** * kernel/mem/mm.c: the physical memory manager

    A bump allocator [mm_alloc] for tables that are never freed, and the page
    allocator over two 1024-bit bitmaps: the directory bitmap [PD] (one bit
    per 4 MB region) and the bitmap [PT] of the pages of the current region. *)

From stdpp Require Import base numbers list gmap.
From Stdlib Require Import ZArith Lia Sorted.
From S2P Require Import Prelude Memory CString.
Open Scope Z_scope.

Definition ERR_NO_MEM : Z := -1.
Definition MM_HEAP_MAX : Z := 0xC0300000.

Record mm_state := MkMm {
  mm_mem : mem;
  MM_CURRENT_PD : Z;
  MM_CURRENT_PT : Z;
  MM_HEAP : Z;
}.

Definition set_mem (m : mem) (s : mm_state) : mm_state :=
  MkMm m (MM_CURRENT_PD s) (MM_CURRENT_PT s) (MM_HEAP s).
Definition set_heap (h : Z) (s : mm_state) : mm_state :=
  MkMm (mm_mem s) (MM_CURRENT_PD s) (MM_CURRENT_PT s) h.
Definition set_PT (p : Z) (s : mm_state) : mm_state :=
  MkMm (mm_mem s) (MM_CURRENT_PD s) p (MM_HEAP s).
Definition set_PD (p : Z) (s : mm_state) : mm_state :=
  MkMm (mm_mem s) p (MM_CURRENT_PT s) (MM_HEAP s).

(** [MM_HEAP] is a [uint32_t*]: [MM_HEAP + n] advances by [4 * n] bytes. *)
Definition mm_alloc (n : Z) (s : mm_state) : Z * mm_state :=
  if MM_HEAP s =? 0 then (NULL, s)
  else if u32 (MM_HEAP s + 4 * n) <? MM_HEAP_MAX then
    let addr := MM_HEAP s in
    if 0x1000 <=? n
    then (addr, set_heap (u32 (MM_HEAP s + 4 * (n .& not32 0xFFF))) s)
    else (addr, set_heap (u32 (MM_HEAP s + 4 * 0x1000)) s)
  else (NULL, s).

Definition mm_bitmap_set_bit (m : mem) (b bit : Z) : mem :=
  store32 m (b + 4 * (bit / 32)) (load32 m (b + 4 * (bit / 32)) .| u32 (1 .<< (bit mod 32))).

Definition mm_bitmap_unset_bit (m : mem) (b bit : Z) : mem :=
  store32 m (b + 4 * (bit / 32)) (load32 m (b + 4 * (bit / 32)) .& not32 (1 .<< (bit mod 32))).

(** The two nested loops of [mm_first_free], over [k] words from word [q]. *)
Fixpoint first_free_loop (k : nat) (m : mem) (b q : Z) : option Z :=
  match k with
  | O => None
  | S k' =>
      let free_bits := Z.lxor (load32 m (b + 4 * q)) 0xFFFFFFFF in
      match find_up 32 0 (fun i => negb (free_bits .& u32 (1 .<< i) =? 0)) with
      | Some i => Some (i + q * 32)
      | None => first_free_loop k' m b (q + 1)
      end
  end.
Definition mm_first_free (m : mem) (b : Z) : Z :=
  match first_free_loop 32 m b 0 with
  | Some r => r
  | None => ERR_NO_MEM
  end.

Definition mm_bitmap_init (s : mm_state) : Z * mm_state :=
  let bitmap_size := 4 * 32 in
  let '(b, s1) := mm_alloc bitmap_size s in
  (b, set_mem (memset (mm_mem s1) b 0 bitmap_size) s1).

Definition mm_page_free (PD PT address : Z) (s : mm_state) : Z * mm_state :=
  let aligned := address .& not32 0x3FF in
  let pt_index := (aligned .>> 12) .& 0x3ff in
  (address, set_mem (mm_bitmap_unset_bit (mm_mem s) PT pt_index) s).

(** The branch for a full [PT] drops the value of the recursive call: control
    reaches the end of the function without a [return], and the caller gets an
    indeterminate value ([None]). *)
Fixpoint mm_page_alloc_rec (fuel : nat) (PD PT : Z) : M mm_state cval :=
  match fuel with
  | O => fun _ => Spin
  | S fuel' => fun s =>
      let ff_PD := u32 (mm_first_free (mm_mem s) PD) in
      let ff_PT := u32 (mm_first_free (mm_mem s) PT) in
      if negb (ff_PD =? u32 ERR_NO_MEM) && negb (ff_PT =? u32 ERR_NO_MEM) then
        let address := u32 (ff_PD * 0x1000 * 0x400 + ff_PT * 0x1000) in
        Ok (Some address) (set_mem (mm_bitmap_set_bit (mm_mem s) PT ff_PT) s)
      else if negb (ff_PD =? u32 ERR_NO_MEM) && (ff_PT =? u32 ERR_NO_MEM) then
        let '(PT', s1) := mm_bitmap_init s in
        let s2 := set_PT PT' s1 in
        let s3 := set_mem (mm_bitmap_set_bit (mm_mem s2) PD ff_PD) s2 in
        bind (mm_page_alloc_rec fuel' PD PT') (fun _ => ret None) s3
      else Ok (Some (u32 ERR_NO_MEM)) s
  end.
(** A second nested call never happens: the fresh bitmap is not full. *)
Definition mm_page_alloc (PD PT : Z) : M mm_state cval := mm_page_alloc_rec 3 PD PT.

Definition k_page_alloc : M mm_state cval :=
  fun s => mm_page_alloc (MM_CURRENT_PD s) (MM_CURRENT_PT s) s.

Definition k_page_free (addr : Z) : M mm_state Z :=
  fun s => let '(r, s') := mm_page_free (MM_CURRENT_PD s) (MM_CURRENT_PT s) addr s in Ok r s'.

Definition k_mm_init (heap : Z) : M mm_state cval :=
  fun s =>
    let heap := u32 (heap + 0x1000) .& not32 0xFFF in
    let s1 := set_heap heap s in
    let '(pd, s2) := mm_bitmap_init s1 in
    let s3 := set_PD pd s2 in
    let '(pt, s4) := mm_bitmap_init s3 in
    let s5 := set_PT pt s4 in
    let s6 := set_mem (mm_bitmap_set_bit (mm_mem s5) (MM_CURRENT_PD s5) 0) s5 in
    mm_page_alloc (MM_CURRENT_PD s6) (MM_CURRENT_PT s6) s6.

(** ** Bitmaps *)

(** Bit [i] of the bitmap at [b]. *)
Definition bit_used (m : mem) (b i : Z) : bool :=
  Z.testbit (load32 m (b + 4 * (i / 32))) (i mod 32).

Definition bitmap_full (m : mem) (b : Z) : Prop := forall i, 0 <= i < 1024 -> bit_used m b i = true.

(** [r] is the first free bit of the bitmap at [b]. *)
Definition first_free_at (m : mem) (b r : Z) : Prop :=
  0 <= r < 1024 /\ bit_used m b r = false /\ forall j, 0 <= j < r -> bit_used m b j = true.

Lemma free_bit_test w i :
  0 <= w < 0x100000000 -> 0 <= i < 32 ->
  negb (Z.lxor w 0xFFFFFFFF .& u32 (1 .<< i) =? 0) = negb (Z.testbit w i).
Proof.
  intros Hw Hi.
  assert (E : Z.lxor w 0xFFFFFFFF .& u32 (1 .<< i) = if Z.testbit w i then 0 else 1 .<< i).
  { bitwise j. change 0xFFFFFFFF with (Z.ones 32). rewrite testbit_ones by lia.
    destruct (Z.eqb_spec j i) as [->|Hne].
    - replace (i <? 32) with true by lia.
      destruct (Z.testbit w i); [rewrite Z.bits_0; reflexivity|]. rewrite testbit_one_shift by lia.
      rewrite Z.eqb_refl. reflexivity.
    - rewrite !andb_false_r. destruct (Z.testbit w i); [rewrite Z.bits_0; reflexivity|].
      rewrite testbit_one_shift by lia. symmetry. apply Z.eqb_neq. assumption. }
  rewrite E. destruct (Z.testbit w i); [reflexivity|].
  rewrite Z.shiftl_1_l. destruct (Z.eqb_spec (2 ^ i) 0); [|reflexivity].
  pose proof (Z.pow_pos_nonneg 2 i). lia.
Qed.

Lemma first_free_loop_spec k m b q :
  0 <= q ->
  match first_free_loop k m b q with
  | Some r => q * 32 <= r < (q + Z.of_nat k) * 32 /\ bit_used m b r = false /\
              forall j, q * 32 <= j < r -> bit_used m b j = true
  | None => forall j, q * 32 <= j < (q + Z.of_nat k) * 32 -> bit_used m b j = true
  end.
Proof.
  revert q. induction k as [|k IH]; intros q Hq; cbn [first_free_loop]; [intros; lia|].
  rewrite (find_up_ext _ _ _ (fun i => negb (Z.testbit (load32 m (b + 4 * q)) i))).
  2:{ intros j Hj. apply free_bit_test; [apply load32_range|lia]. }
  assert (Hbit : forall i, 0 <= i < 32 -> bit_used m b (i + q * 32) = Z.testbit (load32 m (b + 4 * q)) i).
  { intros i Hi. unfold bit_used. rewrite Z.div_add, Z.mod_add, Z.div_small, Z.mod_small by lia. reflexivity. }
  destruct (find_up _ _ _) as [i|] eqn:E.
  - apply find_up_Some in E as (Hr & Hp & Hlt). apply negb_true_iff in Hp.
    split; [lia|]. split; [rewrite Hbit by lia; assumption|].
    intros j Hj. replace j with ((j - q * 32) + q * 32) by lia. rewrite Hbit by lia.
    apply negb_false_iff, Hlt. lia.
  - pose proof (proj1 (find_up_None _ _ _) E) as Hall.
    assert (Hw : forall j, q * 32 <= j < (q + 1) * 32 -> bit_used m b j = true).
    { intros j Hj. replace j with ((j - q * 32) + q * 32) by lia. rewrite Hbit by lia.
      apply negb_false_iff, Hall. lia. }
    specialize (IH (q + 1) ltac:(lia)). destruct (first_free_loop k m b (q + 1)) as [r|].
    + destruct IH as (Hr & Hu & Hlt). split; [lia|]. split; [assumption|].
      intros j Hj. destruct (Z.lt_ge_cases j ((q + 1) * 32)); [apply Hw; lia|apply Hlt; lia].
    + intros j Hj. destruct (Z.lt_ge_cases j ((q + 1) * 32)); [apply Hw; lia|apply IH; lia].
Qed.

(** [mm_first_free] returns the least free bit, or -1 exactly when there is none. *)
Lemma mm_first_free_spec m b :
  (mm_first_free m b = ERR_NO_MEM /\ bitmap_full m b) \/
  first_free_at m b (mm_first_free m b).
Proof.
  unfold mm_first_free. pose proof (first_free_loop_spec 32 m b 0 ltac:(lia)) as H.
  destruct (first_free_loop 32 m b 0) as [r|].
  - right. destruct H as (Hr & Hu & Hlt). split; [lia|]. split; [assumption|].
    intros j Hj. apply Hlt. lia.
  - left. split; [reflexivity|]. intros i Hi. apply H. lia.
Qed.

Lemma first_free_at_unique m b r1 r2 : first_free_at m b r1 -> first_free_at m b r2 -> r1 = r2.
Proof.
  intros (H1 & U1 & L1) (H2 & U2 & L2).
  destruct (Z.lt_trichotomy r1 r2) as [|[|]]; [|assumption|].
  - rewrite L2 in U1 by lia. discriminate.
  - rewrite L1 in U2 by lia. discriminate.
Qed.

Lemma mm_first_free_eq m b r : first_free_at m b r -> mm_first_free m b = r.
Proof.
  intros H. destruct (mm_first_free_spec m b) as [[_ Hf]|Hs].
  - destruct H as (Hr & Hu & _). rewrite Hf in Hu by lia. discriminate.
  - eapply first_free_at_unique; eassumption.
Qed.

Lemma mm_first_free_full m b : bitmap_full m b -> mm_first_free m b = ERR_NO_MEM.
Proof.
  intros H. destruct (mm_first_free_spec m b) as [[? _]|(Hr & Hu & _)]; [assumption|].
  rewrite H in Hu by lia. discriminate.
Qed.

Lemma bit_used_frame m m' b lo hi :
  same_outside lo hi m m' -> b + 128 <= lo \/ hi <= b ->
  forall i, 0 <= i < 1024 -> bit_used m' b i = bit_used m b i.
Proof.
  intros H Hd i Hi. unfold bit_used. erewrite same_outside_load32; [reflexivity|eassumption|].
  pose proof (Z.div_pos i 32). pose proof (Z.div_lt_upper_bound i 32 32). lia.
Qed.

Lemma word_index i k : 0 <= i < 1024 -> 0 <= k < 1024 ->
  i / 32 = k / 32 \/ 4 * (i / 32) + 4 <= 4 * (k / 32) \/ 4 * (k / 32) + 4 <= 4 * (i / 32).
Proof. lia. Qed.

Lemma bit_index_eq i k : i / 32 = k / 32 -> (i mod 32 =? k mod 32) = (i =? k).
Proof. intros H. Z.to_euclidean_division_equations. bsimp. Qed.

(** Setting a bit sets that bit and no other. *)
Lemma bit_used_set m b k i :
  0 <= k < 1024 -> 0 <= i < 1024 ->
  bit_used (mm_bitmap_set_bit m b k) b i = (i =? k) || bit_used m b i.
Proof.
  intros Hk Hi. unfold bit_used, mm_bitmap_set_bit.
  pose proof (Z.mod_pos_bound i 32 ltac:(lia)). pose proof (Z.mod_pos_bound k 32 ltac:(lia)).
  destruct (word_index i k Hi Hk) as [E|Hne].
  - rewrite E. autorewrite with memory bits. rewrite bit_index_eq by assumption.
    replace (i mod 32 <? 32) with true by lia. simpl. apply orb_comm.
  - rewrite load32_store32_ne by lia. replace (i =? k) with false; [reflexivity|].
    symmetry. apply Z.eqb_neq. intros ->. lia.
Qed.

(** Clearing a bit clears that bit and no other. *)
Lemma bit_used_unset m b k i :
  0 <= k < 1024 -> 0 <= i < 1024 ->
  bit_used (mm_bitmap_unset_bit m b k) b i = negb (i =? k) && bit_used m b i.
Proof.
  intros Hk Hi. unfold bit_used, mm_bitmap_unset_bit.
  pose proof (Z.mod_pos_bound i 32 ltac:(lia)). pose proof (Z.mod_pos_bound k 32 ltac:(lia)).
  destruct (word_index i k Hi Hk) as [E|Hne].
  - rewrite E. autorewrite with memory bits. rewrite bit_index_eq by assumption.
    replace (i mod 32 <? 32) with true by lia. simpl. apply andb_comm.
  - rewrite load32_store32_ne by lia. replace (i =? k) with false; [reflexivity|].
    symmetry. apply Z.eqb_neq. intros ->. lia.
Qed.

Lemma set_bit_same_outside m b k :
  0 <= k < 1024 -> same_outside b (b + 128) m (mm_bitmap_set_bit m b k).
Proof.
  intros Hk x Hx. unfold mm_bitmap_set_bit. apply load8_store32_ne. dlia.
Qed.

Lemma unset_bit_same_outside m b k :
  0 <= k < 1024 -> same_outside b (b + 128) m (mm_bitmap_unset_bit m b k).
Proof.
  intros Hk x Hx. unfold mm_bitmap_unset_bit. apply load8_store32_ne. dlia.
Qed.

#[export] Hint Resolve set_bit_same_outside unset_bit_same_outside : memory.

Lemma bit_used_zero m b n i : 128 <= n -> 0 <= i < 1024 -> bit_used (memset m b 0 n) b i = false.
Proof.
  intros Hn Hi. unfold bit_used. rewrite load32_memset_0 by dlia. apply Z.bits_0.
Qed.

(** ** The bump allocator *)

(** The size of the block [mm_alloc(n)] takes from the heap. *)
Definition mm_alloc_size (n : Z) : Z := if 0x1000 <=? n then 4 * (n - n mod 0x1000) else 0x4000.

Lemma mm_alloc_size_enough n : 0 <= n -> n <= mm_alloc_size n.
Proof. intros. unfold mm_alloc_size. bsimp. dlia. Qed.

Lemma mm_alloc_size_aligned n : mm_alloc_size n mod 0x4000 = 0.
Proof. unfold mm_alloc_size. bsimp; dlia. Qed.

(** The heap pointer stays page-aligned and is bounded. *)
Definition mm_heap_ok (s : mm_state) : Prop :=
  0 < MM_HEAP s < MM_HEAP_MAX + 0x4000 /\ MM_HEAP s mod 0x1000 = 0.

(** When the request is below the wrap-around, [mm_alloc] either hands out
    the bytes from [MM_HEAP] on, at least [n] of them and all below
    [MM_HEAP_MAX], or fails without changing anything. *)
Lemma mm_alloc_cases n s :
  mm_heap_ok s -> 0 <= n < 0x0FF00000 ->
  (MM_HEAP_MAX <= MM_HEAP s + 4 * n /\ mm_alloc n s = (NULL, s)) \/
  (MM_HEAP s + 4 * n < MM_HEAP_MAX /\
   mm_alloc n s = (MM_HEAP s, set_heap (MM_HEAP s + mm_alloc_size n) s)).
Proof.
  intros [Hh Ha] Hn. unfold mm_alloc, MM_HEAP_MAX, mm_alloc_size in *.
  replace (MM_HEAP s =? 0) with false by lia. rewrite (u32_small (MM_HEAP s + 4 * n)) by lia.
  destruct (Z.ltb_spec (MM_HEAP s + 4 * n) 0xC0300000); [right|left; auto]. split; [lia|].
  destruct (Z.leb_spec 0x1000 n).
  - change 0xFFF with (Z.ones 12). rewrite land_not_ones by lia. change (2 ^ 12) with 0x1000.
    rewrite u32_small by dlia. reflexivity.
  - rewrite u32_small by lia. reflexivity.
Qed.

Lemma mm_alloc_heap_ok n s : mm_heap_ok s -> 0 <= n < 0x0FF00000 -> mm_heap_ok (mm_alloc n s).2.
Proof.
  intros Hok Hn. destruct (mm_alloc_cases n s Hok Hn) as [[_ ->]|[Hlt ->]]; [assumption|].
  destruct Hok as [Hh Ha]. unfold mm_heap_ok, MM_HEAP_MAX, mm_alloc_size in *. simpl.
  destruct (Z.leb_spec 0x1000 n); dlia.
Qed.

(** ** Page allocation *)

Lemma page_index a :
  0 <= a < 0x100000000 -> ((a .& not32 0x3FF) .>> 12) .& 0x3ff = (a / 0x1000) mod 1024.
Proof.
  intros Ha. change 1023 with (Z.ones 10). rewrite land_not_ones by lia.
  rewrite land_ones_mod, Z.shiftr_div_pow2 by lia.
  change (2 ^ 10) with 1024. change (2 ^ 12) with 0x1000.
  replace (a - a mod 1024) with (1024 * (a / 1024)) by dlia.
  change 0x1000 with (1024 * 4). rewrite Z.div_mul_cancel_l by lia. rewrite Z.div_div by lia. reflexivity.
Qed.

Lemma u32_ERR : u32 ERR_NO_MEM = 0xFFFFFFFF.
Proof. reflexivity. Qed.

Lemma ff_present m b r : first_free_at m b r -> (u32 (mm_first_free m b) =? u32 ERR_NO_MEM) = false.
Proof.
  intros H. rewrite (mm_first_free_eq _ _ _ H), u32_ERR. destruct H as (Hr & _).
  rewrite u32_small by lia. lia.
Qed.

Lemma ff_absent m b : bitmap_full m b -> (u32 (mm_first_free m b) =? u32 ERR_NO_MEM) = true.
Proof. intros H. rewrite (mm_first_free_full _ _ H). reflexivity. Qed.

(** A free page in the current region: its address is returned, its bit set. *)
Lemma mm_page_alloc_rec_free fuel PD PT s d p :
  first_free_at (mm_mem s) PD d -> first_free_at (mm_mem s) PT p ->
  mm_page_alloc_rec (S fuel) PD PT s =
    Ok (Some (d * 0x400000 + p * 0x1000)) (set_mem (mm_bitmap_set_bit (mm_mem s) PT p) s).
Proof.
  intros Hd Hp. cbn [mm_page_alloc_rec]. rewrite (ff_present _ _ _ Hd), (ff_present _ _ _ Hp).
  cbn [negb andb]. rewrite (mm_first_free_eq _ _ _ Hd), (mm_first_free_eq _ _ _ Hp).
  destruct Hd as (Hd & _). destruct Hp as (Hp & _). csimp. do 2 f_equal. lia.
Qed.

(** A full directory: the error value, and nothing changes. *)
Lemma mm_page_alloc_rec_full fuel PD PT s :
  bitmap_full (mm_mem s) PD -> mm_page_alloc_rec (S fuel) PD PT s = Ok (Some 0xFFFFFFFF) s.
Proof. intros Hd. cbn [mm_page_alloc_rec]. rewrite (ff_absent _ _ Hd). reflexivity. Qed.

(** A full page bitmap: a fresh bitmap replaces it, the region is retired. *)
Lemma mm_page_alloc_rec_swap fuel PD PT s d :
  first_free_at (mm_mem s) PD d -> bitmap_full (mm_mem s) PT ->
  mm_page_alloc_rec (S fuel) PD PT s =
    let '(PT', s1) := mm_bitmap_init s in
    bind (mm_page_alloc_rec fuel PD PT') (fun _ => ret None)
      (set_mem (mm_bitmap_set_bit (mm_mem s1) PD d) (set_PT PT' s1)).
Proof.
  intros Hd Hp. cbn [mm_page_alloc_rec]. rewrite (ff_present _ _ _ Hd), (ff_absent _ _ Hp).
  cbn [negb andb]. rewrite (mm_first_free_eq _ _ _ Hd). destruct Hd as (Hd & _). csimp.
  destruct (mm_bitmap_init s) as [PT' s1]. reflexivity.
Qed.

(** A zeroed bitmap is not full, wherever one word of memory is then changed. *)
Lemma zeroed_not_full m b a v : ~ bitmap_full (store32 (memset m b 0 128) a v) b.
Proof.
  intros H. destruct (Z.lt_ge_cases (Z.abs (a - b)) 4).
  - specialize (H 64 ltac:(lia)). unfold bit_used in H. change (4 * (64 / 32)) with 8 in H.
    rewrite load32_store32_ne in H by lia. rewrite load32_memset_0, Z.bits_0 in H by lia. discriminate.
  - specialize (H 0 ltac:(lia)). unfold bit_used in H. change (4 * (0 / 32)) with 0 in H.
    rewrite load32_store32_ne in H by lia. rewrite load32_memset_0, Z.bits_0 in H by lia. discriminate.
Qed.

Lemma not_full_first_free m b : ~ bitmap_full m b -> exists r, first_free_at m b r.
Proof. intros H. destruct (mm_first_free_spec m b) as [[_ ?]|]; [contradiction|eauto]. Qed.

Lemma full_dec m b : bitmap_full m b \/ exists r, first_free_at m b r.
Proof. destruct (mm_first_free_spec m b) as [[_ ?]|]; eauto. Qed.

Lemma mm_alloc_mem n s : mm_mem (mm_alloc n s).2 = mm_mem s.
Proof. unfold mm_alloc. repeat (case_match; simpl; try reflexivity). Qed.

Lemma mm_bitmap_init_eq s :
  mm_bitmap_init s = ((mm_alloc 128 s).1, set_mem (memset (mm_mem s) (mm_alloc 128 s).1 0 128) (mm_alloc 128 s).2).
Proof.
  unfold mm_bitmap_init. change (4 * 32) with 128. pose proof (mm_alloc_mem 128 s) as E.
  destruct (mm_alloc 128 s) as [b s1]. simpl in *. rewrite E. reflexivity.
Qed.

(** The allocator always returns: at most one nested call is made. *)
Lemma mm_page_alloc_returns PD PT s : exists r s', mm_page_alloc PD PT s = Ok r s'.
Proof.
  unfold mm_page_alloc.
  destruct (full_dec (mm_mem s) PD) as [Hf|[d Hd]]; [rewrite mm_page_alloc_rec_full; eauto|].
  destruct (full_dec (mm_mem s) PT) as [Hf|[p Hp]]; [|erewrite mm_page_alloc_rec_free; eauto].
  rewrite (mm_page_alloc_rec_swap _ _ _ _ d) by assumption. rewrite mm_bitmap_init_eq.
  set (b := (mm_alloc 128 s).1). set (s1 := (mm_alloc 128 s).2). cbn [mm_mem set_mem].
  set (s2 := set_mem _ (set_PT _ _)).
  assert (Hnf : ~ bitmap_full (mm_mem s2) b) by apply zeroed_not_full.
  apply not_full_first_free in Hnf as [p Hp].
  destruct (full_dec (mm_mem s2) PD) as [Hf2|[d2 Hd2]].
  - unfold bind. rewrite mm_page_alloc_rec_full by assumption. unfold ret. eauto.
  - unfold bind. erewrite mm_page_alloc_rec_free by eassumption. unfold ret. eauto.
Qed.

(** ** The abstract page pool

    What the allocator promises: regions of 1024 pages are used up in
    increasing order, and within the current region the least free page is
    handed out.  [heap] is the bump allocator's pointer, from which the bitmap
    of the next region comes; the specification says nothing ([None]) when
    that allocation fails. *)
Record pool := MkPool { region : Z; used : gset Z; heap : Z }.

Inductive page_op := Alloc | Free (address : Z).

Definition page_addr (d p : Z) : Z := d * 0x400000 + p * 0x1000.

Definition pool_free_page (P : pool) : option Z :=
  find_up 1024 0 (fun i => negb (bool_decide (i ∈ used P))).

Definition pool_alloc (P : pool) : option (cval * pool) :=
  if region P =? 1024 then Some (Some 0xFFFFFFFF, P)
  else match pool_free_page P with
  | Some p => Some (Some (page_addr (region P) p), MkPool (region P) ({[p]} ∪ used P) (heap P))
  | None =>
      if heap P + 512 <? MM_HEAP_MAX then
        let d := region P + 1 in
        Some (None, MkPool d (if d =? 1024 then ∅ else {[0]}) (heap P + 0x4000))
      else None
  end.

Definition pool_free (a : Z) (P : pool) : pool :=
  MkPool (region P) (used P ∖ {[(a / 0x1000) mod 1024]}) (heap P).

Definition pool_step (o : page_op) (P : pool) : option (cval * pool) :=
  match o with
  | Alloc => pool_alloc P
  | Free a => Some (Some a, pool_free a P)
  end.
Fixpoint pool_run (ops : list page_op) (P : pool) : option (list cval * pool) :=
  match ops with
  | [] => Some ([], P)
  | o :: ops' =>
      match pool_step o P with
      | Some (r, P1) =>
          match pool_run ops' P1 with
          | Some (rs, P2) => Some (r :: rs, P2)
          | None => None
          end
      | None => None
      end
  end.

(** The same operations on the implementation. *)
Definition page_step (o : page_op) : M mm_state cval :=
  match o with
  | Alloc => k_page_alloc
  | Free a => r <-- k_page_free a ;; ret (Some r)
  end.
Fixpoint page_run (ops : list page_op) : M mm_state (list cval) :=
  match ops with
  | [] => ret []
  | o :: ops' => r <-- page_step o ;; rs <-- page_run ops' ;; ret (r :: rs)
  end.

Definition op_ok (o : page_op) : Prop :=
  match o with Alloc => True | Free a => 0 <= a < 0x100000000 end.

(** Representation: the directory bitmap holds the regions before the current
    one, the page bitmap the used pages, and the two and the heap do not
    overlap. *)
Record pool_rel (s : mm_state) (P : pool) : Prop := MkRel {
  rel_region : 0 <= region P <= 1024;
  rel_pd : forall i, 0 <= i < 1024 -> bit_used (mm_mem s) (MM_CURRENT_PD s) i = (i <? region P);
  rel_pt : forall i, 0 <= i < 1024 ->
    bit_used (mm_mem s) (MM_CURRENT_PT s) i = bool_decide (i ∈ used P);
  rel_lay : MM_CURRENT_PD s + 128 <= MM_CURRENT_PT s /\ MM_CURRENT_PT s + 128 <= MM_HEAP s;
  rel_heap : MM_HEAP s = heap P;
  rel_ok : mm_heap_ok s;
}.

Section refinement.
Context (s : mm_state) (P : pool) (HR : pool_rel s P).

Lemma rel_region_full : region P = 1024 <-> bitmap_full (mm_mem s) (MM_CURRENT_PD s).
Proof using HR.
  destruct HR as [Hr Hpd _ _ _ _]. split.
  - intros E i Hi. rewrite Hpd by assumption. lia.
  - intros Hf. destruct (Z.eq_dec (region P) 1024); [assumption|].
    specialize (Hf (region P) ltac:(lia)). rewrite Hpd in Hf by lia. lia.
Qed.

Lemma rel_first_region : region P < 1024 -> first_free_at (mm_mem s) (MM_CURRENT_PD s) (region P).
Proof using HR.
  destruct HR as [Hr Hpd _ _ _ _]. intros Hlt. split; [lia|].
  split; [rewrite Hpd by lia; lia|]. intros j Hj. rewrite Hpd by lia. lia.
Qed.

Lemma rel_free_page :
  match pool_free_page P with
  | Some p => first_free_at (mm_mem s) (MM_CURRENT_PT s) p
  | None => bitmap_full (mm_mem s) (MM_CURRENT_PT s)
  end.
Proof using HR.
  destruct HR as [_ _ Hpt _ _ _]. unfold pool_free_page. destruct (find_up _ _ _) as [p|] eqn:E.
  - apply find_up_Some in E as (Hp & Hn & Hlt). split; [lia|].
    split; [rewrite Hpt by lia; apply negb_true_iff, Hn|].
    intros j Hj. rewrite Hpt by lia. apply negb_false_iff, Hlt. lia.
  - intros i Hi. rewrite Hpt by lia. apply negb_false_iff.
    exact (proj1 (find_up_None _ _ _) E i ltac:(lia)).
Qed.

(** Marking a page used. *)
Lemma rel_mark p :
  0 <= p < 1024 ->
  pool_rel (set_mem (mm_bitmap_set_bit (mm_mem s) (MM_CURRENT_PT s) p) s)
           (MkPool (region P) ({[p]} ∪ used P) (heap P)).
Proof using HR.
  intros Hp. destruct HR as [Hr Hpd Hpt Hl Hh Hok]. split; simpl; try assumption.
  - intros i Hi. erewrite bit_used_frame; [apply Hpd; assumption|apply set_bit_same_outside; assumption|lia|assumption].
  - intros i Hi. rewrite bit_used_set, Hpt by assumption.
    destruct (Z.eqb_spec i p); symmetry; simpl; [apply bool_decide_eq_true|apply bool_decide_ext]; set_solver.
Qed.

Lemma rel_free a :
  0 <= a < 0x100000000 ->
  pool_rel (mm_page_free (MM_CURRENT_PD s) (MM_CURRENT_PT s) a s).2 (pool_free a P).
Proof using HR.
  intros Ha. destruct HR as [Hr Hpd Hpt Hl Hh Hok]. unfold mm_page_free. rewrite page_index by assumption.
  pose proof (Z.mod_pos_bound (a / 0x1000) 1024 ltac:(lia)) as Hk. split; simpl; try assumption.
  - intros i Hi. erewrite bit_used_frame; [apply Hpd; assumption|apply unset_bit_same_outside; assumption|lia|assumption].
  - intros i Hi. rewrite bit_used_unset, Hpt by assumption.
    destruct (Z.eqb_spec i ((a / 0x1000) mod 1024)); symmetry; simpl; [apply bool_decide_eq_false|apply bool_decide_ext];
      set_solver.
Qed.

(** The state after a full region was retired and its bitmap replaced. *)
Lemma rel_swap :
  heap P + 512 < MM_HEAP_MAX -> region P < 1024 ->
  exists s2, mm_bitmap_init s = (MM_HEAP s, s2) /\ MM_CURRENT_PD s2 = MM_CURRENT_PD s /\
  pool_rel (set_mem (mm_bitmap_set_bit (mm_mem s2) (MM_CURRENT_PD s) (region P)) (set_PT (MM_HEAP s) s2))
           (MkPool (region P + 1) ∅ (heap P + 0x4000)).
Proof using HR.
  intros Hh Hlt. destruct HR as [Hr Hpd Hpt Hl Hhp Hok]. rewrite mm_bitmap_init_eq.
  pose proof (mm_alloc_heap_ok 128 s Hok ltac:(lia)) as Hok2.
  destruct (mm_alloc_cases 128 s Hok ltac:(lia)) as [[Hge _]|[_ E]]; [lia|].
  rewrite E in Hok2 |- *. eexists. do 2 (split; [reflexivity|]). unfold mm_alloc_size in *. simpl in *.
  assert (Hz : same_outside (MM_HEAP s) (MM_HEAP s + 128) (mm_mem s) (memset (mm_mem s) (MM_HEAP s) 0 128))
    by (apply memset_same_outside; lia).
  split; simpl; try lia; try assumption.
  - intros i Hi. rewrite bit_used_set, (bit_used_frame _ _ _ _ _ Hz), Hpd by lia. bsimp.
  - intros i Hi. erewrite bit_used_frame; [|apply set_bit_same_outside; lia|lia|assumption].
    rewrite bit_used_zero by lia. symmetry. apply bool_decide_eq_false. set_solver.
Qed.
End refinement.

Lemma pool_free_page_empty d h : pool_free_page (MkPool d ∅ h) = Some 0.
Proof. reflexivity. Qed.

(** One allocation refines one step of the pool. *)
Lemma page_alloc_refines s P r P' :
  pool_rel s P -> pool_alloc P = Some (r, P') ->
  exists s', k_page_alloc s = Ok r s' /\ pool_rel s' P'.
Proof.
  intros HR. unfold pool_alloc, k_page_alloc, mm_page_alloc.
  destruct (Z.eqb_spec (region P) 1024) as [Hf|Hnf].
  { intros [= <- <-]. rewrite mm_page_alloc_rec_full by (apply (rel_region_full s P HR); assumption). eauto. }
  pose proof (rel_region _ _ HR). pose proof (rel_first_region s P HR ltac:(lia)) as Hd.
  pose proof (rel_free_page s P HR) as Hp. destruct (pool_free_page P) as [p|].
  { intros [= <- <-]. erewrite mm_page_alloc_rec_free by eassumption.
    eexists. split; [reflexivity|]. apply rel_mark; [assumption|apply Hp]. }
  destruct (Z.ltb_spec (heap P + 512) MM_HEAP_MAX); [|discriminate]. intros [= <- <-].
  erewrite mm_page_alloc_rec_swap by eassumption.
  destruct (rel_swap s P HR) as (s2 & -> & Epd & HR2); [lia..|].
  set (s3 := set_mem _ _) in *. unfold bind, ret.
  change (MM_HEAP s) with (MM_CURRENT_PT s3). rewrite <- Epd. change (MM_CURRENT_PD s2) with (MM_CURRENT_PD s3).
  destruct (Z.eqb_spec (region P + 1) 1024) as [E|Hne].
  - rewrite mm_page_alloc_rec_full by (apply (rel_region_full s3 _ HR2); assumption). eauto.
  - clearbody s3. pose proof (rel_free_page s3 _ HR2) as Hp2.
    pose proof (rel_first_region s3 _ HR2 ltac:(simpl; lia)) as Hd2.
    rewrite (pool_free_page_empty _ _ : pool_free_page _ = _) in Hp2. cbn [region] in Hd2.
    rewrite (mm_page_alloc_rec_free _ _ _ _ _ _ Hd2 Hp2). eexists. split; [reflexivity|].
    replace ({[0]} : gset Z) with ({[0]} ∪ ∅ : gset Z) by set_solver. apply (rel_mark s3 _ HR2). lia.
Qed.

Lemma page_step_refines o s P r P' :
  op_ok o -> pool_rel s P -> pool_step o P = Some (r, P') ->
  exists s', page_step o s = Ok r s' /\ pool_rel s' P'.
Proof.
  intros Ho HR. destruct o as [|a]; simpl; [eauto using page_alloc_refines|].
  intros [= <- <-]. pose proof (rel_free s P HR a Ho) as HR'. unfold bind, k_page_free, mm_page_free in *.
  eexists. split; [reflexivity|exact HR'].
Qed.

Lemma page_run_refines ops : forall s P rs P',
  Forall op_ok ops -> pool_rel s P -> pool_run ops P = Some (rs, P') ->
  exists s', page_run ops s = Ok rs s' /\ pool_rel s' P'.
Proof.
  induction ops as [|o ops IH]; intros s P rs P' Hok HR; simpl.
  - intros [= <- <-]. unfold ret. eauto.
  - inversion_clear Hok. destruct (pool_step o P) as [[r P1]|] eqn:E1; [|discriminate].
    destruct (pool_run ops P1) as [[rs' P2]|] eqn:E2; [|discriminate]. intros [= <- <-].
    destruct (page_step_refines _ _ _ _ _ H HR E1) as (s1 & Hs1 & HR1).
    destruct (IH _ _ _ _ H0 HR1 E2) as (s2 & Hs2 & HR2).
    exists s2. split; [|assumption]. unfold bind. rewrite Hs1, Hs2. reflexivity.
Qed.

(** C2: the page allocator implements the abstract pool: any sequence of
    allocations and frees for which the pool specifies results returns those
    results, and ends in a state that represents the pool's final state. *)
Theorem page_allocator_refines_pool ops : forall s P rs P',
  Forall op_ok ops -> pool_rel s P -> pool_run ops P = Some (rs, P') ->
  exists s', page_run ops s = Ok rs s' /\ pool_rel s' P'.
Proof. exact (page_run_refines ops). Qed.

(** A bitmap taken from the heap is zeroed and lies at the old heap pointer. *)
Lemma bitmap_init_at s :
  mm_heap_ok s -> MM_HEAP s + 512 < MM_HEAP_MAX ->
  let s' := MkMm (memset (mm_mem s) (MM_HEAP s) 0 128) (MM_CURRENT_PD s) (MM_CURRENT_PT s) (MM_HEAP s + 0x4000) in
  mm_bitmap_init s = (MM_HEAP s, s') /\ mm_heap_ok s' /\
  same_outside (MM_HEAP s) (MM_HEAP s + 128) (mm_mem s) (mm_mem s').
Proof.
  intros Hok Hlt. rewrite mm_bitmap_init_eq. pose proof (mm_alloc_heap_ok 128 s Hok ltac:(lia)) as Hok2.
  destruct (mm_alloc_cases 128 s Hok ltac:(lia)) as [[? _]|[_ E]]; [lia|]. rewrite E in *.
  split; [reflexivity|]. split; [exact Hok2|]. apply memset_same_outside; lia.
Qed.

(** Conversion compares calls of these by their arguments first. *)
#[local] Strategy 100 [mm_page_alloc_rec mm_page_alloc memset mm_bitmap_set_bit store32 find_up].

(** The state of [k_mm_init] just before its allocation: both bitmaps empty
    but for bit 0 of the directory. *)
Lemma fresh_bitmaps_rel m a :
  0x1000 <= a < 0xC02F1000 -> a mod 0x1000 = 0 ->
  pool_rel (MkMm (mm_bitmap_set_bit (memset (memset m a 0 128) (a + 0x4000) 0 128) a 0)
                 a (a + 0x4000) (a + 0x8000))
           (MkPool 1 ∅ (a + 0x8000)).
Proof.
  intros Ha Hal. split; simpl; try lia.
  - intros i Hi. rewrite bit_used_set by lia.
    rewrite (bit_used_frame (memset m a 0 128) _ _ (a + 0x4000) (a + 0x4000 + 128))
      by (assumption || (apply memset_same_outside; lia) || lia).
    rewrite bit_used_zero by lia. bsimp.
  - intros i Hi. rewrite (bit_used_frame _ _ _ a (a + 128) (set_bit_same_outside _ _ 0 ltac:(lia))) by lia.
    rewrite bit_used_zero by lia. symmetry. apply bool_decide_eq_false. set_solver.
  - split; simpl; unfold MM_HEAP_MAX; [lia|]. dlia.
Qed.

(** Initialisation: region 0 is reserved, page 0 of region 1 is handed out. *)
Lemma k_mm_init_rel h s :
  0 <= h < 0xC02F0000 ->
  exists s', k_mm_init h s = Ok (Some 0x400000) s' /\
  pool_rel s' (MkPool 1 {[0]} (h + 0x1000 - (h + 0x1000) mod 0x1000 + 0x8000)).
Proof.
  intros Hh. unfold k_mm_init. rewrite (u32_small (h + 0x1000)) by lia.
  change 0xFFF with (Z.ones 12). rewrite land_not_ones by lia. change (2 ^ 12) with 0x1000.
  set (a := h + 0x1000 - (h + 0x1000) mod 0x1000).
  assert (Ha : 0x1000 <= a <= h + 0x1000 /\ a mod 0x1000 = 0) by (unfold a; split; dlia).
  clearbody a. destruct Ha as [Ha1 Ha2].
  destruct (bitmap_init_at (set_heap a s)) as (-> & Hok & _);
    [split; unfold MM_HEAP_MAX; simpl; lia | unfold MM_HEAP_MAX; simpl; lia |].
  destruct (bitmap_init_at (set_PD a (MkMm (memset (mm_mem s) a 0 128) (MM_CURRENT_PD s) (MM_CURRENT_PT s) (a + 0x4000))))
    as (E2 & _ & _); [exact Hok | unfold MM_HEAP_MAX; simpl; lia |].
  cbn [mm_mem MM_CURRENT_PD MM_CURRENT_PT MM_HEAP set_heap set_PD set_PT set_mem] in *. rewrite E2.
  cbn [mm_mem MM_CURRENT_PD MM_CURRENT_PT MM_HEAP set_heap set_PD set_PT set_mem].
  pose proof (fresh_bitmaps_rel (mm_mem s) a ltac:(lia) Ha2) as HR.
  replace (a + 0x4000 + 0x4000) with (a + 0x8000) by lia.
  replace ({[0]} : gset Z) with ({[0]} ∪ ∅ : gset Z) by set_solver.
  destruct (page_alloc_refines _ _ (Some 0x400000) (MkPool 1 ({[0]} ∪ ∅) (a + 0x8000)) HR) as (s' & Hs' & HR').
  { unfold pool_alloc. rewrite pool_free_page_empty. reflexivity. }
  exists s'. split; [|exact HR']. unfold k_page_alloc in Hs'. cbn [MM_CURRENT_PD MM_CURRENT_PT] in Hs'. exact Hs'.
Qed.

(** Sequences of allocations on the pool: pages come out in order. *)
Lemma pool_free_page_seq d k h :
  0 <= k < 1024 -> pool_free_page (MkPool d (list_to_set (seqZ 0 k)) h) = Some k.
Proof.
  intros Hk. apply find_up_Some. simpl. split; [lia|]. split.
  - apply negb_true_iff, bool_decide_eq_false. rewrite elem_of_list_to_set, elem_of_seqZ. lia.
  - intros j Hj. apply negb_false_iff, bool_decide_eq_true. rewrite elem_of_list_to_set, elem_of_seqZ. lia.
Qed.

Lemma pool_alloc_seq d k h :
  0 <= k < 1024 -> 0 <= d < 1024 ->
  pool_alloc (MkPool d (list_to_set (seqZ 0 k)) h) =
    Some (Some (page_addr d k), MkPool d (list_to_set (seqZ 0 (k + 1))) h).
Proof.
  intros Hk Hd. unfold pool_alloc. rewrite pool_free_page_seq by assumption. simpl.
  replace (d =? 1024) with false by lia. do 3 f_equal.
  rewrite (seqZ_app 0 k 1) by lia. rewrite list_to_set_app_L. simpl. set_solver.
Qed.

Lemma pool_run_seq n : forall d k h,
  0 <= k -> k + Z.of_nat n <= 1024 -> 0 <= d < 1024 ->
  pool_run (replicate n Alloc) (MkPool d (list_to_set (seqZ 0 k)) h) =
    Some ((fun i => Some (page_addr d i)) <$> seqZ k (Z.of_nat n),
          MkPool d (list_to_set (seqZ 0 (k + Z.of_nat n))) h).
Proof.
  induction n as [|n IH]; intros d k h Hk Hn Hd.
  - simpl. rewrite Z.add_0_r. reflexivity.
  - cbn [replicate pool_run pool_step]. rewrite pool_alloc_seq, IH by lia.
    rewrite (seqZ_cons k (Z.of_nat (S n))) by lia. cbn [fmap list_fmap].
    replace (Z.pred (Z.of_nat (S n))) with (Z.of_nat n) by lia.
    replace (Z.succ k) with (k + 1) by lia. do 5 f_equal. lia.
Qed.

(** After [k_mm_init], which itself returns page 0 of the second region,
    any number [n] of allocations up to the end of the region returns the
    following pages in order, so no address is handed out twice. *)
Theorem init_then_sequential_pages h s n :
  0 <= h < 0xC02F0000 -> (n < 1024)%nat ->
  exists s' s'', k_mm_init h s = Ok (Some 0x400000) s' /\
  page_run (replicate n Alloc) s' =
    Ok ((fun i => Some (0x400000 + i * 0x1000)) <$> seqZ 1 (Z.of_nat n)) s''.
Proof.
  intros Hh Hn. destruct (k_mm_init_rel h s Hh) as (s' & Hs' & HR).
  replace ({[0]} : gset Z) with (list_to_set (seqZ 0 1) : gset Z) in HR by (simpl; set_solver).
  pose proof (pool_run_seq n 1 1 (h + 0x1000 - (h + 0x1000) mod 0x1000 + 0x8000) ltac:(lia) ltac:(lia) ltac:(lia)) as Hrun.
  assert (Hok : Forall op_ok (replicate n Alloc)) by (apply Forall_replicate; exact I).
  destruct (page_run_refines _ _ _ _ _ Hok HR Hrun) as (s'' & Hs'' & _).
  exists s', s''. split; assumption.
Qed.

Lemma init_then_sequential_pages_witness :
  exists s' s'', k_mm_init 0xC0100000 (MkMm ∅ 0 0 0) = Ok (Some 0x400000) s' /\
  page_run (replicate 2 Alloc) s' = Ok [Some 0x401000; Some 0x402000] s''.
Proof. apply (init_then_sequential_pages 0xC0100000 (MkMm ∅ 0 0 0) 2); lia. Defined.

Lemma pool_alloc_page P p :
  region P < 1024 -> pool_free_page P = Some p ->
  pool_alloc P = Some (Some (page_addr (region P) p), MkPool (region P) ({[p]} ∪ used P) (heap P)).
Proof. intros Hd Hp. unfold pool_alloc. rewrite Hp. replace (region P =? 1024) with false by lia. reflexivity. Qed.

(** The first free page, taken among others and freed, is the first free one
    again. *)
Lemma pool_refree P p d U h a :
  pool_free_page P = Some p -> used P ⊆ U -> (a / 0x1000) mod 1024 = p -> pool_free_page (pool_free a (MkPool d U h)) = Some p.
Proof.
  intros Hp HU Ha. pose proof (proj1 (find_up_Some _ _ _ _) Hp) as (Hp1 & _ & Hp3).
  unfold pool_free. cbn [region used heap]. rewrite Ha. apply find_up_Some. cbn [used]. split; [lia|]. split.
  - apply negb_true_iff, bool_decide_eq_false. set_solver.
  - intros j Hj. specialize (Hp3 j Hj). apply negb_false_iff in Hp3. apply bool_decide_eq_true in Hp3.
    apply negb_false_iff, bool_decide_eq_true. assert (j <> p) by lia. set_solver.
Qed.

(** What [mm_test] checks.  A page freed through any address inside it is
    the next one to be allocated again, when it was the first free one. *)
Theorem alloc_free_alloc s P p off :
  pool_rel s P -> region P < 1024 -> pool_free_page P = Some p -> 0 <= off < 0x1000 ->
  exists s1 s2 s3,
    k_page_alloc s = Ok (Some (page_addr (region P) p)) s1 /\
    k_page_free (page_addr (region P) p + off) s1 = Ok (page_addr (region P) p + off) s2 /\
    k_page_alloc s2 = Ok (Some (page_addr (region P) p)) s3.
Proof.
  intros HR Hd Hp Hoff. pose proof (rel_region _ _ HR) as Hr.
  pose proof (proj1 (find_up_Some _ _ _ _) Hp) as (Hp1 & _ & _).
  set (a := page_addr (region P) p + off).
  assert (Ha : 0 <= a < 0x100000000) by (unfold a, page_addr; lia).
  destruct (page_alloc_refines _ _ _ _ HR (pool_alloc_page _ _ Hd Hp)) as (s1 & Hs1 & HR1).
  pose proof (rel_free _ _ HR1 a Ha) as HR2.
  assert (E3 : pool_free_page (pool_free a (MkPool (region P) ({[p]} ∪ used P) (heap P))) = Some p).
  { apply (pool_refree P); [exact Hp|set_solver|]. unfold a, page_addr. dlia. }
  destruct (page_alloc_refines _ _ _ _ HR2 (pool_alloc_page (pool_free a (MkPool (region P) _ _)) _ Hd E3)) as (s3 & Hs3 & _).
  exists s1. eexists. exists s3. split; [exact Hs1|]. split; [reflexivity|exact Hs3].
Qed.

Lemma alloc_free_alloc_witness :
  let s := MkMm (mm_bitmap_set_bit (memset (memset ∅ 0x2000 0 128) 0x6000 0 128) 0x2000 0) 0x2000 0x6000 0xA000 in
  exists s1 s2 s3, k_page_alloc s = Ok (Some 0x400000) s1 /\
    k_page_free 0x400030 s1 = Ok 0x400030 s2 /\ k_page_alloc s2 = Ok (Some 0x400000) s3.
Proof.
  apply (alloc_free_alloc _ (MkPool 1 ∅ 0xA000) 0 0x30);
    [apply (fresh_bitmaps_rel ∅ 0x2000); [lia|reflexivity] | simpl; lia | reflexivity | lia].
Defined.

(** The defect of the region switch.  When every page of the current
    region is in use and the heap has room for the next bitmap, the call takes
    page 0 of the next region but its caller gets an indeterminate value: the
    branch has no [return]. *)
Theorem region_switch_loses_page s P :
  pool_rel s P -> region P < 1023 -> pool_free_page P = None -> heap P + 512 < MM_HEAP_MAX ->
  exists s', k_page_alloc s = Ok None s' /\
    pool_rel s' (MkPool (region P + 1) {[0]} (heap P + 0x4000)).
Proof.
  intros HR Hd Hp Hh. apply (page_alloc_refines s P _ _ HR).
  unfold pool_alloc. rewrite Hp. replace (region P =? 1024) with false by lia.
  replace (heap P + 512 <? MM_HEAP_MAX) with true by lia. replace (region P + 1 =? 1024) with false by lia.
  reflexivity.
Qed.

(** A bitmap of 128 bytes 0xFF. *)
Lemma ones_bitmap_rel :
  pool_rel (MkMm (memset (mm_bitmap_set_bit (memset ∅ 0x2000 0 128) 0x2000 0) 0x6000 0xFF 128) 0x2000 0x6000 0xA000)
           (MkPool 1 (list_to_set (seqZ 0 1024)) 0xA000).
Proof.
  split; cbn [mm_mem MM_CURRENT_PD MM_CURRENT_PT MM_HEAP region used heap]; try lia.
  - intros i Hi. rewrite (bit_used_frame (mm_bitmap_set_bit (memset ∅ 0x2000 0 128) 0x2000 0) _ _ 0x6000 (0x6000 + 128))
      by (assumption || (apply memset_same_outside; lia) || lia).
    rewrite bit_used_set, bit_used_zero by lia. bsimp.
  - intros i Hi. rewrite bool_decide_eq_true_2 by (apply elem_of_list_to_set, elem_of_seqZ; lia).
    unfold bit_used, load32. rewrite !load8_memset by lia.
    repeat match goal with |- context [if ?c then _ else _] => replace c with true by dlia end.
    change (Z.testbit (Z.ones 32) (i mod 32) = true). rewrite testbit_ones by dlia. dlia.
  - split; simpl; unfold MM_HEAP_MAX; [lia|reflexivity].
Qed.

Lemma region_switch_loses_page_witness :
  exists s', k_page_alloc (MkMm (memset (mm_bitmap_set_bit (memset ∅ 0x2000 0 128) 0x2000 0) 0x6000 0xFF 128)
                                0x2000 0x6000 0xA000) = Ok None s' /\
    pool_rel s' (MkPool 2 {[0]} 0xE000).
Proof.
  apply (region_switch_loses_page _ (MkPool 1 (list_to_set (seqZ 0 1024)) 0xA000)).
  - exact ones_bitmap_rel.
  - cbn [region]. lia.
  - vm_compute. reflexivity.
  - cbn [heap]. unfold MM_HEAP_MAX. lia.
Defined.

(** [mm_page_free] looks only at the page number within a region: freeing
    an address of another region changes the current region's bitmap exactly
    as freeing the page with the same number there does. *)
Theorem page_free_ignores_region PD PT a k s :
  0 <= a < 0x400000 -> 0 <= k < 1024 ->
  (mm_page_free PD PT (a + k * 0x400000) s).2 = (mm_page_free PD PT a s).2.
Proof.
  intros Ha Hk. unfold mm_page_free. rewrite !page_index by lia. cbn [snd].
  replace ((a + k * 0x400000) / 0x1000) with (a / 0x1000 + k * 1024) by dlia.
  rewrite Z.mod_add by lia. reflexivity.
Qed.

Lemma page_free_ignores_region_witness :
  (mm_page_free 0x2000 0x6000 0x801234 (MkMm ∅ 0x2000 0x6000 0xA000)).2 =
  (mm_page_free 0x2000 0x6000 0x1234 (MkMm ∅ 0x2000 0x6000 0xA000)).2.
Proof. apply (page_free_ignores_region 0x2000 0x6000 0x1234 2); lia. Defined.

(** ** A sequence of table allocations *)

(** The blocks [(address, n)] of the successful requests among [ns]. *)
Fixpoint mm_allocs (ns : list Z) (s : mm_state) : list (Z * Z) * mm_state :=
  match ns with
  | [] => ([], s)
  | n :: ns' =>
      let '(p, s1) := mm_alloc n s in
      let '(bs, s2) := mm_allocs ns' s1 in
      (if p =? NULL then bs else (p, n) :: bs, s2)
  end.

Definition block_before (b c : Z * Z) : Prop := b.1 + b.2 <= c.1.

Lemma mm_allocs_from ns : forall s,
  mm_heap_ok s -> Forall (fun n => 0 <= n < 0x0FF00000) ns ->
  Forall (fun b => MM_HEAP s <= b.1 /\ b.1 + b.2 < MM_HEAP_MAX) (mm_allocs ns s).1 /\
  StronglySorted block_before (mm_allocs ns s).1.
Proof.
  induction ns as [|n ns IH]; intros s Hok Hns; simpl; [split; constructor|].
  inversion_clear Hns as [|? ? Hn Hns']. pose proof (mm_alloc_heap_ok n s Hok Hn) as Hok1.
  destruct (mm_alloc_cases n s Hok Hn) as [[_ E]|[Hlt E]]; rewrite E in *; simpl in Hok1;
    specialize (IH _ Hok1 Hns') as [Hb Hs]; destruct (mm_allocs ns _) as [bs s2]; simpl in *; [auto|].
  pose proof (mm_alloc_size_enough n ltac:(lia)). destruct Hok as [Hh _].
  replace (MM_HEAP s =? NULL) with false by (unfold NULL; lia). split; constructor; simpl.
  - lia.
  - eapply Forall_impl; [exact Hb|]. simpl. intros; lia.
  - assumption.
  - eapply Forall_impl; [exact Hb|]. unfold block_before. simpl. intros; lia.
Qed.

(** Larger requests wrap the comparison around.  [MM_HEAP] counts words, and 2^30
    of them are 2^32 bytes: the
    pointer does not move, and the same block is handed out again. *)
Lemma mm_alloc_wraps s : 0 < MM_HEAP s < MM_HEAP_MAX -> mm_alloc 0x40000000 s = (MM_HEAP s, s).
Proof.
  intros Hh. unfold mm_alloc, MM_HEAP_MAX in *. replace (MM_HEAP s =? 0) with false by lia.
  change (4 * 0x40000000) with (1 * 0x100000000). unfold u32 at 1. rewrite Z_mod_plus_full, Z.mod_small by lia.
  replace (MM_HEAP s <? 0xC0300000) with true by lia. change (0x1000 <=? 0x40000000) with true. cbv iota.
  change (4 * (0x40000000 .& not32 0xFFF)) with (1 * 0x100000000). unfold u32. rewrite Z_mod_plus_full, Z.mod_small by lia.
  destruct s. reflexivity.
Qed.

(** C34: table allocations of less than 0x0FF00000 bytes each.  The blocks that
    a sequence of such requests gets are pairwise disjoint, in increasing order
    and below [MM_HEAP_MAX]; the requests that fail take nothing.  (Larger
    requests wrap around, see [mm_alloc_wraps].) *)
Theorem mm_allocs_disjoint ns s :
  mm_heap_ok s -> Forall (fun n => 0 <= n < 0x0FF00000) ns ->
  StronglySorted block_before (mm_allocs ns s).1 /\
  Forall (fun b => MM_HEAP s <= b.1 /\ b.1 + b.2 < MM_HEAP_MAX) (mm_allocs ns s).1.
Proof. intros Hok Hns. destruct (mm_allocs_from ns s Hok Hns). auto. Qed.

Lemma mm_allocs_disjoint_witness :
  StronglySorted block_before (mm_allocs [0x1000; 128; 0x200000; 128] (MkMm ∅ 0 0 0xC0101000)).1 /\
  Forall (fun b => 0xC0101000 <= b.1 /\ b.1 + b.2 < MM_HEAP_MAX)
    (mm_allocs [0x1000; 128; 0x200000; 128] (MkMm ∅ 0 0 0xC0101000)).1.
Proof.
  apply (mm_allocs_disjoint [0x1000; 128; 0x200000; 128] (MkMm ∅ 0 0 0xC0101000)).
  - split; [unfold MM_HEAP_MAX; simpl; lia|reflexivity].
  - repeat constructor; lia.
Defined.

Lemma page_allocator_refines_pool_witness :
  exists s', page_run [Alloc; Free 0x400123; Alloc]
    (MkMm (mm_bitmap_set_bit (memset (memset ∅ 0x2000 0 128) 0x6000 0 128) 0x2000 0) 0x2000 0x6000 0xA000) =
    Ok [Some 0x400000; Some 0x400123; Some 0x400000] s' /\
  pool_rel s' (MkPool 1 ({[0]} ∪ (({[0]} ∪ ∅) ∖ {[0]})) 0xA000).
Proof.
  eapply (page_allocator_refines_pool [Alloc; Free 0x400123; Alloc]).
  - repeat constructor; simpl; lia.
  - apply (fresh_bitmaps_rel ∅ 0x2000); [lia|reflexivity].
  - vm_compute. reflexivity.
Defined.
