(* ===== verification/Paging.v ===== *)
(** * kernel/mem/paging.c: two-level page tables

    Memory is addressed by kernel virtual addresses.  start.s installs one page
    table for both the low 4 MB and the 4 MB at [KERNEL_VIRT], so an address of
    the low window names the same byte as the one [KERNEL_VIRT] above it;
    [canon] folds the low window into the high one, and every access of this
    file goes through it. *)

From stdpp Require Import base numbers list gmap.
From Stdlib Require Import ZArith Lia.
From S2P Require Import Prelude Memory CString Mm.
Open Scope Z_scope.

Definition KERNEL_VIRT : Z := 0xC0000000.
Definition PF_PRESENT : Z := 0x1.
Definition PF_RW : Z := 0x2.
Definition PF_USER : Z := 0x4.
Definition PF_ACCESSED : Z := 0x20.
Definition PF_DIRTY : Z := 0x40.

Definition P2V (x : Z) : Z := if u32 x <=? KERNEL_VIRT then u32 (u32 x + KERNEL_VIRT) else u32 x.
Definition V2P (x : Z) : Z := if KERNEL_VIRT <=? u32 x then u32 x - KERNEL_VIRT else u32 x.

Record pg_state := MkPg {
  pg_mm : mm_state;
  KERNEL_PAGE_DIRECTORY : Z;
  CURRENT_PAGE_DIRECTORY : Z;
  cr3 : Z;
}.
Definition pg_mem (s : pg_state) : mem := mm_mem (pg_mm s).
Definition set_mm (x : mm_state) (s : pg_state) : pg_state :=
  MkPg x (KERNEL_PAGE_DIRECTORY s) (CURRENT_PAGE_DIRECTORY s) (cr3 s).
Definition set_pg_mem (m : mem) (s : pg_state) : pg_state := set_mm (set_mem m (pg_mm s)) s.

(** The boot mapping: [_init_pt] serves directory slots 0 and 768. *)
Definition canon (a : Z) : Z := if (0 <=? a) && (a <? 0x400000) then a + KERNEL_VIRT else a.

(** [p[i]] of a [uint32_t* p]. *)
Definition ldw (m : mem) (p i : Z) : Z := load32 m (canon (p + 4 * i)).
Definition stw (m : mem) (p i v : Z) : mem := store32 m (canon (p + 4 * i)) v.

Definition pd_index (virt : Z) : Z := virt .>> 22.
Definition pt_index (virt : Z) : Z := (virt .>> 12) .& 0x3FF.
(** [x & ~0x3FF] *)
Definition frame_of (x : Z) : Z := x .& not32 0x3FF.

Definition k_swap_pd (pd : Z) (s : pg_state) : pg_state :=
  MkPg (pg_mm s) (KERNEL_PAGE_DIRECTORY s) pd (V2P pd).

Definition k_current_pd (s : pg_state) : Z := CURRENT_PAGE_DIRECTORY s.

(** The counters [(total, dirty, accessed)] that [paging_info] prints. *)
Definition paging_info (m : mem) (pd : Z) : Z * Z * Z :=
  for_up 1024 0 (fun i acc =>
    if negb (frame_of (ldw m pd i) =? 0) then
      let pt := P2V (frame_of (ldw m pd i)) in
      for_up 1024 0 (fun q '(total, dirty, accessed) =>
        let e := ldw m pt q in
        (if negb (e =? 0) then total + 1 else total,
         if negb (e .& PF_DIRTY =? 0) then dirty + 1 else dirty,
         if negb (e .& PF_ACCESSED =? 0) then accessed + 1 else accessed)) acc
    else acc) (0, 0, 0).

(** C's [!x] *)
Definition lnot (x : Z) : Z := if x =? 0 then 1 else 0.

(** The guard is [!dir[_pdi] & ~0x3FF], that is [(!dir[_pdi]) & ~0x3FF]. *)
Definition _virt_to_phys (m : mem) (dir virt : Z) : Z :=
  let _pdi := pd_index virt in
  let _pti := pt_index virt in
  if negb (frame_of (lnot (ldw m dir _pdi)) =? 0) then NULL
  else
    let pt := P2V (frame_of (ldw m dir _pdi)) in
    ldw m pt _pti.

(** [pt = pd[i]]: the table's address with its flags still in it. *)
Fixpoint phys_to_virt_loop (k : nat) (m : mem) (pd phys i : Z) : Z :=
  match k with
  | O => 0
  | S k' =>
      if negb (frame_of (ldw m pd i) =? 0) then
        let pt := ldw m pd i in
        match find_up 1024 0 (fun q => negb (frame_of (ldw m pt q) =? 0) && (frame_of (ldw m pt q) =? frame_of phys)) with
        | Some q => u32 ((i .<< 22) + (q .<< 12))
        | None => phys_to_virt_loop k' m pd phys (i + 1)
        end
      else phys_to_virt_loop k' m pd phys (i + 1)
  end.
Definition _phys_to_virt (m : mem) (pd phys : Z) : Z := phys_to_virt_loop 1024 m pd phys 0.

(** The table is reached through the low window: [pt = dir[_pdi] & ~0x3FF]. *)
Definition _paging_unmap (dir virt : Z) (s : pg_state) : Z * pg_state :=
  let _pdi := pd_index virt in
  let _pti := pt_index virt in
  if negb (frame_of (ldw (pg_mem s) dir _pdi) =? 0) then
    let pt := frame_of (ldw (pg_mem s) dir _pdi) in
    (1, set_pg_mem (stw (pg_mem s) pt _pti 0) s)
  else (0, s).

Definition _paging_map (dir phys virt flags : Z) (s : pg_state) : pg_state :=
  let _pdi := pd_index virt in
  let _pti := pt_index virt in
  let '(pt, s1) :=
    if negb (frame_of (ldw (pg_mem s) dir _pdi) =? 0)
    then (P2V (frame_of (ldw (pg_mem s) dir _pdi)), s)
    else let '(p, x) := mm_alloc 0x1000 (pg_mm s) in (p, set_mm x s) in
  let m1 := stw (pg_mem s1) pt _pti (phys .| flags) in
  let m2 := stw m1 dir _pdi (V2P pt .| flags) in
  set_pg_mem m2 s1.

Definition _map_on_demand (dir virt flags : Z) (s : pg_state) : pg_state :=
  let flags := flags .& not32 PF_PRESENT in
  let flags := flags .| 0x200 in
  _paging_map dir 0xDEAD0000 virt flags s.

Definition k_map_on_demand (virt flags : Z) (s : pg_state) : pg_state :=
  _map_on_demand (CURRENT_PAGE_DIRECTORY s) virt flags s.

Definition k_virt_to_phys (virt : Z) (s : pg_state) : Z :=
  _virt_to_phys (pg_mem s) (CURRENT_PAGE_DIRECTORY s) virt.

Definition k_phys_to_virt (phys : Z) (s : pg_state) : Z :=
  _phys_to_virt (pg_mem s) (CURRENT_PAGE_DIRECTORY s) phys.

Definition k_paging_init (dir_addr : Z) (s : pg_state) : pg_state :=
  k_swap_pd dir_addr (MkPg (pg_mm s) dir_addr dir_addr (cr3 s)).

Definition k_paging_map (phys virt flags : Z) (s : pg_state) : pg_state :=
  _paging_map (CURRENT_PAGE_DIRECTORY s) phys virt flags s.

Definition k_paging_unmap (virt : Z) (s : pg_state) : Z * pg_state :=
  _paging_unmap (CURRENT_PAGE_DIRECTORY s) virt s.

(** [mm_alloc(0x1000) - KERNEL_VIRT]: [mm_alloc] is not declared in this file,
    so its value is an [int] and the subtraction is that of the bytes. *)
Definition alloc_table_low (s : pg_state) : Z * pg_state :=
  let '(p, x) := mm_alloc 0x1000 (pg_mm s) in (u32 (p - KERNEL_VIRT), set_mm x s).

Definition k_copy_pagedir (dest src : Z) (s : pg_state) : Z * pg_state :=
  (src, for_up 1024 0 (fun i s =>
    let m := pg_mem s in
    if negb (frame_of (ldw m src i) =? 0) then
      let src_pt := frame_of (ldw m src i) in
      let '(dest_pt, s1) :=
        if negb (frame_of (ldw m dest i) =? 0) then (frame_of (ldw m dest i), s) else alloc_table_low s in
      let m1 := for_up 1024 0 (fun q m =>
        if negb (frame_of (ldw m src_pt q) =? 0) then stw m dest_pt q (ldw m src_pt q) else m) (pg_mem s1) in
      set_pg_mem (stw m1 dest i (dest_pt .| PF_PRESENT)) s1
    else s) s).

(** The pages, allocated one by one, of [_paging_map_more] and
    [k_create_pagedir]; the value of [k_page_alloc] may be indeterminate.
    [panic] only prints. *)
Fixpoint map_pages (k : nat) (pd virt flags i : Z) : M pg_state unit :=
  match k with
  | O => ret tt
  | S k' => fun s =>
      match k_page_alloc (pg_mm s) with
      | Ok r x =>
          (phys <-- use r ;;
           modify (_paging_map pd phys (u32 (virt + i * 0x1000)) flags) ;;;
           map_pages k' pd virt flags (i + 1)) (set_mm x s)
      | Spin => Spin
      | Undef => Undef
      end
  end.

(** The test is on [pd[i]], the store goes to [pd[_pdi]]. *)
Definition _paging_map_more (pd virt numpages flags : Z) : M pg_state unit :=
  if pd =? 0 then ret tt
  else
    (if 1024 <? numpages then
       modify (for_up (Z.to_nat (numpages / 1024 + 1)) 0 (fun i s =>
         let _pdi := u32 (virt + i * 0x1000 * 0x400) .>> 22 in
         if frame_of (ldw (pg_mem s) pd i) =? 0 then
           let '(pt, s1) := alloc_table_low s in
           set_pg_mem (stw (pg_mem s1) pd _pdi (pt .| flags)) s1
         else s))
     else ret tt) ;;;
    map_pages (Z.to_nat numpages) pd virt flags 0.

Definition free_page (a : Z) (s : pg_state) : pg_state :=
  set_mm (mm_page_free (MM_CURRENT_PD (pg_mm s)) (MM_CURRENT_PT (pg_mm s)) a (pg_mm s)).2 s.

Definition free_pagedir (pd : Z) (s : pg_state) : pg_state :=
  free_page pd (for_up 1024 0 (fun i s =>
    if negb (frame_of (ldw (pg_mem s) pd i) =? 0) then
      let pt := frame_of (ldw (pg_mem s) pd i) in
      let s1 := for_up 1024 0 (fun q s =>
        if 0x00400000 <? frame_of (ldw (pg_mem s) pt q)
        then free_page (frame_of (ldw (pg_mem s) pt q)) s else s) s in
      free_page pt s1
    else s) s).

Definition k_map_kernel (pd : Z) (s : pg_state) : pg_state :=
  for_up 0x400 0 (fun i s => _paging_map pd (i * 0x1000) (i * 0x1000 + KERNEL_VIRT) 0x3 s) s.

Definition k_create_pagedir (virt numpages flags : Z) : M pg_state Z :=
  fun s =>
    let '(pd, x) := mm_alloc 0x1000 (pg_mm s) in
    let s1 := set_mm x s in
    let s2 :=
      if 1024 <? numpages then
        for_up (Z.to_nat (numpages / 1024 + 1)) 0 (fun i s =>
          let _pdi := u32 (virt + i * 0x1000 * 0x400) .>> 22 in
          let '(pt, y) := mm_alloc 0x1000 (pg_mm s) in
          set_pg_mem (stw (mm_mem y) pd _pdi (V2P pt .| flags)) (set_mm y s)) s1
      else s1 in
    (map_pages (Z.to_nat numpages) pd virt flags 0 ;;;
     modify (fun s =>
       let m1 := stw (pg_mem s) pd 1022 (V2P (KERNEL_PAGE_DIRECTORY s) .| PF_PRESENT .| PF_RW) in
       let m2 := stw m1 pd 1023 (V2P pd .| PF_PRESENT .| PF_RW) in
       set_pg_mem m2 s) ;;;
     ret pd) s2.

(** The function has no [return]: its value is indeterminate. *)
Definition k_pd_cp (src : Z) : M pg_state cval :=
  pd <-- k_create_pagedir 0 0 0x7 ;;
  modify (fun s => set_pg_mem (for_up 1024 0 (fun i m => stw m pd i (ldw m src i)) (pg_mem s)) s) ;;;
  ret None.

(** ** Translation by the processor

    [mmu m pd va] is the two-level walk of the hardware for the directory at
    [pd]: present bits, frames of 4 KB, offset. *)
Definition page_base (e : Z) : Z := e - e mod 0x1000.
Definition present (e : Z) : bool := Z.odd e.
Definition mmu (m : mem) (pd va : Z) : option Z :=
  let pde := ldw m pd (va / 0x400000) in
  if present pde then
    let pte := ldw m (P2V (page_base pde)) ((va / 0x1000) mod 1024) in
    if present pte then Some (page_base pte + va mod 0x1000) else None
  else None.

(** A directory in the kernel window whose tables are page-aligned frames of
    the first 4 MB, flags below 0x400. *)
Definition in_window (p : Z) : Prop := KERNEL_VIRT <= p <= KERNEL_VIRT + 0x3FF000 /\ p mod 0x1000 = 0.
Record pd_wf (m : mem) (pd : Z) : Prop := {
  wf_dir : in_window pd;
  wf_slot : forall i, 0 <= i < 1024 -> ldw m pd i <> 0 ->
    ldw m pd i mod 0x1000 < 0x400 /\ 0x1000 <= ldw m pd i < 0x400000;
  wf_sep : forall i, 0 <= i < 1024 -> P2V (page_base (ldw m pd i)) <> pd;
}.

Section words.
Context (m : mem).

Lemma ldw_range p i : 0 <= ldw m p i < 0x100000000.
Proof using. apply load32_range. Qed.

Lemma canon_id a : in_window (a - a mod 0x1000) -> canon a = a.
Proof using.
  intros [H _]. unfold canon, KERNEL_VIRT in *. replace (a <? 0x400000) with false by dlia.
  rewrite andb_false_r. reflexivity.
Qed.

Lemma word_window p i : in_window p -> 0 <= i < 1024 -> canon (p + 4 * i) = p + 4 * i.
Proof using.
  intros [Hp Ha] Hi. unfold canon, KERNEL_VIRT in *. replace (p + 4 * i <? 0x400000) with false by lia.
  rewrite andb_false_r. reflexivity.
Qed.

(** Words of two window pages: the same word, or different ones. *)
Lemma ldw_stw p i q j v :
  in_window p -> in_window q -> 0 <= i < 1024 -> 0 <= j < 1024 ->
  ldw (stw m p i v) q j = if (q =? p) && (j =? i) then u32 v else ldw m q j.
Proof using.
  intros Hp Hq Hi Hj. unfold ldw, stw. rewrite !word_window by assumption.
  destruct Hp as [Hp1 Hp2], Hq as [Hq1 Hq2].
  destruct (Z.eqb_spec q p) as [->|Hne]; [destruct (Z.eqb_spec j i) as [->|Hne]|]; simpl.
  - apply load32_store32_eq.
  - apply load32_store32_ne. lia.
  - apply load32_store32_ne. dlia.
Qed.
End words.

Lemma frame_of_eq x : 0 <= x < 0x100000000 -> frame_of x = x - x mod 0x400.
Proof. intros. unfold frame_of. change 0x3FF with (Z.ones 10). apply (land_not_ones 10); lia. Qed.

Lemma pd_index_eq va : pd_index va = va / 0x400000.
Proof. unfold pd_index. rewrite Z.shiftr_div_pow2 by lia. reflexivity. Qed.

Lemma pt_index_eq va : pt_index va = (va / 0x1000) mod 1024.
Proof.
  unfold pt_index. change 0x3FF with (Z.ones 10). rewrite land_ones_mod, Z.shiftr_div_pow2 by lia. reflexivity.
Qed.

Lemma pd_index_range va : 0 <= va < 0x100000000 -> 0 <= va / 0x400000 < 1024.
Proof. dlia. Qed.

Lemma pt_index_range va : 0 <= (va / 0x1000) mod 1024 < 1024.
Proof. apply Z.mod_pos_bound. lia. Qed.

#[export] Hint Resolve pd_index_range pt_index_range ldw_range : memory.

(** Low frames and their window addresses. *)
Lemma P2V_low f : 0 <= f < 0x400000 -> P2V f = f + KERNEL_VIRT.
Proof. intros. unfold P2V, KERNEL_VIRT. csimp. bsimp. Qed.

Lemma V2P_window p : in_window p -> V2P p = p - KERNEL_VIRT.
Proof. intros [H _]. unfold V2P, KERNEL_VIRT in *. csimp. bsimp. Qed.

Lemma P2V_window f : 0 <= f < 0x400000 -> f mod 0x1000 = 0 -> in_window (P2V f).
Proof. intros Hf Ha. rewrite P2V_low by lia. unfold in_window, KERNEL_VIRT. dlia. Qed.

(** The software mask [~0x3FF] finds the frame the hardware uses. *)
Lemma slot_frame m pd i :
  pd_wf m pd -> 0 <= i < 1024 -> ldw m pd i <> 0 ->
  frame_of (ldw m pd i) = page_base (ldw m pd i) /\ 0 < page_base (ldw m pd i) < 0x400000 /\
  in_window (P2V (page_base (ldw m pd i))).
Proof.
  intros Hwf Hi Hnz. destruct (wf_slot _ _ Hwf i Hi Hnz) as [Hfl Hr].
  rewrite frame_of_eq by lia. unfold page_base. split; [dlia|].
  assert (0 < ldw m pd i - ldw m pd i mod 0x1000 < 0x400000) by dlia.
  split; [assumption|]. apply P2V_window; [lia|]. dlia.
Qed.

Lemma slot_empty m pd i : pd_wf m pd -> 0 <= i < 1024 -> (frame_of (ldw m pd i) =? 0) = (ldw m pd i =? 0).
Proof.
  intros Hwf Hi. destruct (Z.eqb_spec (ldw m pd i) 0) as [->|Hnz]; [reflexivity|].
  destruct (slot_frame m pd i Hwf Hi Hnz) as (-> & H & _). lia.
Qed.

Lemma present_flags a f : a mod 2 = 0 -> present (a + f) = present f.
Proof. intros H. unfold present. rewrite Z.odd_add, !Zodd_mod, H. simpl. destruct (Zeq_bool _ _); reflexivity. Qed.

(** ** Mapping and unmapping *)

(** Everything the directory refers to lies below the heap pointer, and the
    heap has room for one more table. *)
Record table_room (s : pg_state) (pd : Z) : Prop := {
  room_ok : mm_heap_ok (pg_mm s);
  room_heap : KERNEL_VIRT + 0x1000 <= MM_HEAP (pg_mm s) /\ MM_HEAP (pg_mm s) + 0x4000 < MM_HEAP_MAX;
  room_dir : pd < MM_HEAP (pg_mm s);
  room_tables : forall i, 0 <= i < 1024 -> ldw (pg_mem s) pd i <> 0 ->
    P2V (page_base (ldw (pg_mem s) pd i)) < MM_HEAP (pg_mm s);
}.

(** The table that [_paging_map] writes to. *)
Definition map_table (s : pg_state) (pd virt : Z) : Z :=
  let e := ldw (pg_mem s) pd (virt / 0x400000) in
  if e =? 0 then MM_HEAP (pg_mm s) else P2V (page_base e).

Lemma mm_alloc_table s pd :
  table_room s pd ->
  mm_alloc 0x1000 (pg_mm s) = (MM_HEAP (pg_mm s), set_heap (MM_HEAP (pg_mm s) + 0x4000) (pg_mm s)).
Proof.
  intros [Hok [_ Hr] _ _]. destruct (mm_alloc_cases 0x1000 _ Hok ltac:(lia)) as [[? _]|[_ ->]]; [lia|reflexivity].
Qed.

Lemma map_table_ok s pd virt :
  pd_wf (pg_mem s) pd -> table_room s pd -> 0 <= virt < 0x100000000 ->
  in_window (map_table s pd virt) /\ map_table s pd virt <> pd.
Proof.
  intros Hwf Hr Hv. pose proof (pd_index_range virt Hv) as Hi. unfold map_table.
  destruct (Z.eqb_spec (ldw (pg_mem s) pd (virt / 0x400000)) 0) as [E|Hnz].
  - destruct Hr as [[_ Ha] [H1 H2] H3 _]. unfold in_window, KERNEL_VIRT, MM_HEAP_MAX in *. lia.
  - split; [apply slot_frame; assumption|apply (wf_sep _ _ Hwf); assumption].
Qed.

Lemma or_flags flags a : 0 <= flags < 0x400 -> a mod 0x1000 = 0 -> a .| flags = a + flags.
Proof. intros. apply (lor_disjoint_add 12); [lia|assumption|]. change (2 ^ 12) with 0x1000. lia. Qed.

Section mapping.
Context (s : pg_state) (pd phys virt flags : Z).
Hypothesis Hwf : pd_wf (pg_mem s) pd.
Hypothesis Hroom : table_room s pd.
Hypothesis Hv : 0 <= virt < 0x100000000.
Hypothesis Hphys : 0 <= phys < 0x100000000 /\ phys mod 0x1000 = 0.
Hypothesis Hfl : 0 <= flags < 0x400.

Let pt := map_table s pd virt.
Let pdi := virt / 0x400000.
Let pti := (virt / 0x1000) mod 1024.
Let m := pg_mem s.
Let m' := pg_mem (_paging_map pd phys virt flags s).

(** What [_paging_map] writes: one entry of the table, one slot of the directory. *)
Lemma paging_map_mem : m' = stw (stw m pt pti (phys + flags)) pd pdi (pt - KERNEL_VIRT + flags).
Proof.
  destruct (map_table_ok s pd virt Hwf Hroom Hv) as [Hw _]. fold pt in Hw.
  pose proof (V2P_window pt Hw) as Hvp. pose proof (pd_index_range virt Hv) as Hi.
  unfold m', _paging_map. rewrite pd_index_eq, pt_index_eq. fold m pdi pti.
  rewrite slot_empty by assumption. unfold pt, map_table in *. fold m pdi in Hw, Hvp |- *.
  destruct (Z.eqb_spec (ldw m pd pdi) 0) as [E|Hnz]; cbn [negb].
  - rewrite (mm_alloc_table s pd Hroom). cbn. rewrite Hvp, !or_flags; [reflexivity|assumption| |assumption|apply Hphys].
    destruct Hw. unfold KERNEL_VIRT. dlia.
  - destruct (slot_frame m pd pdi Hwf Hi Hnz) as (-> & Hb & _). cbn.
    rewrite Hvp, !or_flags; [reflexivity|assumption| |assumption|apply Hphys].
    destruct Hw. unfold KERNEL_VIRT. dlia.
Qed.

Lemma map_pdi : 0 <= pdi < 1024. Proof. apply pd_index_range. assumption. Qed.
Lemma map_pti : 0 <= pti < 1024. Proof. apply pt_index_range. Qed.

(** Directory slots after the call. *)
Lemma map_slot i : 0 <= i < 1024 ->
  ldw m' pd i = if i =? pdi then pt - KERNEL_VIRT + flags else ldw m pd i.
Proof.
  intros Hi. rewrite paging_map_mem. destruct (map_table_ok s pd virt Hwf Hroom Hv) as [Hw Hne]. fold pt in Hw, Hne.
  pose proof map_pdi. pose proof map_pti. pose proof (wf_dir _ _ Hwf).
  rewrite !ldw_stw by assumption. rewrite Z.eqb_refl.
  replace (pd =? pt) with false by lia. cbn [andb].
  destruct (i =? pdi); [|reflexivity]. apply u32_small. unfold in_window, KERNEL_VIRT in *. lia.
Qed.

(** Table entries after the call. *)
Lemma map_entry q j : in_window q -> q <> pd -> 0 <= j < 1024 ->
  ldw m' q j = if (q =? pt) && (j =? pti) then phys + flags else ldw m q j.
Proof.
  intros Hq Hne Hj. rewrite paging_map_mem. destruct (map_table_ok s pd virt Hwf Hroom Hv) as [Hw _]. fold pt in Hw.
  pose proof map_pdi. pose proof map_pti. pose proof (wf_dir _ _ Hwf).
  rewrite !ldw_stw by assumption. replace (q =? pd) with false by lia. cbn [andb].
  destruct ((q =? pt) && (j =? pti)); [|reflexivity]. apply u32_small. dlia.
Qed.

Lemma map_base : page_base (pt - KERNEL_VIRT + flags) = pt - KERNEL_VIRT /\ P2V (pt - KERNEL_VIRT) = pt.
Proof.
  destruct (map_table_ok s pd virt Hwf Hroom Hv) as [[Hw Ha] _]. fold pt in Hw, Ha. clearbody pt.
  unfold page_base, KERNEL_VIRT in *. split; [dlia|]. rewrite P2V_low by lia. unfold KERNEL_VIRT. lia.
Qed.

(** The invariant of the directory is preserved. *)
Lemma paging_map_wf : pd_wf m' pd.
Proof.
  destruct (map_table_ok s pd virt Hwf Hroom Hv) as [[Hw Ha] Hne]. fold pt in Hw, Ha, Hne.
  destruct map_base as [Hb1 Hb2].
  assert (Hlow : 0x1000 <= pt - KERNEL_VIRT).
  { unfold pt, map_table. fold m pdi. destruct (Z.eqb_spec (ldw m pd pdi) 0) as [E|Hnz].
    - destruct Hroom as [_ [H _] _ _]. lia.
    - destruct (wf_slot _ _ Hwf pdi map_pdi Hnz) as [_ H]. fold m in H.
      rewrite P2V_low by (unfold page_base; dlia). unfold page_base. dlia. }
  split; [apply Hwf| |].
  - intros i Hi. rewrite map_slot by assumption. destruct (Z.eqb_spec i pdi); [|apply (wf_slot _ _ Hwf); assumption].
    intros _. clearbody pt. unfold KERNEL_VIRT in *. dlia.
  - intros i Hi. rewrite map_slot by assumption. destruct (Z.eqb_spec i pdi); [|apply (wf_sep _ _ Hwf); assumption].
    rewrite Hb1, Hb2. assumption.
Qed.

(** Translation after the call, in general. *)
Lemma map_walk va : 0 <= va < 0x100000000 ->
  let e := if va / 0x400000 =? pdi then pt - KERNEL_VIRT + flags else ldw m pd (va / 0x400000) in
  mmu m' pd va =
    if present e then
      let q := P2V (page_base e) in
      let pte := if (q =? pt) && ((va / 0x1000) mod 1024 =? pti) then phys + flags
                 else ldw m q ((va / 0x1000) mod 1024) in
      if present pte then Some (page_base pte + va mod 0x1000) else None
    else None.
Proof.
  intros Hva e. pose proof (pd_index_range va Hva) as Hi. unfold mmu. rewrite map_slot by assumption. fold e.
  destruct (present e) eqn:Hp; [|reflexivity].
  assert (Hq : in_window (P2V (page_base e)) /\ P2V (page_base e) <> pd).
  { unfold e in *. destruct (Z.eqb_spec (va / 0x400000) pdi).
    - destruct map_base as [-> ->]. apply map_table_ok; assumption.
    - assert (ldw m pd (va / 0x400000) <> 0) by (intros E; rewrite E in Hp; discriminate).
      split; [apply slot_frame; assumption|apply (wf_sep _ _ Hwf); assumption]. }
  cbn zeta. rewrite map_entry; [reflexivity|apply Hq|apply Hq|apply pt_index_range].
Qed.
End mapping.

Lemma same_page_index va virt :
  va / 0x1000 = virt / 0x1000 -> va / 0x400000 = virt / 0x400000.
Proof. intros. dlia. Qed.

Lemma other_page_index va virt :
  va / 0x1000 <> virt / 0x1000 -> va / 0x400000 = virt / 0x400000 ->
  ((va / 0x1000) mod 1024 =? (virt / 0x1000) mod 1024) = false.
Proof. intros H1 H2. apply Z.eqb_neq. intros E. apply H1. dlia. Qed.

Lemma present_entry a f : a mod 0x1000 = 0 -> present (a + f) = present f.
Proof. intros. apply present_flags. dlia. Qed.

Lemma map_walk_same s pd phys virt flags va :
  pd_wf (pg_mem s) pd -> table_room s pd -> 0 <= virt < 0x100000000 ->
  0 <= phys < 0x100000000 /\ phys mod 0x1000 = 0 -> 0 <= flags < 0x400 -> present flags = true ->
  va / 0x1000 = virt / 0x1000 -> 0 <= va < 0x100000000 ->
  mmu (pg_mem (_paging_map pd phys virt flags s)) pd va = Some (phys + va mod 0x1000).
Proof.
  intros Hwf Hr Hv Hp Hf Hpr Hpg Hva. rewrite map_walk by assumption. cbn zeta.
  rewrite (same_page_index va virt Hpg), Hpg, !Z.eqb_refl.
  destruct (map_table_ok s pd virt Hwf Hr Hv) as [[Hw Ha] _].
  destruct (map_base s pd phys virt flags Hwf Hr Hv Hf) as [-> ->]. rewrite Z.eqb_refl. cbn [andb].
  rewrite !present_entry, Hpr by (try apply Hp; unfold KERNEL_VIRT; dlia).
  f_equal. unfold page_base. dlia.
Qed.

(** C4: [_paging_map] with a present flag makes the processor translate every
    address of the virtual page to the physical page; the directory stays well
    formed. *)
Theorem paging_map_translates s pd phys virt flags va :
  pd_wf (pg_mem s) pd -> table_room s pd -> 0 <= virt < 0x100000000 ->
  0 <= phys < 0x100000000 /\ phys mod 0x1000 = 0 -> 0 <= flags < 0x400 -> present flags = true ->
  va / 0x1000 = virt / 0x1000 -> 0 <= va < 0x100000000 ->
  mmu (pg_mem (_paging_map pd phys virt flags s)) pd va = Some (phys + va mod 0x1000) /\
  pd_wf (pg_mem (_paging_map pd phys virt flags s)) pd.
Proof. intros. split; [apply map_walk_same; assumption|apply paging_map_wf; assumption]. Qed.

(** ... and changes the translation of no other page of a present slot,
    unless that slot shares its table with the slot of the mapped page. *)
Theorem paging_map_frame s pd phys virt flags va :
  pd_wf (pg_mem s) pd -> table_room s pd -> 0 <= virt < 0x100000000 ->
  0 <= phys < 0x100000000 /\ phys mod 0x1000 = 0 -> 0 <= flags < 0x400 -> present flags = true ->
  0 <= va < 0x100000000 -> va / 0x1000 <> virt / 0x1000 ->
  present (ldw (pg_mem s) pd (va / 0x400000)) = true ->
  (va / 0x400000 <> virt / 0x400000 ->
   page_base (ldw (pg_mem s) pd (va / 0x400000)) <> page_base (ldw (pg_mem s) pd (virt / 0x400000))) ->
  mmu (pg_mem (_paging_map pd phys virt flags s)) pd va = mmu (pg_mem s) pd va.
Proof.
  intros Hwf Hr Hv Hp Hf Hpr Hva Hpg Hsl Hsep. rewrite map_walk by assumption. cbn zeta. unfold mmu. rewrite Hsl.
  assert (Hnz : ldw (pg_mem s) pd (va / 0x400000) <> 0) by (intros E; rewrite E in Hsl; discriminate).
  pose proof (pd_index_range va Hva) as Hi.
  destruct (slot_frame _ _ _ Hwf Hi Hnz) as (_ & Hb & _).
  destruct (Z.eqb_spec (va / 0x400000) (virt / 0x400000)) as [E|Hne].
  - destruct (map_base s pd phys virt flags Hwf Hr Hv Hf) as [-> ->].
    destruct (map_table_ok s pd virt Hwf Hr Hv) as [[_ Ha] _].
    rewrite present_entry, Hpr by (unfold KERNEL_VIRT; dlia). rewrite other_page_index, andb_false_r by assumption.
    unfold map_table. rewrite <- E. replace (ldw (pg_mem s) pd (va / 0x400000) =? 0) with false by lia. reflexivity.
  - rewrite Hsl. specialize (Hsep Hne).
    replace (P2V (page_base (ldw (pg_mem s) pd (va / 0x400000))) =? map_table s pd virt) with false; [reflexivity|].
    symmetry. apply Z.eqb_neq. unfold map_table.
    destruct (Z.eqb_spec (ldw (pg_mem s) pd (virt / 0x400000)) 0) as [E0|Hnz2].
    + pose proof (room_tables _ _ Hr _ Hi Hnz). lia.
    + destruct (slot_frame _ _ _ Hwf (pd_index_range virt Hv) Hnz2) as (_ & Hb2 & _).
      rewrite !P2V_low by lia. lia.
Qed.

(** A concrete directory at 0xC0110000 with one table at 0xC0111000 in slot 768. *)
Definition boot_pg : pg_state :=
  MkPg (MkMm (store32 ∅ 0xC0110C00 0x111003) 0xC0120000 0xC0124000 0xC0128000)
       0xC0110000 0xC0110000 0x110000.

Lemma boot_slot i : 0 <= i < 1024 -> ldw (pg_mem boot_pg) 0xC0110000 i = if i =? 768 then 0x111003 else 0.
Proof.
  intros Hi. unfold pg_mem, boot_pg. cbn [pg_mm mm_mem].
  change (store32 ∅ 0xC0110C00 0x111003) with (stw ∅ 0xC0110000 768 0x111003).
  rewrite ldw_stw by (unfold in_window, KERNEL_VIRT; (split; [lia|reflexivity]) || lia).
  rewrite Z.eqb_refl. cbn [andb]. destruct (i =? 768); [reflexivity|].
  unfold ldw, load32, load8. rewrite !lookup_empty. reflexivity.
Qed.

Lemma boot_wf : pd_wf (pg_mem boot_pg) 0xC0110000.
Proof.
  split; [split; [unfold KERNEL_VIRT; lia|reflexivity]| |].
  - intros i Hi. rewrite boot_slot by assumption. destruct (i =? 768); [|congruence].
    intros _. split; reflexivity || (split; lia).
  - intros i Hi. rewrite boot_slot by assumption. destruct (i =? 768); discriminate.
Qed.

Lemma boot_room : table_room boot_pg 0xC0110000.
Proof.
  split; unfold mm_heap_ok, MM_HEAP_MAX, KERNEL_VIRT; cbn [pg_mm boot_pg MM_HEAP];
    [split; [lia|reflexivity]|lia|lia|].
  intros i Hi. rewrite boot_slot by assumption. destruct (i =? 768); [|congruence]. intros _. reflexivity.
Qed.

Lemma paging_map_translates_witness :
  mmu (pg_mem (_paging_map 0xC0110000 0x400000 0xC0400000 3 boot_pg)) 0xC0110000 0xC0400123 = Some 0x400123 /\
  pd_wf (pg_mem (_paging_map 0xC0110000 0x400000 0xC0400000 3 boot_pg)) 0xC0110000.
Proof.
  apply (paging_map_translates boot_pg 0xC0110000 0x400000 0xC0400000 3 0xC0400123 boot_wf boot_room);
    try reflexivity; try lia. split; [lia|reflexivity].
Defined.

Lemma paging_map_frame_witness :
  mmu (pg_mem (_paging_map 0xC0110000 0x400000 0xC0400000 3 boot_pg)) 0xC0110000 0xC0001000 =
  mmu (pg_mem boot_pg) 0xC0110000 0xC0001000.
Proof.
  apply (paging_map_frame boot_pg 0xC0110000 0x400000 0xC0400000 3 0xC0001000 boot_wf boot_room);
    try reflexivity; try lia; try (split; [lia|reflexivity]).
  - discriminate.
  - intros _. vm_compute. discriminate.
Defined.

(** The low-window address of a table word names the same word. *)
Lemma stw_low m f i v :
  0 <= f < 0x400000 -> f mod 0x1000 = 0 -> 0 <= i < 1024 -> stw m f i v = stw m (P2V f) i v.
Proof.
  intros Hf Ha Hi. unfold stw. rewrite (word_window (P2V f)) by (try apply P2V_window; assumption).
  rewrite P2V_low by lia. unfold canon. replace ((0 <=? f + 4 * i) && (f + 4 * i <? 0x400000)) with true by dlia.
  f_equal. lia.
Qed.

Section unmapping.
Context (s : pg_state) (pd virt : Z).
Hypothesis Hwf : pd_wf (pg_mem s) pd.
Hypothesis Hv : 0 <= virt < 0x100000000.
Hypothesis Hnz : ldw (pg_mem s) pd (virt / 0x400000) <> 0.

Let m := pg_mem s.
Let pt := P2V (page_base (ldw m pd (virt / 0x400000))).

Lemma paging_unmap_eq :
  _paging_unmap pd virt s = (1, set_pg_mem (stw m pt ((virt / 0x1000) mod 1024) 0) s).
Proof.
  pose proof (pd_index_range virt Hv) as Hi. unfold _paging_unmap. rewrite pd_index_eq, pt_index_eq, slot_empty by assumption.
  fold m in Hnz |- *. replace (ldw m pd (virt / 0x400000) =? 0) with false by lia. cbn [negb].
  destruct (slot_frame m pd _ Hwf Hi Hnz) as (-> & Hb & Hw). rewrite stw_low; [reflexivity|lia| |apply pt_index_range].
  unfold page_base. dlia.
Qed.

Lemma unmap_entry q j : in_window q -> 0 <= j < 1024 ->
  ldw (pg_mem (_paging_unmap pd virt s).2) q j =
  if (q =? pt) && (j =? (virt / 0x1000) mod 1024) then 0 else ldw m q j.
Proof.
  intros Hq Hj. rewrite paging_unmap_eq. cbn [snd]. unfold pg_mem, set_pg_mem, set_mm. cbn [pg_mm set_mem mm_mem].
  destruct (slot_frame m pd _ Hwf (pd_index_range virt Hv) Hnz) as (_ & _ & Hw).
  rewrite ldw_stw; [reflexivity|assumption|assumption|apply pt_index_range|assumption].
Qed.

(** The directory itself is not touched. *)
Lemma unmap_slot i : 0 <= i < 1024 -> ldw (pg_mem (_paging_unmap pd virt s).2) pd i = ldw m pd i.
Proof.
  intros Hi. rewrite unmap_entry; [|apply Hwf|assumption].
  pose proof (wf_sep _ _ Hwf (virt / 0x400000) (pd_index_range virt Hv)) as Hs. fold m pt in Hs.
  replace (pd =? pt) with false by lia. reflexivity.
Qed.
End unmapping.

(** [_paging_unmap] of a page of an existing table returns 1, after which
    the processor finds no translation for the page, and the pages of every
    other table, like the other pages of that table, translate as before. *)
Theorem paging_unmap_removes s pd virt va :
  pd_wf (pg_mem s) pd -> 0 <= virt < 0x100000000 -> 0 <= va < 0x100000000 ->
  ldw (pg_mem s) pd (virt / 0x400000) <> 0 ->
  let '(r, s') := _paging_unmap pd virt s in
  r = 1 /\
  (va / 0x1000 = virt / 0x1000 -> mmu (pg_mem s') pd va = None) /\
  (va / 0x1000 <> virt / 0x1000 ->
   (va / 0x400000 <> virt / 0x400000 ->
    page_base (ldw (pg_mem s) pd (va / 0x400000)) <> page_base (ldw (pg_mem s) pd (virt / 0x400000))) ->
   mmu (pg_mem s') pd va = mmu (pg_mem s) pd va).
Proof.
  intros Hwf Hv Hva Hnz. pose proof (unmap_entry s pd virt Hwf Hv Hnz) as He.
  pose proof (unmap_slot s pd virt Hwf Hv Hnz) as Hs. rewrite paging_unmap_eq in * by assumption.
  set (s' := set_pg_mem _ _) in *. cbn [snd] in *. split; [reflexivity|].
  pose proof (pd_index_range va Hva) as Hi.
  assert (Hw : ldw (pg_mem s) pd (va / 0x400000) <> 0 ->
    in_window (P2V (page_base (ldw (pg_mem s) pd (va / 0x400000)))) /\
    0 < page_base (ldw (pg_mem s) pd (va / 0x400000)) < 0x400000).
  { intros H. destruct (slot_frame _ _ _ Hwf Hi H) as (_ & ? & ?). auto. }
  unfold mmu. rewrite Hs by assumption. split.
  - intros Hpg. destruct (present _); [|reflexivity]. rewrite (same_page_index va virt Hpg), Hpg in *.
    rewrite He; [|apply Hw; assumption|apply pt_index_range]. rewrite !Z.eqb_refl. reflexivity.
  - intros Hpg Hsep. destruct (present (ldw (pg_mem s) pd (va / 0x400000))) eqn:Hp; [|reflexivity].
    assert (Hnz2 : ldw (pg_mem s) pd (va / 0x400000) <> 0) by (intros E; rewrite E in Hp; discriminate).
    specialize (Hw Hnz2) as [Hw Hb]. rewrite He; [|assumption|apply pt_index_range].
    destruct (Z.eq_dec (va / 0x400000) (virt / 0x400000)) as [E|Hne].
    + rewrite (other_page_index va virt) by assumption. rewrite andb_false_r. reflexivity.
    + destruct (slot_frame _ _ _ Hwf (pd_index_range virt Hv) Hnz) as (_ & Hb2 & _). specialize (Hsep Hne).
      rewrite (P2V_low (page_base (ldw (pg_mem s) pd (virt / 0x400000)))) by lia.
      rewrite (P2V_low (page_base (ldw (pg_mem s) pd (va / 0x400000)))) by lia.
      replace (page_base (ldw (pg_mem s) pd (va / 0x400000)) + KERNEL_VIRT =?
               page_base (ldw (pg_mem s) pd (virt / 0x400000)) + KERNEL_VIRT) with false by lia.
      rewrite <- (P2V_low (page_base (ldw (pg_mem s) pd (va / 0x400000)))) by lia. reflexivity.
Qed.

Lemma paging_unmap_removes_witness :
  let '(r, s') := _paging_unmap 0xC0110000 0xC0002000 boot_pg in
  r = 1 /\ (0xC0002004 / 0x1000 = 0xC0002000 / 0x1000 -> mmu (pg_mem s') 0xC0110000 0xC0002004 = None) /\
  (0xC0002004 / 0x1000 <> 0xC0002000 / 0x1000 ->
   (0xC0002004 / 0x400000 <> 0xC0002000 / 0x400000 ->
    page_base (ldw (pg_mem boot_pg) 0xC0110000 (0xC0002004 / 0x400000)) <>
    page_base (ldw (pg_mem boot_pg) 0xC0110000 (0xC0002000 / 0x400000))) ->
   mmu (pg_mem s') 0xC0110000 0xC0002004 = mmu (pg_mem boot_pg) 0xC0110000 0xC0002004).
Proof.
  apply (paging_unmap_removes boot_pg 0xC0110000 0xC0002000 0xC0002004 boot_wf); [lia|lia|].
  vm_compute. discriminate.
Defined.

Lemma guard_dead e : negb (frame_of (lnot e) =? 0) = false.
Proof. unfold lnot. destruct (e =? 0); reflexivity. Qed.

(** [k_virt_to_phys] after [k_paging_map] returns the page's table entry:
    the physical address with its flags. *)
Theorem map_virt_to_phys s phys virt flags :
  let pd := CURRENT_PAGE_DIRECTORY s in
  pd_wf (pg_mem s) pd -> table_room s pd -> 0 <= virt < 0x100000000 ->
  0 <= phys < 0x100000000 /\ phys mod 0x1000 = 0 -> 0 <= flags < 0x400 ->
  k_virt_to_phys virt (k_paging_map phys virt flags s) = phys + flags.
Proof.
  intros pd Hwf Hr Hv Hp Hf. unfold k_virt_to_phys, k_paging_map. fold pd.
  assert (Epd : CURRENT_PAGE_DIRECTORY (_paging_map pd phys virt flags s) = pd).
  { unfold _paging_map. repeat (case_match; simplify_eq/=; try reflexivity). }
  rewrite Epd. unfold _virt_to_phys. rewrite guard_dead, pd_index_eq, pt_index_eq.
  pose proof (pd_index_range virt Hv) as Hi.
  rewrite map_slot by assumption. rewrite Z.eqb_refl.
  destruct (map_table_ok s pd virt Hwf Hr Hv) as [[Hw Ha] Hne].
  destruct (map_base s pd phys virt flags Hwf Hr Hv Hf) as [Hb1 Hb2].
  rewrite frame_of_eq by (unfold KERNEL_VIRT in *; lia).
  replace (map_table s pd virt - KERNEL_VIRT + flags - (map_table s pd virt - KERNEL_VIRT + flags) mod 0x400)
    with (map_table s pd virt - KERNEL_VIRT) by (unfold KERNEL_VIRT in *; dlia).
  rewrite Hb2. rewrite map_entry; [|assumption..|split; assumption|assumption|apply pt_index_range].
  rewrite !Z.eqb_refl. reflexivity.
Qed.

Lemma map_virt_to_phys_witness :
  k_virt_to_phys 0xC0400000 (k_paging_map 0x400000 0xC0400000 3 boot_pg) = 0x400003.
Proof.
  apply (map_virt_to_phys boot_pg 0x400000 0xC0400000 3 boot_wf boot_room); try lia. split; [lia|reflexivity].
Defined.

(** The guard of [_virt_to_phys] never fires: in a directory slot that was
    never mapped it reads the table entry out of physical page 0, whatever
    that holds, and not NULL. *)
Theorem virt_to_phys_unmapped_slot m dir virt :
  0 <= virt < 0x100000000 -> ldw m dir (virt / 0x400000) = 0 ->
  _virt_to_phys m dir virt = load32 m (KERNEL_VIRT + 4 * ((virt / 0x1000) mod 1024)).
Proof.
  intros Hv E. unfold _virt_to_phys. rewrite guard_dead, pd_index_eq, pt_index_eq, E.
  unfold ldw. rewrite (word_window (P2V (frame_of 0))); [reflexivity| |apply pt_index_range].
  split; [vm_compute; split; discriminate|reflexivity].
Qed.

Lemma virt_to_phys_unmapped_slot_witness :
  _virt_to_phys (store32 ∅ 0xC0000000 0xF000FF53) 0xC0110000 0xC0400000 = 0xF000FF53.
Proof.
  etransitivity; [apply (virt_to_phys_unmapped_slot (store32 ∅ 0xC0000000 0xF000FF53) 0xC0110000 0xC0400000)|];
    [lia|reflexivity|vm_compute; reflexivity].
Defined.
