(* ===== verification/Mutex.v ===== *)
(** * kernel/mutex.c and acquire/release of kernel/arch/sched.s

    The interrupt-disable nesting of [pushcli]/[popcli] on one processor, and
    the spinlock [acquire]/[release] (one atomic [xchg] each) run by any number
    of processors. *)

From stdpp Require Import base numbers list relations.
From Stdlib Require Import ZArith Lia.
From S2P Require Import Prelude.
Open Scope Z_scope.

(** ** Interrupt nesting *)

(** [ncli], an [int] ([cli_nesting] bounds it), and the interrupt flag of the
    processor. *)
Record cli_state := MkCli { ncli : Z; IF : bool }.

Definition pushcli (s : cli_state) : cli_state := MkCli (ncli s + 1) false.

(** [panic] prints a line and returns; this is when it is called. *)
Definition popcli_panics (s : cli_state) : bool := ncli s - 1 <? 0.
Definition popcli (s : cli_state) : cli_state :=
  let n := ncli s - 1 in
  if n =? 0 then MkCli n true else MkCli n (IF s).

Definition nocli (s : cli_state) : Z := ncli s.

(** Sequences of calls, and the depth they leave: calls of [pushcli] less calls
    of [popcli]. *)
Inductive cli_op := Push | Pop.
Definition cli_step (s : cli_state) (o : cli_op) : cli_state :=
  match o with Push => pushcli s | Pop => popcli s end.
Definition cli_run (w : list cli_op) (s : cli_state) : cli_state := foldl cli_step s w.
Definition weight (o : cli_op) : Z := match o with Push => 1 | Pop => -1 end.
Definition depth (w : list cli_op) : Z := foldr (fun o d => weight o + d) 0 w.
(** No [popcli] without its [pushcli]. *)
Definition well_nested (w : list cli_op) : Prop := forall p q, w = p ++ q -> 0 <= depth p.

Lemma depth_app p q : depth (p ++ q) = depth p + depth q.
Proof. induction p as [|o p IH]; cbn; [reflexivity|]. unfold depth in *. rewrite IH. lia. Qed.

Lemma depth_bound w : - Z.of_nat (length w) <= depth w <= Z.of_nat (length w).
Proof. induction w as [|[] w IH]; cbn -[Z.of_nat]; unfold depth in *; lia. Qed.

Lemma well_nested_prefix p q : well_nested (p ++ q) -> well_nested p.
Proof. intros H p1 p2 ->. apply (H p1 (p2 ++ q)). apply eq_sym, app_assoc. Qed.

Lemma cli_run_exact w f : well_nested w ->
  cli_run w (MkCli 0 f) = MkCli (depth w) (match w with [] => f | _ => depth w =? 0 end).
Proof.
  induction w as [|o w IH] using rev_ind; intros H; [reflexivity|].
  unfold cli_run in *. rewrite foldl_app, (IH (well_nested_prefix _ _ H)). cbn [foldl]. rewrite depth_app.
  pose proof (H w [o] eq_refl) as H0. pose proof (H (w ++ [o]) [] (eq_sym (app_nil_r _))) as H1. rewrite depth_app in H1.
  destruct o; cbn [cli_step]; unfold pushcli, popcli; cbn [ncli IF depth foldr weight] in *.
  - replace (match w ++ [Push] with [] => f | _ => depth w + (1 + 0) =? 0 end) with false; [f_equal; lia|].
    destruct w; cbn [app]; symmetry; apply Z.eqb_neq; lia.
  - destruct w as [|o w]; [cbn in H1; lia|]. cbn [app]. replace (depth (o :: w) + (-1 + 0)) with (depth (o :: w) - 1) by lia.
    destruct (Z.eqb_spec (depth (o :: w) - 1) 0); [reflexivity|].
    replace (depth (o :: w) =? 0) with false by lia. reflexivity.
Qed.

(** C6: nesting of interrupt disabling.  Start with no [pushcli] pending and
    interrupts on or off, and make fewer than 2^31 calls in which no [popcli]
    lacks its [pushcli].  Then [ncli] is the number of calls still open, an
    [int]; interrupts are off while one is open and on when none is, whatever
    the flag was before the first call; and [popcli] never reports an error. *)
Theorem cli_nesting w f :
  well_nested w -> Z.of_nat (length w) < 0x80000000 ->
  let s := cli_run w (MkCli 0 f) in
  ncli s = depth w /\ 0 <= ncli s < 0x80000000 /\
  (w <> [] -> IF s = (depth w =? 0)) /\
  (forall p q, w = p ++ Pop :: q -> popcli_panics (cli_run p (MkCli 0 f)) = false).
Proof.
  intros H Hl. cbv zeta. rewrite cli_run_exact by assumption. cbn [ncli IF]. pose proof (depth_bound w).
  pose proof (H w [] (eq_sym (app_nil_r _))). split; [reflexivity|]. split; [lia|]. split.
  - intros Hw. destruct w; [congruence|reflexivity].
  - intros p q ->. rewrite cli_run_exact by (eapply well_nested_prefix; exact H). unfold popcli_panics. cbn [ncli].
    pose proof (H (p ++ [Pop]) q (app_assoc p [Pop] q)) as Hd. rewrite depth_app in Hd. cbn in Hd. lia.
Qed.

Lemma cli_nesting_witness :
  let s := cli_run [Push; Push; Pop] (MkCli 0 true) in
  ncli s = 1 /\ 0 <= ncli s < 0x80000000 /\ ([Push; Push; Pop] <> [] -> IF s = false) /\
  (forall p q, [Push; Push; Pop] = p ++ Pop :: q -> popcli_panics (cli_run p (MkCli 0 true)) = false).
Proof.
  apply (cli_nesting [Push; Push; Pop] true); [|cbn; lia].
  intros p q E. destruct p as [|[] [|[] [|[] [|]]]]; cbn in E |- *; try lia; discriminate.
Defined.

(** ** The spinlock *)

(** What each processor is doing. *)
Inductive cpu_pc := Outside | Spinning | Critical.
#[export] Instance cpu_pc_eq_dec : EqDecision cpu_pc.
Proof. solve_decision. Defined.

Record lock_state := MkLock { lock : Z; cpus : list cpu_pc }.

(** [xchg eax, [ecx]] with [eax = new]: the old word and the state after it. *)
Definition xchg (new : Z) (s : lock_state) : Z * lock_state := (lock s, MkLock new (cpus s)).

(** One [xchg] of [acquire]: the loop exits when the old word was 0. *)
Definition acquire_try (i : nat) (s : lock_state) : lock_state :=
  let '(old, s1) := xchg 1 s in
  if old =? 0 then MkLock (lock s1) (<[i := Critical]> (cpus s1)) else s1.
Definition release (i : nat) (s : lock_state) : lock_state :=
  let '(_, s1) := xchg 0 s in MkLock (lock s1) (<[i := Outside]> (cpus s1)).

(** Interleaving: any processor takes its next step. *)
Inductive lock_step : lock_state -> lock_state -> Prop :=
| step_call i s : cpus s !! i = Some Outside -> lock_step s (MkLock (lock s) (<[i := Spinning]> (cpus s)))
| step_try i s : cpus s !! i = Some Spinning -> lock_step s (acquire_try i s)
| step_release i s : cpus s !! i = Some Critical -> lock_step s (release i s).

Definition lock_init (n : nat) : lock_state := MkLock 0 (replicate n Outside).

Definition holders (s : lock_state) : nat := length (filter (fun c => c = Critical) (cpus s)).

(** The word is 1 exactly when one processor is inside, and 0 otherwise. *)
Definition lock_inv (s : lock_state) : Prop :=
  (lock s = 0 /\ holders s = 0%nat) \/ (lock s = 1 /\ holders s = 1%nat).

Lemma filter_insert_count (l : list cpu_pc) i x y :
  l !! i = Some x ->
  (length (filter (fun c => c = Critical) (<[i := y]> l)) + (if decide (x = Critical) then 1 else 0) =
   length (filter (fun c => c = Critical) l) + (if decide (y = Critical) then 1 else 0))%nat.
Proof.
  revert i. induction l as [|z l IH]; intros [|i] H; simplify_eq/=.
  - rewrite !filter_cons. repeat case_decide; simpl; lia.
  - specialize (IH i H). rewrite !filter_cons. repeat case_decide; simpl; lia.
Qed.

Lemma lock_inv_step s s' : lock_inv s -> lock_step s s' -> lock_inv s'.
Proof.
  intros Hinv Hstep. unfold lock_inv, holders in *. inversion Hstep as [i t Hi|i t Hi|i t Hi]; subst.
  - pose proof (filter_insert_count _ _ _ Spinning Hi). simpl in *. lia.
  - unfold acquire_try, xchg. simpl.
    pose proof (filter_insert_count _ _ _ Critical Hi). simpl in *.
    destruct (Z.eqb_spec (lock s) 0); simpl; lia.
  - unfold release, xchg. pose proof (filter_insert_count _ _ _ Outside Hi). simpl in *. lia.
Qed.

Lemma lock_inv_init n : lock_inv (lock_init n).
Proof. left. split; [reflexivity|]. unfold holders. induction n; [reflexivity|assumption]. Qed.

Lemma lock_reachable_inv s s' : lock_inv s -> rtc lock_step s s' -> lock_inv s'.
Proof. intros Hi H. induction H; eauto using lock_inv_step. Qed.

Lemma two_critical (l : list cpu_pc) i j :
  l !! i = Some Critical -> l !! j = Some Critical ->
  (length (filter (fun c => c = Critical) l) <= 1)%nat -> i = j.
Proof.
  revert i j. induction l as [|c l IH]; intros [|i] [|j] Hi Hj Hl;
    cbn [lookup list_lookup] in Hi, Hj; simplify_eq; try reflexivity.
  - rewrite filter_cons_True in Hl by reflexivity.
    apply list_elem_of_lookup_2 in Hj.
    assert (Hin : Critical ∈ filter (fun c => c = Critical) l) by (apply list_elem_of_filter; auto).
    destruct (filter _ l); [inversion Hin|simpl in Hl; lia].
  - rewrite filter_cons_True in Hl by reflexivity.
    apply list_elem_of_lookup_2 in Hi.
    assert (Hin : Critical ∈ filter (fun c => c = Critical) l) by (apply list_elem_of_filter; auto).
    destruct (filter _ l); [inversion Hin|simpl in Hl; lia].
  - f_equal. apply (IH i j); [assumption..|]. rewrite filter_cons in Hl. case_decide; simpl in Hl; lia.
Qed.

(** C5: mutual exclusion.  Whatever the interleaving of the processors' [xchg]
    instructions, no two processors are inside the critical section. *)
Theorem mutual_exclusion n s i j :
  rtc lock_step (lock_init n) s ->
  cpus s !! i = Some Critical -> cpus s !! j = Some Critical -> i = j.
Proof.
  intros Hr Hi Hj. apply (two_critical (cpus s)); [assumption..|].
  destruct (lock_reachable_inv _ _ (lock_inv_init n) Hr) as [[_ H]|[_ H]]; unfold holders in H; lia.
Qed.

Lemma mutual_exclusion_witness :
  rtc lock_step (lock_init 2) (MkLock 1 [Critical; Spinning]) /\ 0%nat = 0%nat.
Proof.
  assert (Hr : rtc lock_step (lock_init 2) (MkLock 1 [Critical; Spinning])).
  { eapply rtc_l; [apply (step_call 0); reflexivity|].
    eapply rtc_l; [apply (step_call 1); reflexivity|].
    eapply rtc_l; [apply (step_try 0); reflexivity|]. apply rtc_refl. }
  split; [exact Hr|]. apply (mutual_exclusion 2 _ 0 0 Hr); reflexivity.
Defined.

(** No lost release.  In every reachable state where no processor is
    inside, the next [xchg] of any spinning processor enters. *)
Theorem acquire_progress n s i :
  rtc lock_step (lock_init n) s ->
  (forall j, cpus s !! j <> Some Critical) -> cpus s !! i = Some Spinning ->
  lock_step s (acquire_try i s) /\ cpus (acquire_try i s) !! i = Some Critical.
Proof.
  intros Hr Hno Hi. split; [constructor; assumption|].
  assert (Hl : lock s = 0).
  { destruct (lock_reachable_inv _ _ (lock_inv_init n) Hr) as [[H _]|[_ H]]; [assumption|exfalso].
    unfold holders in H. destruct (filter _ (cpus s)) as [|c l] eqn:E; [discriminate|].
    assert (Hin : c ∈ filter (fun c => c = Critical) (cpus s)) by (rewrite E; left).
    apply list_elem_of_filter in Hin as [-> Hin]. apply list_elem_of_lookup in Hin as [j Hj]. exact (Hno j Hj). }
  unfold acquire_try, xchg. rewrite Hl. simpl. apply list_lookup_insert_eq. eapply lookup_lt_Some. eassumption.
Qed.

Lemma acquire_progress_witness :
  let s := MkLock 0 [Spinning; Spinning] in
  lock_step s (acquire_try 1 s) /\ cpus (acquire_try 1 s) !! 1%nat = Some Critical.
Proof.
  apply (acquire_progress 2 (MkLock 0 [Spinning; Spinning]) 1).
  - eapply rtc_l; [apply (step_call 0); reflexivity|].
    eapply rtc_l; [apply (step_call 1); reflexivity|]. apply rtc_refl.
  - intros [|[|j]]; discriminate.
  - reflexivity.
Defined.
