(* ===== verification/Ports.v ===== *)
(** * kernel/arch/x86.c: port input and output, and the flags register

    The inline assembly of [inb] to [insl] and of [get_eflags], [set_eflags],
    [cli] and [sti], as the instructions act on a processor with a flags
    register, memory and a port bus.  The devices behind the bus are the class
    [IoBus]: what a port answers and how a device changes; no assumption is made
    on them.  [ide_delay] of kernel/drivers/ide.c is here as well. *)

From stdpp Require Import base numbers list gmap.
From Stdlib Require Import ZArith Lia Btauto.
From S2P Require Import Prelude Memory.
Open Scope Z_scope.

(** The bits of the flags register (kernel/include/x86.h). *)
Definition FL_CF : Z := 0x00000001.
Definition FL_PF : Z := 0x00000004.
Definition FL_AF : Z := 0x00000010.
Definition FL_ZF : Z := 0x00000040.
Definition FL_SF : Z := 0x00000080.
Definition FL_TF : Z := 0x00000100.
Definition FL_IF : Z := 0x00000200.
Definition FL_DF : Z := 0x00000400.
Definition FL_OF : Z := 0x00000800.
Definition FL_IOPL_MASK : Z := 0x00003000.
Definition FL_NT : Z := 0x00004000.
Definition FL_AC : Z := 0x00040000.
Definition FL_ID : Z := 0x00200000.

(** A port access names its width in bytes. *)
Class IoBus (D : Type) := {
  bus_in : Z -> Z -> D -> Z * D;
  bus_out : Z -> Z -> Z -> D -> D;
}.

Record machine (D : Type) := MkMachine { eflags : Z; io_mem : mem; bus : D }.
Arguments MkMachine {D} eflags io_mem bus.
Arguments eflags {D} m.
Arguments io_mem {D} m.
Arguments bus {D} m.

(** ** The code *)

Section code.
Context {D : Type} `{IoBus D}.
Implicit Types c : machine D.

Definition set_flags (f : Z) c : machine D := MkMachine f (io_mem c) (bus c).
Definition set_bus (d : D) c : machine D := MkMachine (eflags c) (io_mem c) d.
Definition set_io_mem (m : mem) c : machine D := MkMachine (eflags c) m (bus c).

(** What [popf] may change at privilege level 0: every flag of the list above,
    and nothing else. *)
Definition POPF_MASK : Z :=
  FL_CF .| FL_PF .| FL_AF .| FL_ZF .| FL_SF .| FL_TF .| FL_IF .| FL_DF .| FL_OF .| FL_IOPL_MASK .| FL_NT .| FL_AC .| FL_ID.
Definition popf (v : Z) c : machine D := set_flags ((eflags c .& not32 POPF_MASK) .| (v .& POPF_MASK)) c.
(** [pushf] stores RF and VM as zero. *)
Definition pushf c : Z := eflags c .& 0x00FCFFFF.

Definition get_eflags c : Z := pushf c.
Definition set_eflags (val : Z) c : Z * machine D :=
  let flags := pushf c .| u32 val in (flags, popf flags c).

Definition cli c : machine D := set_flags (eflags c .& not32 FL_IF) c.
Definition sti c : machine D := set_flags (eflags c .| FL_IF) c.
Definition cld c : machine D := set_flags (eflags c .& not32 FL_DF) c.

Definition port_in (w port : Z) c : Z * machine D :=
  let '(v, d) := bus_in w (u16 port) (bus c) in (v mod 2 ^ (8 * w), set_bus d c).
Definition port_out (w port v : Z) c : machine D := set_bus (bus_out w (u16 port) (v mod 2 ^ (8 * w)) (bus c)) c.

Definition inb (port : Z) c : Z * machine D := port_in 1 port c.
Definition inw (port : Z) c : Z * machine D := port_in 2 port c.
Definition outb (port data : Z) c : machine D := port_out 1 port data c.
Definition outw (port data : Z) c : machine D := port_out 2 port data c.
Definition outl (port data : Z) c : machine D := port_out 4 port data c.
(** [inl] reads the port and has no return statement: the value is
    indeterminate. *)
Definition inl (port : Z) c : cval * machine D := (None, snd (port_in 4 port c)).

(** One [outsl] or [insl] with the direction flag [DF] clear or set; [esi] and
    [edi] are 32-bit registers and wrap around. *)
Definition step_of c : Z := if Z.testbit (eflags c) 10 then -4 else 4.
Fixpoint rep_outsl (n : nat) (port addr : Z) c : machine D :=
  match n with
  | O => c
  | S n' => rep_outsl n' port (u32 (addr + step_of c)) (port_out 4 port (load32 (io_mem c) addr) c)
  end.
Fixpoint rep_insl (n : nat) (port addr : Z) c : machine D :=
  match n with
  | O => c
  | S n' =>
      let '(v, c1) := port_in 4 port c in
      rep_insl n' port (u32 (addr + step_of c)) (set_io_mem (store32 (io_mem c1) addr v) c1)
  end.
(** [rep] counts in the 32-bit register [ecx]. *)
Definition outsl (port addr cnt : Z) c : machine D := rep_outsl (Z.to_nat (u32 cnt)) port (u32 addr) (cld c).
Definition insl (port addr cnt : Z) c : machine D := rep_insl (Z.to_nat (u32 cnt)) port (u32 addr) (cld c).

(** kernel/drivers/ide.c: five reads of the alternate status register. *)
Fixpoint delay_loop (n : nat) (ret : Z) c : Z * machine D :=
  match n with
  | O => (ret, c)
  | S n' => let '(r, c1) := inb 0x3F6 c in delay_loop n' (s8 r) c1
  end.
Definition ide_delay c : Z * machine D := delay_loop 5 0 c.

(** ** What a device sees *)

(** The next [n] doublewords a port gives, and a device that is sent words. *)
Fixpoint bus_reads (n : nat) (port : Z) (d : D) : list Z * D :=
  match n with
  | O => ([], d)
  | S n' =>
      let '(v, d1) := bus_in 4 (u16 port) d in
      let '(l, d2) := bus_reads n' port d1 in (u32 v :: l, d2)
  end.
Definition bus_writes (port : Z) (l : list Z) (d : D) : D := foldl (fun d v => bus_out 4 (u16 port) v d) d l.

(** The doublewords of [n] consecutive memory words. *)
Definition words_at (m : mem) (a : Z) (n : nat) : list Z := (fun i : nat => load32 m (a + 4 * Z.of_nat i)) <$> seq 0 n.

Lemma words_at_S m a n : words_at m a (S n) = load32 m a :: words_at m (a + 4) n.
Proof using.
  unfold words_at. cbn [seq fmap list_fmap]. f_equal; [f_equal; lia|].
  rewrite <- fmap_S_seq, <- list_fmap_compose. apply list_fmap_ext. intros i x _. simpl. f_equal. lia.
Qed.

Lemma words_at_frame m1 m2 a n :
  (forall b, a <= b < a + 4 * Z.of_nat n -> load8 m2 b = load8 m1 b) -> words_at m2 a n = words_at m1 a n.
Proof using.
  intros Hm. apply list_fmap_ext. intros i x Hx. apply lookup_seq in Hx as [-> Hi].
  apply load32_ext. intros j Hj. apply Hm. lia.
Qed.

Lemma step_cld c : Z.testbit (eflags c) 10 = false -> step_of c = 4.
Proof using. intros E. unfold step_of. rewrite E. reflexivity. Qed.

Lemma cld_clear c : Z.testbit (eflags (cld c)) 10 = false.
Proof using. unfold cld, set_flags, FL_DF. cbn [eflags]. autorewrite with bits. reflexivity || apply andb_false_r. Qed.

Lemma mod_width4 v : v mod 2 ^ (8 * 4) = u32 v.
Proof using. reflexivity. Qed.

Lemma rep_outsl_spec n port addr c : Z.testbit (eflags c) 10 = false -> 0 <= addr -> addr + 4 * Z.of_nat n < 0x100000000 ->
  rep_outsl n port addr c = set_bus (bus_writes port (words_at (io_mem c) addr n) (bus c)) c.
Proof using.
  revert addr c. induction n as [|n IH]; intros addr c HDF H0 Hn; cbn [rep_outsl].
  { destruct c. reflexivity. }
  rewrite step_cld by assumption. rewrite (u32_small (addr + 4)) by lia. rewrite IH by (exact HDF || lia). rewrite words_at_S.
  unfold port_out. rewrite mod_width4, u32_load32. reflexivity.
Qed.

Lemma rep_insl_spec n port addr c : Z.testbit (eflags c) 10 = false -> 0 <= addr -> addr + 4 * Z.of_nat n < 0x100000000 ->
  exists m, rep_insl n port addr c = MkMachine (eflags c) m (snd (bus_reads n port (bus c))) /\
    words_at m addr n = fst (bus_reads n port (bus c)) /\
    same_outside addr (addr + 4 * Z.of_nat n) (io_mem c) m.
Proof using.
  revert addr c. induction n as [|n IH]; intros addr c HDF H0 Hn; cbn [rep_insl bus_reads].
  { exists (io_mem c). split; [destruct c; reflexivity|]. split; [reflexivity|apply same_outside_refl]. }
  unfold port_in. destruct (bus_in 4 (u16 port) (bus c)) as [v d]. rewrite mod_width4.
  rewrite step_cld by assumption. rewrite (u32_small (addr + 4)) by lia. set (c1 := set_io_mem _ _).
  destruct (IH (addr + 4) c1) as (m & -> & Hw & Ho); [exact HDF|lia|lia|]. cbn [c1 set_io_mem set_bus bus eflags io_mem] in Hw, Ho |- *.
  destruct (bus_reads n port d) as [l d2]. cbn [fst snd] in *. exists m. split; [reflexivity|]. split.
  - rewrite words_at_S, Hw. f_equal.
    rewrite (load32_ext m (store32 (io_mem c) addr (u32 v))) by (intros i Hi; apply Ho; lia).
    rewrite load32_store32_eq. apply u32_idemp.
  - intros b Hb. rewrite Ho by lia. apply load8_store32_ne. lia.
Qed.
End code.

(** ** Block transfers *)

(** C36: Reading a block from a port and sending it out.  For a block that ends
    below 4 GB, [insl] stores the words the device gives, in order, and changes
    no other memory; [outsl] of the same block then sends exactly these words,
    in order.  Only the direction flag is cleared. *)
Theorem insl_outsl_roundtrip `{IoBus D} (p p' addr cnt : Z) (c : machine D) :
  0 <= addr -> addr + 4 * u32 cnt < 0x100000000 ->
  let got := bus_reads (Z.to_nat (u32 cnt)) p (bus c) in
  let c1 := insl p addr cnt c in
  let c2 := outsl p' addr cnt c1 in
  words_at (io_mem c1) addr (Z.to_nat (u32 cnt)) = fst got /\
  same_outside addr (addr + 4 * u32 cnt) (io_mem c) (io_mem c1) /\
  io_mem c2 = io_mem c1 /\
  bus c2 = bus_writes p' (fst got) (snd got) /\
  eflags c2 = eflags c .& not32 FL_DF.
Proof.
  intros Ha Hend got c1 c2. pose proof (u32_range cnt) as Hc. assert (Eu : u32 addr = addr) by (apply u32_small; lia).
  destruct (rep_insl_spec (Z.to_nat (u32 cnt)) p addr (cld c) (cld_clear c)) as (m & E & Hw & Ho); [lia|lia|].
  rewrite <- Eu in E at 1. fold (insl p addr cnt c) in E. fold c1 in E. change (bus (cld c)) with (bus c) in *. fold got in E, Hw.
  assert (E2 : c2 = set_bus (bus_writes p' (fst got) (snd got)) (cld c1)).
  { unfold c2, outsl. rewrite Eu, rep_outsl_spec by (apply cld_clear || lia). f_equal. rewrite E. cbn [cld set_flags io_mem bus].
    rewrite Hw. reflexivity. }
  rewrite E2, E. cbn [cld set_flags set_bus io_mem bus eflags] in *. rewrite Z2Nat.id in Ho by lia.
  split; [exact Hw|]. split; [exact Ho|]. split; [reflexivity|]. split; [reflexivity|].
  bitwise i. unfold FL_DF. btauto.
Qed.

(** ** The flags register *)

(** [set_eflags] sets the bits asked for, and those only; [set_eflags(FL_IF)]
    is [sti]. *)
Lemma set_eflags_bits {D : Type} (val i : Z) (c : machine D) : 0 <= eflags c < 0x100000000 -> 0 <= i ->
  Z.testbit (eflags (snd (set_eflags val c))) i =
    Z.testbit (eflags c) i || (Z.testbit (u32 val) i && Z.testbit POPF_MASK i).
Proof.
  intros Hf Hi. unfold set_eflags, popf, pushf, set_flags. cbn [snd eflags].
  rewrite !Z.lor_spec, !Z.land_spec, Z.lor_spec, Z.land_spec, testbit_not32 by lia.
  destruct (Z.lt_ge_cases i 32) as [Hlt|Hge].
  - replace (i <? 32) with true by lia.
    assert (Hm : Z.testbit POPF_MASK i = true -> Z.testbit 0x00FCFFFF i = true).
    { intros E. assert (Hall : forallb (fun k => implb (Z.testbit POPF_MASK (Z.of_nat k)) (Z.testbit 0x00FCFFFF (Z.of_nat k)))
        (seq 0 32) = true) by reflexivity.
      rewrite forallb_forall in Hall. specialize (Hall (Z.to_nat i) ltac:(apply in_seq; lia)).
      rewrite Z2Nat.id, E in Hall by lia. exact Hall. }
    destruct (Z.testbit POPF_MASK i); [rewrite Hm by reflexivity|]; cbn [negb andb orb]; btauto.
  - rewrite (testbit_high (eflags c) 32), (testbit_high (u32 val) 32), (testbit_high 0x00FCFFFF 32) by
      (lia || (pose proof (u32_range val); lia)). reflexivity.
Qed.

Lemma set_eflags_if {D : Type} (c : machine D) : 0 <= eflags c < 0x100000000 -> snd (set_eflags FL_IF c) = sti c.
Proof.
  intros Hf. assert (E : eflags (snd (set_eflags FL_IF c)) = eflags (sti c)).
  { apply Z.bits_inj'. intros i Hi. rewrite set_eflags_bits by assumption. unfold sti, set_flags. cbn [eflags].
    rewrite Z.lor_spec. change (u32 FL_IF) with FL_IF. f_equal. rewrite <- Z.land_spec. reflexivity. }
  unfold set_eflags, popf, sti, set_flags in *. cbn [snd eflags] in *. rewrite E. reflexivity.
Qed.

(** ** Examples *)

(** A device that gives the words of a list and keeps those it is sent. *)
#[export] Instance list_bus : IoBus (list Z * list Z) := {
  bus_in _ _ '(inp, out) := match inp with [] => (0, ([], out)) | v :: l => (v, (l, out)) end;
  bus_out _ _ v '(inp, out) := (inp, out ++ [v]);
}.
Definition demo_machine : machine (list Z * list Z) := MkMachine 0x602 ∅ ([0x11223344; 0x55667788; 7], []).

Lemma transfer_demo :
  bus (outsl 0x1F0 0x2000 2 (insl 0x1F0 0x2000 2 demo_machine)) = ([7], [0x11223344; 0x55667788]).
Proof. vm_compute. reflexivity. Qed.

Lemma insl_outsl_roundtrip_witness :
  let c1 := insl 0x1F0 0x2000 2 demo_machine in
  let c2 := outsl 0x1F0 0x2000 2 c1 in
  words_at (io_mem c1) 0x2000 2 = [0x11223344; 0x55667788] /\
  same_outside 0x2000 0x2008 ∅ (io_mem c1) /\ io_mem c2 = io_mem c1 /\
  bus c2 = ([7], [0x11223344; 0x55667788]) /\ eflags c2 = 0x202.
Proof.
  destruct (insl_outsl_roundtrip 0x1F0 0x1F0 0x2000 2 demo_machine) as (H1 & H2 & H3 & H4 & H5); [lia|reflexivity|].
  split; [exact H1|]. split; [exact H2|]. split; [exact H3|]. split; [exact H4|exact H5].
Defined.
