(* ===== verification/Malloc.v ===== *)
(** * kernel/mem/malloc.c: the block-table heap allocator

    The heap is the range from [K_HEAP_BOTTOM] to [K_LAST_ALLOC]; the block
    table at [BLOCKCHAIN_START] holds one word per block, in address order:
    bit 31 is the in-use flag, the other bits the size.

    [printf] itself allocates, so [malloc] and [printf] call each other.  The
    functions that print take the effect of [printf] as argument, and
    [malloc_with] and [printf_with] tie the knot; a [printf] inside [malloc]
    waits at its own [acquire], so no deeper level is ever entered
    ([malloc_levels]). *)

From stdpp Require Import base numbers list gmap.
From Stdlib Require Import ZArith Lia.
From S2P Require Import Prelude Memory CString Mm Paging.
Open Scope Z_scope.

Definition MAX_BLOCKS : Z := 1024.
Definition K_HEAP_BOTTOM : Z := 0xC0300000.
Definition K_HEAP_MAX : Z := 0xFFFFF000.
Definition bit31 : Z := 0x80000000.

Record heap_state := MkHeap {
  hp_pg : pg_state;
  BLOCKCHAIN_START : Z;
  BLOCKS_ALLOCATED : Z;
  blockchain : Z;
  K_HEAP_TOP : Z;
  K_LAST_ALLOC : Z;
  memlock : Z;
}.
Definition hp_mem (s : heap_state) : mem := pg_mem (hp_pg s).
Definition set_pg (x : pg_state) (s : heap_state) : heap_state :=
  MkHeap x (BLOCKCHAIN_START s) (BLOCKS_ALLOCATED s) (blockchain s) (K_HEAP_TOP s) (K_LAST_ALLOC s) (memlock s).
Definition set_hp_mem (m : mem) (s : heap_state) : heap_state := set_pg (set_pg_mem m (hp_pg s)) s.
Definition set_top (t : Z) (s : heap_state) : heap_state :=
  MkHeap (hp_pg s) (BLOCKCHAIN_START s) (BLOCKS_ALLOCATED s) (blockchain s) t (K_LAST_ALLOC s) (memlock s).
Definition set_last (l : Z) (s : heap_state) : heap_state :=
  MkHeap (hp_pg s) (BLOCKCHAIN_START s) (BLOCKS_ALLOCATED s) (blockchain s) (K_HEAP_TOP s) l (memlock s).
Definition set_lock (l : Z) (s : heap_state) : heap_state :=
  MkHeap (hp_pg s) (BLOCKCHAIN_START s) (BLOCKS_ALLOCATED s) (blockchain s) (K_HEAP_TOP s) (K_LAST_ALLOC s) l.

(** One processor: [acquire] of a held lock never returns. *)
Definition acquire : M heap_state unit :=
  fun s => if memlock s =? 0 then Ok tt (set_lock 1 s) else Spin.
Definition release : M heap_state unit := modify (set_lock 0).

(** [*p] and [*p = v] of a [uint32_t* p]. *)
Definition deref (p : Z) (s : heap_state) : Z := ldw (hp_mem s) p 0.
Definition assign (p v : Z) (s : heap_state) : heap_state := set_hp_mem (stw (hp_mem s) p 0 v) s.

Definition blockchain_add (size : Z) : M heap_state Z := fun s =>
  if MAX_BLOCKS <? BLOCKS_ALLOCATED s then Ok 0 s
  else
    let b := u32 (BLOCKCHAIN_START s + BLOCKS_ALLOCATED s * 4) in
    let s1 := MkHeap (hp_pg s) (BLOCKCHAIN_START s) (BLOCKS_ALLOCATED s) b (K_HEAP_TOP s) (K_LAST_ALLOC s) (memlock s) in
    let s2 := assign b (bit31 .| (size .& not32 bit31)) s1 in
    Ok 1 (MkHeap (hp_pg s2) (BLOCKCHAIN_START s2) (BLOCKS_ALLOCATED s2 + 1) (blockchain s2)
            (K_HEAP_TOP s2) (K_LAST_ALLOC s2) (memlock s2)).

(** The body of the loop of [sbrk], on the paging state: map a page at [va]
    unless the table already has an entry for it. *)
Definition map_page (va : Z) : M pg_state unit := fun s =>
  if k_virt_to_phys va s =? 0 then
    match k_page_alloc (pg_mm s) with
    | Ok r x => (phys <-- use r ;; modify (k_paging_map phys va 0x3)) (set_mm x s)
    | Spin => Spin
    | Undef => Undef
    end
  else Ok tt s.
Definition on_pg {A : Type} (c : M pg_state A) : M heap_state A := fun s =>
  match c (hp_pg s) with
  | Ok a x => Ok a (set_pg x s)
  | Spin => Spin
  | Undef => Undef
  end.
Fixpoint sbrk_loop (k : nat) : M heap_state unit :=
  match k with
  | O => ret tt
  | S k' =>
      top <-- gets K_HEAP_TOP ;;
      on_pg (map_page top) ;;;
      modify (fun s => set_top (u32 (K_HEAP_TOP s + 0x1000)) s) ;;;
      sbrk_loop k'
  end.
Definition sbrk (printf : M heap_state unit) (n : Z) : M heap_state Z :=
  if n =? 0 then ret NULL
  else
    top <-- gets K_HEAP_TOP ;;
    if K_HEAP_MAX <=? u32 (n + top) then printf ;;; ret NULL
    else
      let num_of_blocks := if 0x1000 <? n then n / 0x1000 else 1 in
      sbrk_loop (Z.to_nat num_of_blocks) ;;;
      gets K_HEAP_TOP.

Definition free_vpage (addr : Z) : M heap_state unit := fun s =>
  let phys := k_virt_to_phys addr (hp_pg s) in
  let s1 := (k_paging_unmap addr (hp_pg s)).2 in
  Ok tt (set_pg (free_page phys s1) s).

Definition block_used (v : Z) : Z := v .>> 31.
Definition block_size (v : Z) : Z := v .& not32 bit31.

Definition find_first_free (printf : M heap_state unit) (n : Z) : M heap_state Z := fun s =>
  match find_up (Z.to_nat (BLOCKS_ALLOCATED s)) 0 (fun i =>
          let block_value := ldw (hp_mem s) (BLOCKCHAIN_START s) i in
          (n <=? block_size block_value) && (block_used block_value =? 0)) with
  | Some i => (printf ;;; ret (BLOCKCHAIN_START s + 4 * i)) s
  | None => Ok NULL s
  end.

(** [goto loop] starts counting again from the current [block], which is not
    reset: the scan goes on over [BLOCKS_ALLOCATED] further words.  Every
    restart is at a different non-zero word, so the restarts are at most as
    many as memory has cells; [None] means the fuel ran out. *)
Fixpoint find_best_loop (fuel : nat) (m : mem) (blocks n block i smallest smallest_sz : Z) : option Z :=
  match fuel with
  | O => None
  | S f =>
      if i <? blocks then
        let block_value := ldw m block 0 in
        let size := block_size block_value in
        if (n <=? size) && (size <=? smallest_sz) && (block_used block_value =? 0)
        then find_best_loop f m blocks n (block + 4) 0 block size
        else find_best_loop f m blocks n (block + 4) (i + 1) smallest smallest_sz
      else Some smallest
  end.
Definition find_best_fuel (s : heap_state) : nat :=
  S (size (hp_mem s)) * S (Z.to_nat (BLOCKS_ALLOCATED s)).
Definition find_best_free (n : Z) (s : heap_state) : option Z :=
  find_best_loop (find_best_fuel s) (hp_mem s) (BLOCKS_ALLOCATED s) n (BLOCKCHAIN_START s) 0 NULL (u32 (n * 3)).

Fixpoint find_block_loop (k : nat) (m : mem) (block total_size to_traverse : Z) : Z :=
  match k with
  | O => block
  | S k' =>
      let block_value := ldw m block 0 in
      let block := block + 4 in
      let total_size := u32 (total_size + block_size block_value) in
      if to_traverse <? total_size then block
      else find_block_loop k' m block total_size to_traverse
  end.
Definition find_block (ptr : Z) (s : heap_state) : Z :=
  if K_LAST_ALLOC s <? u32 ptr then NULL
  else
    let to_traverse := u32 (ptr - K_HEAP_BOTTOM) in
    find_block_loop (Z.to_nat (BLOCKS_ALLOCATED s)) (hp_mem s) (BLOCKCHAIN_START s) 0 to_traverse - 4.

(** [while (block != b)]: the number of steps is the distance in words, and a
    [b] that is not a whole number of words away is never met. *)
Definition translate (printf : M heap_state unit) (b : Z) : M heap_state Z := fun s =>
  if BLOCKS_ALLOCATED s * 4 + BLOCKCHAIN_START s <? u32 b then Ok NULL s
  else
    let dist := u32 (b - BLOCKCHAIN_START s) in
    if negb (dist mod 4 =? 0) then Spin
    else
      let total_size := for_up (Z.to_nat (dist / 4)) 0
        (fun i total => u32 (total + block_size (ldw (hp_mem s) (BLOCKCHAIN_START s) i))) 0 in
      let address := u32 (K_HEAP_BOTTOM + total_size) in
      if K_LAST_ALLOC s <? address then (printf ;;; ret NULL) s else Ok address s.

Definition free (ptr : Z) : M heap_state Z :=
  acquire ;;;
  block <-- gets (find_block ptr) ;;
  modify (fun s => assign block (deref block s .& not32 bit31) s) ;;;
  release ;;;
  ret ptr.

Definition of_option {A : Type} (o : option A) : M heap_state A :=
  match o with Some a => ret a | None => fun _ => Spin end.

Definition malloc_with (printf : M heap_state unit) (n : Z) : M heap_state Z :=
  if n =? 0 then ret NULL
  else
    acquire ;;;
    o <-- gets (find_best_free n) ;;
    block <-- of_option o ;;
    if negb (block =? NULL) then
      modify (fun s => assign block (deref block s .| bit31) s) ;;;
      ptr <-- translate printf block ;;
      release ;;;
      ret ptr
    else
      r <-- blockchain_add n ;;
      if r =? 0 then release ;;; ret NULL
      else
        s <-- get ;;
        (if K_HEAP_TOP s <=? u32 (K_LAST_ALLOC s + n)
         then sbrk printf (u32 (2 * ((n + K_LAST_ALLOC s) - K_HEAP_TOP s))) ;;; ret tt
         else ret tt) ;;;
        ptr <-- gets K_LAST_ALLOC ;;
        modify (fun s => set_last (u32 (K_LAST_ALLOC s + n)) s) ;;;
        release ;;;
        ret ptr.

(** What [printf] does to the heap: [vsnprintf] allocates its buffer of 256
    bytes, leaves it zeroed and frees it.  (The text goes to the screen.) *)
Definition printf_with (malloc : Z -> M heap_state Z) : M heap_state unit :=
  buf <-- malloc 256 ;;
  modify (fun s => set_hp_mem (memset (hp_mem s) (canon buf) 0 256) s) ;;;
  free buf ;;;
  ret tt.
(** [printf] with [d] levels of [malloc] under it. *)
Fixpoint printf_nested (d : nat) : M heap_state unit :=
  match d with
  | O => fun _ => Spin
  | S d' => printf_with (malloc_with (printf_nested d'))
  end.
Definition malloc : Z -> M heap_state Z := malloc_with (printf_nested 2).
Definition printf : M heap_state unit := printf_with malloc.

Definition malloc_a (n : Z) : M heap_state Z :=
  s0 <-- get ;;
  let base := u32 ((K_LAST_ALLOC s0 .& not32 0xFFF) + 0x1000) in
  let diff := u32 (base - K_LAST_ALLOC s0) in
  ok <-- (if negb (diff =? 0x1000) then
            r <-- blockchain_add diff ;;
            if r =? 0 then ret false
            else
              modify (fun s => set_last (u32 (K_LAST_ALLOC s + diff)) s) ;;;
              b <-- gets (fun s => BLOCKCHAIN_START s + BLOCKS_ALLOCATED s * 4) ;;
              p <-- translate printf (b - 4) ;;
              free p ;;;
              ret true
          else ret true) ;;
  if negb ok then ret NULL
  else
    r <-- blockchain_add n ;;
    if r =? 0 then ret NULL
    else
      ptr <-- gets K_LAST_ALLOC ;;
      modify (fun s => set_last (u32 (K_LAST_ALLOC s + n)) s) ;;;
      s <-- get ;;
      (if K_HEAP_TOP s <=? K_LAST_ALLOC s
       then sbrk printf (u32 ((K_LAST_ALLOC s - K_HEAP_TOP s) + 0x1000)) ;;; ret tt
       else ret tt) ;;;
      ret ptr.

Definition realloc (ptr n : Z) : M heap_state Z :=
  new <-- malloc n ;;
  b <-- gets (find_block ptr) ;;
  if b =? NULL then printf ;;; ret NULL
  else
    bv <-- gets (deref b) ;;
    modify (assign b (block_size bv)) ;;;
    let sz := block_size bv in
    modify (fun s => set_hp_mem (memcpy (hp_mem s) new ptr (if n <=? sz then n else sz)) s) ;;;
    printf ;;;
    ret new.

Definition k_heap_init : M heap_state unit := fun s =>
  let '(b, x) := mm_alloc (MAX_BLOCKS * 4) (pg_mm (hp_pg s)) in
  let pg := set_pg_mem (memset (mm_mem x) (canon b) 0 (MAX_BLOCKS * 4)) (set_mm x (hp_pg s)) in
  let s1 := MkHeap pg b (BLOCKS_ALLOCATED s) b K_HEAP_BOTTOM K_HEAP_BOTTOM (memlock s) in
  (sbrk printf 0x10000 ;;; ret tt) s1.

Definition heap_brk (s : heap_state) : Z := K_HEAP_TOP s.

(** The five words of [malloc_t], in the order of the structure. *)
Definition blockchain_save : M heap_state Z :=
  m <-- malloc 20 ;;
  modify (fun s => set_hp_mem (stw (hp_mem s) m 1 (BLOCKS_ALLOCATED s)) s) ;;;
  modify (fun s => set_hp_mem (stw (hp_mem s) m 0 (BLOCKCHAIN_START s)) s) ;;;
  modify (fun s => set_hp_mem (stw (hp_mem s) m 2 (blockchain s)) s) ;;;
  modify (fun s => set_hp_mem (stw (hp_mem s) m 3 (K_HEAP_TOP s)) s) ;;;
  modify (fun s => set_hp_mem (stw (hp_mem s) m 4 (K_LAST_ALLOC s)) s) ;;;
  ret m.
Definition blockchain_load (m : Z) (s : heap_state) : heap_state :=
  MkHeap (hp_pg s) (ldw (hp_mem s) m 0) (ldw (hp_mem s) m 1) (ldw (hp_mem s) m 2)
    (ldw (hp_mem s) m 3) (ldw (hp_mem s) m 4) (memlock s).

(** ** The abstract heap

    The heap as the list of its blocks in address order: in-use flag and size. *)
Abbreviation block := (bool * Z)%type.

Definition word_of (b : block) : Z := (if b.1 then bit31 else 0) + b.2.
Fixpoint sizes (bl : list block) : Z :=
  match bl with
  | [] => 0
  | b :: bl' => b.2 + sizes bl'
  end.
(** Address of block [i]. *)
Definition block_addr (bl : list block) (i : nat) : Z := K_HEAP_BOTTOM + sizes (take i bl).

(** Best fit: the last block of the least size that is free, holds [n] bytes
    and is not larger than the bound. *)
Fixpoint best_fit (n bound : Z) (i : nat) (bl : list block) (cur : option nat) : option nat :=
  match bl with
  | [] => cur
  | b :: bl' =>
      if (n <=? b.2) && (b.2 <=? bound) && negb b.1
      then best_fit n b.2 (S i) bl' (Some i)
      else best_fit n bound (S i) bl' cur
  end.

(** The table of the state holds the blocks [bl]. *)
Record table_ok (s : heap_state) (bl : list block) : Prop := {
  ok_count : BLOCKS_ALLOCATED s = Z.of_nat (length bl);
  ok_max : (length bl <= 1025)%nat;
  ok_words : forall i b, bl !! i = Some b -> ldw (hp_mem s) (BLOCKCHAIN_START s) (Z.of_nat i) = word_of b;
  ok_sizes : Forall (fun b : block => 0 < b.2 < bit31) bl;
  ok_zero : forall i, Z.of_nat (length bl) <= i < 4096 -> ldw (hp_mem s) (BLOCKCHAIN_START s) i = 0;
  ok_start : KERNEL_VIRT <= BLOCKCHAIN_START s /\ BLOCKCHAIN_START s + 0x4000 <= K_HEAP_BOTTOM;
}.
(** The invariant of the heap: the blocks fill the range from the bottom to
    [K_LAST_ALLOC], which does not pass the mapped top. *)
Record heap_ok (s : heap_state) (bl : list block) : Prop := {
  ok_table : table_ok s bl;
  ok_last : K_LAST_ALLOC s = K_HEAP_BOTTOM + sizes bl;
  ok_top : K_LAST_ALLOC s <= K_HEAP_TOP s <= K_HEAP_MAX /\ K_HEAP_TOP s mod 0x1000 = 0;
}.

Lemma sizes_app l1 l2 : sizes (l1 ++ l2) = sizes l1 + sizes l2.
Proof. induction l1; simpl; lia. Qed.

Lemma sizes_nonneg bl : Forall (fun b : block => 0 < b.2 < bit31) bl -> 0 <= sizes bl.
Proof. induction 1; simpl in *; lia. Qed.

Lemma sizes_take_le bl i : Forall (fun b : block => 0 < b.2 < bit31) bl -> 0 <= sizes (take i bl) <= sizes bl.
Proof.
  intros H. rewrite <- (take_drop i bl) in H at 1. apply Forall_app in H as [H1 H2].
  pose proof (sizes_nonneg _ H1). pose proof (sizes_nonneg _ H2).
  rewrite <- (take_drop i bl) at 3. rewrite sizes_app. lia.
Qed.

Lemma sizes_take_S bl i b : bl !! i = Some b -> sizes (take (S i) bl) = sizes (take i bl) + b.2.
Proof. intros H. rewrite (take_S_r _ _ _ H), sizes_app. simpl. lia. Qed.

Lemma sizes_alter bl i b b' : bl !! i = Some b -> b'.2 = b.2 -> sizes (<[i := b']> bl) = sizes bl.
Proof.
  revert i. induction bl as [|c bl IH]; intros [|i] H Hb; simplify_eq/=; [lia|]. rewrite (IH i); auto.
Qed.

Lemma block_addr_mono bl i j b :
  Forall (fun b : block => 0 < b.2 < bit31) bl -> bl !! i = Some b -> (i < j)%nat ->
  block_addr bl i + b.2 <= block_addr bl j.
Proof.
  intros Hs Hi Hj. unfold block_addr. rewrite <- (take_drop (S i) (take j bl)), sizes_app.
  rewrite take_take, Nat.min_l by lia. rewrite (sizes_take_S _ _ _ Hi).
  assert (0 <= sizes (drop (S i) (take j bl))); [|lia].
  apply sizes_nonneg. apply Forall_drop, Forall_take, Hs.
Qed.

(** ** Words of the table *)

Lemma word_of_range b : 0 < b.2 < bit31 -> 0 < word_of b < 0x100000000.
Proof. unfold word_of, bit31. destruct b as [[] ?]; simpl; lia. Qed.

Lemma block_size_mod v : 0 <= v < 0x100000000 -> block_size v = v mod bit31.
Proof.
  intros Hv. unfold block_size, bit31. change (not32 0x80000000) with (Z.ones 31).
  apply (land_ones_mod 31). lia.
Qed.

Lemma block_size_word b : 0 < b.2 < bit31 -> block_size (word_of b) = b.2.
Proof.
  intros H. rewrite block_size_mod by (pose proof (word_of_range b H); lia).
  unfold word_of, bit31 in *. destruct b as [[] ?]; simpl in *; dlia.
Qed.

Lemma block_used_word b : 0 < b.2 < bit31 -> (block_used (word_of b) =? 0) = negb b.1.
Proof.
  intros H. unfold block_used. rewrite Z.shiftr_div_pow2 by lia. change (2 ^ 31) with bit31.
  unfold word_of, bit31 in *. destruct b as [[] ?]; simpl in *.
  - replace ((0x80000000 + z) / 0x80000000) with 1 by dlia. reflexivity.
  - rewrite Z.div_small by lia. reflexivity.
Qed.

Lemma set_used_word b : 0 < b.2 < bit31 -> word_of b .| bit31 = word_of (true, b.2).
Proof.
  intros H. unfold word_of, bit31 in *. rewrite Z.lor_comm. destruct b as [[] z]; simpl in *.
  - rewrite <- (lor_disjoint_add 31 0x80000000 z) by (try reflexivity; lia).
    rewrite Z.lor_assoc, Z.lor_diag. reflexivity.
  - rewrite (lor_disjoint_add 31) by (try reflexivity; lia). reflexivity.
Qed.

Lemma new_word n : 0 < n < bit31 -> bit31 .| (n .& not32 bit31) = word_of (true, n).
Proof.
  intros H. change (n .& not32 bit31) with (block_size n). rewrite block_size_mod by (unfold bit31 in *; lia).
  rewrite Z.mod_small by lia. apply (lor_disjoint_add 31); [lia|reflexivity|exact (conj (Z.lt_le_incl _ _ (proj1 H)) (proj2 H))].
Qed.

Lemma table_canon bs i : KERNEL_VIRT <= bs -> 0 <= i -> canon (bs + 4 * i) = bs + 4 * i.
Proof.
  intros. unfold canon, KERNEL_VIRT in *. replace (bs + 4 * i <? 0x400000) with false by lia.
  rewrite andb_false_r. reflexivity.
Qed.

Lemma ldw_shift m bs i : ldw m (bs + 4 * i) 0 = ldw m bs i.
Proof. unfold ldw. rewrite Z.mul_0_r, Z.add_0_r. reflexivity. Qed.

Lemma stw_shift m bs i v : stw m (bs + 4 * i) 0 v = stw m bs i v.
Proof. unfold stw. rewrite Z.mul_0_r, Z.add_0_r. reflexivity. Qed.

Lemma table_store m bs i v j :
  KERNEL_VIRT <= bs -> 0 <= i -> 0 <= j -> 0 <= v < 0x100000000 ->
  ldw (stw m bs i v) bs j = if j =? i then v else ldw m bs j.
Proof.
  intros. unfold ldw, stw. rewrite !table_canon by assumption. destruct (Z.eqb_spec j i) as [->|].
  - rewrite load32_store32_eq. apply u32_small. lia.
  - apply load32_store32_ne. lia.
Qed.

(** ** Searching the table *)

Section search.
Context (m : mem) (bs : Z) (bl : list block) (n : Z).
Hypothesis Hn : 0 < n.
Hypothesis Hsizes : Forall (fun b : block => 0 < b.2 < bit31) bl.
Hypothesis Hwords : forall i b, bl !! i = Some b -> ldw m bs (Z.of_nat i) = word_of b.
Hypothesis Hzero : forall i, Z.of_nat (length bl) <= i < 4096 -> ldw m bs i = 0.
Hypothesis Hmax : (length bl <= 1025)%nat.

Definition block_ptr (o : option nat) : Z :=
  match o with Some i => bs + 4 * Z.of_nat i | None => NULL end.

Lemma size_at i b : bl !! i = Some b -> 0 < b.2 < bit31.
Proof. intros H. exact (Forall_lookup_1 _ _ _ _ Hsizes H). Qed.

(** Past the blocks the table is zero: nothing matches until the count is up. *)
Lemma best_tail fuel j i sm sz :
  Z.of_nat (length bl) <= j -> j + (Z.of_nat (length bl) - i) <= 4096 -> 0 <= i <= Z.of_nat (length bl) ->
  Z.of_nat (length bl) - i < Z.of_nat fuel ->
  find_best_loop fuel m (Z.of_nat (length bl)) n (bs + 4 * j) i sm sz = Some sm.
Proof.
  revert j i. induction fuel as [|f IH]; intros j i Hj Hend Hi Hf; [lia|]. cbn [find_best_loop].
  destruct (Z.ltb_spec i (Z.of_nat (length bl))); [|reflexivity].
  rewrite ldw_shift, Hzero by lia. change (block_size 0) with 0.
  replace (n <=? 0) with false by lia. cbn [andb].
  replace (bs + 4 * j + 4) with (bs + 4 * (j + 1)) by lia. apply IH; lia.
Qed.

Lemma best_loop_spec rest : forall k fuel i cur sz,
  drop k bl = rest -> (k <= length bl)%nat -> 0 <= i <= Z.of_nat k ->
  (length rest + length bl < fuel)%nat ->
  find_best_loop fuel m (Z.of_nat (length bl)) n (bs + 4 * Z.of_nat k) i (block_ptr cur) sz =
    Some (block_ptr (best_fit n sz k rest cur)).
Proof.
  induction rest as [|b rest IH]; intros k fuel i cur sz Hd Hk Hi Hf.
  - assert (length bl <= k)%nat by (apply (f_equal length) in Hd; rewrite length_drop in Hd; simpl in Hd; lia).
    simpl in Hf. apply best_tail; lia.
  - assert (Hb : bl !! k = Some b).
    { rewrite <- (Nat.add_0_r k), <- lookup_drop, Hd. reflexivity. }
    assert (Hd' : drop (S k) bl = rest).
    { replace (S k) with (k + 1)%nat by lia. rewrite <- drop_drop, Hd. reflexivity. }
    pose proof (lookup_lt_Some _ _ _ Hb) as Hlt. pose proof (size_at _ _ Hb) as Hsz.
    destruct fuel as [|f]; [lia|]. cbn [find_best_loop best_fit]. simpl in Hf.
    replace (i <? Z.of_nat (length bl)) with true by lia.
    rewrite ldw_shift, (Hwords _ _ Hb), block_size_word, block_used_word by assumption.
    replace (bs + 4 * Z.of_nat k + 4) with (bs + 4 * Z.of_nat (S k)) by lia.
    destruct ((n <=? b.2) && (b.2 <=? sz) && negb b.1).
    + apply (IH (S k) f 0 (Some k)); [assumption|lia|lia|lia].
    + apply (IH (S k) f (i + 1) cur); [assumption|lia|lia|lia].
Qed.

(** [find_block] from block [k] on: the block that contains the offset. *)
Lemma find_block_loop_spec rest : forall k total off j b,
  drop k bl = rest -> total = sizes (take k bl) -> sizes bl < 0x100000000 ->
  bl !! j = Some b -> (k <= j)%nat -> sizes (take j bl) <= off < sizes (take j bl) + b.2 ->
  find_block_loop (length rest) m (bs + 4 * Z.of_nat k) total off = bs + 4 * Z.of_nat j + 4.
Proof.
  induction rest as [|c rest IH]; intros k total off j b Hd Ht Hmx Hj Hkj Hoff.
  - pose proof (lookup_lt_Some _ _ _ Hj). apply (f_equal length) in Hd. rewrite length_drop in Hd. simpl in Hd. lia.
  - assert (Hb : bl !! k = Some c).
    { rewrite <- (Nat.add_0_r k), <- lookup_drop, Hd. reflexivity. }
    assert (Hd' : drop (S k) bl = rest).
    { replace (S k) with (k + 1)%nat by lia. rewrite <- drop_drop, Hd. reflexivity. }
    pose proof (size_at _ _ Hb) as Hsz. cbn [length find_block_loop].
    rewrite ldw_shift, (Hwords _ _ Hb), block_size_word by assumption.
    pose proof (sizes_take_S _ _ _ Hb) as HS. pose proof (sizes_take_le bl (S k) Hsizes).
    rewrite u32_small by lia. destruct (Z.ltb_spec off (total + c.2)).
    + assert (k = j); [|subst; lia].
      destruct (Nat.lt_ge_cases k j) as [Hlt|]; [|lia].
      pose proof (block_addr_mono bl k j c Hsizes Hb Hlt). unfold block_addr in *. lia.
    + assert (k <> j) by (intros ->; rewrite Hj in Hb; simplify_eq; lia).
      replace (bs + 4 * Z.of_nat k + 4) with (bs + 4 * Z.of_nat (S k)) by lia.
      apply (IH (S k) _ off j b); [assumption|lia|assumption|assumption|lia|assumption].
Qed.

(** The sum that [translate] computes. *)
Lemma translate_total i : (i <= length bl)%nat -> sizes bl < 0x100000000 ->
  for_up i 0 (fun i total => u32 (total + block_size (ldw m bs i))) 0 = sizes (take i bl).
Proof.
  intros Hi Hmx. induction i as [|i IH]; [reflexivity|]. rewrite for_up_snoc, IH by lia.
  destruct (lookup_lt_is_Some_2 bl i) as [b Hb]; [lia|].
  rewrite Z.add_0_l, (Hwords _ _ Hb), block_size_word by exact (size_at _ _ Hb).
  rewrite <- (sizes_take_S _ _ _ Hb). apply u32_small. pose proof (sizes_take_le bl (S i) Hsizes). lia.
Qed.
End search.

(** What best fit promises. *)
Lemma best_fit_spec n rest : forall bound k cur i,
  best_fit n bound k rest cur = Some i ->
  cur = Some i /\ Forall (fun b : block => b.1 = true \/ b.2 < n \/ bound < b.2) rest \/
  exists j b, i = (k + j)%nat /\ rest !! j = Some b /\ b.1 = false /\ n <= b.2 <= bound /\
    forall j' b', rest !! j' = Some b' -> b'.1 = false -> n <= b'.2 -> b.2 <= b'.2.
Proof.
  induction rest as [|c rest IH]; intros bound k cur i H; simpl in H.
  - left. split; [assumption|constructor].
  - destruct ((n <=? c.2) && (c.2 <=? bound) && negb c.1) eqn:E.
    + apply andb_true_iff in E as [E Hu]. apply andb_true_iff in E as [E1 E2].
      apply negb_true_iff in Hu. right.
      apply IH in H as [[[= ->] HF]|(j & b & -> & Hj & Hb & Hr & Hmin)].
      * exists 0%nat, c. split; [lia|]. split; [reflexivity|]. split; [assumption|]. split; [lia|].
        intros [|j'] b' Hj' Hb' Hn'; simpl in Hj'; [simplify_eq; lia|].
        pose proof (Forall_lookup_1 _ _ _ _ HF Hj') as [?|[?|?]]; [congruence|lia|lia].
      * exists (S j), b. split; [lia|]. split; [assumption|]. split; [assumption|]. split; [lia|].
        intros [|j'] b' Hj' Hb' Hn'; simpl in Hj'; [simplify_eq; lia|eauto].
    + apply IH in H as [[-> HF]|(j & b & -> & Hj & Hb & Hr & Hmin)].
      * left. split; [reflexivity|]. constructor; [|assumption].
        destruct c.1; [auto|]. right. simpl in E. lia.
      * right. exists (S j), b. split; [lia|]. split; [assumption|]. split; [assumption|]. split; [assumption|].
        intros [|j'] b' Hj' Hb' Hn'; simpl in Hj'; [|eauto]. simplify_eq.
        rewrite Hb' in E. simpl in E. lia.
Qed.

Lemma best_fit_none n rest : forall bound k,
  best_fit n bound k rest None = None ->
  Forall (fun b : block => b.1 = true \/ b.2 < n \/ bound < b.2) rest.
Proof.
  assert (Hs : forall rest bound k i, best_fit n bound k rest (Some i) <> None).
  { clear. induction rest as [|c rest IH]; intros; simpl; [discriminate|]. case_match; apply IH. }
  induction rest as [|c rest IH]; intros bound k H; simpl in H; [constructor|].
  destruct ((n <=? c.2) && (c.2 <=? bound) && negb c.1) eqn:E; [exfalso; eapply Hs; eassumption|].
  constructor; [|eauto]. destruct c.1; [auto|]. right. simpl in E. lia.
Qed.

(** ** The state-level operations *)

(** What the paging layer promises to the heap: [supply k s] says that [k]
    more pages can be mapped at the top of the heap without touching the block
    table at [tbl] or the heap's own bytes. *)
Class PageSupply (tbl : Z) (supply : nat -> pg_state -> Prop) : Prop := {
  supply_map : forall k va s,
    supply (S k) s -> K_HEAP_BOTTOM <= va < K_HEAP_MAX -> va mod 0x1000 = 0 ->
    exists s', map_page va s = Ok tt s' /\ supply k s' /\
      forall a, tbl <= a < tbl + 0x4000 \/ K_HEAP_BOTTOM <= a -> load8 (pg_mem s') a = load8 (pg_mem s) a;
  supply_table : forall k s i v,
    supply k s -> 0 <= i < 4096 -> supply k (set_pg_mem (stw (pg_mem s) tbl i v) s);
  supply_bytes : forall k s m,
    supply k s -> (forall a, a < K_HEAP_BOTTOM -> load8 m a = load8 (pg_mem s) a) -> supply k (set_pg_mem m s);
}.

Lemma mem_nonempty m p i : ldw m p i <> 0 -> (0 < size m)%nat.
Proof.
  intros H. destruct (decide (m = ∅)) as [->|Hne].
  - exfalso. apply H. unfold ldw, load32, load8. rewrite !lookup_empty. reflexivity.
  - assert (size m <> 0%nat) by (intros E; apply map_size_empty_inv in E; contradiction). lia.
Qed.

Lemma table_ok_frame s s' bl :
  table_ok s bl -> BLOCKCHAIN_START s' = BLOCKCHAIN_START s -> BLOCKS_ALLOCATED s' = BLOCKS_ALLOCATED s ->
  (forall i, 0 <= i < 4096 -> ldw (hp_mem s') (BLOCKCHAIN_START s) i = ldw (hp_mem s) (BLOCKCHAIN_START s) i) ->
  table_ok s' bl.
Proof.
  intros [Hc Hm Hw Hs Hz Hst] Eb En Hmem. split; rewrite ?Eb, ?En; try assumption.
  - intros i b Hi. pose proof (lookup_lt_Some _ _ _ Hi). rewrite Hmem by lia. auto.
  - intros i Hi. rewrite Hmem by lia. auto.
Qed.

Lemma find_best_free_spec s bl n :
  table_ok s bl -> 0 < n < 0x40000000 ->
  find_best_free n s = Some (block_ptr (BLOCKCHAIN_START s) (best_fit n (n * 3) 0 bl None)).
Proof.
  intros [Hc Hm Hw Hs Hz Hst] Hn. unfold find_best_free. rewrite Hc, (u32_small (n * 3)) by lia.
  replace (BLOCKCHAIN_START s) with (BLOCKCHAIN_START s + 4 * Z.of_nat 0) at 1 by lia.
  apply (best_loop_spec (hp_mem s) (BLOCKCHAIN_START s) bl n ltac:(lia) Hs Hw Hz Hm bl 0 _ 0 None);
    [reflexivity|lia|lia|].
  unfold find_best_fuel. rewrite Hc, Nat2Z.id. destruct bl as [|b bl]; [simpl; lia|].
  assert (0 < size (hp_mem s))%nat.
  { apply (mem_nonempty _ (BLOCKCHAIN_START s) (Z.of_nat 0)). rewrite (Hw 0%nat b eq_refl).
    apply Forall_cons in Hs as [Hb _]. pose proof (word_of_range _ Hb). lia. }
  simpl length. nia.
Qed.

(** Rewriting one word of the table. *)
Lemma table_assign s bl i b b' :
  table_ok s bl -> bl !! i = Some b -> 0 < b'.2 < bit31 ->
  table_ok (assign (BLOCKCHAIN_START s + 4 * Z.of_nat i) (word_of b') s) (<[i := b']> bl).
Proof.
  intros [Hc Hm Hw Hs Hz Hst] Hi Hb. pose proof (lookup_lt_Some _ _ _ Hi). pose proof (word_of_range _ Hb).
  assert (Hmem : forall j, 0 <= j ->
    ldw (hp_mem (assign (BLOCKCHAIN_START s + 4 * Z.of_nat i) (word_of b') s)) (BLOCKCHAIN_START s) j =
    if j =? Z.of_nat i then word_of b' else ldw (hp_mem s) (BLOCKCHAIN_START s) j).
  { intros j Hj. unfold assign. rewrite stw_shift. unfold hp_mem at 1, pg_mem, set_hp_mem. cbn.
    apply table_store; lia. }
  split; cbn [assign set_hp_mem set_pg BLOCKCHAIN_START BLOCKS_ALLOCATED]; rewrite ?length_insert; try assumption.
  - intros j c Hj. rewrite Hmem by lia. destruct (Z.eqb_spec (Z.of_nat j) (Z.of_nat i)) as [E|Hne].
    + apply Nat2Z.inj in E as ->. rewrite list_lookup_insert_eq in Hj by assumption. congruence.
    + rewrite list_lookup_insert_ne in Hj by lia. auto.
  - apply Forall_insert; assumption.
  - intros j Hj. rewrite Hmem by lia. replace (j =? Z.of_nat i) with false by lia. apply Hz. assumption.
Qed.

Lemma translate_spec pf s bl i :
  table_ok s bl -> (i < length bl)%nat ->
  K_LAST_ALLOC s = K_HEAP_BOTTOM + sizes bl -> K_LAST_ALLOC s <= K_HEAP_MAX ->
  translate pf (BLOCKCHAIN_START s + 4 * Z.of_nat i) s = Ok (block_addr bl i) s.
Proof.
  intros [Hc Hm Hw Hs Hz Hst] Hi Hl Hmx. unfold translate, K_HEAP_BOTTOM, K_HEAP_MAX, KERNEL_VIRT in *. rewrite Hc.
  pose proof (sizes_take_le bl i Hs).
  rewrite (u32_small (BLOCKCHAIN_START s + _)) by lia.
  replace (Z.of_nat (length bl) * 4 + BLOCKCHAIN_START s <? BLOCKCHAIN_START s + 4 * Z.of_nat i) with false by lia.
  replace (BLOCKCHAIN_START s + 4 * Z.of_nat i - BLOCKCHAIN_START s) with (4 * Z.of_nat i) by lia.
  rewrite u32_small by lia. replace (4 * Z.of_nat i mod 4 =? 0) with true by dlia. cbn [negb].
  replace (4 * Z.of_nat i / 4) with (Z.of_nat i) by dlia. rewrite Nat2Z.id.
  rewrite (translate_total (hp_mem s) _ bl Hs Hw) by lia.
  unfold block_addr, K_HEAP_BOTTOM. rewrite u32_small by lia.
  replace (K_LAST_ALLOC s <? 0xC0300000 + sizes (take i bl)) with false by lia. reflexivity.
Qed.

Lemma find_block_spec s bl i b off :
  table_ok s bl -> bl !! i = Some b -> 0 <= off < b.2 ->
  K_LAST_ALLOC s = K_HEAP_BOTTOM + sizes bl -> K_LAST_ALLOC s <= K_HEAP_MAX ->
  find_block (block_addr bl i + off) s = BLOCKCHAIN_START s + 4 * Z.of_nat i.
Proof.
  intros [Hc Hm Hw Hs Hz Hst] Hi Hoff Hl Hmx. unfold find_block, block_addr, K_HEAP_BOTTOM, K_HEAP_MAX in *.
  pose proof (sizes_take_le bl (S i) Hs). pose proof (sizes_take_le bl i Hs).
  rewrite (sizes_take_S _ _ _ Hi) in *. rewrite (u32_small (0xC0300000 + _ + _)) by lia.
  replace (K_LAST_ALLOC s <? 0xC0300000 + sizes (take i bl) + off) with false by lia.
  rewrite u32_small by lia. rewrite Hc, Nat2Z.id.
  pose proof (find_block_loop_spec (hp_mem s) (BLOCKCHAIN_START s) bl Hs Hw Hm bl 0 0
    (0xC0300000 + sizes (take i bl) + off - 0xC0300000) i b eq_refl eq_refl ltac:(lia) Hi ltac:(lia) ltac:(lia)) as E.
  rewrite Z.add_0_r in E. rewrite E. lia.
Qed.

(** The table is part of the heap's memory only. *)
Lemma assign_same p v s :
  BLOCKCHAIN_START (assign p v s) = BLOCKCHAIN_START s /\ K_LAST_ALLOC (assign p v s) = K_LAST_ALLOC s /\
  K_HEAP_TOP (assign p v s) = K_HEAP_TOP s /\ memlock (assign p v s) = memlock s.
Proof. repeat split. Qed.

Lemma deref_block s bl i b :
  table_ok s bl -> bl !! i = Some b -> deref (BLOCKCHAIN_START s + 4 * Z.of_nat i) s = word_of b.
Proof. intros Hok Hi. unfold deref. rewrite ldw_shift. exact (ok_words _ _ Hok i b Hi). Qed.

(** [free] of any address inside block [i], and the state it leaves. *)
Lemma free_eq s bl i b off :
  heap_ok s bl -> memlock s = 0 -> bl !! i = Some b -> 0 <= off < b.2 ->
  free (block_addr bl i + off) s = Ok (block_addr bl i + off)
    (set_lock 0 (assign (BLOCKCHAIN_START s + 4 * Z.of_nat i) (word_of (false, b.2)) (set_lock 1 s))).
Proof.
  intros [Ht Hl Htop] Hlk Hi Hoff. unfold free, acquire, bind. rewrite Hlk. cbn [Z.eqb].
  set (s1 := set_lock 1 s). assert (Ht1 : table_ok s1 bl) by (apply (table_ok_frame s); auto).
  unfold gets. rewrite (find_block_spec s1 bl i b off Ht1 Hi Hoff Hl) by (cbn; lia).
  pose proof (Forall_lookup_1 _ _ _ _ (ok_sizes _ _ Ht) Hi) as Hsz. cbn beta in Hsz.
  unfold modify, release, ret. change (BLOCKCHAIN_START s) with (BLOCKCHAIN_START s1).
  rewrite (deref_block s1 bl i b Ht1 Hi). change (word_of b .& not32 bit31) with (block_size (word_of b)).
  rewrite block_size_word by assumption. change b.2 with (word_of (false, b.2)) at 1. reflexivity.
Qed.

(** Writing the word of block [i] keeps the invariant. *)
Lemma assign_ok s bl i b u :
  heap_ok s bl -> bl !! i = Some b ->
  heap_ok (set_lock 0 (assign (BLOCKCHAIN_START s + 4 * Z.of_nat i) (word_of (u, b.2)) (set_lock 1 s))) (<[i := (u, b.2)]> bl).
Proof.
  intros [Ht Hl Htop] Hi. pose proof (Forall_lookup_1 _ _ _ _ (ok_sizes _ _ Ht) Hi) as Hsz. cbn beta in Hsz.
  assert (Ht1 : table_ok (set_lock 1 s) bl) by (apply (table_ok_frame s); auto).
  pose proof (table_assign _ bl i b (u, b.2) Ht1 Hi Hsz) as Ht2.
  split; [apply (table_ok_frame _ _ _ Ht2); reflexivity|cbn; rewrite (sizes_alter _ _ b) by auto; exact Hl|exact Htop].
Qed.

Lemma free_spec s bl i b off :
  heap_ok s bl -> memlock s = 0 -> bl !! i = Some b -> 0 <= off < b.2 ->
  exists s', free (block_addr bl i + off) s = Ok (block_addr bl i + off) s' /\
    heap_ok s' (<[i := (false, b.2)]> bl) /\ memlock s' = 0 /\ K_HEAP_TOP s' = K_HEAP_TOP s.
Proof.
  intros Hok Hlk Hi Hoff. rewrite (free_eq s bl i b off Hok Hlk Hi Hoff). eexists. split; [reflexivity|].
  split; [apply assign_ok; assumption|split; reflexivity].
Qed.

Section growth.
Context (tbl : Z) (supply : nat -> pg_state -> Prop) `{HS : PageSupply tbl supply}.

(** Nothing but the paging state and the top changes, and the bytes the heap
    cares about stay. *)
Definition grown (s s' : heap_state) (pages : Z) : Prop :=
  s' = set_top (K_HEAP_TOP s + pages * 0x1000) (set_pg (hp_pg s') s) /\
  forall a, tbl <= a < tbl + 0x4000 \/ K_HEAP_BOTTOM <= a -> load8 (hp_mem s') a = load8 (hp_mem s) a.

Lemma sbrk_loop_spec k : forall j s,
  supply (k + j) (hp_pg s) -> K_HEAP_BOTTOM <= K_HEAP_TOP s -> K_HEAP_TOP s mod 0x1000 = 0 ->
  K_HEAP_TOP s + Z.of_nat k * 0x1000 <= K_HEAP_MAX ->
  exists s', sbrk_loop k s = Ok tt s' /\ grown s s' (Z.of_nat k) /\ supply j (hp_pg s').
Proof using HS.
  induction k as [|k IH]; intros j s Hsup Hb Ha Hmx.
  - exists s. split; [reflexivity|]. split; [|assumption]. split; [|auto].
    destruct s. unfold set_top, set_pg. simpl. f_equal. lia.
  - destruct (supply_map (k + j) (K_HEAP_TOP s) (hp_pg s) Hsup) as (x & Ex & Hx & Hmem); [lia|assumption|].
    cbn [sbrk_loop]. unfold gets, bind, on_pg, modify. rewrite Ex. cbn [K_HEAP_TOP set_pg].
    unfold K_HEAP_MAX, K_HEAP_BOTTOM in *. rewrite u32_small by lia.
    set (s1 := set_top _ _).
    destruct (IH j s1) as (s' & Es & [Es' Hm'] & Hj); [assumption|simpl; lia|simpl; dlia|simpl; lia|].
    exists s'. split; [exact Es|]. split; [|assumption]. split.
    + rewrite Es' at 1. unfold s1. destruct s. unfold set_top, set_pg. cbn. f_equal. lia.
    + intros a Ha'. rewrite Hm' by assumption. apply Hmem. assumption.
Qed.

(** Pages that [sbrk(n)] maps. *)
Definition sbrk_pages (n : Z) : Z := if 0x1000 <? n then n / 0x1000 else 1.

Lemma sbrk_spec pf n j s :
  0 < n < 0x80000000 -> n + K_HEAP_TOP s < K_HEAP_MAX -> supply (Z.to_nat (sbrk_pages n) + j) (hp_pg s) ->
  K_HEAP_BOTTOM <= K_HEAP_TOP s -> K_HEAP_TOP s mod 0x1000 = 0 ->
  exists s', sbrk pf n s = Ok (K_HEAP_TOP s + sbrk_pages n * 0x1000) s' /\ grown s s' (sbrk_pages n) /\
    supply j (hp_pg s').
Proof using HS.
  intros Hn Hmx Hsup Hb Ha.
  assert (Hp : 1 <= sbrk_pages n /\ K_HEAP_TOP s + sbrk_pages n * 0x1000 <= K_HEAP_MAX).
  { unfold sbrk_pages, K_HEAP_MAX in *. destruct (Z.ltb_spec 0x1000 n); dlia. }
  unfold sbrk, bind, gets. replace (n =? 0) with false by lia.
  unfold K_HEAP_MAX, K_HEAP_BOTTOM in *. rewrite u32_small by lia.
  replace (0xFFFFF000 <=? n + K_HEAP_TOP s) with false by lia. fold (sbrk_pages n).
  destruct (sbrk_loop_spec (Z.to_nat (sbrk_pages n)) j s) as (s' & -> & Hg & Hj);
    [assumption|assumption|assumption|unfold K_HEAP_MAX; lia|].
  rewrite Z2Nat.id in Hg by lia. exists s'. split; [|auto]. destruct Hg as [-> _]. reflexivity.
Qed.
End growth.

(** ** malloc against the abstract heap *)

(** The abstract allocation: which block is used, and the blocks after it;
    [None] when the table is full. *)
Definition heap_alloc (n : Z) (bl : list block) : option (nat * list block) :=
  match best_fit n (n * 3) 0 bl None with
  | Some i => match bl !! i with Some b => Some (i, <[i := (true, b.2)]> bl) | None => None end
  | None => if (length bl <=? 1024)%nat then Some (length bl, bl ++ [(true, n)]) else None
  end.

(** Bytes by which a new block of [n] passes the mapped top, and the pages
    that [malloc] then maps. *)
Definition excess (s : heap_state) (n : Z) : Z := K_LAST_ALLOC s + n - K_HEAP_TOP s.
Definition malloc_pages (s : heap_state) (n : Z) : nat :=
  if 0 <? excess s n then Z.to_nat (sbrk_pages (2 * excess s n)) else 0.

Definition heap_bytes_same (s s' : heap_state) : Prop :=
  forall a, K_HEAP_BOTTOM <= a -> load8 (hp_mem s') a = load8 (hp_mem s) a.

Lemma assign_heap_bytes s i v :
  BLOCKCHAIN_START s + 0x4000 <= K_HEAP_BOTTOM -> KERNEL_VIRT <= BLOCKCHAIN_START s -> 0 <= i < 4096 ->
  heap_bytes_same s (assign (BLOCKCHAIN_START s + 4 * i) v s).
Proof.
  intros H1 H2 Hi a Ha. unfold assign. rewrite stw_shift. unfold hp_mem at 1, pg_mem, set_hp_mem. cbn.
  unfold stw. rewrite table_canon by lia. apply load8_store32_ne. lia.
Qed.

Lemma of_find_best s bl n (k : Z -> M heap_state Z) :
  table_ok s bl -> 0 < n < 0x40000000 ->
  (o <-- gets (find_best_free n) ;; b <-- of_option o ;; k b) s =
    k (block_ptr (BLOCKCHAIN_START s) (best_fit n (n * 3) 0 bl None)) s.
Proof. intros Ht Hn. unfold bind, gets. rewrite (find_best_free_spec s bl n Ht Hn). reflexivity. Qed.

Lemma best_fit_block n bl i :
  best_fit n (n * 3) 0 bl None = Some i ->
  exists b, bl !! i = Some b /\ b.1 = false /\ n <= b.2 <= n * 3 /\
    forall j b', bl !! j = Some b' -> b'.1 = false -> n <= b'.2 -> b.2 <= b'.2.
Proof.
  intros H. apply best_fit_spec in H as [[? _]|(j & b & -> & Hj & Hb & Hr & Hmin)]; [discriminate|]. eauto.
Qed.

(** A free block is reused. *)
Lemma malloc_reuse s bl n i b :
  heap_ok s bl -> memlock s = 0 -> 0 < n < 0x40000000 ->
  best_fit n (n * 3) 0 bl None = Some i -> bl !! i = Some b ->
  malloc n s = Ok (block_addr bl i)
    (set_lock 0 (assign (BLOCKCHAIN_START s + 4 * Z.of_nat i) (word_of (true, b.2)) (set_lock 1 s))).
Proof.
  intros [Ht Hl Htop] Hlk Hn Hbf Hi. unfold malloc, malloc_with. replace (n =? 0) with false by lia.
  unfold bind at 1. unfold acquire. rewrite Hlk. cbn [Z.eqb]. set (s1 := set_lock 1 s).
  assert (Ht1 : table_ok s1 bl) by (apply (table_ok_frame s); auto).
  rewrite (of_find_best s1 bl n) by assumption. rewrite Hbf. cbn [block_ptr].
  pose proof (ok_start _ _ Ht) as Hst. unfold KERNEL_VIRT in Hst.
  replace (BLOCKCHAIN_START s1 + 4 * Z.of_nat i =? NULL) with false
    by (symmetry; apply Z.eqb_neq; change (BLOCKCHAIN_START s1) with (BLOCKCHAIN_START s); unfold NULL; lia).
  cbn [negb].
  pose proof (Forall_lookup_1 _ _ _ _ (ok_sizes _ _ Ht) Hi) as Hsz. cbn beta in Hsz.
  unfold bind, modify. rewrite (deref_block s1 bl i b Ht1 Hi), set_used_word by assumption.
  pose proof (table_assign s1 bl i b (true, b.2) Ht1 Hi Hsz) as Ht2.
  change (BLOCKCHAIN_START s1) with
    (BLOCKCHAIN_START (assign (BLOCKCHAIN_START s1 + 4 * Z.of_nat i) (word_of (true, b.2)) s1)) at 2.
  rewrite (translate_spec _ _ _ i Ht2).
  - unfold release, modify, ret. f_equal. unfold block_addr. f_equal.
    rewrite take_insert_ge by lia. reflexivity.
  - rewrite length_insert. eapply lookup_lt_Some. eassumption.
  - rewrite (sizes_alter _ _ b) by auto. exact Hl.
  - cbn. lia.
Qed.

(** The block added to a table that is not full. *)
Lemma blockchain_add_spec s bl n :
  table_ok s bl -> (length bl <= 1024)%nat -> 0 < n < bit31 ->
  exists s', blockchain_add n s = Ok 1 s' /\ table_ok s' (bl ++ [(true, n)]) /\
    hp_pg s' = set_pg_mem (stw (hp_mem s) (BLOCKCHAIN_START s) (Z.of_nat (length bl)) (word_of (true, n))) (hp_pg s) /\
    BLOCKCHAIN_START s' = BLOCKCHAIN_START s /\ K_HEAP_TOP s' = K_HEAP_TOP s /\
    K_LAST_ALLOC s' = K_LAST_ALLOC s /\ memlock s' = memlock s.
Proof.
  intros [Hc Hm Hw Hs Hz Hst] Hlen Hn. unfold blockchain_add, MAX_BLOCKS.
  unfold KERNEL_VIRT, K_HEAP_BOTTOM in Hst. rewrite Hc.
  replace (1024 <? Z.of_nat (length bl)) with false by lia.
  rewrite u32_small by lia.
  rewrite new_word by assumption.
  replace (BLOCKCHAIN_START s + Z.of_nat (length bl) * 4) with (BLOCKCHAIN_START s + 4 * Z.of_nat (length bl)) by lia.
  eexists. split; [reflexivity|]. unfold assign. cbn.
  assert (Hr : 0 <= word_of (true, n) < 0x100000000) by (pose proof (word_of_range (true, n) Hn); lia).
  assert (Hmem : forall j, 0 <= j -> ldw (stw (hp_mem s) (BLOCKCHAIN_START s) (Z.of_nat (length bl)) (word_of (true, n)))
    (BLOCKCHAIN_START s) j = if j =? Z.of_nat (length bl) then word_of (true, n) else ldw (hp_mem s) (BLOCKCHAIN_START s) j).
  { intros j Hj. apply table_store; unfold KERNEL_VIRT; lia. }
  split; [|rewrite stw_shift; repeat split; reflexivity].
  split; rewrite ?stw_shift; unfold hp_mem, pg_mem; cbn; rewrite ?length_app; simpl length; unfold KERNEL_VIRT, K_HEAP_BOTTOM;
    try lia.
  - intros i b Hi. unfold hp_mem, pg_mem in Hmem, Hw, Hz. rewrite Hmem by lia.
    destruct (Z.eqb_spec (Z.of_nat i) (Z.of_nat (length bl))) as [E|Hne].
    + apply Nat2Z.inj in E as ->. rewrite lookup_app_r, Nat.sub_diag in Hi by lia. simpl in Hi. congruence.
    + pose proof (lookup_lt_Some _ _ _ Hi) as Hlt. rewrite length_app in Hlt. simpl in Hlt.
      rewrite lookup_app_l in Hi by lia. auto.
  - apply Forall_app. split; [assumption|]. constructor; [assumption|constructor].
  - intros i Hi. unfold hp_mem, pg_mem in Hmem, Hw, Hz. rewrite Hmem by lia.
    replace (i =? Z.of_nat (length bl)) with false by lia. apply Hz. lia.
Qed.

Section malloc_fresh.
Context (s : heap_state) (bl : list block) (n : Z) (supply : nat -> pg_state -> Prop) (j : nat).
Context `{HS : PageSupply (BLOCKCHAIN_START s) supply}.
Hypothesis Hok : heap_ok s bl.
Hypothesis Hlk : memlock s = 0.
Hypothesis Hn : 0 < n < 0x10000000.
Hypothesis Hsup : supply (malloc_pages s n + j) (hp_pg s).
Hypothesis Hroom : 0 < excess s n -> 2 * excess s n + K_HEAP_TOP s < K_HEAP_MAX.

(** The [sbrk] call of [malloc], in the state after [blockchain_add]. *)
Lemma malloc_sbrk s1 :
  K_HEAP_TOP s1 = K_HEAP_TOP s -> K_LAST_ALLOC s1 = K_LAST_ALLOC s ->
  supply (malloc_pages s n + j) (hp_pg s1) ->
  exists s2 p, (if K_HEAP_TOP s1 <=? u32 (K_LAST_ALLOC s1 + n)
     then sbrk (printf_nested 2) (u32 (2 * ((n + K_LAST_ALLOC s1) - K_HEAP_TOP s1))) ;;; ret tt
     else ret tt) s1 = Ok tt s2 /\ grown (BLOCKCHAIN_START s) s1 s2 p /\ supply j (hp_pg s2) /\
    0 <= p /\ K_LAST_ALLOC s + n <= K_HEAP_TOP s + p * 0x1000 <= K_HEAP_MAX.
Proof using Hok Hn HS Hroom Hsup.
  intros Et El Hs1. rewrite Et, El. destruct Hok as [_ Hl [Htop Ha]].
  assert (Hlast : 0 <= K_LAST_ALLOC s /\ K_LAST_ALLOC s + n < 0x100000000 /\ K_HEAP_BOTTOM <= K_HEAP_TOP s).
  { pose proof (sizes_nonneg bl (ok_sizes _ _ (ok_table _ _ Hok))).
    unfold excess, K_HEAP_BOTTOM, K_HEAP_MAX in *. lia. }
  rewrite u32_small by lia. unfold malloc_pages, excess in *.
  assert (Hzero : K_LAST_ALLOC s + n <= K_HEAP_TOP s -> supply j (hp_pg s1)).
  { intros H. replace (0 <? K_LAST_ALLOC s + n - K_HEAP_TOP s) with false in Hs1 by lia. exact Hs1. }
  assert (Hnone : forall x, x = s1 -> K_LAST_ALLOC s + n <= K_HEAP_TOP s ->
    grown (BLOCKCHAIN_START s) s1 x 0 /\ supply j (hp_pg x) /\ 0 <= 0 /\
    K_LAST_ALLOC s + n <= K_HEAP_TOP s + 0 * 0x1000 <= K_HEAP_MAX).
  { intros x -> H. split; [|split; [auto|lia]]. split; [|auto].
    destruct s1. unfold set_top, set_pg. cbn. f_equal. lia. }
  destruct (Z.leb_spec (K_HEAP_TOP s) (K_LAST_ALLOC s + n)) as [Hge|Hlt].
  - rewrite u32_small by (unfold K_HEAP_MAX in *; lia).
    destruct (Z.eq_dec (K_LAST_ALLOC s + n) (K_HEAP_TOP s)) as [E|Hne].
    + exists s1, 0. split; [|apply Hnone; [reflexivity|lia]].
      unfold sbrk, bind. replace (2 * (n + K_LAST_ALLOC s - K_HEAP_TOP s) =? 0) with true by lia. reflexivity.
    + set (e := K_LAST_ALLOC s + n - K_HEAP_TOP s) in *. replace (n + K_LAST_ALLOC s - K_HEAP_TOP s) with e by lia.
      replace (0 <? e) with true in Hs1 by lia. specialize (Hroom ltac:(lia)).
      destruct (sbrk_spec (BLOCKCHAIN_START s) supply (printf_nested 2) (2 * e) j s1) as (s2 & Es & Hg & Hj);
        [unfold K_HEAP_MAX in *; lia|rewrite Et; lia|exact Hs1|lia|rewrite Et; assumption|].
      exists s2, (sbrk_pages (2 * e)). split; [unfold bind; rewrite Es; reflexivity|].
      split; [assumption|]. split; [assumption|]. unfold sbrk_pages, K_HEAP_MAX in *.
      destruct (Z.ltb_spec 0x1000 (2 * e)); dlia.
  - exists s1, 0. split; [reflexivity|]. apply Hnone; [reflexivity|lia].
Qed.

Lemma malloc_fresh :
  best_fit n (n * 3) 0 bl None = None -> (length bl <= 1024)%nat ->
  exists s', malloc n s = Ok (K_LAST_ALLOC s) s' /\ heap_ok s' (bl ++ [(true, n)]) /\ memlock s' = 0 /\
    supply j (hp_pg s') /\ heap_bytes_same s s'.
Proof using Hok Hlk Hn HS Hsup Hroom.
  intros Hbf Hlen. unfold malloc, malloc_with. replace (n =? 0) with false by lia.
  unfold bind at 1. unfold acquire. rewrite Hlk. cbn [Z.eqb]. set (s0 := set_lock 1 s).
  pose proof (ok_table _ _ Hok) as Ht. assert (Ht0 : table_ok s0 bl) by (apply (table_ok_frame s); auto).
  rewrite (of_find_best s0 bl n) by (assumption || lia). rewrite Hbf. cbn [block_ptr Z.eqb negb NULL].
  destruct (blockchain_add_spec s0 bl n Ht0 Hlen) as (s1 & E1 & Ht1 & Epg & Ebs & Etop & Elast & Elock);
    [unfold bit31; lia|]. unfold bind at 1. rewrite E1. cbn [Z.eqb]. unfold bind at 1. unfold get.
  assert (Hs1 : supply (malloc_pages s n + j) (hp_pg s1)).
  { rewrite Epg. apply supply_table; [exact Hsup|lia]. }
  destruct (malloc_sbrk s1 Etop Elast Hs1) as (s2 & p & E2 & [Es2 Hm2] & Hj & Hp & Hfit).
  unfold bind at 1. rewrite E2. unfold bind, gets, modify, release, ret.
  assert (Hl2 : K_LAST_ALLOC s2 = K_LAST_ALLOC s) by (rewrite Es2; exact Elast).
  assert (Ht2' : K_HEAP_TOP s2 = K_HEAP_TOP s + p * 0x1000) by (rewrite Es2; cbn; rewrite Etop; reflexivity).
  destruct Hok as [_ Hl [Htop Ha]]. pose proof (ok_start _ _ Ht) as Hst.
  rewrite Hl2, u32_small by (pose proof (sizes_nonneg bl (ok_sizes _ _ Ht)); unfold K_HEAP_BOTTOM, K_HEAP_MAX in *; lia).
  eexists. split; [reflexivity|]. split; [|split; [reflexivity|split; [exact Hj|]]].
  - split; cbn; rewrite ?sizes_app; simpl sizes; rewrite ?Ht2'; [|lia|split; [lia|dlia]].
    apply (table_ok_frame s1); [assumption|rewrite Es2; reflexivity|rewrite Es2; reflexivity|].
    intros i Hi. rewrite Ebs. apply load32_ext. intros o Ho. change (BLOCKCHAIN_START s0) with (BLOCKCHAIN_START s).
    apply Hm2. left. rewrite table_canon by lia. lia.
  - intros a Ha'. transitivity (load8 (hp_mem s1) a); [apply Hm2; right; assumption|].
    unfold hp_mem at 1. rewrite Epg. unfold pg_mem, set_pg_mem, set_mm. cbn. unfold stw.
    rewrite table_canon by lia. apply load8_store32_ne. lia.
Qed.
End malloc_fresh.

(** The table is full and no block fits: NULL, and nothing changes. *)
Lemma malloc_full s bl n :
  heap_ok s bl -> memlock s = 0 -> 0 < n < 0x40000000 ->
  best_fit n (n * 3) 0 bl None = None -> length bl = 1025%nat -> malloc n s = Ok NULL s.
Proof.
  intros [Ht _ _] Hlk Hn Hbf Hlen. unfold malloc, malloc_with. replace (n =? 0) with false by lia.
  unfold bind at 1. unfold acquire. rewrite Hlk. cbn [Z.eqb].
  rewrite (of_find_best (set_lock 1 s) bl n) by (assumption || (apply (table_ok_frame s); auto)).
  rewrite Hbf. cbn [block_ptr Z.eqb negb NULL]. unfold bind at 1, blockchain_add, MAX_BLOCKS.
  cbn [BLOCKS_ALLOCATED set_lock]. rewrite (ok_count _ _ Ht), Hlen. cbn.
  destruct s. cbn in *. subst. reflexivity.
Qed.

(** ** Contracts *)

(** Disjointness of the ranges of two blocks. *)
Definition ranges_disjoint (p n q k : Z) : Prop := p + n <= q \/ q + k <= p.

Lemma blocks_disjoint bl i j b c :
  Forall (fun b : block => 0 < b.2 < bit31) bl -> bl !! i = Some b -> bl !! j = Some c -> i <> j ->
  ranges_disjoint (block_addr bl i) b.2 (block_addr bl j) c.2.
Proof.
  intros Hs Hi Hj Hne. destruct (Nat.lt_ge_cases i j).
  - left. apply (block_addr_mono bl i j b Hs Hi). lia.
  - right. apply (block_addr_mono bl j i c Hs Hj). lia.
Qed.

(** What one abstract allocation does: the block was free or is new, now it is
    in use and large enough, and every other block is as before. *)
Lemma heap_alloc_spec n bl i bl' :
  0 < n -> heap_alloc n bl = Some (i, bl') ->
  exists sz, bl' !! i = Some (true, sz) /\ n <= sz /\
    (forall b, bl !! i = Some b -> b = (false, sz)) /\ (forall k, k <> i -> bl' !! k = bl !! k) /\
    forall k, (k <= i)%nat -> block_addr bl' k = block_addr bl k.
Proof.
  intros Hn. unfold heap_alloc. destruct (best_fit _ _ _ _ _) as [k|] eqn:E.
  - destruct (best_fit_block _ _ _ E) as ([u sz] & Hk & Hu & Hr & _). rewrite Hk. intros [= <- <-]. simpl in *. subst u.
    exists sz. pose proof (lookup_lt_Some _ _ _ Hk). split; [apply list_lookup_insert_eq; assumption|].
    split; [lia|]. split; [intros b Hb; congruence|]. split.
    + intros q Hq. apply list_lookup_insert_ne. congruence.
    + intros q Hq. unfold block_addr. rewrite take_insert_ge by assumption. reflexivity.
  - destruct (Nat.leb_spec (length bl) 1024); [|discriminate]. intros [= <- <-]. exists n.
    split; [rewrite lookup_app_r, Nat.sub_diag by lia; reflexivity|]. split; [lia|].
    split; [intros b Hb; apply lookup_lt_Some in Hb; lia|]. split.
    + intros k Hk. destruct (Nat.lt_ge_cases k (length bl)); [apply lookup_app_l; assumption|].
      rewrite !lookup_ge_None_2; [reflexivity|lia|rewrite length_app; simpl; lia].
    + intros k Hk. unfold block_addr. rewrite take_app_le by assumption. reflexivity.
Qed.

Lemma malloc_refines_alloc s bl n supply j :
  PageSupply (BLOCKCHAIN_START s) supply ->
  heap_ok s bl -> memlock s = 0 -> 0 < n < 0x10000000 ->
  supply (malloc_pages s n + j)%nat (hp_pg s) -> supply j (hp_pg s) ->
  (0 < excess s n -> 2 * excess s n + K_HEAP_TOP s < K_HEAP_MAX) ->
  match heap_alloc n bl with
  | Some (i, bl') => exists s', malloc n s = Ok (block_addr bl' i) s' /\ heap_ok s' bl' /\ memlock s' = 0 /\
      supply j (hp_pg s') /\ heap_bytes_same s s'
  | None => malloc n s = Ok NULL s
  end.
Proof.
  intros HS Hok Hlk Hn Hsup Hj Hroom. unfold heap_alloc.
  destruct (best_fit _ _ _ _ _) as [i|] eqn:E.
  - destruct (best_fit_block _ _ _ E) as (b & Hi & _). rewrite Hi. pose proof (lookup_lt_Some _ _ _ Hi) as Hlt.
    eexists. rewrite (malloc_reuse s bl n i b) by (assumption || lia).
    unfold block_addr at 2. rewrite take_insert_ge by lia. fold (block_addr bl i). split; [reflexivity|].
    pose proof (ok_table _ _ Hok) as Ht. pose proof (ok_start _ _ Ht) as Hst. pose proof (ok_max _ _ Ht).
    split; [apply assign_ok; assumption|split; [reflexivity|split]].
    + cbn. unfold assign. rewrite stw_shift. cbn. apply supply_table; [exact Hj|lia].
    + apply (assign_heap_bytes (set_lock 1 s)); cbn; lia.
  - destruct (Nat.leb_spec (length bl) 1024).
    + destruct (malloc_fresh s bl n supply j Hok Hlk Hn Hsup Hroom E) as (s' & Em & H'); [assumption|].
      exists s'. rewrite Em. split; [|exact H']. f_equal. unfold block_addr.
      rewrite take_app_le, take_ge by lia. apply (ok_last _ _ Hok).
    + apply (malloc_full s bl n); [assumption..|lia|assumption|]. pose proof (ok_max _ _ (ok_table _ _ Hok)). lia.
Qed.

(** C1: the contract of [malloc].  With the heap invariant, the lock free and
    enough pages for the growth the request needs, [malloc(n)] returns, keeps
    the invariant and releases the lock.  When the table has room or a block
    fits, the result is a block in use of at least [n] bytes inside the mapped
    heap, disjoint from every block that was in use, and no byte of the heap
    changes; otherwise the result is NULL and the state is unchanged. *)
Theorem malloc_contract s bl n supply j :
  PageSupply (BLOCKCHAIN_START s) supply ->
  heap_ok s bl -> memlock s = 0 -> 0 < n < 0x10000000 ->
  supply (malloc_pages s n + j)%nat (hp_pg s) -> supply j (hp_pg s) ->
  (0 < excess s n -> 2 * excess s n + K_HEAP_TOP s < K_HEAP_MAX) ->
  match heap_alloc n bl with
  | None => malloc n s = Ok NULL s
  | Some (i, bl') => exists s' sz,
      malloc n s = Ok (block_addr bl' i) s' /\ heap_ok s' bl' /\ memlock s' = 0 /\ supply j (hp_pg s') /\
      bl' !! i = Some (true, sz) /\ n <= sz /\
      K_HEAP_BOTTOM <= block_addr bl' i /\ block_addr bl' i + sz <= K_HEAP_TOP s' /\
      heap_bytes_same s s' /\
      forall k c, bl !! k = Some (true, c) -> bl' !! k = Some (true, c) /\
        ranges_disjoint (block_addr bl' i) sz (block_addr bl' k) c
  end.
Proof.
  intros HS Hok Hlk Hn Hsup Hj Hroom.
  pose proof (malloc_refines_alloc s bl n supply j HS Hok Hlk Hn Hsup Hj Hroom) as H.
  destruct (heap_alloc n bl) as [[i bl']|] eqn:E; [|assumption].
  destruct (heap_alloc_spec n bl i bl' ltac:(lia) E) as (sz & Hi & Hsz & Hold & Hother & _).
  destruct H as (s' & Em & Hok' & Hlk' & Hj' & Hby). exists s', sz.
  pose proof (ok_sizes _ _ (ok_table _ _ Hok')) as Hs'.
  pose proof (sizes_take_le bl' (S i) Hs') as Hle. rewrite (sizes_take_S _ _ _ Hi) in Hle.
  pose proof (sizes_take_le bl' i Hs'). pose proof (ok_last _ _ Hok'). pose proof (ok_top _ _ Hok').
  repeat (split; [assumption || (unfold block_addr; simpl in *; lia)|]).
  intros k c Hk. assert (k <> i) by (intros ->; specialize (Hold _ Hk); discriminate).
  rewrite Hother by assumption. split; [assumption|].
  apply (blocks_disjoint bl' i k (true, sz) (true, c) Hs' Hi); [rewrite Hother by assumption|]; auto.
Qed.

Definition demo_pg : pg_state := MkPg (MkMm ∅ 0xC0120000 0xC0124000 0xC0204000) 0xC0110000 0xC0110000 0x110000.

(** [free] of any address inside block [i] marks that block free, whatever
    the offset, keeps the invariant and every other block, and releases the
    lock. *)
Theorem free_marks_block s bl i b off :
  heap_ok s bl -> memlock s = 0 -> bl !! i = Some b -> 0 <= off < b.2 ->
  exists s', free (block_addr bl i + off) s = Ok (block_addr bl i + off) s' /\
    heap_ok s' (<[i := (false, b.2)]> bl) /\ memlock s' = 0.
Proof.
  intros Hok Hlk Hi Hoff. destruct (free_spec s bl i b off Hok Hlk Hi Hoff) as (s' & E & H1 & H2 & _). eauto.
Qed.

(** A heap with one block of 100 bytes in use. *)
Definition demo_heap1 : heap_state :=
  MkHeap (set_pg_mem (store32 ∅ 0xC0200000 0x80000064) demo_pg) 0xC0200000 1 0xC0200000 0xC0310000 0xC0300064 0.

Lemma demo_heap1_ok : heap_ok demo_heap1 [(true, 100)].
Proof.
  assert (E : forall i, 0 <= i -> ldw (hp_mem demo_heap1) 0xC0200000 i = if i =? 0 then 0x80000064 else 0).
  { intros i Hi. change (hp_mem demo_heap1) with (stw ∅ 0xC0200000 0 0x80000064).
    rewrite table_store by (unfold KERNEL_VIRT; lia). destruct (i =? 0); [reflexivity|].
    unfold ldw, load32, load8. rewrite !lookup_empty. reflexivity. }
  split; [split|reflexivity|]; cbn [demo_heap1 BLOCKCHAIN_START BLOCKS_ALLOCATED K_LAST_ALLOC K_HEAP_TOP length];
    unfold KERNEL_VIRT, K_HEAP_BOTTOM, K_HEAP_MAX; try lia.
  - intros [|i] b [= <-]. apply (E 0). lia.
  - repeat constructor; reflexivity.
  - intros i Hi. rewrite E by lia. replace (i =? 0) with false by lia. reflexivity.
  - split; [lia|reflexivity].
Qed.

Lemma free_marks_block_witness :
  exists s', free 0xC0300010 demo_heap1 = Ok 0xC0300010 s' /\ heap_ok s' [(false, 100)] /\ memlock s' = 0.
Proof.
  apply (free_marks_block demo_heap1 [(true, 100)] 0 (true, 100) 16 demo_heap1_ok); try reflexivity. simpl. lia.
Defined.

Lemma best_fit_some n bound k rest cur :
  (exists i b, rest !! i = Some b /\ b.1 = false /\ n <= b.2 <= bound) -> best_fit n bound k rest cur <> None.
Proof.
  revert bound k cur. induction rest as [|c rest IH]; intros bound k cur (i & b & Hi & Hb & Hr); [discriminate|].
  assert (Hs : forall rest bound k i, best_fit n bound k rest (Some i) <> None).
  { clear. induction rest as [|c rest IH]; intros; simpl; [discriminate|]. case_match; apply IH. }
  simpl. destruct ((n <=? c.2) && (c.2 <=? bound) && negb c.1) eqn:E; [apply Hs|].
  apply IH. destruct i as [|i]; simpl in Hi; [|eauto]. simplify_eq. rewrite Hb in E. simpl in E. lia.
Qed.

(** Freed memory is reused.  After freeing a block of size [sz], a request
    of [n] bytes with [n <= sz <= 3n] is served from the existing heap: the
    end of the heap does not move, and the block returned was free. *)
Theorem free_then_malloc_reuses s bl i sz n off :
  heap_ok s bl -> memlock s = 0 -> bl !! i = Some (true, sz) -> 0 <= off < sz ->
  0 < n < 0x10000000 -> n <= sz <= n * 3 ->
  exists s1 s2 k p, free (block_addr bl i + off) s = Ok (block_addr bl i + off) s1 /\
    malloc n s1 = Ok p s2 /\ p = block_addr bl k /\ (k < length bl)%nat /\
    (k = i \/ exists c, bl !! k = Some (false, c) /\ n <= c <= sz) /\
    K_LAST_ALLOC s2 = K_LAST_ALLOC s /\ K_HEAP_TOP s2 = K_HEAP_TOP s.
Proof.
  intros Hok Hlk Hi Hoff Hn Hsz.
  destruct (free_spec s bl i (true, sz) off Hok Hlk Hi Hoff) as (s1 & E1 & Hok1 & Hlk1 & Ht1). simpl in Hok1.
  set (bl1 := <[i := (false, sz)]> bl) in *. pose proof (lookup_lt_Some _ _ _ Hi) as Hlt.
  assert (Hi1 : bl1 !! i = Some (false, sz)) by (apply list_lookup_insert_eq; assumption).
  destruct (best_fit n (n * 3) 0 bl1 None) as [k|] eqn:E.
  2:{ exfalso. revert E. apply best_fit_some. exists i, (false, sz). auto. }
  destruct (best_fit_block _ _ _ E) as (b & Hk & Hb & Hr & Hmin).
  pose proof (lookup_lt_Some _ _ _ Hk) as Hltk. unfold bl1 in Hltk. rewrite length_insert in Hltk.
  pose proof (malloc_reuse s1 bl1 n k b Hok1 Hlk1 ltac:(lia) E Hk) as Em.
  do 4 eexists. split; [exact E1|]. split; [exact Em|].
  assert (Hadr : block_addr bl1 k = block_addr bl k).
  { unfold block_addr, bl1. f_equal. destruct (Nat.le_gt_cases k i).
    - rewrite take_insert_ge by assumption. reflexivity.
    - rewrite take_insert_lt by assumption. apply (sizes_alter _ _ (true, sz)); [|reflexivity].
      rewrite lookup_take_lt by assumption. assumption. }
  split; [exact Hadr|]. split; [assumption|]. split; [|split; [|cbn; assumption]].
  - destruct (decide (k = i)) as [->|Hne]; [auto|right].
    unfold bl1 in Hk. rewrite list_lookup_insert_ne in Hk by congruence. destruct b as [u c]. simpl in *. subst u.
    exists c. split; [assumption|]. specialize (Hmin i (false, sz) Hi1 eq_refl ltac:(simpl; lia)). simpl in Hmin. lia.
  - cbn. rewrite (ok_last _ _ Hok1), (ok_last _ _ Hok). unfold bl1. rewrite (sizes_alter _ _ (true, sz)) by auto. reflexivity.
Qed.

Lemma free_then_malloc_reuses_witness :
  exists s1 s2 k p, free 0xC0300000 demo_heap1 = Ok 0xC0300000 s1 /\
    malloc 40 s1 = Ok p s2 /\ p = block_addr [(true, 100)] k /\ (k < 1)%nat /\
    (k = 0%nat \/ exists c, [(true, 100)] !! k = Some (false, c) /\ 40 <= c <= 100) /\
    K_LAST_ALLOC s2 = K_LAST_ALLOC demo_heap1 /\ K_HEAP_TOP s2 = K_HEAP_TOP demo_heap1.
Proof.
  apply (free_then_malloc_reuses demo_heap1 [(true, 100)] 0 100 40 0 demo_heap1_ok); reflexivity || lia.
Defined.

(** The block table translates both ways.  [translate] gives the start of
    block [i], and [find_block] of any address inside that block finds the
    block again. *)
Theorem find_block_translate s bl i b off pf :
  heap_ok s bl -> bl !! i = Some b -> 0 <= off < b.2 ->
  let e := BLOCKCHAIN_START s + 4 * Z.of_nat i in
  translate pf e s = Ok (block_addr bl i) s /\ find_block (block_addr bl i + off) s = e.
Proof.
  intros [Ht Hl Htop] Hi Hoff. split.
  - apply translate_spec; [assumption|eapply lookup_lt_Some; eassumption|assumption|lia].
  - apply (find_block_spec s bl i b off); (assumption || lia).
Qed.

Lemma find_block_translate_witness :
  translate (printf_nested 2) 0xC0200000 demo_heap1 = Ok 0xC0300000 demo_heap1 /\
  find_block 0xC0300063 demo_heap1 = 0xC0200000.
Proof.
  apply (find_block_translate demo_heap1 [(true, 100)] 0 (true, 100) 99 (printf_nested 2) demo_heap1_ok); [reflexivity|simpl; lia].
Defined.

(** ** printf under the lock *)

Lemma malloc_waits p n s : n <> 0 -> memlock s <> 0 -> malloc_with p n s = Spin.
Proof.
  intros Hn Hl. unfold malloc_with. rewrite (proj2 (Z.eqb_neq n 0) Hn). unfold bind at 1, acquire.
  rewrite (proj2 (Z.eqb_neq _ 0) Hl). reflexivity.
Qed.

Lemma printf_waits d s : memlock s <> 0 -> printf_nested (S d) s = Spin.
Proof.
  intros Hl. cbn [printf_nested]. unfold printf_with, bind at 1. rewrite malloc_waits by (assumption || lia). reflexivity.
Qed.

Lemma translate_ext p q b s : p s = q s -> translate p b s = translate q b s.
Proof. intros E. unfold translate, bind. rewrite E. reflexivity. Qed.

Lemma sbrk_ext p q n s : p s = q s -> sbrk p n s = sbrk q n s.
Proof.
  intros E. unfold sbrk. destruct (n =? 0); [reflexivity|]. apply bind_ext; [reflexivity|]. intros top s' [= <- <-].
  destruct (_ <=? _); [|reflexivity]. apply bind_ext; [exact E|reflexivity].
Qed.

(** [malloc] depends on what [printf] does only while the lock is held. *)
Lemma malloc_with_ext p q n s : (forall t, memlock t <> 0 -> p t = q t) -> malloc_with p n s = malloc_with q n s.
Proof.
  intros H. unfold malloc_with. destruct (n =? 0); [reflexivity|].
  apply bind_ext; [reflexivity|]. intros [] s1 E1. unfold acquire in E1. destruct (memlock s =? 0); [|discriminate].
  injection E1 as <-. apply bind_ext; [reflexivity|]. intros o s2 E2. injection E2 as <- <-.
  apply bind_ext; [reflexivity|]. intros b s3 E3. assert (s3 = set_lock 1 s) as -> by (destruct (find_best_free n _); [injection E3 as _ <-; reflexivity|discriminate]).
  destruct (negb (b =? NULL)).
  - apply bind_ext; [reflexivity|]. intros [] s4 E4. injection E4 as <-.
    apply bind_ext; [apply translate_ext, H; discriminate|reflexivity].
  - apply bind_ext; [reflexivity|]. intros r s4 E4.
    assert (Hl : memlock s4 <> 0) by (unfold blockchain_add in E4; destruct (MAX_BLOCKS <? _); injection E4 as _ <-; discriminate).
    destruct (r =? 0); [reflexivity|]. apply bind_ext; [reflexivity|]. intros s5 s6 E5. injection E5 as <- <-.
    apply bind_ext; [|reflexivity]. destruct (_ <=? _); [|reflexivity].
    apply bind_ext; [apply sbrk_ext, H, Hl|reflexivity].
Qed.

(** Any deeper nesting of [printf] in [malloc] is the same. *)
Lemma malloc_levels d n s : malloc_with (printf_nested (S d)) n s = malloc n s.
Proof. apply malloc_with_ext. intros t Ht. rewrite !printf_waits by assumption. reflexivity. Qed.

(** C33: running out of heap deadlocks.  When no block fits and the request
    would push the top past [K_HEAP_MAX], [sbrk] reports the error with
    [printf] while [malloc] holds [memlock]: the [malloc] of that [printf]
    waits for the lock, and the call never returns. *)
Theorem malloc_heap_full_deadlocks s bl n :
  heap_ok s bl -> memlock s = 0 -> 0 < n < 0x10000000 ->
  best_fit n (n * 3) 0 bl None = None -> (length bl <= 1024)%nat ->
  K_LAST_ALLOC s + n < 0x100000000 -> 0 < excess s n ->
  K_HEAP_MAX <= 2 * excess s n + K_HEAP_TOP s < 0x100000000 ->
  malloc n s = Spin.
Proof.
  intros Hok Hlk Hn Hbf Hlen Hw He Hfull. unfold malloc, malloc_with. replace (n =? 0) with false by lia.
  unfold bind at 1. unfold acquire. rewrite Hlk. cbn [Z.eqb]. set (s0 := set_lock 1 s).
  pose proof (ok_table _ _ Hok) as Ht. assert (Ht0 : table_ok s0 bl) by (apply (table_ok_frame s); auto).
  rewrite (of_find_best s0 bl n) by (assumption || lia). rewrite Hbf. cbn [block_ptr Z.eqb negb NULL].
  destruct (blockchain_add_spec s0 bl n Ht0 Hlen) as (s1 & E1 & _ & _ & _ & Etop & Elast & Elock); [unfold bit31; lia|].
  unfold bind at 1. rewrite E1. cbn [Z.eqb]. unfold bind at 1. unfold get. rewrite Etop, Elast.
  change (K_HEAP_TOP s0) with (K_HEAP_TOP s). change (K_LAST_ALLOC s0) with (K_LAST_ALLOC s).
  destruct Hok as [_ Hl [Htop Ha]]. pose proof (sizes_nonneg bl (ok_sizes _ _ Ht)).
  unfold excess, K_HEAP_MAX, K_HEAP_BOTTOM in *. rewrite (u32_small (K_LAST_ALLOC s + n)) by lia.
  replace (K_HEAP_TOP s <=? K_LAST_ALLOC s + n) with true by lia. rewrite u32_small by lia.
  unfold bind, sbrk, gets. replace (2 * (n + K_LAST_ALLOC s - K_HEAP_TOP s) =? 0) with false by lia.
  unfold bind, K_HEAP_MAX. rewrite Etop. change (K_HEAP_TOP s0) with (K_HEAP_TOP s). rewrite u32_small by lia.
  replace (0xFFFFF000 <=? 2 * (n + K_LAST_ALLOC s - K_HEAP_TOP s) + K_HEAP_TOP s) with true by lia. rewrite printf_waits; [reflexivity|]. rewrite Elock. discriminate.
Qed.

(** The end of the heap: one block in use fills it up to 0xFFFFE000. *)
Definition full_heap : heap_state :=
  MkHeap (set_pg_mem (store32 ∅ 0xC0200000 0xBFCFE000) demo_pg) 0xC0200000 1 0xC0200000 0xFFFFE000 0xFFFFE000 0.

Lemma full_heap_ok : heap_ok full_heap [(true, 0x3FCFE000)].
Proof.
  assert (E : forall i, 0 <= i -> ldw (hp_mem full_heap) 0xC0200000 i = if i =? 0 then 0xBFCFE000 else 0).
  { intros i Hi. change (hp_mem full_heap) with (stw ∅ 0xC0200000 0 0xBFCFE000).
    rewrite table_store by (unfold KERNEL_VIRT; lia). destruct (i =? 0); [reflexivity|].
    unfold ldw, load32, load8. rewrite !lookup_empty. reflexivity. }
  split; [split|reflexivity|]; cbn [full_heap BLOCKCHAIN_START BLOCKS_ALLOCATED K_LAST_ALLOC K_HEAP_TOP length];
    unfold KERNEL_VIRT, K_HEAP_BOTTOM, K_HEAP_MAX; try lia.
  - intros [|i] b [= <-]. apply (E 0). lia.
  - repeat constructor; reflexivity.
  - intros i Hi. rewrite E by lia. replace (i =? 0) with false by lia. reflexivity.
  - split; [lia|reflexivity].
Qed.

Lemma malloc_heap_full_deadlocks_witness : malloc 0x900 full_heap = Spin.
Proof.
  apply (malloc_heap_full_deadlocks full_heap [(true, 0x3FCFE000)] 0x900 full_heap_ok);
    try reflexivity; try (simpl; lia); unfold excess, K_HEAP_MAX; cbn; lia.
Defined.

(** [free] of an address past the heap does not fail: [find_block] returns
    NULL and the in-use bit is cleared in the word at address 0, which the
    low window maps. *)
Theorem free_past_heap_writes_page0 s ptr :
  memlock s = 0 -> K_LAST_ALLOC s < ptr < 0x100000000 ->
  free ptr s = Ok ptr (set_hp_mem (stw (hp_mem s) 0 0 (block_size (ldw (hp_mem s) 0 0))) s).
Proof.
  intros Hlk Hp. unfold free, acquire, bind. rewrite Hlk. cbn [Z.eqb]. unfold gets, find_block.
  destruct (Z.ltb_spec (K_LAST_ALLOC (set_lock 1 s)) (u32 ptr)) as [H|H].
  - unfold modify, release, ret, assign, deref. destruct s. cbn in *. subst. reflexivity.
  - exfalso. cbn [K_LAST_ALLOC set_lock] in H. revert H. 
    unfold u32. destruct (Z.lt_ge_cases ptr 0); [|rewrite Z.mod_small by lia; lia].
    pose proof (Z.mod_pos_bound ptr 0x100000000). dlia.
Qed.

Lemma free_past_heap_writes_page0_witness :
  free 0xD0000000 demo_heap1 = Ok 0xD0000000
    (set_hp_mem (stw (hp_mem demo_heap1) 0 0 (block_size (ldw (hp_mem demo_heap1) 0 0))) demo_heap1).
Proof. apply (free_past_heap_writes_page0 demo_heap1 0xD0000000); [reflexivity|simpl; lia]. Defined.

(** ** printf's block *)

(** Bytes of the heap do not matter to the invariant. *)
Lemma heap_ok_bytes s bl m : heap_ok s bl -> (forall a, a < K_HEAP_BOTTOM -> load8 m a = load8 (hp_mem s) a) -> heap_ok (set_hp_mem m s) bl.
Proof.
  intros [Ht Hl Htop] Hm. pose proof (ok_start _ _ Ht) as Hst. split; [|exact Hl|exact Htop].
  apply (table_ok_frame s); try assumption; try reflexivity. intros i Hi. change (hp_mem (set_hp_mem m s)) with m.
  unfold ldw. rewrite table_canon by lia. apply load32_ext. intros o Ho. apply Hm. lia.
Qed.

Lemma block_in_heap s bl i b : heap_ok s bl -> bl !! i = Some b -> K_HEAP_BOTTOM <= block_addr bl i /\ 0 < b.2.
Proof.
  intros [Ht _ _] Hi. pose proof (ok_sizes _ _ Ht) as Hs. pose proof (Forall_lookup_1 _ _ _ _ Hs Hi) as Hsz. cbn beta in Hsz.
  pose proof (sizes_nonneg (take i bl) (Forall_take _ _ _ Hs)). unfold block_addr. lia.
Qed.

(** When a free block fits, [printf] leaves the heap as it was but for the
    bytes of that block. *)
Lemma printf_spec s bl i b supply j :
  PageSupply (BLOCKCHAIN_START s) supply -> heap_ok s bl -> memlock s = 0 ->
  best_fit 256 (256 * 3) 0 bl None = Some i -> bl !! i = Some b -> supply j (hp_pg s) ->
  exists s', printf s = Ok tt s' /\ heap_ok s' bl /\ memlock s' = 0 /\ supply j (hp_pg s') /\
    K_HEAP_TOP s' = K_HEAP_TOP s /\ BLOCKCHAIN_START s' = BLOCKCHAIN_START s /\
    forall a, K_HEAP_BOTTOM <= a -> a < block_addr bl i \/ block_addr bl i + b.2 <= a -> load8 (hp_mem s') a = load8 (hp_mem s) a.
Proof.
  intros HS Hok Hlk Hbf Hi Hj. destruct (best_fit_block _ _ _ Hbf) as (b' & Hi' & Hfree & Hsz & _).
  assert (b' = b) as -> by congruence. pose proof (lookup_lt_Some _ _ _ Hi) as Hlt.
  destruct (block_in_heap s bl i b Hok Hi) as [Hb0 Hb1]. pose proof (ok_table _ _ Hok) as Ht. pose proof (ok_start _ _ Ht) as Hst.
  pose proof (ok_max _ _ Ht) as Hmax.
  set (s1 := set_lock 0 (assign (BLOCKCHAIN_START s + 4 * Z.of_nat i) (word_of (true, b.2)) (set_lock 1 s))).
  pose proof (malloc_reuse s bl 256 i b Hok Hlk ltac:(lia) Hbf Hi) as E1. fold s1 in E1.
  pose proof (assign_ok s bl i b true Hok Hi) as Hok1. fold s1 in Hok1. set (bl1 := <[i := (true, b.2)]> bl) in *.
  assert (Hcan : canon (block_addr bl i) = block_addr bl i).
  { unfold canon, K_HEAP_BOTTOM in *. replace (block_addr bl i <? 0x400000) with false by lia. rewrite andb_false_r. reflexivity. }
  set (m2 := memset (hp_mem s1) (block_addr bl i) 0 256). set (s2 := set_hp_mem m2 s1).
  assert (Hok2 : heap_ok s2 bl1).
  { apply heap_ok_bytes; [exact Hok1|]. intros a Ha. unfold m2. rewrite load8_memset.
    replace (block_addr bl i <=? a) with false by lia. reflexivity. }
  assert (Hi1 : bl1 !! i = Some (true, b.2)) by (apply list_lookup_insert_eq; exact Hlt).
  assert (Ha1 : block_addr bl1 i = block_addr bl i) by (unfold block_addr, bl1; rewrite take_insert_ge by lia; reflexivity).
  pose proof (free_eq s2 bl1 i (true, b.2) 0 Hok2 eq_refl Hi1 ltac:(cbn; lia)) as E3. rewrite Ha1, Z.add_0_r in E3. cbn [snd] in E3.
  set (s3 := set_lock 0 _) in E3. exists s3.
  split; [unfold printf, printf_with; rewrite (bind_Ok _ _ _ _ _ E1), bind_modify, Hcan; fold m2 s2; rewrite (bind_Ok _ _ _ _ _ E3); reflexivity|].
  split.
  { pose proof (assign_ok s2 bl1 i (true, b.2) false Hok2 Hi1) as Hok3. fold s3 in Hok3. cbn [snd] in Hok3.
    unfold bl1 in Hok3. rewrite list_insert_insert_eq in Hok3. destruct b as [u sz]. cbn in Hfree. subst u.
    rewrite list_insert_id in Hok3 by exact Hi. exact Hok3. }
  split; [reflexivity|]. split; [|split; [reflexivity|split; [reflexivity|]]].
  - unfold s3, assign. rewrite stw_shift. apply supply_table; [|lia].
    change (hp_pg (set_lock 1 s2)) with (set_pg_mem m2 (hp_pg s1)). apply supply_bytes.
    + unfold s1, assign. rewrite stw_shift. apply supply_table; [exact Hj|lia].
    + intros a Ha. unfold m2. rewrite load8_memset. replace (block_addr bl i <=? a) with false by lia. reflexivity.
  - intros a Ha Hout. transitivity (load8 (hp_mem s2) a); [apply (assign_heap_bytes (set_lock 1 s2)); cbn; lia|].
    transitivity (load8 (hp_mem s1) a); [change (hp_mem s2) with m2; unfold m2; rewrite load8_memset;
      replace ((block_addr bl i <=? a) && (a <? block_addr bl i + 256)) with false by lia; reflexivity|].
    apply (assign_heap_bytes (set_lock 1 s)); cbn; lia.
Qed.
