(* ===== verification/HeapPages.v ===== *)
(** * The paging layer supplies the heap's pages

    Instance of [PageSupply] for the kernel's memory layout: the two bitmaps of
    the page allocator, then the block table, then the page tables taken from
    the bump allocator; the boot directory and its table lie outside. *)

From stdpp Require Import base numbers list gmap.
From Stdlib Require Import ZArith Lia.
From S2P Require Import Prelude Memory CString Mm Paging Malloc.
Open Scope Z_scope.

(** A page that does not meet the bitmaps or the block table. *)
Definition outside_zone (lo hi p : Z) : Prop := p + 0x1000 <= lo \/ hi <= p.

(** [k] pages are free in the current region, and the bump allocator has room
    for [h] more tables. *)
Record supply_inv (tbl : Z) (k h : nat) (s : pg_state) (P : pool) : Prop := {
  si_pool : pool_rel (pg_mm s) P;
  si_region : region P < 1024;
  si_used : forall i, i ∈ used P -> 0 <= i < 1024;
  si_free : (size (used P) + k <= 1024)%nat;
  si_wf : pd_wf (pg_mem s) (CURRENT_PAGE_DIRECTORY s);
  si_heap : KERNEL_VIRT + 0x1000 <= MM_CURRENT_PD (pg_mm s) /\ MM_CURRENT_PT (pg_mm s) + 128 <= tbl /\
            tbl + 0x4000 <= MM_HEAP (pg_mm s) /\
            MM_HEAP (pg_mm s) + 0x4000 * Z.of_nat h + 0x4000 < MM_HEAP_MAX;
  si_dir : CURRENT_PAGE_DIRECTORY s < MM_HEAP (pg_mm s) /\
           outside_zone (MM_CURRENT_PD (pg_mm s)) (tbl + 0x4000) (CURRENT_PAGE_DIRECTORY s);
  si_tables : forall i, 0 <= i < 1024 -> ldw (pg_mem s) (CURRENT_PAGE_DIRECTORY s) i <> 0 ->
    P2V (page_base (ldw (pg_mem s) (CURRENT_PAGE_DIRECTORY s) i)) < MM_HEAP (pg_mm s) /\
    outside_zone (MM_CURRENT_PD (pg_mm s)) (tbl + 0x4000)
      (P2V (page_base (ldw (pg_mem s) (CURRENT_PAGE_DIRECTORY s) i)));
}.
Definition kernel_supply (tbl : Z) (k : nat) (s : pg_state) : Prop := exists P, supply_inv tbl k k s P.

(** ** Frames *)

Lemma pool_rel_frame x x' P :
  pool_rel x P -> MM_CURRENT_PD x' = MM_CURRENT_PD x -> MM_CURRENT_PT x' = MM_CURRENT_PT x ->
  (forall a, MM_CURRENT_PD x <= a < MM_CURRENT_PT x + 128 -> load8 (mm_mem x') a = load8 (mm_mem x) a) ->
  MM_HEAP x <= MM_HEAP x' -> mm_heap_ok x' ->
  pool_rel x' (MkPool (region P) (used P) (MM_HEAP x')).
Proof.
  intros [Hr Hpd Hpt Hl Hh Hok] Ed Et Hm Hge Hok'.
  assert (Hbit : forall b i, MM_CURRENT_PD x <= b -> b + 128 <= MM_CURRENT_PT x + 128 -> 0 <= i < 1024 ->
    bit_used (mm_mem x') b i = bit_used (mm_mem x) b i).
  { intros b i H1 H2 Hi. unfold bit_used. f_equal. apply load32_ext. intros o Ho. apply Hm. dlia. }
  split; cbn [region used heap]; rewrite ?Ed, ?Et; try assumption; try lia.
  - intros i Hi. rewrite Hbit by lia. auto.
  - intros i Hi. rewrite Hbit by lia. auto.
Qed.

Lemma rel_heap_pool x P : pool_rel x P -> P = MkPool (region P) (used P) (MM_HEAP x).
Proof. intros H. rewrite (rel_heap _ _ H). destruct P. reflexivity. Qed.

Lemma pd_wf_frame m m' pd : (forall i, 0 <= i < 1024 -> ldw m' pd i = ldw m pd i) -> pd_wf m pd -> pd_wf m' pd.
Proof.
  intros H [Hd Hs Hp]. split; [assumption| |].
  - intros i Hi. rewrite H by assumption. auto.
  - intros i Hi. rewrite H by assumption. auto.
Qed.

Lemma ldw_frame m m' p i :
  in_window p -> 0 <= i < 1024 -> (forall a, p <= a < p + 0x1000 -> load8 m' a = load8 m a) ->
  ldw m' p i = ldw m p i.
Proof.
  intros Hp Hi H. unfold ldw. rewrite word_window by assumption. apply load32_ext. intros o Ho. apply H. lia.
Qed.

Lemma stw_other m p i v a :
  in_window p -> 0 <= i < 1024 -> a < p \/ p + 0x1000 <= a -> load8 (stw m p i v) a = load8 m a.
Proof.
  intros Hp Hi Ha. unfold stw. rewrite word_window by assumption. apply load8_store32_ne. lia.
Qed.

Lemma supply_weaken tbl k h s P : supply_inv tbl (S k) (S h) s P -> supply_inv tbl k h s P.
Proof. intros [H1 H2 H3 H4 H5 H6 H7 H8]. split; try assumption; lia. Qed.

(** A pool with fewer than 1024 pages in use has a free page. *)
Lemma pool_has_page P :
  (forall i, i ∈ used P -> 0 <= i < 1024) -> (size (used P) < 1024)%nat ->
  exists p, pool_free_page P = Some p /\ 0 <= p < 1024 /\ p ∉ used P.
Proof.
  intros Hu Hsz. destruct (pool_free_page P) as [p|] eqn:E.
  - exists p. split; [reflexivity|]. apply find_up_Some in E as (Hp & Hn & _). split; [lia|].
    apply negb_true_iff, bool_decide_eq_false in Hn. assumption.
  - exfalso. pose proof (proj1 (find_up_None _ _ _) E) as Hall.
    assert (Hsub : (list_to_set (seqZ 0 1024) : gset Z) ⊆ used P).
    { intros i Hi. apply elem_of_list_to_set, elem_of_seqZ in Hi.
      specialize (Hall i ltac:(lia)). apply negb_false_iff, bool_decide_eq_true in Hall. assumption. }
    apply subseteq_size in Hsub. rewrite size_list_to_set in Hsub by apply NoDup_seqZ.
    rewrite length_seqZ in Hsub. lia.
Qed.

(** A page allocation in the current region. *)
Lemma k_page_alloc_page x P p :
  pool_rel x P -> region P < 1024 -> pool_free_page P = Some p -> 0 <= p < 1024 ->
  k_page_alloc x = Ok (Some (page_addr (region P) p)) (set_mem (mm_bitmap_set_bit (mm_mem x) (MM_CURRENT_PT x) p) x) /\
  pool_rel (set_mem (mm_bitmap_set_bit (mm_mem x) (MM_CURRENT_PT x) p) x)
           (MkPool (region P) ({[p]} ∪ used P) (heap P)).
Proof.
  intros HR Hd Hp Hr. pose proof (rel_free_page x P HR) as Hf. rewrite Hp in Hf. split.
  - unfold k_page_alloc, mm_page_alloc. apply mm_page_alloc_rec_free; [|assumption].
    apply rel_first_region; assumption.
  - apply rel_mark; assumption.
Qed.

(** ** Taking a page *)

Lemma supply_page tbl k h s P :
  supply_inv tbl (S k) h s P ->
  exists p, k_page_alloc (pg_mm s) = Ok (Some (page_addr (region P) p))
              (set_mem (mm_bitmap_set_bit (pg_mem s) (MM_CURRENT_PT (pg_mm s)) p) (pg_mm s)) /\
    0 <= region P < 1024 /\ 0 <= p < 1024 /\
    supply_inv tbl k h (set_pg_mem (mm_bitmap_set_bit (pg_mem s) (MM_CURRENT_PT (pg_mm s)) p) s)
      (MkPool (region P) ({[p]} ∪ used P) (heap P)).
Proof.
  intros [H1 H2 H3 H4 H5 H6 H7 H8]. destruct (pool_has_page P H3 ltac:(lia)) as (p & Hp & Hpr & Hpu).
  destruct (k_page_alloc_page _ P p H1 H2 Hp Hpr) as [Ea HR]. exists p.
  pose proof (rel_region _ _ H1). pose proof (rel_lay _ _ H1) as Hlay.
  split; [exact Ea|]. split; [lia|]. split; [lia|].
  set (m1 := mm_bitmap_set_bit _ _ _).
  assert (Hm : forall a, a < MM_CURRENT_PT (pg_mm s) \/ MM_CURRENT_PT (pg_mm s) + 128 <= a ->
    load8 m1 a = load8 (pg_mem s) a) by (intros a Ha; apply set_bit_same_outside; lia).
  assert (Hslot : forall i, 0 <= i < 1024 ->
    ldw m1 (CURRENT_PAGE_DIRECTORY s) i = ldw (pg_mem s) (CURRENT_PAGE_DIRECTORY s) i).
  { intros i Hi. apply ldw_frame; [apply H5|assumption|]. intros a Ha. apply Hm. unfold outside_zone in H7. lia. }
  split; cbn [region used heap]; try assumption.
  - intros i Hi. apply elem_of_union in Hi as [Hi|Hi]; [apply elem_of_singleton in Hi; lia|auto].
  - rewrite size_union, size_singleton; [lia|]. apply disjoint_singleton_l. assumption.
  - apply (pd_wf_frame (pg_mem s)); assumption.
  - intros i Hi. change (pg_mem (set_pg_mem m1 s)) with m1.
    change (CURRENT_PAGE_DIRECTORY (set_pg_mem m1 s)) with (CURRENT_PAGE_DIRECTORY s).
    rewrite Hslot by assumption. apply H8. assumption.
Qed.

(** ** Mapping it *)

Lemma supply_room tbl k h s P : supply_inv tbl k h s P -> table_room s (CURRENT_PAGE_DIRECTORY s).
Proof.
  intros [H1 H2 H3 H4 H5 H6 H7 H8]. pose proof (rel_lay _ _ H1).
  split; [apply H1|lia|lia|]. intros i Hi Hnz. apply H8; assumption.
Qed.

(** The state after [_paging_map]: the new table, if one was needed, came from
    the heap. *)
Lemma paging_map_mm s pd phys virt flags :
  pd_wf (pg_mem s) pd -> table_room s pd -> 0 <= virt < 0x100000000 ->
  let s' := _paging_map pd phys virt flags s in
  let x := if ldw (pg_mem s) pd (virt / 0x400000) =? 0
           then set_heap (MM_HEAP (pg_mm s) + 0x4000) (pg_mm s) else pg_mm s in
  pg_mm s' = set_mem (pg_mem s') x /\ CURRENT_PAGE_DIRECTORY s' = CURRENT_PAGE_DIRECTORY s.
Proof.
  intros Hwf Hr Hv. unfold _paging_map. rewrite pd_index_eq, slot_empty by (try apply pd_index_range; assumption).
  destruct (ldw (pg_mem s) pd (virt / 0x400000) =? 0); cbn [negb].
  - rewrite (mm_alloc_table s pd Hr). split; reflexivity.
  - split; [|reflexivity]. destruct s as [[] ? ? ?]. reflexivity.
Qed.

Section map_one.
Context (tbl : Z) (k h : nat) (s : pg_state) (P : pool) (phys va : Z).
Hypothesis Hinv : supply_inv tbl k (S h) s P.
Hypothesis Hphys : 0 <= phys < 0x100000000 /\ phys mod 0x1000 = 0.
Hypothesis Hva : 0 <= va < 0x100000000.

Let pd := CURRENT_PAGE_DIRECTORY s.
Let s' := k_paging_map phys va 0x3 s.
Let pt := map_table s pd va.

Lemma pt_outside :
  in_window pt /\ pt < MM_HEAP (pg_mm s) + 0x1000 /\ outside_zone (MM_CURRENT_PD (pg_mm s)) (tbl + 0x4000) pt.
Proof.
  pose proof (supply_room _ _ _ _ _ Hinv) as Hr. destruct Hinv as [H1 H2 H3 H4 H5 H6 H7 H8].
  destruct (map_table_ok s pd va H5 Hr Hva) as [Hw _]. split; [exact Hw|].
  unfold pt, map_table. fold pd in H8 |- *.
  destruct (Z.eqb_spec (ldw (pg_mem s) pd (va / 0x400000)) 0) as [_|Hnz]; [unfold outside_zone; lia|].
  destruct (H8 _ (pd_index_range va Hva) Hnz). split; [lia|assumption].
Qed.

(** The bytes of the bitmaps, the block table and the heap are untouched. *)
Lemma map_one_bytes a :
  MM_CURRENT_PD (pg_mm s) <= a < tbl + 0x4000 \/ K_HEAP_BOTTOM <= a ->
  load8 (pg_mem s') a = load8 (pg_mem s) a.
Proof.
  intros Ha. pose proof (supply_room _ _ _ _ _ Hinv) as Hr. destruct pt_outside as (Hw & Hlt & Hout).
  pose proof Hinv as [H1 H2 H3 H4 H5 H6 H7 H8]. unfold s', k_paging_map. fold pd in H5, H7, Hr |- *.
  rewrite paging_map_mem by (assumption || lia). fold pt.
  assert (Hal : MM_HEAP (pg_mm s) mod 0x1000 = 0) by apply (room_ok _ _ Hr).
  pose proof (proj2 Hw) as Hpa. pose proof (proj2 (wf_dir _ _ H5)) as Hda.
  unfold outside_zone, MM_HEAP_MAX, K_HEAP_BOTTOM in *.
  rewrite stw_other; [|apply H5|apply pd_index_range; assumption|dlia].
  apply stw_other; [assumption|apply pt_index_range|dlia].
Qed.

Lemma map_one_supply : exists P', supply_inv tbl k h s' P'.
Proof.
  pose proof (supply_room _ _ _ _ _ Hinv) as Hr. destruct pt_outside as (Hw & Hlt & Hout).
  pose proof Hinv as [H1 H2 H3 H4 H5 H6 H7 H8].
  assert (Emm : pg_mm s' = set_mem (pg_mem s') (if ldw (pg_mem s) pd (va / 0x400000) =? 0
    then set_heap (MM_HEAP (pg_mm s) + 0x4000) (pg_mm s) else pg_mm s)) by (apply paging_map_mm; assumption).
  assert (Epd : CURRENT_PAGE_DIRECTORY s' = pd) by (apply (paging_map_mm s pd phys va 0x3); assumption).
  assert (Hh : MM_CURRENT_PD (pg_mm s') = MM_CURRENT_PD (pg_mm s) /\ MM_CURRENT_PT (pg_mm s') = MM_CURRENT_PT (pg_mm s) /\
    MM_HEAP (pg_mm s) <= MM_HEAP (pg_mm s') <= MM_HEAP (pg_mm s) + 0x4000 /\ MM_HEAP (pg_mm s') mod 0x1000 = 0 /\
    (pt < MM_HEAP (pg_mm s'))).
  { pose proof (proj2 (room_ok _ _ Hr)) as Hal. rewrite Emm.
    unfold pt, map_table in *. fold pd in Hlt |- *.
    destruct (ldw (pg_mem s) pd (va / 0x400000) =? 0) eqn:E0; cbn; (do 2 (split; [reflexivity|])); [dlia|].
    split; [lia|]. split; [assumption|]. apply Z.eqb_neq in E0.
    apply (H8 _ (pd_index_range va Hva) E0). }
  destruct Hh as (Ed & Et & Hhp & Hal & Hpt).
  exists (MkPool (region P) (used P) (MM_HEAP (pg_mm s'))).
  pose proof (rel_lay _ _ H1) as Hlay.
  assert (Hwf' : pd_wf (pg_mem s') pd) by (apply paging_map_wf; (assumption || lia)).
  split; rewrite ?Epd, ?Ed, ?Et; cbn [region used heap]; try assumption; try lia.
  - apply (pool_rel_frame (pg_mm s)); try assumption; try lia.
    + intros a Ha. change (mm_mem (pg_mm s')) with (pg_mem s'). apply map_one_bytes. lia.
    + destruct (room_ok _ _ Hr). split; [unfold MM_HEAP_MAX in *; lia|assumption].
  - split; [|apply H7]. fold pd. lia.
  - intros i Hi. unfold s', k_paging_map. fold pd. rewrite map_slot by (assumption || lia). fold pt.
    destruct (Z.eqb_spec i (va / 0x400000)) as [->|Hne].
    + intros _. destruct (map_base s pd phys va 0x3 H5 Hr Hva ltac:(lia)) as [Hb1 Hb2]. fold pt in Hb1, Hb2.
      rewrite Hb1, Hb2. split; [exact Hpt|exact Hout].
    + intros Hnz. destruct (H8 i Hi Hnz) as [Hb Hz]. split; [|exact Hz]. fold s' pd in Hb |- *. 
      change (MM_HEAP (pg_mm (_paging_map pd phys va 0x3 s))) with (MM_HEAP (pg_mm s')). lia.
Qed.
End map_one.

Lemma set_bit_bytes m b p a :
  0 <= p < 1024 -> a < b \/ b + 128 <= a -> load8 (mm_bitmap_set_bit m b p) a = load8 m a.
Proof. intros Hp Ha. apply set_bit_same_outside; assumption. Qed.

(** Only the bitmaps and the directory matter. *)
Lemma supply_inv_frame_at tbl k h s P m1 : supply_inv tbl k h s P ->
  (forall a, MM_CURRENT_PD (pg_mm s) <= a < MM_CURRENT_PT (pg_mm s) + 128 -> load8 m1 a = load8 (pg_mem s) a) ->
  (forall a, CURRENT_PAGE_DIRECTORY s <= a < CURRENT_PAGE_DIRECTORY s + 0x1000 -> load8 m1 a = load8 (pg_mem s) a) ->
  supply_inv tbl k h (set_pg_mem m1 s) P.
Proof.
  intros [H1 H2 H3 H4 H5 H6 H7 H8] Hb Hd.
  assert (Hslot : forall i, 0 <= i < 1024 ->
    ldw m1 (CURRENT_PAGE_DIRECTORY s) i = ldw (pg_mem s) (CURRENT_PAGE_DIRECTORY s) i)
    by (intros q Hq; apply ldw_frame; [apply H5|assumption|exact Hd]).
  split; try assumption.
  - assert (HR : pool_rel (set_mem m1 (pg_mm s)) (MkPool (region P) (used P) (MM_HEAP (pg_mm s)))).
    { apply (pool_rel_frame (pg_mm s) (set_mem m1 (pg_mm s)) P); try reflexivity; try assumption. apply H1. }
    rewrite <- (rel_heap_pool _ _ H1) in HR. exact HR.
  - apply (pd_wf_frame (pg_mem s)); assumption.
  - intros q Hq. change (pg_mem (set_pg_mem m1 s)) with m1.
    change (CURRENT_PAGE_DIRECTORY (set_pg_mem m1 s)) with (CURRENT_PAGE_DIRECTORY s).
    rewrite Hslot by assumption. apply H8. assumption.
Qed.

Lemma supply_frame_at tbl k s m1 : kernel_supply tbl k s ->
  (forall a, MM_CURRENT_PD (pg_mm s) <= a < MM_CURRENT_PT (pg_mm s) + 128 -> load8 m1 a = load8 (pg_mem s) a) ->
  (forall a, CURRENT_PAGE_DIRECTORY s <= a < CURRENT_PAGE_DIRECTORY s + 0x1000 -> load8 m1 a = load8 (pg_mem s) a) ->
  kernel_supply tbl k (set_pg_mem m1 s).
Proof. intros [P H] Hb Hd. exists P. apply supply_inv_frame_at; assumption. Qed.

(** The bytes of the block table and of the heap. *)
Definition differs_in_heap (tbl : Z) (m m' : mem) : Prop :=
  forall a, a < K_HEAP_BOTTOM -> a < tbl \/ tbl + 0x4000 <= a -> load8 m' a = load8 m a.

Lemma supply_inv_frame tbl k h s P m1 : supply_inv tbl k h s P -> differs_in_heap tbl (pg_mem s) m1 ->
  supply_inv tbl k h (set_pg_mem m1 s) P.
Proof.
  intros Hs Hm. pose proof Hs as [H1 _ _ _ H5 H6 H7 _]. pose proof (rel_lay _ _ H1) as Hlay.
  unfold differs_in_heap, K_HEAP_BOTTOM, MM_HEAP_MAX, outside_zone in *. destruct (wf_dir _ _ H5) as [Hw _].
  apply supply_inv_frame_at; [exact Hs| |]; intros a Ha; apply Hm; lia.
Qed.

(** Nor does the kernel's own look-up read them. *)
Lemma virt_to_phys_frame tbl k h s P m1 va : supply_inv tbl k h s P -> differs_in_heap tbl (pg_mem s) m1 -> 0 <= va < 0x100000000 ->
  k_virt_to_phys va (set_pg_mem m1 s) = k_virt_to_phys va s.
Proof.
  intros Hs Hm Hva. pose proof Hs as [H1 _ _ _ H5 H6 H7 H8]. pose proof (rel_lay _ _ H1) as Hlay. pose proof (wf_dir _ _ H5) as Hw.
  unfold differs_in_heap, outside_zone, K_HEAP_BOTTOM, MM_HEAP_MAX in *. pose proof (pd_index_range va Hva) as Hi.
  unfold k_virt_to_phys, _virt_to_phys. rewrite !guard_dead, pd_index_eq, pt_index_eq.
  change (pg_mem (set_pg_mem m1 s)) with m1. change (CURRENT_PAGE_DIRECTORY (set_pg_mem m1 s)) with (CURRENT_PAGE_DIRECTORY s).
  rewrite (ldw_frame (pg_mem s) m1 (CURRENT_PAGE_DIRECTORY s)) by (try assumption; intros a Ha; apply Hm; unfold in_window, KERNEL_VIRT in *; lia).
  set (e := ldw (pg_mem s) _ _). destruct (Z.eq_dec e 0) as [E0|Hne].
  - rewrite E0. change (P2V (frame_of 0)) with KERNEL_VIRT.
    apply ldw_frame; [split; [unfold KERNEL_VIRT; lia|reflexivity]|apply pt_index_range|]. intros a Ha. apply Hm; unfold KERNEL_VIRT in *; lia.
  - destruct (slot_frame _ _ _ H5 Hi Hne) as (Ef & _ & Hpw). destruct (H8 _ Hi Hne) as [Ht1 Ht2]. fold e in Ef, Hpw, Ht1, Ht2.
    rewrite Ef. apply ldw_frame; [exact Hpw|apply pt_index_range|]. intros a Ha. apply Hm; lia.
Qed.

(** Bytes of the block table and of the heap do not matter. *)
Lemma supply_frame tbl k s m1 : kernel_supply tbl k s -> differs_in_heap tbl (pg_mem s) m1 -> kernel_supply tbl k (set_pg_mem m1 s).
Proof. intros [P H] Hm. exists P. apply supply_inv_frame; assumption. Qed.

(** The paging layer keeps its promise to the heap. *)
#[export] Instance kernel_page_supply tbl : PageSupply tbl (kernel_supply tbl).
Proof.
  split.
  - intros k va s [P Hinv] Hva Hal. unfold map_page.
    destruct (Z.eqb_spec (k_virt_to_phys va s) 0) as [_|_].
    2:{ exists s. split; [reflexivity|]. split; [|auto]. exists P. apply supply_weaken. assumption. }
    pose proof Hinv as [H1 _ _ _ _ H6 _ _]. pose proof (rel_lay _ _ H1) as Hlay.
    destruct (supply_page tbl k (S k) s P Hinv) as (p & Ea & Hd & Hp & Hinv1). rewrite Ea.
    set (s1 := set_pg_mem _ s) in *. unfold bind, use, ret, modify. change (set_mm _ s) with s1.
    assert (Hphys : 0 <= page_addr (region P) p < 0x100000000 /\ page_addr (region P) p mod 0x1000 = 0)
      by (unfold page_addr; split; [lia|dlia]).
    unfold K_HEAP_BOTTOM, K_HEAP_MAX in Hva. eexists. split; [reflexivity|]. split.
    + destruct (map_one_supply tbl k k s1 _ (page_addr (region P) p) va Hinv1 Hphys ltac:(lia)) as [P' HP']. exists P'. exact HP'.
    + intros a Ha. rewrite (map_one_bytes tbl k k s1 _ (page_addr (region P) p) va Hinv1 Hphys ltac:(lia)).
      * apply set_bit_bytes; [assumption|]. unfold K_HEAP_BOTTOM, MM_HEAP_MAX in *. lia.
      * cbn. unfold K_HEAP_BOTTOM in *. lia.
  - intros k s i v Hs Hi. apply (supply_frame tbl k s _ Hs). intros a Ha Hz.
    destruct Hs as [P [H1 _ _ _ _ H6 _ _]]. pose proof (rel_lay _ _ H1) as Hlay.
    unfold stw. rewrite table_canon by (unfold KERNEL_VIRT in *; lia). apply load8_store32_ne. lia.
  - intros k s m Hs Hm. apply (supply_frame tbl k s _ Hs). intros a Ha _. apply Hm. exact Ha.
Qed.

(** Mapping a page that has no table entry takes one that was not in use. *)
Lemma map_page_fresh tbl k s P va :
  supply_inv tbl (S k) (S k) s P -> K_HEAP_BOTTOM <= va < K_HEAP_MAX -> va mod 0x1000 = 0 -> k_virt_to_phys va s = 0 ->
  exists p s', map_page va s = Ok tt s' /\ p ∉ used P /\ 0 <= p < 1024 /\ CURRENT_PAGE_DIRECTORY s' = CURRENT_PAGE_DIRECTORY s /\
    (forall off, 0 <= off < 0x1000 -> mmu (pg_mem s') (CURRENT_PAGE_DIRECTORY s) (va + off) = Some (page_addr (region P) p + off)) /\
    (forall a, tbl <= a < tbl + 0x4000 \/ K_HEAP_BOTTOM <= a -> load8 (pg_mem s') a = load8 (pg_mem s) a) /\
    kernel_supply tbl k s'.
Proof.
  intros Hinv Hva Hal E0. unfold map_page. rewrite E0. cbn [Z.eqb].
  pose proof Hinv as [H1 H2 H3 H4 _ H6 _ _]. pose proof (rel_lay _ _ H1) as Hlay.
  destruct (pool_has_page P H3 ltac:(lia)) as (p0 & Hp0 & Hr0 & Hu0).
  destruct (supply_page tbl k (S k) s P Hinv) as (p & Ea & Hd & Hp & Hinv1).
  assert (p = p0).
  { destruct (k_page_alloc_page _ P p0 H1 H2 Hp0 Hr0) as [Ea' _]. rewrite Ea in Ea'.
    injection Ea' as Ep _. unfold page_addr in Ep. lia. }
  subst p0. rewrite Ea. set (s1 := set_pg_mem _ s) in *. unfold bind, use, ret, modify. change (set_mm _ s) with s1.
  assert (Hphys : 0 <= page_addr (region P) p < 0x100000000 /\ page_addr (region P) p mod 0x1000 = 0)
    by (unfold page_addr; split; [lia|dlia]).
  unfold K_HEAP_BOTTOM, K_HEAP_MAX in Hva.
  exists p. eexists. split; [reflexivity|]. split; [assumption|]. split; [assumption|]. split; [|split; [|split]].
  - apply (paging_map_mm s1 (CURRENT_PAGE_DIRECTORY s1)); [apply Hinv1|eapply supply_room; eassumption|lia].
  - intros off Hoff. unfold k_paging_map. change (CURRENT_PAGE_DIRECTORY s) with (CURRENT_PAGE_DIRECTORY s1).
    rewrite map_walk_same; [f_equal; dlia|apply Hinv1|eapply supply_room; eassumption|lia|assumption|lia|reflexivity|dlia|dlia].
  - intros a Ha. rewrite (map_one_bytes tbl k k s1 _ (page_addr (region P) p) va Hinv1 Hphys ltac:(lia)).
    + apply set_bit_bytes; [assumption|]. unfold K_HEAP_BOTTOM, MM_HEAP_MAX in *. lia.
    + cbn. unfold K_HEAP_BOTTOM in *. lia.
  - destruct (map_one_supply tbl k k s1 _ (page_addr (region P) p) va Hinv1 Hphys ltac:(lia)) as [P' HP'].
    exists P'. exact HP'.
Qed.


(** ** A concrete layout *)

Definition boot_mem : mem :=
  stw (mm_bitmap_set_bit (memset (memset ∅ 0xC0120000 0 128) 0xC0124000 0 128) 0xC0120000 0)
      0xC0110000 768 0x111003.
Definition boot_state : pg_state :=
  MkPg (MkMm boot_mem 0xC0120000 0xC0124000 0xC012C000) 0xC0110000 0xC0110000 0x110000.

Lemma boot_state_slot i : 0 <= i < 1024 -> ldw boot_mem 0xC0110000 i = if i =? 768 then 0x111003 else 0.
Proof.
  intros Hi. unfold boot_mem.
  rewrite ldw_stw by (unfold in_window, KERNEL_VIRT; (split; [lia|reflexivity]) || lia).
  rewrite Z.eqb_refl. cbn [andb]. destruct (i =? 768); [reflexivity|].
  rewrite (ldw_frame ∅); [|split; [unfold KERNEL_VIRT; lia|reflexivity]|assumption|].
  - unfold ldw, load32, load8. rewrite !lookup_empty. reflexivity.
  - intros a Ha. rewrite set_bit_bytes by lia. rewrite !load8_memset.
    bsimp; reflexivity.
Qed.

Lemma boot_supply : supply_inv 0xC0128000 100 100 boot_state (MkPool 1 ∅ 0xC012C000).
Proof.
  pose proof (fresh_bitmaps_rel ∅ 0xC0120000 ltac:(lia) eq_refl) as HR0.
  assert (Hw : in_window 0xC0110000) by (split; [unfold KERNEL_VIRT; lia|reflexivity]).
  assert (Hslot : forall i, 0 <= i < 1024 -> ldw (pg_mem boot_state) 0xC0110000 i = if i =? 768 then 0x111003 else 0)
    by exact boot_state_slot.
  split; cbn [pg_mm boot_state MM_CURRENT_PD MM_CURRENT_PT MM_HEAP CURRENT_PAGE_DIRECTORY region used].
  - apply (pool_rel_frame _ (pg_mm boot_state) _ HR0); try reflexivity; cbn; try lia.
    + intros a Ha. apply stw_other; [assumption|lia|lia].
    + split; [unfold MM_HEAP_MAX; simpl; lia|reflexivity].
  - lia.
  - set_solver.
  - rewrite size_empty. lia.
  - split; [assumption| |]; intros i Hi; rewrite Hslot by assumption; destruct (i =? 768); try congruence; try discriminate.
    intros _. split; [reflexivity|lia].
  - unfold KERNEL_VIRT, MM_HEAP_MAX. lia.
  - unfold outside_zone. lia.
  - intros i Hi. rewrite Hslot by assumption. destruct (i =? 768); [|congruence]. intros _.
    unfold outside_zone. split; [reflexivity|]. left. vm_compute. discriminate.
Qed.


(** The heap before its first page is mapped. *)
Definition boot_heap : heap_state := MkHeap boot_state 0xC0128000 0 0xC0128000 0xC0300000 0xC0300000 0.

Lemma boot_heap_ok : heap_ok boot_heap [].
Proof.
  split; [split|reflexivity|]; cbn [boot_heap BLOCKCHAIN_START BLOCKS_ALLOCATED K_LAST_ALLOC K_HEAP_TOP length];
    unfold KERNEL_VIRT, K_HEAP_BOTTOM, K_HEAP_MAX; try lia.
  - intros i b H. rewrite lookup_nil in H. discriminate.
  - constructor.
  - intros i Hi. change (hp_mem boot_heap) with boot_mem. unfold ldw. rewrite table_canon by (unfold KERNEL_VIRT; lia).
    transitivity (load32 ∅ (0xC0128000 + 4 * i)); [|unfold load32, load8; rewrite !lookup_empty; reflexivity].
    apply load32_ext. intros o Ho. unfold boot_mem.
    rewrite stw_other by ((split; [unfold KERNEL_VIRT; lia|reflexivity]) || lia).
    rewrite set_bit_bytes, !load8_memset by lia. bsimp; reflexivity.
  - split; [lia|reflexivity].
Qed.

(** [malloc_contract] at work with the kernel's pages: a request of 0x1800
    bytes maps three pages. *)
Lemma malloc_contract_witness :
  exists s' sz, malloc 0x1800 boot_heap = Ok 0xC0300000 s' /\ heap_ok s' [(true, 0x1800)] /\ memlock s' = 0 /\
    kernel_supply 0xC0128000 50 (hp_pg s') /\ Some (true, 0x1800) = Some (true, sz) /\ 0x1800 <= sz /\
    K_HEAP_BOTTOM <= 0xC0300000 /\ 0xC0300000 + sz <= K_HEAP_TOP s' /\ heap_bytes_same boot_heap s' /\
    forall k c, @nil block !! k = Some (true, c) -> [(true, 0x1800)] !! k = Some (true, c) /\
      ranges_disjoint 0xC0300000 sz (block_addr [(true, 0x1800)] k) c.
Proof.
  assert (Hs : forall k, (k <= 100)%nat -> kernel_supply 0xC0128000 k boot_state).
  { intros k Hk. exists (MkPool 1 ∅ 0xC012C000). destruct boot_supply as [H1 H2 H3 H4 H5 H6 H7 H8].
    split; try assumption; simpl in *; lia. }
  apply (malloc_contract boot_heap [] 0x1800 (kernel_supply 0xC0128000) 50 (kernel_page_supply _) boot_heap_ok);
    [reflexivity|lia|apply Hs; vm_compute; lia|apply Hs; lia|intros _; vm_compute; reflexivity].
Defined.
