(* ===== verification/Ext2.v ===== *)
(** * kernel/fs/ext2.c and ext2_debug.c: the ext2 file system

    The file system reads and writes blocks through the buffer cache:
    [buffer_read(dev, n)->data] is an address that depends only on the device
    and the block, and data areas of different blocks do not overlap
    (class [BlockCache]; the cache keeps one buffer per block).  Blocks are
    changed in place in the cache; [buffer_write] records the block for writing
    back.  That a read waits for the disk, and that a buffer is given to another
    block when the cache is full, are left to Ide: here every block has its
    place and its bytes are there.  Structures are at the byte offsets the C compiler gives their
    fields.  [assert] and [printf] only print. *)

From stdpp Require Import base numbers list gmap.
From Stdlib Require Import ZArith Lia.
From S2P Require Import Prelude Memory CString Mm.
Open Scope Z_scope.

Definition BLOCK_SIZE : Z := 1024.
Definition SECTOR_SIZE : Z := 512.
Definition EXT2_SUPER : Z := 1.
Definition EXT2_MAGIC : Z := 0xEF53.
Definition INODE_SIZE : Z := 128.
Definition SUPERBLOCK_SIZE : Z := 84.
Definition BGD_SIZE : Z := 32.

Class BlockCache := {
  blk : Z -> Z -> Z;
  blk_pos : forall dev n, 0 < blk dev n;
  blk_disjoint : forall dev n k, n <> k ->
    blk dev n + BLOCK_SIZE <= blk dev k \/ blk dev k + BLOCK_SIZE <= blk dev n;
}.

(** Memory, and the blocks handed to [buffer_write], latest first. *)
Record fs_state := MkFs { fs_mem : mem; written : list (Z * Z) }.
Definition set_fs_mem (m : mem) (s : fs_state) : fs_state := MkFs m (written s).
Definition buffer_write (dev n : Z) (s : fs_state) : fs_state := MkFs (fs_mem s) ((dev, n) :: written s).

(** ** Structure fields *)
Definition sb_inodes_per_group (m : mem) (s : Z) : Z := load32 m (s + 40).
Definition sb_magic (m : mem) (s : Z) : Z := load16 m (s + 56).
Definition bg_block_bitmap (m : mem) (bg : Z) : Z := load32 m bg.
Definition bg_inode_bitmap (m : mem) (bg : Z) : Z := load32 m (bg + 4).
Definition bg_inode_table (m : mem) (bg : Z) : Z := load32 m (bg + 8).
Definition i_blocks (m : mem) (i : Z) : Z := load32 m (i + 28).
Definition i_block (m : mem) (i k : Z) : Z := load32 m (i + 40 + 4 * k).
Definition d_inode (m : mem) (d : Z) : Z := load32 m d.
Definition d_rec_len (m : mem) (d : Z) : Z := load16 m (d + 4).
Definition d_name_len (m : mem) (d : Z) : Z := load8 m (d + 6).
Definition d_name (d : Z) : Z := d + 8.

Section ext2.
Context `{BC : BlockCache}.

Definition ext2_superblock (m : mem) (dev : Z) : Z :=
  if dev =? 0 then NULL
  else
    let sb := blk dev EXT2_SUPER in
    if negb (sb_magic m sb =? EXT2_MAGIC) then NULL else sb.

Definition ext2_superblock_rw (dev s : Z) (st : fs_state) : Z * fs_state :=
  if dev =? 0 then (NULL, st)
  else
    let data := blk dev EXT2_SUPER in
    let '(s, st1) :=
      if negb (sb_magic (fs_mem st) s =? EXT2_MAGIC) then (data, st)
      else (s, buffer_write dev EXT2_SUPER (set_fs_mem (memcpy (fs_mem st) data s SUPERBLOCK_SIZE) st)) in
    if negb (sb_magic (fs_mem st1) s =? EXT2_MAGIC) then (NULL, st1) else (s, st1).

Definition ext2_blockdesc (dev : Z) : Z := if dev =? 0 then NULL else blk dev (EXT2_SUPER + 1).

Definition ext2_blockdesc_rw (dev bg : Z) (st : fs_state) : Z * fs_state :=
  if dev =? 0 then (NULL, st)
  else
    let data := blk dev (EXT2_SUPER + 1) in
    if bg =? NULL then (data, st)
    else (bg, buffer_write dev (EXT2_SUPER + 1) (set_fs_mem (memcpy (fs_mem st) data bg BGD_SIZE) st)).

Definition ext2_inode (m : mem) (dev i : Z) : Z :=
  let s := ext2_superblock m dev in
  let bgd := ext2_blockdesc dev in
  let block_group := u32 (i - 1) / sb_inodes_per_group m s in
  let index := u32 (i - 1) mod sb_inodes_per_group m s in
  let block := u32 (index * INODE_SIZE) / BLOCK_SIZE in
  let bgd := bgd + BGD_SIZE * block_group in
  let data := blk dev (bg_inode_table m bgd + block) in
  data + (index mod (BLOCK_SIZE / INODE_SIZE)) * INODE_SIZE.

Definition ext2_write_indirect (indirect link block_num : Z) (st : fs_state) : fs_state :=
  buffer_write 1 indirect (set_fs_mem (store32 (fs_mem st) (blk 1 indirect + block_num * 4) link) st).

Definition ext2_read_indirect (m : mem) (indirect block_num : Z) : Z :=
  load32 m (blk 1 indirect + block_num * 4).

(** The loop of [ext2_open] from block [i] on; [blocknum] and [indirect] keep
    their values from one iteration to the next. *)
Fixpoint open_loop (k : nat) (m : mem) (ino buf i blocknum indirect : Z) : mem :=
  match k with
  | O => m
  | S k' =>
      let '(blocknum, indirect) :=
        if i <? 12 then (i_block m ino i, indirect)
        else if i =? 12 then (blocknum, i_block m ino i)
        else (ext2_read_indirect m indirect (i - 12), indirect) in
      if blocknum =? 0 then m
      else open_loop k' (memcpy m (buf + i * BLOCK_SIZE) (blk 1 blocknum) BLOCK_SIZE) ino buf (i + 1) blocknum indirect
  end.
Definition num_blocks (m : mem) (ino : Z) : Z := i_blocks m ino / (BLOCK_SIZE / SECTOR_SIZE).

(** [buf] is the block [malloc(BLOCK_SIZE * num_blocks)] returned. *)
Definition ext2_open (m : mem) (ino buf : Z) : mem * Z :=
  if ino =? 0 then (m, NULL)
  else if num_blocks m ino =? 0 then (m, NULL)
  else (open_loop (Z.to_nat (num_blocks m ino)) m ino buf 0 0 0, buf).

Definition ext2_open_alt (m : mem) (ino buf : Z) : mem :=
  if ino =? 0 then m
  else if num_blocks m ino =? 0 then m
  else open_loop (Z.to_nat (num_blocks m ino)) m ino buf 0 0 0.

(** [n-1 + BLOCK_SIZE & ~(BLOCK_SIZE-1)] is [(n-1+BLOCK_SIZE) & ~1023]. *)
Definition ext2_file_seek (m : mem) (ino n offset buf : Z) : mem * Z :=
  let nblocks := (u32 (n - 1 + BLOCK_SIZE) .& not32 (BLOCK_SIZE - 1)) / BLOCK_SIZE in
  let off_block := offset / BLOCK_SIZE in
  let off := offset mod BLOCK_SIZE in
  ((for_up (Z.to_nat nblocks) 0 (fun i '(m, off) =>
      (memcpy m (buf + i * BLOCK_SIZE) (blk 1 (i_block m ino (off_block + i)) + off) BLOCK_SIZE, 0)) (m, off)).1, buf).

(** The [do ... while] over the entries of a directory copied to memory;
    an entry of length 0 is never passed. *)
Fixpoint dir_loop (fuel : nat) (m : mem) (name d sum limit : Z) : option Z :=
  match fuel with
  | O => None
  | S f =>
      let sum := sum + d_rec_len m d in
      if strncmp m (d_name d) name (d_name_len m d) =? 0 then Some (d_inode m d)
      else
        let d := d + d_rec_len m d in
        if sum <? limit then dir_loop f m name d sum limit else Some (-1)
  end.
(** The copy of the directory's blocks at [buf]. *)
Definition read_dir (m : mem) (i buf : Z) : mem :=
  let m1 := memset m buf 0 (BLOCK_SIZE * i_blocks m i / 2) in
  for_up (Z.to_nat (i_blocks m i / 2)) 0 (fun q m =>
    memcpy m (buf + q * BLOCK_SIZE) (blk 1 (i_block m i q)) BLOCK_SIZE) m1.
Definition find_inode_in_dir (m : mem) (name dir_inode buf : Z) : option Z :=
  if dir_inode =? 0 then Some (-1)
  else
    let i := ext2_inode m 1 dir_inode in
    let m1 := read_dir m i buf in
    dir_loop (S (Z.to_nat (1024 * i_blocks m i / 2))) m1 name buf 0 (1024 * i_blocks m i / 2).

(** No [return] when every bit is set. *)
Fixpoint ext_first_free_loop (k : nat) (m : mem) (b q : Z) : cval :=
  match k with
  | O => None
  | S k' =>
      let free_bits := Z.lxor (load32 m (b + 4 * q)) 0xFFFFFFFF in
      match find_up 32 0 (fun i => negb (free_bits .& u32 (1 .<< i) =? 0)) with
      | Some i => Some (i + q * 32)
      | None => ext_first_free_loop k' m b (q + 1)
      end
  end.
Definition ext_first_free (m : mem) (b sz : Z) : cval := ext_first_free_loop (Z.to_nat sz) m b 0.

(** [bitmap] is the block [malloc(BLOCK_SIZE)] returned; the search is given
    the size in bytes where it expects words. *)
Definition alloc_bit (bitmap_block bitmap : Z) : M fs_state Z := fun st =>
  let data := blk 1 bitmap_block in
  let m1 := memcpy (fs_mem st) bitmap data BLOCK_SIZE in
  match ext_first_free m1 bitmap BLOCK_SIZE with
  | None => Undef
  | Some num =>
      let w := bitmap + 4 * (num / 32) in
      let m2 := store32 m1 w (load32 m1 w .| u32 (1 .<< (num mod 32))) in
      let m3 := memcpy m2 data bitmap BLOCK_SIZE in
      Ok (num + 1) (buffer_write 1 bitmap_block (set_fs_mem m3 st))
  end.
Definition ext2_alloc_block (bitmap : Z) : M fs_state Z := fun st =>
  alloc_bit (bg_block_bitmap (fs_mem st) (ext2_blockdesc 1)) bitmap st.
Definition ext2_alloc_inode (bitmap : Z) : M fs_state Z := fun st =>
  alloc_bit (bg_inode_bitmap (fs_mem st) (ext2_blockdesc 1)) bitmap st.
End ext2.

(** ** Locating inodes *)

Section inodes.
Context `{BC : BlockCache} (m : mem).
Hypothesis Hmagic : sb_magic m (blk 1 EXT2_SUPER) = EXT2_MAGIC.
Let ipg := sb_inodes_per_group m (blk 1 EXT2_SUPER).
Hypothesis Hipg : 0 < ipg.

(** Group, block and offset of inode [i]. *)
Definition inode_group (i : Z) : Z := (i - 1) / ipg.
Definition inode_block (i : Z) : Z :=
  bg_inode_table m (blk 1 (EXT2_SUPER + 1) + BGD_SIZE * inode_group i) + ((i - 1) mod ipg) / 8.
Definition inode_offset (i : Z) : Z := ((i - 1) mod ipg) mod 8 * INODE_SIZE.

Lemma ext2_inode_eq i :
  0 < i < 0x2000000 -> ext2_inode m 1 i = blk 1 (inode_block i) + inode_offset i.
Proof.
  intros Hi. unfold ext2_inode, ext2_superblock, ext2_blockdesc. cbn [Z.eqb]. rewrite Hmagic, Z.eqb_refl. cbn [negb].
  rewrite (u32_small (i - 1)) by lia. fold ipg. pose proof (Z.mod_pos_bound (i - 1) ipg Hipg) as Hx.
  pose proof (Z.mod_le (i - 1) ipg ltac:(lia) Hipg). unfold INODE_SIZE, BLOCK_SIZE in *. rewrite u32_small by lia.
  unfold inode_block, inode_offset, inode_group, INODE_SIZE.
  replace ((i - 1) mod ipg * 128 / 1024) with ((i - 1) mod ipg / 8) by dlia. reflexivity.
Qed.

Lemma inode_offset_range i : 0 <= inode_offset i <= BLOCK_SIZE - INODE_SIZE.
Proof. unfold inode_offset, BLOCK_SIZE, INODE_SIZE. pose proof (Z.mod_pos_bound ((i - 1) mod ipg) 8). lia. Qed.
End inodes.

(** An inode lies inside one block of its group's table, and two inodes
    of the same group never overlap. *)
Theorem inodes_disjoint `{BC : BlockCache} m i j :
  sb_magic m (blk 1 EXT2_SUPER) = EXT2_MAGIC -> 0 < sb_inodes_per_group m (blk 1 EXT2_SUPER) ->
  0 < i < 0x2000000 -> 0 < j < 0x2000000 -> i <> j -> inode_group m i = inode_group m j ->
  (exists n off, ext2_inode m 1 i = blk 1 n + off /\ 0 <= off /\ off + INODE_SIZE <= BLOCK_SIZE) /\
  (ext2_inode m 1 i + INODE_SIZE <= ext2_inode m 1 j \/ ext2_inode m 1 j + INODE_SIZE <= ext2_inode m 1 i).
Proof.
  intros Hm Hg Hi Hj Hne Egr. rewrite !ext2_inode_eq by assumption.
  pose proof (inode_offset_range m i) as Ri. pose proof (inode_offset_range m j) as Rj.
  split; [do 2 eexists; split; [reflexivity|unfold INODE_SIZE, BLOCK_SIZE in *; lia]|].
  destruct (Z.eq_dec (inode_block m i) (inode_block m j)) as [E|Hb].
  - rewrite E. unfold inode_block in E. rewrite Egr in E. unfold inode_offset, inode_group, INODE_SIZE in *.
    set (g := sb_inodes_per_group m (blk 1 EXT2_SUPER)) in *.
    pose proof (Z.div_mod (i - 1) g ltac:(lia)). pose proof (Z.div_mod (j - 1) g ltac:(lia)).
    assert ((i - 1) mod g <> (j - 1) mod g) by (intros E'; apply Hne; rewrite Egr in *; lia).
    set (x := (i - 1) mod g) in *. set (y := (j - 1) mod g) in *. clearbody x y.
    assert (x / 8 = y / 8) by lia. dlia.
  - pose proof (blk_disjoint 1 _ _ Hb). unfold INODE_SIZE, BLOCK_SIZE in *. lia.
Qed.

(** ** Reading files *)

Section reading.
Context `{BC : BlockCache} (m : mem) (ino buf : Z) (n : Z).

(** The block whose contents [ext2_open] copies to position [i]. *)
Definition opened_block (i : Z) : Z :=
  if i <? 12 then i_block m ino i
  else if i =? 12 then i_block m ino 11
  else ext2_read_indirect m (i_block m ino 12) (i - 12).

(** The destination is apart from the inode, the indirect block and the data. *)
Definition apart (p len : Z) : Prop := p + len <= buf \/ buf + n * BLOCK_SIZE <= p.
Hypothesis Hn : 0 <= n.
Hypothesis Hino : apart ino INODE_SIZE.
Hypothesis Hind : 12 < n -> apart (blk 1 (i_block m ino 12)) (2 * BLOCK_SIZE).
Hypothesis Hdata : forall i, 0 <= i < n -> apart (blk 1 (opened_block i)) BLOCK_SIZE.
Hypothesis Hnz : forall i, 0 <= i < n -> opened_block i <> 0.
Hypothesis Hsmall : n <= 256 + 12.

Lemma apart_load32 m' a : same_outside buf (buf + n * BLOCK_SIZE) m m' -> apart a 4 -> load32 m' a = load32 m a.
Proof. intros H Ha. apply (same_outside_load32 buf (buf + n * BLOCK_SIZE)); [assumption|]. unfold apart in Ha. lia. Qed.

Lemma opened_step m' i bn ind :
  same_outside buf (buf + n * BLOCK_SIZE) m m' -> 0 <= i < n ->
  (i = 12 -> bn = i_block m ino 11) -> (12 < i -> ind = i_block m ino 12) ->
  (if i <? 12 then (i_block m' ino i, ind)
   else if i =? 12 then (bn, i_block m' ino i) else (ext2_read_indirect m' ind (i - 12), ind)) =
  (opened_block i, if i =? 12 then i_block m ino 12 else ind).
Proof using Hino Hind Hsmall.
  intros Hs Hi Hb Hx. unfold apart, opened_block, INODE_SIZE, BLOCK_SIZE in *.
  assert (Ei : 0 <= i < 15 -> i_block m' ino i = i_block m ino i).
  { intros H. unfold i_block. apply apart_load32; [assumption|]. unfold apart, BLOCK_SIZE. lia. }
  destruct (Z.ltb_spec i 12); [rewrite Ei by lia; replace (i =? 12) with false by lia; reflexivity|].
  destruct (Z.eqb_spec i 12) as [->|]; [rewrite Ei, Hb by lia; reflexivity|].
  rewrite Hx by lia. f_equal. unfold ext2_read_indirect. apply apart_load32; [assumption|].
  specialize (Hind ltac:(lia)). unfold apart, BLOCK_SIZE in *. lia.
Qed.

(** Invariant of the loop: the first [i] blocks are in place. *)
Lemma open_loop_spec k : forall m' i bn ind,
  Z.of_nat k = n - i -> 0 <= i ->
  same_outside buf (buf + n * BLOCK_SIZE) m m' ->
  (forall j, 0 <= j < i -> bytes_at m' (buf + j * BLOCK_SIZE) 1024 = bytes_at m (blk 1 (opened_block j)) 1024) ->
  (i = 12 -> bn = i_block m ino 11) -> (12 < i -> ind = i_block m ino 12) ->
  let r := open_loop k m' ino buf i bn ind in
  same_outside buf (buf + n * BLOCK_SIZE) m r /\
  forall j, 0 <= j < n -> bytes_at r (buf + j * BLOCK_SIZE) 1024 = bytes_at m (blk 1 (opened_block j)) 1024.
Proof using All.
  induction k as [|k IH]; intros m' i bn ind Hk Hi Hs Hdone Hb Hx; cbn zeta.
  - split; [exact Hs|]. intros j Hj. apply Hdone. lia.
  - cbn [open_loop]. rewrite (opened_step m' i bn ind) by (assumption || lia).
    replace (opened_block i =? 0) with false by (specialize (Hnz i ltac:(lia)); lia).
    pose proof (Hdata i ltac:(lia)) as Hd. unfold apart, BLOCK_SIZE in Hd.
    assert (Hc : forall b, load8 (memcpy m' (buf + i * BLOCK_SIZE) (blk 1 (opened_block i)) BLOCK_SIZE) b =
      if (buf + i * BLOCK_SIZE <=? b) && (b <? buf + i * BLOCK_SIZE + BLOCK_SIZE)
      then load8 m' (blk 1 (opened_block i) + (b - (buf + i * BLOCK_SIZE))) else load8 m' b)
      by (intros b; apply load8_memcpy; unfold BLOCK_SIZE; nia).
    unfold BLOCK_SIZE in Hc. apply IH.
    + lia.
    + lia.
    + intros b Hbd. rewrite Hc. unfold BLOCK_SIZE in Hbd.
      destruct (Z.leb_spec (buf + i * 1024) b), (Z.ltb_spec b (buf + i * 1024 + 1024)); simpl; try (apply Hs;
        unfold BLOCK_SIZE; lia). nia.
    + intros j Hj. destruct (Z.eq_dec j i) as [->|Hne].
      * apply bytes_at_eq. intros x Hx'. rewrite Hc. unfold BLOCK_SIZE.
        replace ((buf + i * 1024 <=? buf + i * 1024 + x) && (buf + i * 1024 + x <? buf + i * 1024 + 1024)) with true by lia.
        replace (buf + i * 1024 + x - (buf + i * 1024)) with x by lia. apply Hs. unfold BLOCK_SIZE. lia.
      * rewrite <- Hdone by lia. apply bytes_at_eq. intros x Hx'. rewrite Hc. unfold BLOCK_SIZE.
        replace ((buf + i * 1024 <=? buf + j * 1024 + x) && (buf + j * 1024 + x <? buf + i * 1024 + 1024)) with false by nia.
        reflexivity.
    + intros E. unfold opened_block. replace (i <? 12) with true by lia. f_equal. lia.
    + intros Hlt. destruct (Z.eqb_spec i 12); [reflexivity|]. apply Hx. lia.
Qed.
End reading.

(** C14: [ext2_open] of a file of up to 12 blocks copies the blocks of the
    inode in order into the buffer, and writes nowhere else. *)
Theorem ext2_open_small_file `{BC : BlockCache} m ino buf :
  let n := num_blocks m ino in
  ino <> 0 -> 0 < n <= 12 -> apart buf n ino INODE_SIZE ->
  (forall i, 0 <= i < n -> i_block m ino i <> 0 /\ apart buf n (blk 1 (i_block m ino i)) BLOCK_SIZE) ->
  let '(m', r) := ext2_open m ino buf in
  r = buf /\ same_outside buf (buf + n * BLOCK_SIZE) m m' /\
  forall i, 0 <= i < n -> bytes_at m' (buf + i * BLOCK_SIZE) 1024 = bytes_at m (blk 1 (i_block m ino i)) 1024.
Proof.
  intros n Hi Hn Ha Hblk. unfold ext2_open. fold n.
  replace (ino =? 0) with false by lia. replace (n =? 0) with false by lia. split; [reflexivity|].
  assert (Eo : forall i, 0 <= i < n -> opened_block m ino i = i_block m ino i).
  { intros i Hi'. unfold opened_block. replace (i <? 12) with true by lia. reflexivity. }
  pose proof (open_loop_spec m ino buf n) as L.
  destruct (L ltac:(lia) Ha ltac:(lia)) with (k := Z.to_nat n) (m' := m) (i := 0) (bn := 0) (ind := 0) as [Hs Hc]; try lia.
  - intros i Hi'. rewrite Eo by lia. apply Hblk. lia.
  - intros i Hi'. rewrite Eo by lia. apply Hblk. lia.
  - apply same_outside_refl.
  - split; [exact Hs|]. intros i Hi'. rewrite Hc, Eo by lia. reflexivity.
Qed.

(** The 13th block of a larger file is read wrongly: position 12 of the
    buffer gets another copy of block 11, and the first entry of the indirect
    block is never read. *)
Theorem ext2_open_block12_wrong `{BC : BlockCache} m ino buf :
  let n := num_blocks m ino in
  ino <> 0 -> 12 < n <= 256 -> apart buf n ino INODE_SIZE -> apart buf n (blk 1 (i_block m ino 12)) (2 * BLOCK_SIZE) ->
  (forall i, 0 <= i < n -> opened_block m ino i <> 0 /\ apart buf n (blk 1 (opened_block m ino i)) BLOCK_SIZE) ->
  let '(m', _) := ext2_open m ino buf in
  bytes_at m' (buf + 12 * BLOCK_SIZE) 1024 = bytes_at m (blk 1 (i_block m ino 11)) 1024 /\
  forall i, 12 < i < n ->
    bytes_at m' (buf + i * BLOCK_SIZE) 1024 = bytes_at m (blk 1 (ext2_read_indirect m (i_block m ino 12) (i - 12))) 1024.
Proof.
  intros n Hi Hn Ha Hb Hblk. unfold ext2_open. fold n.
  replace (ino =? 0) with false by lia. replace (n =? 0) with false by lia.
  destruct (open_loop_spec m ino buf n ltac:(lia) Ha (fun _ => Hb)) with (k := Z.to_nat n) (m' := m) (i := 0) (bn := 0) (ind := 0)
    as [_ Hc]; try lia.
  - intros i Hi'. apply Hblk. lia.
  - intros i Hi'. apply Hblk. lia.
  - apply same_outside_refl.
  - split; [rewrite Hc by lia; reflexivity|]. intros i Hi'. rewrite Hc by lia. unfold opened_block.
    replace (i <? 12) with false by lia. replace (i =? 12) with false by lia. reflexivity.
Qed.

(** ** Bitmaps *)

Lemma ext_first_free_loop_eq k m b q : ext_first_free_loop k m b q = first_free_loop k m b q.
Proof. revert q. induction k as [|k IH]; intros q; [reflexivity|]. cbn. rewrite IH. reflexivity. Qed.

(** The first clear bit, when there is one among the first [32 sz]. *)
Lemma ext_first_free_spec m b sz r :
  0 <= r < 32 * sz -> bit_used m b r = false -> (forall j, 0 <= j < r -> bit_used m b j = true) ->
  ext_first_free m b sz = Some r.
Proof.
  intros Hr Hu Hlt. unfold ext_first_free. rewrite ext_first_free_loop_eq.
  pose proof (first_free_loop_spec (Z.to_nat sz) m b 0 ltac:(lia)) as H.
  destruct (first_free_loop (Z.to_nat sz) m b 0) as [x|].
  - destruct H as (Hx & Hux & Hltx). f_equal.
    destruct (Z.lt_trichotomy x r) as [|[|]]; [|assumption|].
    + rewrite Hlt in Hux by lia. discriminate.
    + rewrite Hltx in Hu by lia. discriminate.
  - rewrite H in Hu by lia. discriminate.
Qed.

Lemma load32_at m m' a a' :
  (forall i, 0 <= i < 4 -> load8 m' (a' + i) = load8 m (a + i)) -> load32 m' a' = load32 m a.
Proof.
  intros H. unfold load32. rewrite (H 1), (H 2), (H 3) by lia. specialize (H 0 ltac:(lia)).
  rewrite !Z.add_0_r in H. rewrite H. reflexivity.
Qed.

Lemma bit_used_copy m m' b b' r :
  (forall x, 0 <= x < 1024 -> load8 m' (b' + x) = load8 m (b + x)) -> 0 <= r < 8192 ->
  bit_used m' b' r = bit_used m b r.
Proof.
  intros H Hr. unfold bit_used. f_equal. apply load32_at. intros i Hi.
  rewrite <- !Z.add_assoc. apply H. dlia.
Qed.

(** Setting one bit of a bitmap of any length. *)
Lemma bit_used_or m b k i :
  0 <= k -> 0 <= i ->
  bit_used (store32 m (b + 4 * (k / 32)) (load32 m (b + 4 * (k / 32)) .| u32 (1 .<< (k mod 32)))) b i =
  (i =? k) || bit_used m b i.
Proof.
  intros Hk Hi. unfold bit_used.
  pose proof (Z.mod_pos_bound i 32 ltac:(lia)). pose proof (Z.mod_pos_bound k 32 ltac:(lia)).
  destruct (Z.eq_dec (i / 32) (k / 32)) as [E|Hne].
  - rewrite E. autorewrite with memory bits. rewrite bit_index_eq by assumption.
    replace (i mod 32 <? 32) with true by lia. simpl. apply orb_comm.
  - rewrite load32_store32_ne by lia. replace (i =? k) with false; [reflexivity|].
    symmetry. apply Z.eqb_neq. intros ->. lia.
Qed.

Section allocation.
Context `{BC : BlockCache} (st : fs_state) (bb bitmap r : Z).
Let data := blk 1 bb.
Hypothesis Hsep : bitmap + BLOCK_SIZE <= data \/ data + BLOCK_SIZE <= bitmap.
Hypothesis Hr : 0 <= r < 8192.
Hypothesis Hfree : bit_used (fs_mem st) data r = false.
Hypothesis Hlow : forall j, 0 <= j < r -> bit_used (fs_mem st) data j = true.

Lemma alloc_bit_spec :
  exists st', alloc_bit bb bitmap st = Ok (r + 1) st' /\ written st' = (1, bb) :: written st /\
    (forall i, 0 <= i < 8192 -> bit_used (fs_mem st') data i = (i =? r) || bit_used (fs_mem st) data i) /\
    forall a, a < data \/ data + BLOCK_SIZE <= a -> a < bitmap \/ bitmap + BLOCK_SIZE <= a ->
      load8 (fs_mem st') a = load8 (fs_mem st) a.
Proof.
  unfold alloc_bit. fold data. set (m1 := memcpy (fs_mem st) bitmap data BLOCK_SIZE). unfold BLOCK_SIZE in *.
  assert (H1 : forall b, load8 m1 b = if (bitmap <=? b) && (b <? bitmap + 1024)
    then load8 (fs_mem st) (data + (b - bitmap)) else load8 (fs_mem st) b) by (intros b; apply load8_memcpy; lia).
  assert (Hcopy : forall i, 0 <= i < 8192 -> bit_used m1 bitmap i = bit_used (fs_mem st) data i).
  { intros i Hi. apply bit_used_copy; [|assumption]. intros x Hx. rewrite H1.
    replace ((bitmap <=? bitmap + x) && (bitmap + x <? bitmap + 1024)) with true by lia. f_equal. lia. }
  rewrite (ext_first_free_spec m1 bitmap 1024 r);
    [|lia|rewrite Hcopy by lia; assumption|intros j Hj; rewrite Hcopy by lia; auto].
  set (m2 := store32 _ _ _).
  assert (H3 : forall b, load8 (memcpy m2 data bitmap 1024) b = if (data <=? b) && (b <? data + 1024)
    then load8 m2 (bitmap + (b - data)) else load8 m2 b) by (intros b; apply load8_memcpy; lia).
  eexists. split; [reflexivity|]. split; [reflexivity|]. cbn [fs_mem buffer_write set_fs_mem]. split.
  - intros i Hi. rewrite (bit_used_copy m2 _ bitmap data) by
      (try assumption; intros x Hx; rewrite H3;
       replace ((data <=? data + x) && (data + x <? data + 1024)) with true by lia; f_equal; lia).
    unfold m2. rewrite bit_used_or by lia. rewrite Hcopy by assumption. reflexivity.
  - intros a Ha Hb. rewrite H3. replace ((data <=? a) && (a <? data + 1024)) with false by lia.
    unfold m2. rewrite load8_store32_ne by dlia. rewrite H1.
    replace ((bitmap <=? a) && (a <? bitmap + 1024)) with false by lia. reflexivity.
Qed.
End allocation.

(** [ext2_alloc_block] returns the number of the first block that is free
    in the bitmap, marks exactly that block used, schedules the bitmap for
    writing and changes nothing but the bitmap and its scratch copy. *)
Theorem ext2_alloc_block_first_free `{BC : BlockCache} st bitmap r :
  let bb := bg_block_bitmap (fs_mem st) (blk 1 2) in
  (bitmap + BLOCK_SIZE <= blk 1 bb \/ blk 1 bb + BLOCK_SIZE <= bitmap) -> 0 <= r < 8192 ->
  bit_used (fs_mem st) (blk 1 bb) r = false -> (forall j, 0 <= j < r -> bit_used (fs_mem st) (blk 1 bb) j = true) ->
  exists st', ext2_alloc_block bitmap st = Ok (r + 1) st' /\ written st' = (1, bb) :: written st /\
    (forall i, 0 <= i < 8192 -> bit_used (fs_mem st') (blk 1 bb) i = (i =? r) || bit_used (fs_mem st) (blk 1 bb) i) /\
    forall a, a < blk 1 bb \/ blk 1 bb + BLOCK_SIZE <= a -> a < bitmap \/ bitmap + BLOCK_SIZE <= a ->
      load8 (fs_mem st') a = load8 (fs_mem st) a.
Proof. intros bb Hs Hr Hf Hl. exact (alloc_bit_spec st bb bitmap r Hs Hr Hf Hl). Qed.

(** An entry written to an indirect block is the one read back, and the
    other entries of the block keep their values. *)
Theorem indirect_roundtrip `{BC : BlockCache} st ind link k j :
  0 <= link < 0x100000000 ->
  ext2_read_indirect (fs_mem (ext2_write_indirect ind link k st)) ind j =
    if j =? k then link else ext2_read_indirect (fs_mem st) ind j.
Proof.
  intros Hl. unfold ext2_read_indirect, ext2_write_indirect. cbn [fs_mem buffer_write set_fs_mem].
  destruct (Z.eqb_spec j k) as [->|Hne]; [rewrite load32_store32_eq; apply u32_small; assumption|].
  apply load32_store32_ne. lia.
Qed.

(** ** Directories *)

(** An entry: inode, length of the record, name. *)
Record entry := MkEntry { e_inode : Z; e_rec_len : Z; e_name : list Z }.

(** The entries [l] are laid out from [d] on. *)
Fixpoint dir_rep (m : mem) (d : Z) (l : list entry) : Prop :=
  match l with
  | [] => True
  | e :: l' =>
      d_inode m d = e_inode e /\ d_rec_len m d = e_rec_len e /\ 0 < e_rec_len e /\
      d_name_len m d = Z.of_nat (length (e_name e)) /\
      bytes_at m (d_name d) (length (e_name e)) = e_name e /\ 0 ∉ e_name e /\
      dir_rep m (d + e_rec_len e) l'
  end.
Fixpoint total_len (l : list entry) : Z :=
  match l with
  | [] => 0
  | e :: l' => e_rec_len e + total_len l'
  end.

(** The first entry whose name is a prefix of [s]. *)
Fixpoint dir_lookup (s : list Z) (l : list entry) : Z :=
  match l with
  | [] => -1
  | e :: l' => if bool_decide (e_name e `prefix_of` s) then e_inode e else dir_lookup s l'
  end.

Lemma entry_match m d name s e :
  cstr m name s -> d_name_len m d = Z.of_nat (length (e_name e)) ->
  bytes_at m (d_name d) (length (e_name e)) = e_name e -> 0 ∉ e_name e ->
  (strncmp m (d_name d) name (d_name_len m d) =? 0) = bool_decide (e_name e `prefix_of` s).
Proof.
  intros Hs Hl Hb Hz. rewrite Hl. symmetry.
  destruct (Z.eqb_spec (strncmp m (d_name d) name (Z.of_nat (length (e_name e)))) 0) as [E|E].
  - apply bool_decide_eq_true. pose proof (proj1 (strncmp_0 _ _ _ _) E) as H.
    destruct Hs as [Es (_ & Hsz & _)].
    assert (Hle : (length (e_name e) <= length s)%nat).
    { destruct (Nat.le_gt_cases (length (e_name e)) (length s)) as [|Hgt]; [assumption|exfalso].
      specialize (H (Z.of_nat (length s)) ltac:(lia)). rewrite Hsz in H. apply Hz. rewrite <- H, <- Hb.
      apply list_elem_of_lookup_2 with (i := length s). rewrite bytes_at_lookup by lia. reflexivity. }
    exists (drop (length (e_name e)) s). rewrite <- (take_drop (length (e_name e)) s) at 1. f_equal.
    rewrite <- Hb at 2. rewrite <- Es. apply list_eq. intros i.
    destruct (Nat.lt_ge_cases i (length (e_name e))).
    + rewrite lookup_take_lt by assumption. rewrite !bytes_at_lookup by lia. f_equal. symmetry. apply H. lia.
    + rewrite !lookup_ge_None_2; [reflexivity| |]; rewrite ?length_take, ?bytes_at_length; lia.
  - apply bool_decide_eq_false. intros [t Ht]. apply E. apply strncmp_0. intros i Hi.
    pose proof (cstr_lookup m name s i Hs) as L. rewrite Ht, length_app in L. specialize (L ltac:(lia)).
    rewrite lookup_app_l in L by lia. rewrite <- Hb in L. rewrite bytes_at_lookup in L by lia.
    rewrite Z2Nat.id in L by lia. congruence.
Qed.

Lemma total_len_pos m d l : dir_rep m d l -> l <> [] -> 0 < total_len l.
Proof.
  revert d. induction l as [|e l IH]; intros d H Hne; [congruence|]. simpl in *. destruct H as (_ & _ & Hp & _ & _ & _ & H).
  destruct l; [simpl; lia|]. specialize (IH _ H ltac:(discriminate)). lia.
Qed.

(** An entry's header and name lie inside its record. *)
Definition entry_fits (e : entry) : Prop := 8 + Z.of_nat (length (e_name e)) <= e_rec_len e.

Lemma total_len_fits l : Forall entry_fits l -> 0 <= total_len l.
Proof. induction 1 as [|e l He _ IH]; cbn [total_len]; [lia|]. unfold entry_fits in He. lia. Qed.

(** The entries of a block that was copied, or whose bytes did not change. *)
Lemma dir_rep_move m m' l : forall d d',
  dir_rep m d l -> Forall entry_fits l -> (forall x, 0 <= x < total_len l -> load8 m' (d' + x) = load8 m (d + x)) -> dir_rep m' d' l.
Proof.
  induction l as [|e l IH]; intros d d' Hd Hf Hm; [exact I|]. apply Forall_cons in Hf as [He Hf].
  cbn [dir_rep total_len] in *. pose proof (total_len_fits l Hf) as Hl. unfold entry_fits in He.
  destruct Hd as (D1 & D2 & D3 & D4 & D5 & D6 & D7).
  split; [rewrite <- D1; apply load32_at; intros x Hx; apply Hm; lia|].
  split; [rewrite <- D2; unfold d_rec_len, load16; rewrite <- !Z.add_assoc, !Hm by lia; reflexivity|].
  split; [assumption|]. split; [rewrite <- D4; apply Hm; lia|].
  split; [rewrite <- D5 at 2; apply bytes_at_eq; intros x Hx; unfold d_name; rewrite <- !Z.add_assoc; apply Hm; lia|].
  split; [assumption|]. apply (IH (d + e_rec_len e)); [assumption|assumption|].
  intros x Hx. rewrite <- !Z.add_assoc. apply Hm. lia.
Qed.

Lemma dir_loop_spec m name s l : forall fuel d sum limit,
  cstr m name s -> dir_rep m d l -> l <> [] -> sum + total_len l = limit -> total_len l < Z.of_nat fuel ->
  dir_loop fuel m name d sum limit = Some (dir_lookup s l).
Proof.
  induction l as [|e l IH]; intros fuel d sum limit Hs Hd Hne Hsum Hf; [congruence|].
  cbn [dir_rep total_len] in Hd, Hsum, Hf. destruct Hd as (Hi & Hr & Hp & Hl & Hb & Hz & Hd).
  assert (Hpos : 0 <= total_len l) by (destruct l; [simpl; lia|pose proof (total_len_pos _ _ _ Hd ltac:(discriminate)); lia]).
  destruct fuel as [|f]; [lia|]. cbn [dir_loop dir_lookup]. rewrite (entry_match m d name s e Hs Hl Hb Hz).
  destruct (bool_decide (e_name e `prefix_of` s)); [rewrite Hi; reflexivity|]. rewrite Hr.
  destruct l as [|e2 l].
  - simpl in Hsum. replace (sum + e_rec_len e <? limit) with false by lia. reflexivity.
  - pose proof (total_len_pos _ _ _ Hd ltac:(discriminate)).
    replace (sum + e_rec_len e <? limit) with true by lia. apply IH; [assumption|assumption|discriminate|lia|lia].
Qed.

(** Looking a name up in a directory.  When the copied blocks of the
    directory hold well-formed entries that fill them, the search ends with
    the inode of the first entry whose name is a prefix of the name looked
    for (the code compares only the entry's own length), or -1. *)
Theorem find_inode_in_dir_spec `{BC : BlockCache} m name dir buf s l :
  let i := ext2_inode m 1 dir in
  let m1 := read_dir m i buf in
  dir <> 0 -> cstr m1 name s -> dir_rep m1 buf l -> l <> [] -> total_len l = 1024 * i_blocks m i / 2 ->
  find_inode_in_dir m name dir buf = Some (dir_lookup s l).
Proof.
  intros i m1 Hd Hs Hl Hne Ht. unfold find_inode_in_dir. replace (dir =? 0) with false by lia. fold i m1.
  apply (dir_loop_spec m1 name s l); [assumption|assumption|assumption|lia|lia].
Qed.

(** ** Concrete instances *)

(** A cache with the data of block [n >= 0] at address [0x100000 + 2048 n]. *)
Definition flat_cache : BlockCache.
Proof.
  refine {| blk := fun _ n => 0x100000 + 1024 * Z.abs (2 * n + (if n <? 0 then 1 else 0)) |}.
  - intros. lia.
  - intros dev n k Hne. unfold BLOCK_SIZE. bsimp; lia.
Defined.
#[local] Existing Instance flat_cache.

(** A disk with 8 inodes per group, the inode table in block 5, and the root
    directory (inode 2) holding one entry "a" with inode 11 in block 9. *)
Definition demo_fs : mem :=
  let m := store16 (store32 ∅ (0x100800 + 40) 8) (0x100800 + 56) EXT2_MAGIC in
  let m := store32 m (0x101000 + 8) 5 in
  let m := store32 (store32 m (0x102880 + 28) 2) (0x102880 + 40) 9 in
  let m := store16 (store32 m 0x104800 11) 0x104804 1024 in
  store8 (store8 m 0x104806 1) 0x104808 97.

Lemma inodes_disjoint_witness :
  (exists n off, ext2_inode demo_fs 1 2 = blk 1 n + off /\ 0 <= off /\ off + INODE_SIZE <= BLOCK_SIZE) /\
  (ext2_inode demo_fs 1 2 + INODE_SIZE <= ext2_inode demo_fs 1 3 \/
   ext2_inode demo_fs 1 3 + INODE_SIZE <= ext2_inode demo_fs 1 2).
Proof. apply (inodes_disjoint demo_fs 2 3); vm_compute; try reflexivity; try discriminate; split; reflexivity. Defined.

Lemma ext2_open_small_file_witness :
  let '(m', r) := ext2_open demo_fs 0x102880 0x50000 in
  r = 0x50000 /\ same_outside 0x50000 (0x50000 + 1 * BLOCK_SIZE) demo_fs m' /\
  forall i, 0 <= i < 1 ->
    bytes_at m' (0x50000 + i * BLOCK_SIZE) 1024 = bytes_at demo_fs (blk 1 (i_block demo_fs 0x102880 i)) 1024.
Proof.
  apply (ext2_open_small_file demo_fs 0x102880 0x50000).
  - discriminate.
  - vm_compute. split; [reflexivity|discriminate].
  - right. vm_compute. discriminate.
  - intros i Hi. assert (i = 0) as -> by (change (num_blocks demo_fs 0x102880) with 1 in Hi; lia).
    split; [vm_compute; discriminate|]. right. vm_compute. discriminate.
Defined.

(** An inode at 0x40000 with 13 blocks, all of them block 5. *)
Definition demo_inode13 : mem :=
  for_up 13 0 (fun k m => store32 m (0x40000 + 40 + 4 * k) 5) (store32 ∅ (0x40000 + 28) 26).

Lemma ext2_open_block12_wrong_witness :
  let '(m', _) := ext2_open demo_inode13 0x40000 0x50000 in
  bytes_at m' (0x50000 + 12 * BLOCK_SIZE) 1024 = bytes_at demo_inode13 (blk 1 (i_block demo_inode13 0x40000 11)) 1024 /\
  forall i, 12 < i < 13 -> bytes_at m' (0x50000 + i * BLOCK_SIZE) 1024 =
    bytes_at demo_inode13 (blk 1 (ext2_read_indirect demo_inode13 (i_block demo_inode13 0x40000 12) (i - 12))) 1024.
Proof.
  apply (ext2_open_block12_wrong demo_inode13 0x40000 0x50000).
  - discriminate.
  - vm_compute. split; [reflexivity|discriminate].
  - left. vm_compute. discriminate.
  - right. vm_compute. discriminate.
  - intros i Hi. change (num_blocks demo_inode13 0x40000) with 13 in Hi.
    assert (E : opened_block demo_inode13 0x40000 i = 5).
    { assert (i = 0 \/ i = 1 \/ i = 2 \/ i = 3 \/ i = 4 \/ i = 5 \/ i = 6 \/ i = 7 \/ i = 8 \/ i = 9 \/ i = 10 \/ i = 11 \/ i = 12)
        as H by lia. destruct_or! H; subst; vm_compute; reflexivity. }
    rewrite E. split; [discriminate|]. right. vm_compute. discriminate.
Defined.

Lemma ext2_alloc_block_first_free_witness :
  let bb := bg_block_bitmap demo_fs (blk 1 2) in
  exists st', ext2_alloc_block 0x50000 (MkFs demo_fs []) = Ok (0 + 1) st' /\ written st' = [(1, bb)] /\
    (forall i, 0 <= i < 8192 -> bit_used (fs_mem st') (blk 1 bb) i = (i =? 0) || bit_used demo_fs (blk 1 bb) i) /\
    forall a, a < blk 1 bb \/ blk 1 bb + BLOCK_SIZE <= a -> a < 0x50000 \/ 0x50000 + BLOCK_SIZE <= a ->
      load8 (fs_mem st') a = load8 demo_fs a.
Proof.
  apply (ext2_alloc_block_first_free (MkFs demo_fs []) 0x50000 0).
  - left. vm_compute. discriminate.
  - lia.
  - vm_compute. reflexivity.
  - intros j Hj. lia.
Defined.

Lemma indirect_roundtrip_witness :
  ext2_read_indirect (fs_mem (ext2_write_indirect 7 1234 3 (MkFs ∅ []))) 7 3 = 1234.
Proof. apply (indirect_roundtrip (MkFs ∅ []) 7 1234 3 3). lia. Defined.

Lemma find_inode_in_dir_spec_witness :
  find_inode_in_dir (put_str demo_fs 0x60000 [97; 98]) 0x60000 2 0x70000 = Some 11.
Proof.
  apply (find_inode_in_dir_spec (put_str demo_fs 0x60000 [97; 98]) 0x60000 2 0x70000 [97; 98] [MkEntry 11 1024 [97]]).
  - discriminate.
  - apply is_cstr_sound. vm_compute. reflexivity.
  - vm_compute. repeat split; try reflexivity. set_solver.
  - discriminate.
  - vm_compute. reflexivity.
Defined.
