(* ===== verification/Ide.v ===== *)
(** * kernel/drivers/ide.c: disk queue and buffer cache

    Buffers are records at addresses, linked through [next] into the cache
    list and through [q] into the queue of pending disk operations.  The
    controller is seen through the bytes written to its ports (a trace), the
    status byte that ends [ide_wait], and the data that [insl] reads; both are
    arguments of the operations that receive them.  The waits have no effect on
    this state and are left out where their result is not used: [ide_wait(0)]
    before a command, [ide_delay], and the [ide_wait(1)] that [ide_rw] tests with
    [assert]; so are [assert] and the error line of [ide_handler], which print. *)

From stdpp Require Import base numbers list gmap.
From Stdlib Require Import ZArith Lia.
From S2P Require Import Prelude Memory CString.
Open Scope Z_scope.

Definition B_BUSY : Z := 0x1.
Definition B_VALID : Z := 0x2.
Definition B_DIRTY : Z := 0x4.
Definition IDE_BSY : Z := 0x80.
Definition IDE_RDY : Z := 0x40.
Definition IDE_DF : Z := 0x20.
Definition IDE_ERR : Z := 0x01.
Definition IDE_IO : Z := 0x1F0.
Definition IDE_ALT : Z := 0x3F6.
Definition BLOCK_BYTES : Z := 1024.
Definition SECTOR_BYTES : Z := 512.
Definition MAX_OP_BLOCKS : Z := 16.
Definition BUFFER_SIZE : Z := 1044.

Definition LBA_LOW (c : Z) : Z := u8 (c .& 0xFF).
Definition LBA_MID (c : Z) : Z := u8 (c .>> 8) .& 0xFF.
Definition LBA_HIGH (c : Z) : Z := u8 (c .>> 16) .& 0xFF.
Definition LBA_LAST (c : Z) : Z := u8 (c .>> 24) .& 0xF.

Record buffer := MkBuf { flags : Z; dev : Z; block : Z; next : Z; q : Z; data : list Z }.
Definition set_flags (f : Z) (b : buffer) : buffer := MkBuf f (dev b) (block b) (next b) (q b) (data b).
Definition set_q (x : Z) (b : buffer) : buffer := MkBuf (flags b) (dev b) (block b) (next b) x (data b).
Definition set_next (x : Z) (b : buffer) : buffer := MkBuf (flags b) (dev b) (block b) x (q b) (data b).
Definition set_data (d : list Z) (b : buffer) : buffer := MkBuf (flags b) (dev b) (block b) (next b) (q b) d.

(** What the driver writes to the controller: a byte to a port, or the data of
    a block, as bytes, to the data port. *)
Inductive port_write := Outb (port v : Z) | Outsl (port : Z) (bytes : list Z).

Record ide_state := MkIde {
  bufs : gmap Z buffer;
  cache_list : Z;
  cache_lock : Z;
  idequeue : Z;
  idelock : Z;
  IDE_STATUS : Z;
  ports : list port_write;   (* writes to the ports, latest first *)
}.
Definition zero_buf : buffer := MkBuf 0 0 0 0 0 [].
Definition at_buf (s : ide_state) (p : Z) : buffer := default zero_buf (bufs s !! p).
Definition upd (p : Z) (f : buffer -> buffer) (s : ide_state) : ide_state :=
  MkIde (<[p := f (at_buf s p)]> (bufs s)) (cache_list s) (cache_lock s) (idequeue s) (idelock s) (IDE_STATUS s) (ports s).
Definition set_queue (x : Z) (s : ide_state) : ide_state :=
  MkIde (bufs s) (cache_list s) (cache_lock s) x (idelock s) (IDE_STATUS s) (ports s).
Definition set_list (x : Z) (s : ide_state) : ide_state :=
  MkIde (bufs s) x (cache_lock s) (idequeue s) (idelock s) (IDE_STATUS s) (ports s).
Definition set_idelock (x : Z) (s : ide_state) : ide_state :=
  MkIde (bufs s) (cache_list s) (cache_lock s) (idequeue s) x (IDE_STATUS s) (ports s).
Definition set_cache_lock (x : Z) (s : ide_state) : ide_state :=
  MkIde (bufs s) (cache_list s) x (idequeue s) (idelock s) (IDE_STATUS s) (ports s).
Definition outb (port v : Z) (s : ide_state) : ide_state :=
  MkIde (bufs s) (cache_list s) (cache_lock s) (idequeue s) (idelock s) (IDE_STATUS s) (Outb port v :: ports s).
Definition outsl (port : Z) (bytes : list Z) (s : ide_state) : ide_state :=
  MkIde (bufs s) (cache_list s) (cache_lock s) (idequeue s) (idelock s) (IDE_STATUS s) (Outsl port bytes :: ports s).

(** [sleep] and [wake] are empty functions. *)
Definition sleep (s : ide_state) : ide_state := s.
Definition wake (s : ide_state) : ide_state := s.

(** The loop of [ide_wait] over the status bytes the port gives; [None] when
    none of them ends it. *)
Fixpoint ide_wait_loop (rs : list Z) : option Z :=
  match rs with
  | [] => None
  | r :: rs' => if r .& (IDE_BSY .| IDE_RDY) =? IDE_RDY then Some r else ide_wait_loop rs'
  end.
Definition ide_wait (check : bool) (r : Z) : Z :=
  if check && negb (r .& (IDE_DF .| IDE_ERR) =? 0) then -1 else 0.

Definition ide_op (b : Z) (s : ide_state) : ide_state :=
  let x := at_buf s b in
  let sector_per_block := BLOCK_BYTES / SECTOR_BYTES in
  let sector := u32 (block x * sector_per_block) in
  let s1 := outb IDE_ALT 0 s in
  let s2 := outb (IDE_IO .| 0x2) sector_per_block s1 in
  let s3 := outb (IDE_IO .| 0x3) (LBA_LOW sector) s2 in
  let s4 := outb (IDE_IO .| 0x4) (LBA_MID sector) s3 in
  let s5 := outb (IDE_IO .| 0x5) (LBA_HIGH sector) s4 in
  let s6 := outb (IDE_IO .| 0x6) (0xE0 .| ((dev x .& 1) .<< 4) .| LBA_LAST sector) s5 in
  if negb (flags x .& B_DIRTY =? 0)
  then outsl IDE_IO (data x) (outb (IDE_IO .| 0x7) (if sector_per_block =? 1 then 0x30 else 0xC5) s6)
  else outb (IDE_IO .| 0x7) (if sector_per_block =? 1 then 0x20 else 0xC4) s6.

Definition acquire_ide : M ide_state unit := fun s => if idelock s =? 0 then Ok tt (set_idelock 1 s) else Spin.

(** On an empty queue the code calls [release(&idequeue)], which clears the
    queue pointer and leaves [idelock] held. *)
Definition ide_handler (r : Z) (sector : list Z) : M ide_state unit :=
  acquire_ide ;;;
  b <-- gets idequeue ;;
  if b =? 0 then modify (set_queue 0)
  else
    modify (fun s => set_queue (q (at_buf s b)) s) ;;;
    let stat := ide_wait true r in
    modify (fun s => if (flags (at_buf s b) .& B_DIRTY =? 0) && (0 <=? stat) then upd b (set_data sector) s else s) ;;;
    modify (fun s => upd b (set_flags (flags (at_buf s b) .| B_VALID)) s) ;;;
    modify (fun s => upd b (set_flags (flags (at_buf s b) .& 0xFB)) s) ;;;
    modify wake ;;;
    modify (fun s => if negb (idequeue s =? 0) then ide_op (idequeue s) s else s) ;;;
    modify (set_idelock 0).

(** [for (i = 0; i < 1000; i++) if (inb(...))]: [rs] are the bytes read. *)
Definition ide_init (rs : list Z) : M ide_state unit :=
  acquire_ide ;;;
  modify (outb (IDE_IO .| 0x6) (1 .<< 4)) ;;;
  modify (fun s => if existsb (fun r => negb (r =? 0)) (take 1000 rs)
                   then MkIde (bufs s) (cache_list s) (cache_lock s) (idequeue s) (idelock s) 1 (ports s) else s) ;;;
  modify (set_idelock 0).

(** [b->flags & (B_VALID | B_DIRTY) != B_VALID]: the comparison binds first. *)
Definition check_buf (b : buffer) : Z :=
  flags b .& (if (B_VALID .| B_DIRTY) =? B_VALID then 0 else 1).

(** Walk a linked list to its last element, counted by the number of buffers. *)
Fixpoint chain_last (fuel : nat) (link : Z -> Z) (p : Z) : option Z :=
  match fuel with
  | O => None
  | S f => if link p =? 0 then Some p else chain_last f link (link p)
  end.
Definition q_link (s : ide_state) (p : Z) : Z := q (at_buf s p).
Definition next_link (s : ide_state) (p : Z) : Z := next (at_buf s p).
Definition append_queue (b : Z) : M ide_state unit := fun s =>
  if idequeue s =? 0 then Ok tt (set_queue b s)
  else match chain_last (S (size (bufs s))) (q_link s) (idequeue s) with
       | Some p => Ok tt (upd p (set_q b) s)
       | None => Spin
       end.
Definition ide_rw (b : Z) : M ide_state Z := fun s =>
  let x := at_buf s b in
  if flags x .& (B_VALID .| B_DIRTY) =? B_VALID then Ok (-1) s
  else if negb (dev x =? 1) then Ok (-2) s
  else
    (modify (upd b (set_q 0)) ;;;
     append_queue b ;;;
     modify (fun s => if idequeue s =? b then ide_op b s else s) ;;;
     modify sleep ;;;
     ret 0) s.

(** [p] is the block [malloc] returned, its contents unspecified: [old] gives
    the buffers that lie there. *)
Definition buffer_init (p : Z) (old : Z -> buffer) (s : ide_state) : ide_state :=
  let s1 := set_list p s in
  let link (nx : Z -> Z) i s :=
    let b := p + i * BUFFER_SIZE in
    MkIde (<[b := MkBuf (flags (old b)) 0xFFFFFFFF (block (old b)) (nx b) (q (old b)) (data (old b))]> (bufs s))
      (cache_list s) (cache_lock s) (idequeue s) (idelock s) (IDE_STATUS s) (ports s) in
  let s2 := for_up (Z.to_nat (MAX_OP_BLOCKS - 1)) 0 (link (fun b => b + BUFFER_SIZE)) s1 in
  link (fun _ => NULL) (MAX_OP_BLOCKS - 1) s2.

Definition byte_order (i : Z) : Z :=
  ((i .>> 24) .& 0xFF) + 0x100 * ((i .>> 16) .& 0xFF) + 0x10000 * ((i .>> 8) .& 0xFF) + 0x1000000 * (i .& 0xFF).

(** First buffer of the list that satisfies [f], 0 at the end. *)
Fixpoint list_find (fuel : nat) (s : ide_state) (f : buffer -> bool) (p : Z) : option Z :=
  match fuel with
  | O => None
  | S k => if p =? 0 then Some 0 else if f (at_buf s p) then Some p else list_find k s f (next (at_buf s p))
  end.

Definition acquire_cache : M ide_state unit := fun s => if cache_lock s =? 0 then Ok tt (set_cache_lock 1 s) else Spin.
Definition some_or_spin {A : Type} (o : option A) : M ide_state A :=
  match o with Some a => ret a | None => fun _ => Spin end.

(** [p] is the address [malloc(sizeof(buffer))] returned and [old] the contents
    of that memory: only [dev], [block] and [flags] are assigned. *)
Definition buffer_get (p : Z) (old : buffer) (d bl : Z) : M ide_state Z :=
  acquire_cache ;;;
  s <-- get ;;
  b <-- some_or_spin (list_find (S (S (size (bufs s)))) s (fun x => (dev x =? d) && (block x =? bl)) (cache_list s)) ;;
  if negb (b =? 0) then
    modify (fun s => if flags (at_buf s b) .& B_BUSY =? 0
                     then upd b (set_flags (flags (at_buf s b) .| B_BUSY)) s else sleep s) ;;;
    modify (set_cache_lock 0) ;;;
    ret b
  else
    (if cache_list s =? 0 then modify (set_list p)
     else last <-- some_or_spin (chain_last (S (size (bufs s))) (next_link s) (cache_list s)) ;;
          modify (upd last (set_next p))) ;;;
    modify (upd p (fun _ => MkBuf B_BUSY d bl (next old) (q old) (data old))) ;;;
    modify (set_cache_lock 0) ;;;
    ret p.

(** The recursive call is for [ide_rw] returning -1 on a buffer that is not
    valid; [fuel] bounds it. *)
Fixpoint buffer_read (fuel : nat) (p : Z) (old : buffer) (d bl : Z) : M ide_state Z :=
  match fuel with
  | O => fun _ => Spin
  | S f =>
      b <-- buffer_get p old d bl ;;
      s <-- get ;;
      i <-- (if flags (at_buf s b) .& B_VALID =? 0 then ide_rw b else ret (-1)) ;;
      s' <-- get ;;
      (if (i =? -1) && (flags (at_buf s' b) .& B_VALID =? 0)
       then buffer_read f p old d bl ;;; ret tt else ret tt) ;;;
      ret b
  end.

Definition buffer_write (b : Z) : M ide_state unit :=
  modify (fun s => upd b (set_flags (flags (at_buf s b) .| B_DIRTY)) s) ;;;
  ide_rw b ;;;
  ret tt.

(** The scan [for (bp = cache.list; bp != b; bp = bp->next)] runs into the null
    pointer when [b] is not in the list. *)
Fixpoint list_reaches (fuel : nat) (s : ide_state) (b p : Z) : bool :=
  match fuel with
  | O => false
  | S k => (p =? b) || (negb (p =? 0) && list_reaches k s b (next (at_buf s p)))
  end.

(** [bp++] moves to the structure after [b] before it is cleared; [free] leaves
    the bytes of [b], which stays in the list. *)
Definition buffer_free (b : Z) : M ide_state unit :=
  acquire_cache ;;;
  s <-- get ;;
  if list_reaches (S (size (bufs s))) s b (cache_list s) then
    modify (fun s =>
      let bp := b + BUFFER_SIZE in
      upd bp (fun x => MkBuf 7 (dev x) 0xFFFFFFFF (next x) (q x) (replicate 1024 0)) s) ;;;
    modify (set_cache_lock 0)
  else fun _ => Undef.

(** ** Words *)

Lemma land_ff x : x .& 0xFF = x mod 0x100.
Proof. apply (land_ones_mod 8). lia. Qed.

(** The four address registers carry the sector number: for every sector
    of a 28-bit disk the bytes that [ide_op] sends recombine to it. *)
Theorem lba_bytes_recombine sector :
  0 <= sector < 0x10000000 ->
  LBA_LOW sector + 0x100 * LBA_MID sector + 0x10000 * LBA_HIGH sector + 0x1000000 * LBA_LAST sector = sector /\
  0 <= LBA_LOW sector < 0x100 /\ 0 <= LBA_MID sector < 0x100 /\ 0 <= LBA_HIGH sector < 0x100 /\ 0 <= LBA_LAST sector < 0x10.
Proof.
  intros Hs. unfold LBA_LOW, LBA_MID, LBA_HIGH, LBA_LAST. rewrite !land_ff.
  change 0xF with (Z.ones 4). rewrite land_ones_mod by lia. change (2 ^ 4) with 16.
  rewrite !Z.shiftr_div_pow2 by lia. unfold u8.
  change (2 ^ 8) with 0x100. change (2 ^ 16) with (0x100 * 0x100). change (2 ^ 24) with (0x100 * 0x100 * 0x100).
  rewrite <- !Z.div_div by lia. rewrite !Z.mod_mod by lia.
  assert (Ha : 0 <= sector / 0x100 < 0x100000) by dlia.
  assert (Hb : 0 <= sector / 0x100 / 0x100 < 0x1000) by (set (x := sector / 0x100) in *; clearbody x; dlia).
  assert (Hc : 0 <= sector / 0x100 / 0x100 / 0x100 < 0x10) by (set (x := sector / 0x100 / 0x100) in *; clearbody x; dlia).
  rewrite (Z.mod_small (sector / 0x100 / 0x100 / 0x100) 0x100), (Z.mod_small (sector / 0x100 / 0x100 / 0x100) 16) by lia.
  pose proof (Z.div_mod sector 0x100). pose proof (Z.div_mod (sector / 0x100) 0x100).
  pose proof (Z.div_mod (sector / 0x100 / 0x100) 0x100).
  pose proof (Z.mod_pos_bound sector 0x100). pose proof (Z.mod_pos_bound (sector / 0x100) 0x100).
  pose proof (Z.mod_pos_bound (sector / 0x100 / 0x100) 0x100). lia.
Qed.

Lemma lba_bytes_recombine_witness :
  LBA_LOW 0x123456 + 0x100 * LBA_MID 0x123456 + 0x10000 * LBA_HIGH 0x123456 + 0x1000000 * LBA_LAST 0x123456 = 0x123456 /\
  0 <= LBA_LOW 0x123456 < 0x100 /\ 0 <= LBA_MID 0x123456 < 0x100 /\ 0 <= LBA_HIGH 0x123456 < 0x100 /\
    0 <= LBA_LAST 0x123456 < 0x10.
Proof. apply (lba_bytes_recombine 0x123456). lia. Defined.

(** ** Linked lists *)

(** [l] is the list from [head] along [link], ended by 0. *)
Record chain (link : Z -> Z) (head : Z) (l : list Z) : Prop := {
  ch_head : head = default 0 (l !! 0%nat);
  ch_next : forall i p, l !! i = Some p -> link p = default 0 (l !! S i);
  ch_nodup : NoDup l;
  ch_nonnull : Forall (fun p => p <> 0) l;
}.

Lemma chain_walk link head l x : chain link head (l ++ [x]) -> forall i p fuel,
  (l ++ [x]) !! i = Some p -> (length l < i + fuel)%nat -> chain_last fuel link p = Some x.
Proof.
  intros [_ Hnext _ Ha] i p fuel. revert i p. induction fuel as [|f IH]; intros i p Hp Hf.
  - apply lookup_lt_Some in Hp. rewrite length_app in Hp. simpl in Hp. lia.
  - cbn [chain_last]. rewrite (Hnext i p Hp). destruct ((l ++ [x]) !! S i) as [n|] eqn:E; simpl.
    + rewrite Forall_forall in Ha. pose proof (Ha n ltac:(eapply list_elem_of_lookup_2; eassumption)).
      replace (n =? 0) with false by lia. apply (IH (S i)); [assumption|lia].
    + apply lookup_ge_None_1 in E. rewrite length_app in E. simpl in E.
      apply lookup_lt_Some in Hp as Hlt. rewrite length_app in Hlt. simpl in Hlt.
      assert (i = length l) as -> by lia. rewrite lookup_app_r, Nat.sub_diag in Hp by lia. simpl in Hp. congruence.
Qed.

Lemma chain_last_spec link head l x fuel :
  chain link head (l ++ [x]) -> (length l < fuel)%nat -> chain_last fuel link head = Some x /\ head <> 0.
Proof.
  intros H Hf. pose proof H as [Hh _ _ Ha]. rewrite Hh. destruct (l ++ [x]) as [|y t] eqn:E; [destruct l; discriminate|].
  simpl. split; [|apply Forall_cons in Ha; tauto]. rewrite <- E in H.
  apply (chain_walk link head l x H 0 y); [rewrite E; reflexivity|lia].
Qed.

Lemma chain_ext link link' head l :
  chain link head l -> (forall p, p ∈ l -> link' p = link p) -> chain link' head l.
Proof.
  intros [Hh Hn Hd Ha] H. split; try assumption. intros i p Hp.
  rewrite H by (eapply list_elem_of_lookup_2; eassumption). auto.
Qed.

(** Linking a new element [b] behind the last one. *)
Lemma chain_snoc link link' head l x b :
  chain link head (l ++ [x]) -> b ∉ l ++ [x] -> b <> 0 -> link' b = 0 -> link' x = b ->
  (forall p, p ∈ l ++ [x] -> p <> x -> link' p = link p) ->
  chain link' head ((l ++ [x]) ++ [b]).
Proof.
  intros [Hh Hn Hd Ha] Hb Hb0 Hlb Hlx Hl. split.
  - rewrite Hh. destruct (l ++ [x]) eqn:E; [destruct l; discriminate|reflexivity].
  - intros i p Hp. pose proof (lookup_lt_Some _ _ _ Hp) as Hlt. rewrite !length_app in Hlt. simpl in Hlt.
    destruct (decide (i = length l + 1)%nat) as [->|Hi1].
    + rewrite lookup_app_r in Hp by (rewrite length_app; simpl; lia). rewrite length_app in Hp. simpl in Hp.
      rewrite Nat.sub_diag in Hp. simplify_eq/=. rewrite lookup_ge_None_2 by (rewrite !length_app; simpl; lia). assumption.
    + rewrite lookup_app_l in Hp by (rewrite length_app; simpl; lia).
      destruct (decide (i = length l)) as [->|Hi].
      * rewrite lookup_app_r, Nat.sub_diag in Hp by lia. simplify_eq/=.
        rewrite lookup_app_r by (rewrite length_app; simpl; lia). rewrite length_app. simpl.
        replace (S (length l) - (length l + 1))%nat with 0%nat by lia. reflexivity.
      * rewrite Hl by (try (eapply list_elem_of_lookup_2; eassumption);
          intros ->; apply Hi, (NoDup_lookup _ _ _ _ Hd Hp); rewrite lookup_app_r, Nat.sub_diag by lia; reflexivity).
        rewrite (Hn i p Hp). rewrite (lookup_app_l (l ++ [x])) by (rewrite length_app; simpl; lia). reflexivity.
  - apply NoDup_app. split; [assumption|]. split; [|apply NoDup_singleton].
    intros y Hy Hy'. apply list_elem_of_singleton in Hy'. subst. contradiction.
  - apply Forall_app. split; [assumption|]. repeat constructor. assumption.
Qed.

Lemma chain_singleton link b : b <> 0 -> link b = 0 -> chain link b [b].
Proof.
  intros Hb Hl. split; [reflexivity| |apply NoDup_singleton|repeat constructor; assumption].
  intros [|i] p Hp; simplify_eq/=. exact Hl.
Qed.

Lemma chain_tail link head b l : chain link head (b :: l) -> chain link (link b) l /\ head = b /\ b ∉ l.
Proof.
  intros [Hh Hn Hd Ha]. apply NoDup_cons in Hd as [? Hd]. apply Forall_cons in Ha as [? Ha]. split; [|auto].
  split; [exact (Hn 0%nat b eq_refl)|intros i p Hp; exact (Hn (S i) p Hp)|assumption|assumption].
Qed.

(** ** The queue of pending operations *)

Definition in_store (s : ide_state) (l : list Z) : Prop := Forall (fun p => p ∈ dom (bufs s)) l.

(** The buffers of the queue, in order. *)
Definition queue_rep (s : ide_state) (l : list Z) : Prop := chain (q_link s) (idequeue s) l /\ in_store s l.

Lemma at_upd s p f x : at_buf (upd p f s) x = if x =? p then f (at_buf s p) else at_buf s x.
Proof.
  unfold at_buf at 1, upd. cbn [bufs]. destruct (Z.eqb_spec x p) as [->|Hne].
  - rewrite lookup_insert_eq. reflexivity.
  - rewrite lookup_insert_ne by congruence. reflexivity.
Qed.

Lemma chain_length link head s l : chain link head l -> in_store s l -> (length l <= size (bufs s))%nat.
Proof.
  intros [_ _ Hn _] Ha. rewrite <- size_dom. rewrite <- (size_list_to_set (C := gset Z) l) by assumption.
  apply subseteq_size. intros p Hp. apply elem_of_list_to_set in Hp.
  unfold in_store in Ha. rewrite Forall_forall in Ha. apply Ha. assumption.
Qed.

Lemma in_store_mono s s' l : in_store s l -> dom (bufs s) ⊆ dom (bufs s') -> in_store s' l.
Proof. intros H Hd. eapply Forall_impl; [exact H|]. simpl. intros p Hp. set_solver. Qed.

Lemma ide_op_bufs b s : bufs (ide_op b s) = bufs s /\ idequeue (ide_op b s) = idequeue s /\
  idelock (ide_op b s) = idelock s.
Proof. unfold ide_op. case_match; auto. Qed.

Lemma queue_rep_same s s' l :
  queue_rep s l -> idequeue s' = idequeue s -> (forall p, p ∈ l -> q (at_buf s' p) = q (at_buf s p)) ->
  dom (bufs s) ⊆ dom (bufs s') -> queue_rep s' l.
Proof.
  intros [Hc Ha] Eq Hq Hdom. split; [|eapply in_store_mono; eassumption].
  rewrite Eq. apply (chain_ext (q_link s)); assumption.
Qed.

(** Appending a buffer that is not in the queue. *)
Lemma append_queue_spec s l b :
  queue_rep s l -> b ∉ l -> b <> 0 -> b ∈ dom (bufs s) -> q (at_buf s b) = 0 ->
  exists s', append_queue b s = Ok tt s' /\ queue_rep s' (l ++ [b]) /\ idelock s' = idelock s /\ ports s' = ports s /\
    (forall p, flags (at_buf s' p) = flags (at_buf s p) /\ dev (at_buf s' p) = dev (at_buf s p) /\
      block (at_buf s' p) = block (at_buf s p) /\ data (at_buf s' p) = data (at_buf s p)).
Proof.
  intros [Hc Ha] Hb Hb0 Hbd Hq. unfold append_queue. destruct (decide (l = [])) as [->|Hne].
  - rewrite (ch_head _ _ _ Hc). cbn. eexists. split; [reflexivity|]. split; [|repeat split].
    split; [apply chain_singleton; assumption|repeat constructor; assumption].
  - destruct (exists_last Hne) as (l0 & x & ->). pose proof (chain_length _ _ _ _ Hc Ha) as Hlen.
    rewrite length_app in Hlen. simpl in Hlen.
    destruct (chain_last_spec _ _ _ _ (S (size (bufs s))) Hc) as [-> Hh]; [lia|].
    replace (idequeue s =? 0) with false by lia.
    eexists. split; [reflexivity|]. split; [|split; [reflexivity|split; [reflexivity|]]].
    2:{ intros p. rewrite at_upd. destruct (Z.eqb_spec p x) as [->|]; auto. }
    split.
    + assert (b <> x) by (intros ->; apply Hb; set_solver).
      apply (chain_snoc (q_link s)); try assumption; unfold q_link.
      * rewrite at_upd. replace (b =? x) with false by lia. assumption.
      * rewrite at_upd, Z.eqb_refl. reflexivity.
      * intros p _ Hp. rewrite at_upd. replace (p =? x) with false by lia. reflexivity.
    + apply Forall_app. split; [eapply in_store_mono; [eassumption|cbn; set_solver]|].
      repeat constructor. cbn [upd bufs]. set_solver.
Qed.

(** The operation that [ide_op] sends for buffer [x]. *)
Definition op_ports (x : buffer) : list port_write :=
  let sector := u32 (block x * 2) in
  (if flags x .& B_DIRTY =? 0 then [Outb 0x1F7 0xC4] else [Outsl 0x1F0 (data x); Outb 0x1F7 0xC5]) ++
  [Outb 0x1F6 (0xE0 .| ((dev x .& 1) .<< 4) .| LBA_LAST sector);
   Outb 0x1F5 (LBA_HIGH sector); Outb 0x1F4 (LBA_MID sector); Outb 0x1F3 (LBA_LOW sector);
   Outb 0x1F2 2; Outb 0x3F6 0].

Lemma ide_op_ports b s : ports (ide_op b s) = op_ports (at_buf s b) ++ ports s.
Proof. unfold ide_op, op_ports. destruct (_ =? 0); reflexivity. Qed.

(** C12: [ide_rw] of a buffer that is not queued appends it to the queue of
    pending operations and returns 0; when the queue was empty, and only then,
    it sends the buffer's operation to the controller. *)
Theorem ide_rw_enqueues s l b :
  queue_rep s l -> b ∉ l -> b <> 0 -> b ∈ dom (bufs s) -> dev (at_buf s b) = 1 ->
  (flags (at_buf s b) .& (B_VALID .| B_DIRTY) =? B_VALID) = false ->
  exists s', ide_rw b s = Ok 0 s' /\ queue_rep s' (l ++ [b]) /\ flags (at_buf s' b) = flags (at_buf s b) /\
    ports s' = (if decide (l = []) then op_ports (at_buf s b) else []) ++ ports s.
Proof.
  intros HR Hb Hb0 Hbd Hdev Hfl. unfold ide_rw. rewrite Hfl, Hdev. cbn [Z.eqb Pos.eqb negb].
  unfold bind at 1, modify at 1. set (s1 := upd b (set_q 0) s).
  assert (HR1 : queue_rep s1 l).
  { apply (queue_rep_same s); [assumption|reflexivity| |cbn; set_solver].
    intros p Hp. unfold s1. rewrite at_upd. destruct (Z.eqb_spec p b) as [->|]; [contradiction|reflexivity]. }
  destruct (append_queue_spec s1 l b HR1 Hb Hb0) as (s2 & E2 & HR2 & _ & Hp2 & Hsame).
  { cbn. set_solver. }
  { unfold s1. rewrite at_upd, Z.eqb_refl. reflexivity. }
  assert (Hb2 : flags (at_buf s2 b) = flags (at_buf s b) /\ dev (at_buf s2 b) = dev (at_buf s b) /\
                block (at_buf s2 b) = block (at_buf s b) /\ data (at_buf s2 b) = data (at_buf s b)).
  { destruct (Hsame b) as (-> & -> & -> & ->). unfold s1. rewrite at_upd, Z.eqb_refl. auto. }
  unfold bind at 1. rewrite E2. unfold bind, modify, sleep, ret.
  eexists. split; [reflexivity|].
  assert (Hq2 : (idequeue s2 =? b) = if decide (l = []) then true else false).
  { rewrite (ch_head _ _ _ (proj1 HR2)). destruct l as [|y l]; simpl.
    - apply Z.eqb_refl.
    - apply Z.eqb_neq. intros ->. apply Hb. left. }
  rewrite Hq2. destruct (decide (l = [])) as [->|Hne].
  - destruct (ide_op_bufs b s2) as (Eb & Eq & _). split; [|split].
    + apply (queue_rep_same s2); [assumption|assumption| |rewrite Eb; set_solver].
      intros p _. unfold at_buf. rewrite Eb. reflexivity.
    + unfold at_buf at 1. rewrite Eb. fold (at_buf s2 b). apply Hb2.
    + rewrite ide_op_ports, Hp2. cbn [s1 upd ports]. f_equal. unfold op_ports.
      destruct Hb2 as (-> & -> & -> & ->). reflexivity.
  - split; [assumption|]. split; [apply Hb2|]. rewrite Hp2. reflexivity.
Qed.

(** C11: completion of an operation.  The interrupt handler takes the head off
    the queue, marks it valid and clean (storing the sector just read when the
    operation was a read), starts the operation of the next buffer, if any,
    and releases the lock. *)
Theorem ide_handler_completes s b l r sector :
  queue_rep s (b :: l) -> idelock s = 0 -> r .& (IDE_DF .| IDE_ERR) = 0 ->
  exists s', ide_handler r sector s = Ok tt s' /\ queue_rep s' l /\ idelock s' = 0 /\
    flags (at_buf s' b) = (flags (at_buf s b) .| B_VALID) .& 0xFB /\
    data (at_buf s' b) = (if flags (at_buf s b) .& B_DIRTY =? 0 then sector else data (at_buf s b)) /\
    ports s' = match l with [] => [] | x :: _ => op_ports (at_buf s x) end ++ ports s.
Proof.
  intros [Hc Hst] Hlk Hr. pose proof (ch_nonnull _ _ _ Hc) as Ha. apply Forall_cons in Ha as [Hb0 Ha].
  destruct (chain_tail _ _ _ _ Hc) as (Hc' & Hh & Hbl). apply Forall_cons in Hst as [Hbd Hst].
  unfold ide_handler, bind, acquire_ide, gets, modify. rewrite Hlk. cbn [Z.eqb].
  cbn [set_idelock idequeue]. rewrite Hh. replace (b =? 0) with false by lia.
  unfold ide_wait. rewrite Hr. cbn [Z.eqb negb andb Z.leb]. rewrite andb_true_r.
  set (s1 := set_queue _ _). change (at_buf s1 b) with (at_buf s b).
  set (s2 := if flags (at_buf s b) .& B_DIRTY =? 0 then upd b (set_data sector) s1 else s1).
  assert (E2 : forall p, at_buf s2 p = if p =? b then set_data (if flags (at_buf s b) .& B_DIRTY =? 0 then sector else data (at_buf s b)) (at_buf s b) else at_buf s p).
  { intros p. unfold s2. destruct (flags (at_buf s b) .& B_DIRTY =? 0).
    - rewrite at_upd. reflexivity.
    - destruct (Z.eqb_spec p b) as [->|]; [|reflexivity]. change (at_buf s1 b) with (at_buf s b). destruct (at_buf s b).
      reflexivity. }
  rewrite !at_upd, E2, !Z.eqb_refl. cbn [set_data set_flags flags].
  set (s4 := upd b _ (upd b _ s2)).
  assert (Hq4 : idequeue s4 = q_link s b /\ idelock s4 = 1 /\ ports s4 = ports s /\ dom (bufs s) ⊆ dom (bufs s4)).
  { unfold s4, s2. destruct (flags (at_buf s b) .& B_DIRTY =? 0); cbn; repeat split; set_solver. }
  assert (E4 : forall p, p <> b -> at_buf s4 p = at_buf s p).
  { intros p Hp. unfold s4. rewrite !at_upd, !E2. replace (p =? b) with false by lia. reflexivity. }
  assert (HR4 : queue_rep s4 l).
  { split; [|eapply in_store_mono; [eassumption|apply Hq4]].
    rewrite (proj1 Hq4). apply (chain_ext (q_link s)); [assumption|]. intros p Hp. unfold q_link. rewrite E4; [reflexivity|].
    intros ->. contradiction. }
  assert (Hb4 : flags (at_buf s4 b) = (flags (at_buf s b) .| B_VALID) .& 0xFB /\
    data (at_buf s4 b) = if flags (at_buf s b) .& B_DIRTY =? 0 then sector else data (at_buf s b)).
  { unfold s4. rewrite !at_upd, E2, !Z.eqb_refl. split; reflexivity. }
  unfold wake. destruct Hq4 as (Hq4 & Hlk4 & Hp4 & _).
  rewrite Hq4, (ch_head _ _ _ Hc').
  eexists. split; [reflexivity|]. destruct l as [|x l]; cbn [lookup list_lookup default negb Z.eqb from_option id].
  - split; [apply (queue_rep_same s4); [assumption|reflexivity|reflexivity|reflexivity]|]. split; [reflexivity|].
    split; [apply Hb4|]. split; [apply Hb4|]. exact Hp4.
  - assert (Hx : x <> 0 /\ x <> b). { apply Forall_cons in Ha as [? _]. split; [assumption|]. intros ->. apply Hbl. left. }
    replace (x =? 0) with false by lia. cbn [negb]. destruct (ide_op_bufs x s4) as (Eb & Eq & _).
    assert (Eat : forall p, at_buf (set_idelock 0 (ide_op x s4)) p = at_buf s4 p) by (intros p; unfold at_buf; cbn; rewrite Eb;
      reflexivity).
    split; [apply (queue_rep_same s4); [assumption|exact Eq|intros p _; rewrite Eat; reflexivity|cbn; rewrite Eb; reflexivity]|].
    split; [reflexivity|]. rewrite Eat. split; [apply Hb4|]. split; [apply Hb4|].
    cbn [set_idelock ports]. rewrite ide_op_ports, Hp4, E4 by apply Hx. reflexivity.
Qed.

(** An interrupt with nothing queued leaves the disk lock held (the code
    releases the queue pointer instead), so the next interrupt waits for ever. *)
Theorem spurious_interrupt_deadlocks s r1 d1 r2 d2 :
  idequeue s = 0 -> idelock s = 0 ->
  (ide_handler r1 d1 ;;; ide_handler r2 d2) s = Spin.
Proof.
  intros Hq Hl. unfold ide_handler, bind, acquire_ide, gets, modify. rewrite Hl. cbn. rewrite Hq. reflexivity.
Qed.

(** ** The cache *)

Definition cache_rep (s : ide_state) (l : list Z) : Prop := chain (next_link s) (cache_list s) l /\ in_store s l.

(** At most one buffer of the list for each block of device [d]. *)
Definition one_per_block (s : ide_state) (l : list Z) (d : Z) : Prop :=
  forall p1 p2, p1 ∈ l -> p2 ∈ l -> dev (at_buf s p1) = d -> dev (at_buf s p2) = d ->
    block (at_buf s p1) = block (at_buf s p2) -> p1 = p2.

Lemma list_find_spec s l f : chain (next_link s) (cache_list s) l -> forall fuel i,
  (i <= length l)%nat -> (length l < i + fuel)%nat ->
  list_find fuel s f (default 0 (l !! i)) = Some (default 0 (find (fun p => f (at_buf s p)) (drop i l))).
Proof.
  intros [_ Hn _ Ha] fuel. induction fuel as [|k IH]; intros i Hi Hf; [lia|]. cbn [list_find].
  destruct (l !! i) as [p|] eqn:E.
  - rewrite (drop_S l p i E). cbn [find default from_option id].
    rewrite Forall_forall in Ha. pose proof (Ha p ltac:(eapply list_elem_of_lookup_2; eassumption)).
    replace (p =? 0) with false by lia. destruct (f (at_buf s p)); [reflexivity|].
    change (next (at_buf s p)) with (next_link s p). rewrite (Hn i p E). apply lookup_lt_Some in E. apply IH; lia.
  - apply lookup_ge_None_1 in E. rewrite drop_ge by assumption. reflexivity.
Qed.

(** The list after a buffer was appended. *)
Lemma cache_append s l p x :
  cache_rep s l -> p ∉ l -> p <> 0 -> next x = 0 ->
  exists s', ((if cache_list s =? 0 then modify (set_list p)
     else last <-- some_or_spin (chain_last (S (size (bufs s))) (next_link s) (cache_list s)) ;;
          modify (upd last (set_next p))) ;;; modify (upd p (fun _ => x))) s = Ok tt s' /\
    cache_rep s' (l ++ [p]) /\ at_buf s' p = x /\
    forall y, y <> p -> dev (at_buf s' y) = dev (at_buf s y) /\ block (at_buf s' y) = block (at_buf s y).
Proof.
  intros [Hc Ha] Hp Hp0 Hx. destruct (decide (l = [])) as [->|Hne].
  - rewrite (ch_head _ _ _ Hc). unfold bind, modify. cbn [default lookup list_lookup Z.eqb from_option id].
    eexists. split; [reflexivity|]. split; [|split; [rewrite at_upd, Z.eqb_refl; reflexivity|]].
    + split; [|repeat constructor; cbn; set_solver].
      apply chain_singleton; [assumption|]. unfold next_link. rewrite at_upd, Z.eqb_refl. assumption.
    + intros y Hy. rewrite at_upd. replace (y =? p) with false by lia. auto.
  - destruct (exists_last Hne) as (l0 & z & ->). pose proof (chain_length _ _ _ _ Hc Ha) as Hlen.
    rewrite length_app in Hlen. simpl in Hlen.
    destruct (chain_last_spec _ _ _ _ (S (size (bufs s))) Hc) as [E Hh]; [lia|].
    replace (cache_list s =? 0) with false by lia. rewrite E. unfold bind, some_or_spin, ret, modify.
    assert (Hz : p <> z) by (intros ->; apply Hp; set_solver).
    eexists. split; [reflexivity|]. split; [|split; [rewrite at_upd, Z.eqb_refl; reflexivity|]].
    + split; [|apply Forall_app; split; [eapply in_store_mono; [eassumption|cbn; set_solver]|repeat constructor; cbn;
        set_solver]].
      apply (chain_snoc (next_link s)); try assumption; unfold next_link.
      * rewrite at_upd, Z.eqb_refl. assumption.
      * rewrite !at_upd. replace (z =? p) with false by lia. rewrite Z.eqb_refl. reflexivity.
      * intros y Hy Hyz. rewrite !at_upd. replace (y =? p) with false by (symmetry; apply Z.eqb_neq; intros ->; contradiction).
        replace (y =? z) with false by lia. reflexivity.
    + intros y Hy. rewrite !at_upd. replace (y =? p) with false by lia. destruct (Z.eqb_spec y z) as [->|]; auto.
Qed.

(** The buffer the search finds, or 0. *)
Definition cached (s : ide_state) (l : list Z) (d bl : Z) : option Z :=
  find (fun y => (dev (at_buf s y) =? d) && (block (at_buf s y) =? bl)) l.

Lemma cached_find s l d bl : cache_rep s l ->
  list_find (S (S (size (bufs s)))) (set_cache_lock 1 s) (fun x => (dev x =? d) && (block x =? bl)) (cache_list s) =
    Some (default 0 (cached s l d bl)).
Proof.
  intros [Hc Ha]. pose proof (chain_length _ _ _ _ Hc Ha) as Hlen.
  pose proof (list_find_spec (set_cache_lock 1 s) l (fun x => (dev x =? d) && (block x =? bl)) Hc (S (S (size (bufs s)))) 0 ltac:(lia)) as L.
  rewrite drop_0, <- (ch_head _ _ _ Hc) in L. apply L. lia.
Qed.

(** A hit only sets the busy flag. *)
Lemma buffer_get_hit s l p old d bl b :
  cache_rep s l -> cache_lock s = 0 -> cached s l d bl = Some b ->
  exists s', buffer_get p old d bl s = Ok b s' /\ cache_rep s' l /\ cache_lock s' = 0 /\ b ∈ l /\
    dev (at_buf s b) = d /\ block (at_buf s b) = bl /\
    forall y, dev (at_buf s' y) = dev (at_buf s y) /\ block (at_buf s' y) = block (at_buf s y).
Proof.
  intros Hrep Hlk Ef. pose proof Hrep as [Hc Ha]. unfold buffer_get. unfold bind at 1, acquire_cache. rewrite Hlk. cbn [Z.eqb].
  unfold bind at 1, get. set (s0 := set_cache_lock 1 s).
  change (size (bufs s0)) with (size (bufs s)). change (cache_list s0) with (cache_list s). unfold s0 at 1.
  rewrite (cached_find s l d bl Hrep), Ef. unfold bind at 1, some_or_spin, ret. cbn [default from_option id].
  apply find_some in Ef as [Hbl Hf]. apply andb_true_iff in Hf as [Hd1 Hb1]. apply list_elem_of_In in Hbl.
  pose proof (ch_nonnull _ _ _ Hc) as Hnn. rewrite Forall_forall in Hnn. pose proof (Hnn b Hbl).
  replace (b =? 0) with false by lia. cbn [negb]. unfold bind, modify.
  set (s1 := if flags (at_buf s0 b) .& B_BUSY =? 0 then _ else _).
  assert (E1 : cache_list s1 = cache_list s /\ dom (bufs s) ⊆ dom (bufs s1) /\
    forall y, next (at_buf s1 y) = next (at_buf s y) /\ dev (at_buf s1 y) = dev (at_buf s y) /\
      block (at_buf s1 y) = block (at_buf s y)).
  { unfold s1, sleep. destruct (_ =? 0); (split; [reflexivity|]); (split; [cbn; set_solver|]); intros y; [|auto].
    rewrite at_upd. destruct (Z.eqb_spec y b) as [->|]; auto. }
  destruct E1 as (Ecl & Edom & Eat). exists (set_cache_lock 0 s1). split; [reflexivity|]. split; [|split; [reflexivity|]].
  - split; [|eapply in_store_mono; [eassumption|exact Edom]]. cbn [set_cache_lock cache_list]. rewrite Ecl.
    apply (chain_ext (next_link s)); [assumption|]. intros y _. apply Eat.
  - split; [assumption|]. split; [lia|]. split; [lia|]. intros y. apply Eat.
Qed.

(** A miss appends the new buffer. *)
Lemma buffer_get_miss s l p old d bl :
  cache_rep s l -> cache_lock s = 0 -> cached s l d bl = None -> p ∉ l -> p <> 0 -> next old = 0 ->
  exists s', buffer_get p old d bl s = Ok p s' /\ cache_rep s' (l ++ [p]) /\ cache_lock s' = 0 /\
    at_buf s' p = MkBuf B_BUSY d bl (next old) (q old) (data old) /\
    forall y, y <> p -> dev (at_buf s' y) = dev (at_buf s y) /\ block (at_buf s' y) = block (at_buf s y).
Proof.
  intros Hrep Hlk Ef Hp Hp0 Hold. pose proof Hrep as [Hc Ha]. unfold buffer_get. unfold bind at 1, acquire_cache. rewrite Hlk.
  cbn [Z.eqb].
  unfold bind at 1, get. set (s0 := set_cache_lock 1 s).
  change (size (bufs s0)) with (size (bufs s)) at 1. change (cache_list s0) with (cache_list s) at 1. unfold s0 at 1.
  rewrite (cached_find s l d bl Hrep), Ef. unfold bind at 1, some_or_spin, ret. cbn [default from_option id Z.eqb negb].
  set (x := MkBuf B_BUSY d bl (next old) (q old) (data old)).
  destruct (cache_append s0 l p x (conj Hc Ha) Hp Hp0 Hold) as (s1 & E1 & [Hc1 Ha1] & Ep & Eo).
  unfold bind in E1 |- *. exists (set_cache_lock 0 s1). split.
  { destruct (if cache_list s0 =? 0 then _ else _) as [[] t| |]; [|discriminate|discriminate].
    unfold modify in *. injection E1 as <-. reflexivity. }
  split; [split; assumption|]. split; [reflexivity|]. split; [exact Ep|]. exact Eo.
Qed.

(** C13: the cache keeps one buffer per block.  [buffer_get] returns a buffer
    of the list for exactly the block asked for, marked busy: the one already
    there, or a new one at the end of the list when there was none.  A list
    with at most one buffer per block stays so.  (A new buffer's [next] field
    is never assigned; the memory must happen to hold 0.) *)
Theorem buffer_get_unique s l p old d bl :
  cache_rep s l -> cache_lock s = 0 -> one_per_block s l d -> p ∉ l -> p <> 0 -> next old = 0 ->
  exists b s' l', buffer_get p old d bl s = Ok b s' /\ cache_rep s' l' /\ cache_lock s' = 0 /\
    b ∈ l' /\ dev (at_buf s' b) = d /\ block (at_buf s' b) = bl /\ one_per_block s' l' d /\
    (b ∈ l /\ l' = l \/ b = p /\ l' = l ++ [p]).
Proof.
  intros Hrep Hlk Huni Hp Hp0 Hold. destruct (cached s l d bl) as [b|] eqn:Ef.
  - destruct (buffer_get_hit s l p old d bl b Hrep Hlk Ef) as (s' & E & Hrep' & Hlk' & Hb & Hd & Hbl & Eat).
    exists b, s', l. destruct (Eat b) as [E1 E2]. rewrite E1, E2.
    split; [exact E|]. split; [assumption|]. split; [assumption|]. split; [assumption|]. split; [assumption|].
    split; [assumption|].
    split; [|auto]. intros p1 p2. destruct (Eat p1) as [-> ->], (Eat p2) as [-> ->]. apply Huni.
  - destruct (buffer_get_miss s l p old d bl Hrep Hlk Ef Hp Hp0 Hold) as (s' & E & Hrep' & Hlk' & Ep & Eo).
    exists p, s', (l ++ [p]). rewrite Ep. split; [exact E|]. split; [assumption|]. split; [assumption|]. split; [set_solver|].
    split; [reflexivity|]. split; [reflexivity|]. split; [|auto]. intros p1 p2 H1 H2.
    assert (Hno : forall y, y ∈ l -> dev (at_buf s y) = d -> block (at_buf s y) <> bl).
    { intros y Hy Hyd Hyb. apply list_elem_of_In in Hy. pose proof (find_none _ _ Ef y Hy) as Hf.
      cbn beta in Hf. rewrite Hyd, Hyb, !Z.eqb_refl in Hf. discriminate. }
    assert (Hl : forall y, y ∈ l -> y <> p) by (intros y Hy ->; contradiction).
    apply elem_of_app in H1 as [H1|H1]; apply elem_of_app in H2 as [H2|H2]; rewrite ?list_elem_of_singleton in *; subst.
    + destruct (Eo p1 (Hl _ H1)) as [-> ->], (Eo p2 (Hl _ H2)) as [-> ->]. apply Huni; assumption.
    + rewrite Ep. destruct (Eo p1 (Hl _ H1)) as [-> ->]. cbn. intros Hd1 _ Hb1. exfalso. exact (Hno _ H1 Hd1 Hb1).
    + rewrite Ep. destruct (Eo p2 (Hl _ H2)) as [-> ->]. cbn. intros _ Hd1 Hb1. exfalso. exact (Hno _ H2 Hd1 (eq_sym Hb1)).
    + reflexivity.
Qed.

(** ** Instances of the claims *)

(** Two buffers at 0x1000 and 0x2000: the first dirty, the second to be read;
    both in the cache list. *)
Definition demo (queue : Z) : ide_state :=
  MkIde (<[0x1000 := MkBuf 5 1 7 0x2000 0 [1; 2]]> (<[0x2000 := MkBuf 1 1 9 0 0 []]> ∅)) 0x1000 0 queue 0 1 [].

Lemma demo_queue_empty : queue_rep (demo 0) [].
Proof. split; [split; [reflexivity|intros i p Hp; discriminate|constructor|constructor]|constructor]. Qed.

Lemma demo_queue_one : queue_rep (demo 0x1000) [0x1000].
Proof.
  split; [apply chain_singleton; [lia|vm_compute; reflexivity]|]. apply Forall_singleton. cbn. set_solver.
Qed.

Lemma demo_cache : cache_rep (demo 0) [0x1000; 0x2000].
Proof.
  split.
  - split; [reflexivity| |repeat constructor; set_solver|repeat constructor; lia].
    intros [|[|i]] p Hp; simplify_eq/=; vm_compute; reflexivity.
  - repeat constructor; cbn; set_solver.
Qed.

Lemma ide_rw_enqueues_witness :
  exists s', ide_rw 0x1000 (demo 0) = Ok 0 s' /\ queue_rep s' ([] ++ [0x1000]) /\
    flags (at_buf s' 0x1000) = flags (at_buf (demo 0) 0x1000) /\
    ports s' = (if decide ([] = @nil Z) then op_ports (at_buf (demo 0) 0x1000) else []) ++ ports (demo 0).
Proof.
  apply (ide_rw_enqueues (demo 0) [] 0x1000 demo_queue_empty); [set_solver|lia|cbn; set_solver| |];
    vm_compute; reflexivity.
Defined.

Lemma ide_handler_completes_witness :
  exists s', ide_handler 0x50 [] (demo 0x1000) = Ok tt s' /\ queue_rep s' [] /\ idelock s' = 0 /\
    flags (at_buf s' 0x1000) = (flags (at_buf (demo 0x1000) 0x1000) .| B_VALID) .& 0xFB /\
    data (at_buf s' 0x1000) = (if flags (at_buf (demo 0x1000) 0x1000) .& B_DIRTY =? 0 then [] else data (at_buf (demo 0x1000) 0x1000)) /\
    ports s' = [] ++ ports (demo 0x1000).
Proof. apply (ide_handler_completes (demo 0x1000) 0x1000 [] 0x50 [] demo_queue_one); reflexivity. Defined.

Lemma spurious_interrupt_deadlocks_witness :
  (ide_handler 0x50 [] ;;; ide_handler 0x50 []) (demo 0) = Spin.
Proof. apply (spurious_interrupt_deadlocks (demo 0) 0x50 [] 0x50 []); reflexivity. Defined.

Lemma buffer_get_unique_witness :
  exists b s' l', buffer_get 0x3000 zero_buf 1 11 (demo 0) = Ok b s' /\ cache_rep s' l' /\ cache_lock s' = 0 /\
    b ∈ l' /\ dev (at_buf s' b) = 1 /\ block (at_buf s' b) = 11 /\ one_per_block s' l' 1 /\
    (b ∈ [0x1000; 0x2000] /\ l' = [0x1000; 0x2000] \/ b = 0x3000 /\ l' = [0x1000; 0x2000] ++ [0x3000]).
Proof.
  apply (buffer_get_unique (demo 0) [0x1000; 0x2000] 0x3000 zero_buf 1 11 demo_cache); [reflexivity| |set_solver|lia|reflexivity].
  intros p1 p2 H1 H2 _ _. apply list_elem_of_In in H1, H2.
  destruct H1 as [<-|[<-|[]]], H2 as [<-|[<-|[]]]; vm_compute; congruence.
Defined.
