(* ===== verification/LassIsa.v ===== *)
(** * user/opcodes.h: the instruction table of the assembler

    Operand kinds, the register and segment names, and the table [x86] row by
    row, in the order in which the assembler searches it.  A name is the
    array [char name[10]] as a string. *)

From stdpp Require Import base numbers list.
From Stdlib Require Import ZArith String Ascii.
From S2P Require Import Prelude.
Open Scope Z_scope.

(** A C string as the list of its characters. *)
Definition chars (s : string) : list Z := (fun a => Z.of_N (N_of_ascii a)) <$> list_ascii_of_string s.

Definition EAX : Z := 0.
Definition ECX : Z := 1.
Definition EDX : Z := 2.
Definition EBX : Z := 3.
Definition ESP : Z := 4.
Definition EBP : Z := 5.
Definition ESI : Z := 6.
Definition EDI : Z := 7.

Definition MOD_ZERO : Z := 0.
Definition MOD_ONE : Z := 1.
Definition MOD_FOUR : Z := 2.
Definition MOD_REG : Z := 3.

Definition MODRM (mod_ reg rm : Z) : Z := ((mod_ .& 0x3) .<< 6) .| ((reg .& 0x7) .<< 3) .| (rm .& 0x7).

Record syntax := MkSyntax { syn_name : string; code : Z }.
Definition registers : list syntax :=
  [MkSyntax "eax" EAX; MkSyntax "ecx" ECX; MkSyntax "edx" EDX; MkSyntax "ebx" EBX;
   MkSyntax "esp" ESP; MkSyntax "ebp" EBP; MkSyntax "esi" ESI; MkSyntax "edi" EDI;
   MkSyntax "ax" EAX; MkSyntax "cx" ECX; MkSyntax "dx" EDX; MkSyntax "bx" EBX;
   MkSyntax "sp" ESP; MkSyntax "bp" EBP; MkSyntax "si" ESI; MkSyntax "di" EDI].
Definition half : list syntax :=
  [MkSyntax "al" EAX; MkSyntax "cl" ECX; MkSyntax "dl" EDX; MkSyntax "bl" EBX;
   MkSyntax "ah" EAX; MkSyntax "ch" ECX; MkSyntax "dh" EDX; MkSyntax "bh" EBX].
Definition segments : list syntax :=
  [MkSyntax "ss" 2; MkSyntax "cs" 1; MkSyntax "es" 0; MkSyntax "fs" 4; MkSyntax "gs" 5; MkSyntax "ds" 3].

(** Operand kinds. *)
Definition none : Z := 0.
Definition r32 : Z := 0x10.
Definition rm32 : Z := r32.
Definition r8 : Z := 0x20.
Definition rm8 : Z := r8.
Definition imm8 : Z := 0x40.
Definition imm32 : Z := 0x80.
Definition crn : Z := 0x100.
Definition rel8 : Z := 0x200.
Definition rel32 : Z := 0x400.
Definition sreg : Z := 0x1000.
Definition eax : Z := r32 .| EAX .| 0x800.
Definition edx : Z := r32 .| EDX.
Definition ecx : Z := r32 .| ECX.
Definition ss : Z := sreg .| 2.
Definition cs : Z := sreg .| 1.
Definition ds : Z := sreg .| 3.
Definition es : Z := sreg .| 0.
Definition fs : Z := sreg .| 4.
Definition gs : Z := sreg .| 5.

Record isa := MkIsa {
  name : string; op1 : Z; op2 : Z; primary : Z; extension : Z; secondary : Z; prefix : Z;
}.

Definition x86_1 : list isa := [
  MkIsa "adc" r8 rm8 0x12 0x0 0x0 0x0;
  MkIsa "adc" r32 rm32 0x13 0x0 0x0 0x0;
  MkIsa "adc" eax imm32 0x15 0x0 0x0 0x0;
  MkIsa "adc" rm8 imm8 0x80 0x2 0x0 0x0;
  MkIsa "adc" rm32 imm32 0x81 0x2 0x0 0x0;
  MkIsa "adc" rm8 imm8 0x82 0x2 0x0 0x0;
  MkIsa "adc" rm32 imm8 0x83 0x2 0x0 0x0;
  MkIsa "add" rm32 imm8 0x83 0x2 0x0 0x0;
  MkIsa "add" r8 rm8 0x2 0x0 0x0 0x0;
  MkIsa "add" r32 rm32 0x3 0x0 0x0 0x0;
  MkIsa "add" eax imm32 0x5 0x0 0x0 0x0;
  MkIsa "add" rm8 imm8 0x80 0x0 0x0 0x0;
  MkIsa "add" rm32 imm32 0x81 0x0 0x0 0x0;
  MkIsa "add" rm8 imm8 0x82 0x0 0x0 0x0;
  MkIsa "add" rm32 imm8 0x83 0x0 0x0 0x0;
  MkIsa "and" r8 rm8 0x22 0x0 0x0 0x0;
  MkIsa "and" r32 rm32 0x23 0x0 0x0 0x0;
  MkIsa "and" eax imm32 0x25 0x0 0x0 0x0;
  MkIsa "and" rm8 imm8 0x80 0x4 0x0 0x0;
  MkIsa "and" rm32 imm32 0x81 0x4 0x0 0x0;
  MkIsa "and" rm8 imm8 0x82 0x4 0x0 0x0;
  MkIsa "and" rm32 imm8 0x83 0x4 0x0 0x0;
  MkIsa "bsf" r32 rm32 0xbc 0x0 0x0 0x0f;
  MkIsa "bsr" r32 rm32 0xbd 0x0 0x0 0x0f;
  MkIsa "bswap" r32 none 0xc8 0xDEAD 0x0 0x0f;
  MkIsa "bt" rm32 imm8 0xba 0x4 0x0 0x0f;
  MkIsa "btc" rm32 imm8 0xba 0x7 0x0 0x0f;
  MkIsa "btr" rm32 imm8 0xba 0x6 0x0 0x0f;
  MkIsa "bts" rm32 imm8 0xba 0x5 0x0 0x0f;
  MkIsa "call" rel32 none 0xe8 0x0 0x0 0x0;
  MkIsa "call" rm32 none 0xff 0x2 0x0 0x0;
  MkIsa "cdq" edx eax 0x99 0x0 0x0 0x0;
  MkIsa "clc" none none 0xf8 0x0 0x0 0x0;
  MkIsa "cld" none none 0xfc 0x0 0x0 0x0;
  MkIsa "cli" none none 0xfa 0x0 0x0 0x0;
  MkIsa "cmc" none none 0xf5 0x0 0x0 0x0;
  MkIsa "cmovb" r32 rm32 0x42 0x0 0x0 0x0f;
  MkIsa "cmovnae" r32 rm32 0x42 0x0 0x0 0x0f;
  MkIsa "cmovc" r32 rm32 0x42 0x0 0x0 0x0f;
  MkIsa "cmovbe" r32 rm32 0x46 0x0 0x0 0x0f;
  MkIsa "cmovna" r32 rm32 0x46 0x0 0x0 0x0f;
  MkIsa "cmovl" r32 rm32 0x4c 0x0 0x0 0x0f;
  MkIsa "cmovnge" r32 rm32 0x4c 0x0 0x0 0x0f;
  MkIsa "cmovle" r32 rm32 0x4e 0x0 0x0 0x0f;
  MkIsa "cmovng" r32 rm32 0x4e 0x0 0x0 0x0f;
  MkIsa "cmovnb" r32 rm32 0x43 0x0 0x0 0x0f;
  MkIsa "cmovae" r32 rm32 0x43 0x0 0x0 0x0f;
  MkIsa "cmovnc" r32 rm32 0x43 0x0 0x0 0x0f;
  MkIsa "cmovnbe" r32 rm32 0x47 0x0 0x0 0x0f;
  MkIsa "cmova" r32 rm32 0x47 0x0 0x0 0x0f;
  MkIsa "cmovnl" r32 rm32 0x4d 0x0 0x0 0x0f;
  MkIsa "cmovge" r32 rm32 0x4d 0x0 0x0 0x0f;
  MkIsa "cmovnle" r32 rm32 0x4f 0x0 0x0 0x0f;
  MkIsa "cmovg" r32 rm32 0x4f 0x0 0x0 0x0f;
  MkIsa "cmovno" r32 rm32 0x41 0x0 0x0 0x0f;
  MkIsa "cmovnp" r32 rm32 0x4b 0x0 0x0 0x0f;
  MkIsa "cmovpo" r32 rm32 0x4b 0x0 0x0 0x0f;
  MkIsa "cmovns" r32 rm32 0x49 0x0 0x0 0x0f;
  MkIsa "cmovnz" r32 rm32 0x45 0x0 0x0 0x0f;
  MkIsa "cmovne" r32 rm32 0x45 0x0 0x0 0x0f;
  MkIsa "cmovo" r32 rm32 0x40 0x0 0x0 0x0f;
  MkIsa "cmovp" r32 rm32 0x4a 0x0 0x0 0x0f;
  MkIsa "cmovpe" r32 rm32 0x4a 0x0 0x0 0x0f;
  MkIsa "cmovs" r32 rm32 0x48 0x0 0x0 0x0f;
  MkIsa "cmovz" r32 rm32 0x44 0x0 0x0 0x0f;
  MkIsa "cmove" r32 rm32 0x44 0x0 0x0 0x0f;
  MkIsa "cmp" r8 rm8 0x3a 0x0 0x0 0x0;
  MkIsa "cmp" r32 rm32 0x3b 0x0 0x0 0x0;
  MkIsa "cmp" eax imm32 0x3d 0x0 0x0 0x0;
  MkIsa "cmp" rm8 imm8 0x80 0x7 0x0 0x0;
  MkIsa "cmp" rm32 imm32 0x81 0x7 0x0 0x0;
  MkIsa "cmp" rm8 imm8 0x82 0x7 0x0 0x0;
  MkIsa "cmp" rm32 imm8 0x83 0x7 0x0 0x0;
  MkIsa "cmpsb" rm32 imm8 0x83 0x7 0x0 0x0;
  MkIsa "cmpsw" rm32 imm8 0x83 0x7 0x0 0x0;
  MkIsa "cmpsd" rm32 imm8 0x83 0x7 0x0 0x0;
  MkIsa "cmpxchg" rm32 eax 0xb1 0x0 0x0 0x0f;
  MkIsa "crc32" r32 rm8 0x38 0x0 0xf2 0x0f;
  MkIsa "crc32" r32 rm32 0x38 0x0 0xf2 0x0f;
  MkIsa "cs" r32 rm32 0x38 0x0 0xf2 0x0f;
  MkIsa "dec" r32 none 0x48 0xDEAD 0x0 0x0;
  MkIsa "dec" rm8 none 0xfe 0x0 0x0 0x0;
  MkIsa "dec" rm32 none 0xff 0x0 0x0 0x0;
  MkIsa "div" rm8 none 0xf6 0x6 0x0 0x0;
  MkIsa "div" rm32 none 0xf7 0x6 0x0 0x0;
  MkIsa "ds" rm32 none 0xf7 0x6 0x0 0x0;
  MkIsa "emms" none none 0x77 0x0 0x0 0x0f;
  MkIsa "es" none none 0x77 0x0 0x0 0x0f;
  MkIsa "fadd" none none 0x77 0x0 0x0 0x0f;
  MkIsa "fclex" none none 0xdb 0x4 0x9b 0x0;
  MkIsa "fdecstp" none none 0xd9 0x6 0x0 0x0;
  MkIsa "fdiv" none none 0xd9 0x6 0x0 0x0;
  MkIsa "fdivr" none none 0xd9 0x6 0x0 0x0;
  MkIsa "fincstp" none none 0xd9 0x6 0x0 0x0;
  MkIsa "finit" none none 0xdb 0x4 0x9b 0x0;
  MkIsa "fmul" none none 0xdb 0x4 0x9b 0x0;
  MkIsa "fnclex" none none 0xdb 0x4 0x0 0x0;
  MkIsa "fndisi nop" none none 0xdb 0x4 0x0 0x0;
  MkIsa "fneni nop" none none 0xdb 0x4 0x0 0x0;
  MkIsa "fninit" none none 0xdb 0x4 0x0 0x0;
  MkIsa "fnop" none none 0xd9 0x2 0x0 0x0;
  MkIsa "fnsetpm nop" none none 0xdb 0x4 0x0 0x0;
  MkIsa "fs" none none 0xdb 0x4 0x0 0x0;
  MkIsa "fsub" none none 0xdb 0x4 0x0 0x0;
  MkIsa "fsubr" none none 0xdb 0x4 0x0 0x0;
  MkIsa "fwait" none none 0x9b 0x0 0x0 0x0;
  MkIsa "wait" none none 0x9b 0x0 0x0 0x0;
  MkIsa "getsec" eax none 0x37 0x0 0x0 0x0f;
  MkIsa "gs" eax none 0x37 0x0 0x0 0x0f;
  MkIsa "hint_nop" rm32 none 0x18 0x4 0x0 0x0f;
  MkIsa "hint_nop" rm32 none 0x18 0x5 0x0 0x0f;
  MkIsa "hint_nop" rm32 none 0x18 0x6 0x0 0x0f;
  MkIsa "hint_nop" rm32 none 0x18 0x7 0x0 0x0f;
  MkIsa "hint_nop" rm32 none 0x19 0x0 0x0 0x0f;
  MkIsa "hint_nop" rm32 none 0x1a 0x0 0x0 0x0f;
  MkIsa "hint_nop" rm32 none 0x1b 0x0 0x0 0x0f;
  MkIsa "hint_nop" rm32 none 0x1c 0x0 0x0 0x0f;
  MkIsa "hint_nop" rm32 none 0x1d 0x0 0x0 0x0f;
  MkIsa "hint_nop" rm32 none 0x1e 0x0 0x0 0x0f
].

Definition x86_2 : list isa := [
  MkIsa "hint_nop" rm32 none 0x1f 0x0 0x0 0x0f;
  MkIsa "hint_nop" rm32 none 0x1f 0x2 0x0 0x0f;
  MkIsa "hint_nop" rm32 none 0x1f 0x3 0x0 0x0f;
  MkIsa "hint_nop" rm32 none 0x1f 0x4 0x0 0x0f;
  MkIsa "hint_nop" rm32 none 0x1f 0x5 0x0 0x0f;
  MkIsa "hint_nop" rm32 none 0x1f 0x6 0x0 0x0f;
  MkIsa "hint_nop" rm32 none 0x1f 0x7 0x0 0x0f;
  MkIsa "hlt" none none 0xf4 0x0 0x0 0x0;
  MkIsa "idiv" edx eax 0xf7 0x7 0x0 0x0;
  MkIsa "imul" r32 rm32 0x69 0x0 0x0 0x0;
  MkIsa "imul" r32 rm32 0x6b 0x0 0x0 0x0;
  MkIsa "imul" edx eax 0xf7 0x5 0x0 0x0;
  MkIsa "imul" r32 rm32 0xaf 0x0 0x0 0x0f;
  MkIsa "in" eax imm8 0xe5 0x0 0x0 0x0;
  MkIsa "inc" r32 none 0x40 0xDEAD 0x0 0x0;
  MkIsa "inc" rm8 none 0xfe 0x0 0x0 0x0;
  MkIsa "inc" rm32 none 0xff 0x0 0x0 0x0;
  MkIsa "insb" rm32 none 0xff 0x0 0x0 0x0;
  MkIsa "insw" rm32 none 0xff 0x0 0x0 0x0;
  MkIsa "insd" rm32 none 0xff 0x0 0x0 0x0;
  MkIsa "insertps" rm32 none 0xff 0x0 0x0 0x0;
  MkIsa "int" imm8 none 0xcd 0x0 0x0 0x0;
  MkIsa "int1" none none 0xf1 0x0 0x0 0x0;
  MkIsa "icebp" none none 0xf1 0x0 0x0 0x0;
  MkIsa "into" none none 0xce 0x0 0x0 0x0;
  MkIsa "invd" none none 0x8 0x0 0x0 0x0f;
  MkIsa "invlpg" none none 0x8 0x0 0x0 0x0f;
  MkIsa "iret" none none 0xcf 0x0 0x0 0x0;
  MkIsa "iretd" none none 0xcf 0x0 0x0 0x0;
  MkIsa "jb" rel8 none 0x72 0x0 0x0 0x0;
  MkIsa "jnae" rel8 none 0x72 0x0 0x0 0x0;
  MkIsa "jc" rel8 none 0x72 0x0 0x0 0x0;
  MkIsa "jb" rel32 none 0x82 0x0 0x0 0x0f;
  MkIsa "jnae" rel32 none 0x82 0x0 0x0 0x0f;
  MkIsa "jc" rel32 none 0x82 0x0 0x0 0x0f;
  MkIsa "jbe" rel8 none 0x76 0x0 0x0 0x0;
  MkIsa "jna" rel8 none 0x76 0x0 0x0 0x0;
  MkIsa "jbe" rel32 none 0x86 0x0 0x0 0x0f;
  MkIsa "jna" rel32 none 0x86 0x0 0x0 0x0f;
  MkIsa "jecxz" rel32 none 0x86 0x0 0x0 0x0f;
  MkIsa "jl" rel8 none 0x7c 0x0 0x0 0x0;
  MkIsa "jnge" rel8 none 0x7c 0x0 0x0 0x0;
  MkIsa "jl" rel32 none 0x8c 0x0 0x0 0x0f;
  MkIsa "jnge" rel32 none 0x8c 0x0 0x0 0x0f;
  MkIsa "jle" rel8 none 0x7e 0x0 0x0 0x0;
  MkIsa "jng" rel8 none 0x7e 0x0 0x0 0x0;
  MkIsa "jle" rel32 none 0x8e 0x0 0x0 0x0f;
  MkIsa "jng" rel32 none 0x8e 0x0 0x0 0x0f;
  MkIsa "jmp" rel32 none 0xe9 0x0 0x0 0x0;
  MkIsa "jmp" rel8 none 0xeb 0x0 0x0 0x0;
  MkIsa "jmp" rm32 none 0xff 0x4 0x0 0x0;
  MkIsa "jnb" rel8 none 0x73 0x0 0x0 0x0;
  MkIsa "jae" rel8 none 0x73 0x0 0x0 0x0;
  MkIsa "jnc" rel8 none 0x73 0x0 0x0 0x0;
  MkIsa "jnb" rel32 none 0x83 0x0 0x0 0x0f;
  MkIsa "jae" rel32 none 0x83 0x0 0x0 0x0f;
  MkIsa "jnc" rel32 none 0x83 0x0 0x0 0x0f;
  MkIsa "jnbe" rel8 none 0x77 0x0 0x0 0x0;
  MkIsa "ja" rel8 none 0x77 0x0 0x0 0x0;
  MkIsa "jnbe" rel32 none 0x87 0x0 0x0 0x0f;
  MkIsa "ja" rel32 none 0x87 0x0 0x0 0x0f;
  MkIsa "jnl" rel8 none 0x7d 0x0 0x0 0x0;
  MkIsa "jge" rel8 none 0x7d 0x0 0x0 0x0;
  MkIsa "jnl" rel32 none 0x8d 0x0 0x0 0x0f;
  MkIsa "jge" rel32 none 0x8d 0x0 0x0 0x0f;
  MkIsa "jnle" rel8 none 0x7f 0x0 0x0 0x0;
  MkIsa "jg" rel8 none 0x7f 0x0 0x0 0x0;
  MkIsa "jnle" rel32 none 0x8f 0x0 0x0 0x0f;
  MkIsa "jg" rel32 none 0x8f 0x0 0x0 0x0f;
  MkIsa "jno" rel8 none 0x71 0x0 0x0 0x0;
  MkIsa "jno" rel32 none 0x81 0x0 0x0 0x0f;
  MkIsa "jnp" rel8 none 0x7b 0x0 0x0 0x0;
  MkIsa "jpo" rel8 none 0x7b 0x0 0x0 0x0;
  MkIsa "jnp" rel32 none 0x8b 0x0 0x0 0x0f;
  MkIsa "jpo" rel32 none 0x8b 0x0 0x0 0x0f;
  MkIsa "jns" rel8 none 0x79 0x0 0x0 0x0;
  MkIsa "jns" rel32 none 0x89 0x0 0x0 0x0f;
  MkIsa "jnz" rel8 none 0x75 0x0 0x0 0x0;
  MkIsa "jne" rel8 none 0x75 0x0 0x0 0x0;
  MkIsa "jnz" rel32 none 0x85 0x0 0x0 0x0f;
  MkIsa "jne" rel32 none 0x85 0x0 0x0 0x0f;
  MkIsa "jo" rel8 none 0x70 0x0 0x0 0x0;
  MkIsa "jo" rel32 none 0x80 0x0 0x0 0x0f;
  MkIsa "jp" rel8 none 0x7a 0x0 0x0 0x0;
  MkIsa "jpe" rel8 none 0x7a 0x0 0x0 0x0;
  MkIsa "jp" rel32 none 0x8a 0x0 0x0 0x0f;
  MkIsa "jpe" rel32 none 0x8a 0x0 0x0 0x0f;
  MkIsa "js" rel8 none 0x78 0x0 0x0 0x0;
  MkIsa "js" rel32 none 0x88 0x0 0x0 0x0f;
  MkIsa "jz" rel8 none 0x74 0x0 0x0 0x0;
  MkIsa "je" rel8 none 0x74 0x0 0x0 0x0;
  MkIsa "jz" rel32 none 0x84 0x0 0x0 0x0f;
  MkIsa "je" rel32 none 0x84 0x0 0x0 0x0f;
  MkIsa "lar" rel32 none 0x84 0x0 0x0 0x0f;
  MkIsa "lds" ds r32 0xc5 0x0 0x0 0x0;
  MkIsa "lea" r32 rel32 0x8d 0x0 0x0 0x0;
  MkIsa "les" es r32 0xc4 0x0 0x0 0x0;
  MkIsa "lfence" none none 0xae 0x5 0x0 0x0f;
  MkIsa "lfs" fs r32 0xb4 0x0 0x0 0x0f;
  MkIsa "lgdt" r32 none 0x1 0x0 0x0 0x0f;
  MkIsa "lgs" gs r32 0xb5 0x0 0x0 0x0f;
  MkIsa "lidt" rel32 none 0x1 0x0 0x0 0x0f;
  MkIsa "lmsw" gs r32 0xb5 0x0 0x0 0x0f;
  MkIsa "lock" gs r32 0xb5 0x0 0x0 0x0f;
  MkIsa "lodsb" gs r32 0xb5 0x0 0x0 0x0f;
  MkIsa "lodsw" gs r32 0xb5 0x0 0x0 0x0f;
  MkIsa "lodsd" gs r32 0xb5 0x0 0x0 0x0f;
  MkIsa "loop" ecx rel8 0xe2 0x0 0x0 0x0;
  MkIsa "loopnz" ecx rel8 0xe0 0x0 0x0 0x0;
  MkIsa "loopne" ecx rel8 0xe0 0x0 0x0 0x0;
  MkIsa "loopz" ecx rel8 0xe1 0x0 0x0 0x0;
  MkIsa "loope" ecx rel8 0xe1 0x0 0x0 0x0;
  MkIsa "lsl" ecx rel8 0xe1 0x0 0x0 0x0;
  MkIsa "lss" ss r32 0xb2 0x0 0x0 0x0f;
  MkIsa "mfence" none none 0xae 0x6 0x0 0x0f;
  MkIsa "monitor" none none 0xae 0x6 0x0 0x0f;
  MkIsa "mov" r8 rm8 0x8a 0x0 0x0 0x0;
  MkIsa "mov" r32 rm32 0x8b 0x0 0x0 0x0;
  MkIsa "mov" r32 rm32 0x8b 0x0 0x0 0x0
].

Definition x86_3 : list isa := [
  MkIsa "mov" sreg rm32 0x8e 0x0 0x0 0x0;
  MkIsa "mov" r8 imm8 0xb0 0xDEAD 0x0 0x0;
  MkIsa "mov" r32 imm32 0xb8 0xDEAD 0x0 0x0;
  MkIsa "mov" rm8 imm8 0xc6 0x0 0x0 0x0;
  MkIsa "mov" rm32 imm32 0xc7 0x0 0x0 0x0;
  MkIsa "mov" r32 crn 0x20 0x0 0x0 0x0f;
  MkIsa "mov" r32 crn 0x20 0x0 0x0 0x0f;
  MkIsa "mov" crn r32 0x22 0x0 0x0 0x0f;
  MkIsa "mov" crn r32 0x22 0x0 0x0 0x0f;
  MkIsa "movsb" crn r32 0x22 0x0 0x0 0x0f;
  MkIsa "movsw" crn r32 0x22 0x0 0x0 0x0f;
  MkIsa "movsd" crn r32 0x22 0x0 0x0 0x0f;
  MkIsa "movsx" r32 rm8 0xbe 0x0 0x0 0x0f;
  MkIsa "movsx" r32 rm32 0xbf 0x0 0x0 0x0f;
  MkIsa "movzx" r32 rm8 0xb6 0x0 0x0 0x0f;
  MkIsa "movzx" r32 rm32 0xb7 0x0 0x0 0x0f;
  MkIsa "mul" rm8 none 0xf6 0x4 0x0 0x0;
  MkIsa "mul" rm32 none 0xf7 0x4 0x0 0x0;
  MkIsa "mwait" rm32 none 0xf7 0x4 0x0 0x0;
  MkIsa "neg" rm8 none 0xf6 0x3 0x0 0x0;
  MkIsa "neg" rm32 none 0xf7 0x3 0x0 0x0;
  MkIsa "nop" none none 0x90 0x0 0x0 0x0;
  MkIsa "nop" rm32 none 0x0d 0x0 0x0 0x0f;
  MkIsa "nop" rm32 none 0x1f 0x0 0x0 0x0f;
  MkIsa "not" rm8 none 0xf6 0x2 0x0 0x0;
  MkIsa "not" rm32 none 0xf7 0x2 0x0 0x0;
  MkIsa "or" r8 rm8 0x0a 0x0 0x0 0x0;
  MkIsa "or" r32 rm32 0x0b 0x0 0x0 0x0;
  MkIsa "or" eax imm32 0x0d 0x0 0x0 0x0;
  MkIsa "or" rm8 imm8 0x80 0x0 0x0 0x0;
  MkIsa "or" rm32 imm32 0x81 0x0 0x0 0x0;
  MkIsa "or" rm8 imm8 0x82 0x0 0x0 0x0;
  MkIsa "or" rm32 imm8 0x83 0x0 0x0 0x0;
  MkIsa "out" imm8 eax 0xe7 0x0 0x0 0x0;
  MkIsa "outsb" imm8 eax 0xe7 0x0 0x0 0x0;
  MkIsa "outsw" imm8 eax 0xe7 0x0 0x0 0x0;
  MkIsa "outsd" imm8 eax 0xe7 0x0 0x0 0x0;
  MkIsa "pause" none none 0x90 0x0 0xf3 0x0;
  MkIsa "pextrb" none none 0x90 0x0 0xf3 0x0;
  MkIsa "pextrq" none none 0x90 0x0 0xf3 0x0;
  MkIsa "pextrw" none none 0x90 0x0 0xf3 0x0;
  MkIsa "pinsrb" none none 0x90 0x0 0xf3 0x0;
  MkIsa "pinsrq" none none 0x90 0x0 0xf3 0x0;
  MkIsa "pinsrw" none none 0x90 0x0 0xf3 0x0;
  MkIsa "pinsrw" none none 0x90 0x0 0xf3 0x0;
  MkIsa "pmovsxbd" none none 0x90 0x0 0xf3 0x0;
  MkIsa "pmovsxbq" none none 0x90 0x0 0xf3 0x0;
  MkIsa "pmovsxbw" none none 0x90 0x0 0xf3 0x0;
  MkIsa "pmovsxdq" none none 0x90 0x0 0xf3 0x0;
  MkIsa "pmovsxwd" none none 0x90 0x0 0xf3 0x0;
  MkIsa "pmovsxwq" none none 0x90 0x0 0xf3 0x0;
  MkIsa "pmovzxbd" none none 0x90 0x0 0xf3 0x0;
  MkIsa "pmovzxbq" none none 0x90 0x0 0xf3 0x0;
  MkIsa "pmovzxbw" none none 0x90 0x0 0xf3 0x0;
  MkIsa "pmovzxdq" none none 0x90 0x0 0xf3 0x0;
  MkIsa "pmovzxwd" none none 0x90 0x0 0xf3 0x0;
  MkIsa "pmovzxwq" none none 0x90 0x0 0xf3 0x0;
  MkIsa "pop" es none 0x7 0x0 0x0 0x0;
  MkIsa "pop" ss none 0x17 0x0 0x0 0x0;
  MkIsa "pop" ds none 0x1f 0x0 0x0 0x0;
  MkIsa "pop" r32 none 0x58 0xDEAD 0x0 0x0;
  MkIsa "pop" rm32 none 0x8f 0x0 0x0 0x0;
  MkIsa "pop" fs none 0xa1 0x0 0x0 0x0f;
  MkIsa "pop" gs none 0xa9 0x0 0x0 0x0f;
  MkIsa "popa" none none 0x61 0x0 0x0 0x0;
  MkIsa "popad" none none 0x61 0x0 0x0 0x0;
  MkIsa "popcnt" r32 rm32 0xb8 0x0 0xf3 0x0f;
  MkIsa "popf" none none 0x9d 0x0 0x0 0x0;
  MkIsa "popfd" none none 0x9d 0x0 0x0 0x0;
  MkIsa "push" es none 0x6 0x0 0x0 0x0;
  MkIsa "push" cs none 0x0e 0x0 0x0 0x0;
  MkIsa "push" ss none 0x32 0x0 0x0 0x0;
  MkIsa "push" ds none 0x1e 0x0 0x0 0x0;
  MkIsa "push" r32 none 0x50 0xDEAD 0x0 0x0;
  MkIsa "push" imm32 none 0x68 0x0 0x0 0x0;
  MkIsa "push" imm8 none 0x6a 0x0 0x0 0x0;
  MkIsa "push" rm32 none 0xff 0x6 0x0 0x0;
  MkIsa "push" fs none 0xa0 0x0 0x0 0x0f;
  MkIsa "push" gs none 0xa8 0x0 0x0 0x0f;
  MkIsa "pusha" none none 0x60 0x0 0x0 0x0;
  MkIsa "pushad" none none 0x60 0x0 0x0 0x0;
  MkIsa "pushf" none none 0x9c 0x0 0x0 0x0;
  MkIsa "pushfd" none none 0x9c 0x0 0x0 0x0;
  MkIsa "rcl" rm8 imm8 0xc0 0x2 0x0 0x0;
  MkIsa "rcl" rm32 imm8 0xc1 0x2 0x0 0x0;
  MkIsa "rcl" rm8 none 0xd0 0x2 0x0 0x0;
  MkIsa "rcl" rm32 none 0xd1 0x2 0x0 0x0;
  MkIsa "rcr" rm8 imm8 0xc0 0x3 0x0 0x0;
  MkIsa "rcr" rm32 imm8 0xc1 0x3 0x0 0x0;
  MkIsa "rcr" rm8 none 0xd0 0x3 0x0 0x0;
  MkIsa "rcr" rm32 none 0xd1 0x3 0x0 0x0;
  MkIsa "rdmsr" eax edx 0x32 0x0 0x0 0x0f;
  MkIsa "rdpmc" eax edx 0x33 0x0 0x0 0x0f;
  MkIsa "rdtsc" eax edx 0x31 0x0 0x0 0x0f;
  MkIsa "rdtscp" eax edx 0x31 0x0 0x0 0x0f;
  MkIsa "rep" eax edx 0x31 0x0 0x0 0x0f;
  MkIsa "rep" eax edx 0x31 0x0 0x0 0x0f;
  MkIsa "repnz" eax edx 0x31 0x0 0x0 0x0f;
  MkIsa "repne" eax edx 0x31 0x0 0x0 0x0f;
  MkIsa "repz" eax edx 0x31 0x0 0x0 0x0f;
  MkIsa "repe" eax edx 0x31 0x0 0x0 0x0f;
  MkIsa "retf" imm32 none 0xca 0x0 0x0 0x0;
  MkIsa "retf" none none 0xcb 0x0 0x0 0x0;
  MkIsa "retn" imm32 none 0xc2 0x0 0x0 0x0;
  MkIsa "retn" none none 0xc3 0x0 0x0 0x0;
  MkIsa "rol" rm8 imm8 0xc0 0x0 0x0 0x0;
  MkIsa "rol" rm32 imm8 0xc1 0x0 0x0 0x0;
  MkIsa "rol" rm8 none 0xd0 0x0 0x0 0x0;
  MkIsa "rol" rm32 none 0xd1 0x0 0x0 0x0;
  MkIsa "ror" rm8 imm8 0xc0 0x0 0x0 0x0;
  MkIsa "ror" rm32 imm8 0xc1 0x0 0x0 0x0;
  MkIsa "ror" rm8 none 0xd0 0x0 0x0 0x0;
  MkIsa "ror" rm32 none 0xd1 0x0 0x0 0x0;
  MkIsa "rsm" none none 0xaa 0x0 0x0 0x0f;
  MkIsa "sal" rm8 imm8 0xc0 0x6 0x0 0x0;
  MkIsa "shl" rm8 imm8 0xc0 0x6 0x0 0x0;
  MkIsa "sal" rm32 imm8 0xc1 0x6 0x0 0x0;
  MkIsa "shl" rm32 imm8 0xc1 0x6 0x0 0x0;
  MkIsa "sal" rm8 none 0xd0 0x6 0x0 0x0
].

Definition x86_4 : list isa := [
  MkIsa "shl" rm8 none 0xd0 0x6 0x0 0x0;
  MkIsa "sal" rm32 none 0xd1 0x6 0x0 0x0;
  MkIsa "shl" rm32 none 0xd1 0x6 0x0 0x0;
  MkIsa "shl" rm32 none 0xd1 0x6 0x0 0x0;
  MkIsa "shl" rm32 none 0xd1 0x6 0x0 0x0;
  MkIsa "setalc" rm32 none 0xd1 0x6 0x0 0x0;
  MkIsa "sar" rm8 imm8 0xc0 0x7 0x0 0x0;
  MkIsa "sar" rm32 imm8 0xc1 0x7 0x0 0x0;
  MkIsa "sar" rm8 none 0xd0 0x7 0x0 0x0;
  MkIsa "sar" rm32 none 0xd1 0x7 0x0 0x0;
  MkIsa "sbb" r8 rm8 0x1a 0x0 0x0 0x0;
  MkIsa "sbb" r32 rm32 0x1b 0x0 0x0 0x0;
  MkIsa "sbb" eax imm32 0x1d 0x0 0x0 0x0;
  MkIsa "sbb" rm8 imm8 0x80 0x3 0x0 0x0;
  MkIsa "sbb" rm32 imm32 0x81 0x3 0x0 0x0;
  MkIsa "sbb" rm8 imm8 0x82 0x3 0x0 0x0;
  MkIsa "sbb" rm32 imm8 0x83 0x3 0x0 0x0;
  MkIsa "scasb" rm32 imm8 0x83 0x3 0x0 0x0;
  MkIsa "scasw" rm32 imm8 0x83 0x3 0x0 0x0;
  MkIsa "scasd" rm32 imm8 0x83 0x3 0x0 0x0;
  MkIsa "setb" rm8 none 0x92 0x0 0x0 0x0f;
  MkIsa "setnae" rm8 none 0x92 0x0 0x0 0x0f;
  MkIsa "setc" rm8 none 0x92 0x0 0x0 0x0f;
  MkIsa "setbe" rm8 none 0x96 0x0 0x0 0x0f;
  MkIsa "setna" rm8 none 0x96 0x0 0x0 0x0f;
  MkIsa "setl" rm8 none 0x9c 0x0 0x0 0x0f;
  MkIsa "setnge" rm8 none 0x9c 0x0 0x0 0x0f;
  MkIsa "setle" rm8 none 0x9e 0x0 0x0 0x0f;
  MkIsa "setng" rm8 none 0x9e 0x0 0x0 0x0f;
  MkIsa "setnb" rm8 none 0x93 0x0 0x0 0x0f;
  MkIsa "setae" rm8 none 0x93 0x0 0x0 0x0f;
  MkIsa "setnc" rm8 none 0x93 0x0 0x0 0x0f;
  MkIsa "setnbe" rm8 none 0x97 0x0 0x0 0x0f;
  MkIsa "seta" rm8 none 0x97 0x0 0x0 0x0f;
  MkIsa "setnl" rm8 none 0x9d 0x0 0x0 0x0f;
  MkIsa "setge" rm8 none 0x9d 0x0 0x0 0x0f;
  MkIsa "setnle" rm8 none 0x9f 0x0 0x0 0x0f;
  MkIsa "setg" rm8 none 0x9f 0x0 0x0 0x0f;
  MkIsa "setno" rm8 none 0x91 0x0 0x0 0x0f;
  MkIsa "setnp" rm8 none 0x9b 0x0 0x0 0x0f;
  MkIsa "setpo" rm8 none 0x9b 0x0 0x0 0x0f;
  MkIsa "setns" rm8 none 0x99 0x0 0x0 0x0f;
  MkIsa "setnz" rm8 none 0x95 0x0 0x0 0x0f;
  MkIsa "setne" rm8 none 0x95 0x0 0x0 0x0f;
  MkIsa "seto" rm8 none 0x90 0x0 0x0 0x0f;
  MkIsa "setp" rm8 none 0x9a 0x0 0x0 0x0f;
  MkIsa "setpe" rm8 none 0x9a 0x0 0x0 0x0f;
  MkIsa "sets" rm8 none 0x98 0x0 0x0 0x0f;
  MkIsa "setz" rm8 none 0x94 0x0 0x0 0x0f;
  MkIsa "sete" rm8 none 0x94 0x0 0x0 0x0f;
  MkIsa "sfence" none none 0xae 0x7 0x0 0x0f;
  MkIsa "sgdt" none none 0xae 0x7 0x0 0x0f;
  MkIsa "shl" rm8 imm8 0xc0 0x4 0x0 0x0;
  MkIsa "sal" rm8 imm8 0xc0 0x4 0x0 0x0;
  MkIsa "shl" rm32 imm8 0xc1 0x4 0x0 0x0;
  MkIsa "sal" rm32 imm8 0xc1 0x4 0x0 0x0;
  MkIsa "shl" rm8 none 0xd0 0x4 0x0 0x0;
  MkIsa "sal" rm8 none 0xd0 0x4 0x0 0x0;
  MkIsa "shl" rm32 none 0xd1 0x4 0x0 0x0;
  MkIsa "sal" rm32 none 0xd1 0x4 0x0 0x0;
  MkIsa "sal" rm32 none 0xd1 0x4 0x0 0x0;
  MkIsa "sal" rm32 none 0xd1 0x4 0x0 0x0;
  MkIsa "shr" rm8 imm8 0xc0 0x5 0x0 0x0;
  MkIsa "shr" rm32 imm8 0xc1 0x5 0x0 0x0;
  MkIsa "shr" rm8 none 0xd0 0x5 0x0 0x0;
  MkIsa "shr" rm32 none 0xd1 0x5 0x0 0x0;
  MkIsa "sidt" rm32 none 0xd1 0x5 0x0 0x0;
  MkIsa "sldt" rm32 none 0xd1 0x5 0x0 0x0;
  MkIsa "smsw" rm32 none 0xd1 0x5 0x0 0x0;
  MkIsa "smsw" rm32 none 0xd1 0x5 0x0 0x0;
  MkIsa "ss" rm32 none 0xd1 0x5 0x0 0x0;
  MkIsa "stc" none none 0xf9 0x0 0x0 0x0;
  MkIsa "std" none none 0xfd 0x0 0x0 0x0;
  MkIsa "sti" none none 0xfb 0x0 0x0 0x0;
  MkIsa "stos" none none 0xaa 0x0 0x0 0x0;
  MkIsa "stosb" none none 0xaa 0x0 0x0 0x0;
  MkIsa "stos" none none 0xab 0x0 0x0 0x0;
  MkIsa "stosw" none none 0xab 0x0 0x0 0x0;
  MkIsa "stos" none none 0xab 0x0 0x0 0x0;
  MkIsa "stosd" none none 0xab 0x0 0x0 0x0;
  MkIsa "str" none none 0xab 0x0 0x0 0x0;
  MkIsa "sub" r8 rm8 0x2a 0x0 0x0 0x0;
  MkIsa "sub" r32 rm32 0x2b 0x0 0x0 0x0;
  MkIsa "sub" eax imm32 0x2d 0x0 0x0 0x0;
  MkIsa "sub" rm8 imm8 0x80 0x5 0x0 0x0;
  MkIsa "sub" rm32 imm32 0x81 0x5 0x0 0x0;
  MkIsa "sub" rm8 imm8 0x82 0x5 0x0 0x0;
  MkIsa "sub" rm32 imm8 0x83 0x5 0x0 0x0;
  MkIsa "sysenter" none none 0x34 0x0 0x0 0x0f;
  MkIsa "sysexit" none none 0x35 0x0 0x0 0x0f;
  MkIsa "test" rm8 r8 0x84 0x0 0x0 0x0;
  MkIsa "test" rm32 r32 0x85 0x0 0x0 0x0;
  MkIsa "test" eax imm32 0xa9 0x0 0x0 0x0;
  MkIsa "test" rm8 imm8 0xf6 0x0 0x0 0x0;
  MkIsa "test" rm8 imm8 0xf6 0x0 0x0 0x0;
  MkIsa "test" rm32 imm32 0xf7 0x0 0x0 0x0;
  MkIsa "test" rm32 imm32 0xf7 0x0 0x0 0x0;
  MkIsa "ud2" none none 0x0b 0x0 0x0 0x0f;
  MkIsa "verr" rm32 none 0x0 0x4 0x0 0x0f;
  MkIsa "verw" rm32 none 0x0 0x5 0x0 0x0f;
  MkIsa "vmcall" rm32 none 0x0 0x5 0x0 0x0f;
  MkIsa "vmlaunch" rm32 none 0x0 0x5 0x0 0x0f;
  MkIsa "vmresume" rm32 none 0x0 0x5 0x0 0x0f;
  MkIsa "vmwrite" r32 rm32 0x79 0x0 0x0 0x0f;
  MkIsa "vmxoff" r32 rm32 0x79 0x0 0x0 0x0f;
  MkIsa "wbinvd" none none 0x9 0x0 0x0 0x0f;
  MkIsa "xchg" r8 rm8 0x86 0x0 0x0 0x0;
  MkIsa "xchg" r32 rm32 0x87 0x0 0x0 0x0;
  MkIsa "xchg" r32 eax 0x90 0xDEAD 0x0 0x0;
  MkIsa "xgetbv" r32 eax 0x90 0xDEAD 0x0 0x0;
  MkIsa "xlatb" r32 eax 0x90 0xDEAD 0x0 0x0;
  MkIsa "xor" r8 rm8 0x32 0x0 0x0 0x0;
  MkIsa "xor" r32 rm32 0x33 0x0 0x0 0x0;
  MkIsa "xor" eax imm32 0x35 0x0 0x0 0x0;
  MkIsa "xor" rm8 imm8 0x80 0x6 0x0 0x0;
  MkIsa "xor" rm32 imm32 0x81 0x6 0x0 0x0;
  MkIsa "xor" rm8 imm8 0x82 0x6 0x0 0x0;
  MkIsa "xor" rm32 imm8 0x83 0x6 0x0 0x0
].

Definition x86 : list isa := x86_1 ++ x86_2 ++ x86_3 ++ x86_4.
