(* ===== verification/Lass.v ===== *)
(** * user/lass.c: the assembler

    A C string is the list of its characters (as [char] values, without the
    terminating 0) and a pointer into a line is an offset.  [strtok] cuts a line
    by writing terminators at delimiters it has already passed, so its tokens
    are slices of the line as it was; [strtok_slices_agree] shows this against
    the byte-level model.  The assembled bytes, the symbol tables and the
    position are the state; out-of-range array accesses and the use of an
    uninitialised pointer are [Undef]. *)

From Stdlib Require Import ZArith Lia String.
From stdpp Require Import base numbers list gmap.
From S2P Require Import Prelude Memory CString LassIsa.
Open Scope Z_scope.

(** ** Strings *)

Definition isdigit (c : Z) : bool := (48 <=? c) && (c <=? 57).
Definition islower (c : Z) : bool := (97 <=? c) && (c <=? 122).
Definition tolower (c : Z) : Z := if isdigit c then c else if islower c then c else (c - 65) + 97.
Definition ishex (c : Z) : bool := (tolower c <=? 102) && (48 <=? tolower c).

(** [strncmp(s1, s2, n) == 0] and [strcmp(s1, s2) == 0]; the latter compares
    only [strlen(s1)] characters. *)
Definition strncmp0 (s1 s2 : list Z) (n : nat) : bool := bool_decide (take n s1 = take n s2).
Definition strcmp0 (s1 s2 : list Z) : bool := strncmp0 s1 s2 (length s1).

Definition mem_char (c : Z) (l : list Z) : bool := existsb (Z.eqb c) l.
Fixpoint index_of (p : Z -> bool) (s : list Z) : option nat :=
  match s with
  | [] => None
  | c :: t => if p c then Some O else S <$> index_of p t
  end.
Definition strchr (s : list Z) (c : Z) : option nat := index_of (Z.eqb c) s.
(** The first character is never looked at. *)
Definition strpbrk (s delim : list Z) : option nat :=
  match s with
  | [] => None
  | _ :: t => S <$> index_of (fun c => mem_char c delim) t
  end.
Fixpoint strspn (s delim : list Z) : nat :=
  match s with
  | [] => O
  | c :: t => if mem_char c delim then S (strspn t delim) else O
  end.

(** [strtok] on [line] with the static pointer at [ptr]: the token with its
    offset, and the next value of the pointer. *)
Definition strtok (line delim : list Z) (ptr : option nat) : option (nat * list Z) * option nat :=
  match ptr with
  | None => (None, None)
  | Some p =>
      let p' := (p + strspn (drop p line) delim)%nat in
      let rest := drop p' line in
      match strpbrk rest delim with
      | Some k => (Some (p', take k rest), Some (p' + k + 1)%nat)
      | None => (Some (p', rest), None)
      end
  end.

(** The characters up to a terminator. *)
Fixpoint until0 (s : list Z) : list Z :=
  match s with
  | [] => []
  | c :: t => if c =? 0 then [] else c :: until0 t
  end.

(** ** State *)

Definition le16 (x : Z) : list Z := [x .& 0xFF; (x .>> 8) .& 0xFF].
Definition le32 (x : Z) : list Z := [x .& 0xFF; (x .>> 8) .& 0xFF; (x .>> 16) .& 0xFF; (x .>> 24) .& 0xFF].

(** An entry of [symtab] or [unresolved]: the characters stored in [name[32]]
    (the array is zero initialised) and the position. *)
Record symbol := MkSym { sym_chars : list Z; position : Z }.
(** The string at [name]; a full array runs on into [position]. *)
Definition sym_name (e : symbol) : list Z :=
  until0 (sym_chars e ++ (if (length (sym_chars e) <? 32)%nat then [] else s8 <$> le32 (position e))).

Record lass_state := MkLass {
  output : gmap Z Z;
  current_position : Z;
  program_length : Z;
  symtab : list symbol;       (* num_symbols entries *)
  unresolved : list symbol;   (* unr_symbols entries *)
  elf_offset : Z;
  elf_output : list Z;
}.
Definition ORG : Z := 0.
Definition put (i v : Z) (s : lass_state) : lass_state :=
  MkLass (<[i := v]> (output s)) (current_position s) (program_length s) (symtab s) (unresolved s) (elf_offset s) (elf_output s).
Definition set_position (p : Z) (s : lass_state) : lass_state :=
  MkLass (output s) p (program_length s) (symtab s) (unresolved s) (elf_offset s) (elf_output s).
Definition byte_at (s : lass_state) (i : Z) : Z := default 0 (output s !! i).

(** The source stores into a block of fixed size without testing the position;
    here the bytes beyond it are kept as well. *)
Definition emit (x : Z) (s : lass_state) : lass_state :=
  set_position (u32 (current_position s + 1)) (put (current_position s) (x .& 0xFF) s).
Definition write_byte (x : Z) (s : lass_state) : lass_state := emit x s.
Definition write_word (x : Z) (s : lass_state) : lass_state := emit (x .>> 8) (emit x s).
Definition write_dword (x : Z) (s : lass_state) : lass_state :=
  emit (x .>> 24) (emit (x .>> 16) (emit (x .>> 8) (emit x s))).

(** ** Symbols *)

(** Replace the dummy value left for an unresolved symbol. *)
Definition patch_word (dummy cp i : Z) (out : gmap Z Z) : gmap Z Z :=
  let word := (default 0 (out !! (i + 1)) .<< 8) .| default 0 (out !! i) in
  if word =? dummy then <[i + 1 := (cp .>> 8) .& 0xFF]> (<[i := cp .& 0xFF]> out) else out.
Definition patch (label : list Z) (cp : Z) (out : gmap Z Z) (u : symbol) : gmap Z Z :=
  if strncmp0 label (sym_name u) (length (sym_name u)) then
    let dummy := s32 (position u) in
    patch_word dummy cp (dummy + 2) (patch_word dummy cp dummy out)
  else out.
Definition add_symbol (label : list Z) : M lass_state unit := fun s =>
  if (256 <=? length (symtab s))%nat then Undef
  else
    let name := (fun c => if c =? 58 then 0 else c) <$> take 32 label in
    Ok tt (MkLass (foldl (patch label (current_position s)) (output s) (unresolved s))
             (current_position s) (program_length s)
             (symtab s ++ [MkSym name (current_position s)]) (unresolved s) (elf_offset s) (elf_output s)).

Definition find_symbol (label : list Z) : M lass_state Z := fun s =>
  match find (fun e => strcmp0 (sym_name e) label) (symtab s) with
  | Some e => Ok (s32 (position e + elf_offset s)) s
  | None =>
      if strncmp0 label (chars "$$") 2 then Ok 0 s
      else if strcmp0 label (chars "$") then Ok (s32 (current_position s + elf_offset s)) s
      else if (256 <=? length (unresolved s))%nat then Undef
      else Ok (s32 (current_position s))
             (MkLass (output s) (current_position s) (program_length s) (symtab s)
                (unresolved s ++ [MkSym (take 32 label) (current_position s)]) (elf_offset s) (elf_output s))
  end.

(** The file header and one program header, as the bytes of the structures. *)
Definition sizeof_ehdr : Z := 52.
Definition sizeof_phdr : Z := 32.
Definition make_elf : M lass_state unit :=
  modify (fun s => MkLass (output s) (current_position s) (program_length s) (symtab s) (unresolved s)
                     (sizeof_ehdr + sizeof_phdr) (elf_output s)) ;;;
  entry <-- find_symbol (chars "main") ;;
  modify (fun s =>
    let filesz := u32 (program_length s + elf_offset s) in
    MkLass (output s) (current_position s) (program_length s) (symtab s) (unresolved s) (elf_offset s)
      (le32 0x464C457F ++ le32 0x00010101 ++ le32 0 ++ le32 0 ++
       le16 2 ++ le16 3 ++ le32 1 ++ le32 entry ++ le32 sizeof_ehdr ++ le32 0 ++ le32 0 ++
       le16 sizeof_ehdr ++ le16 sizeof_phdr ++ le16 1 ++ le16 0 ++ le16 0 ++ le16 0 ++
       le32 1 ++ le32 0 ++ le32 ORG ++ le32 ORG ++ le32 filesz ++ le32 filesz ++ le32 0x5 ++ le32 0x1000)).

(** ** Numbers and operands *)

Fixpoint log2_loop (fuel : nat) (s i : Z) : Z :=
  match fuel with
  | O => i
  | S f => let s' := Z.quot s 2 in if s' =? 0 then i else log2_loop f s' (i + 1)
  end.
(** An [int] reaches 0 after at most 32 halvings. *)
Definition log2 (s : Z) : Z := log2_loop 32 s 0.

(** More steps than that change nothing. *)
Lemma log2_loop_enough n : forall f s i, Z.abs s < 2 ^ Z.of_nat n -> (n <= f)%nat -> log2_loop f s i = log2_loop n s i.
Proof.
  induction n as [|n IH]; intros f s i Hs Hf.
  - assert (s = 0) as -> by (cbn in Hs; lia). destruct f; reflexivity.
  - destruct f as [|f]; [lia|]. cbn [log2_loop]. destruct (Z.quot s 2 =? 0); [reflexivity|]. apply IH; [|lia].
    rewrite Nat2Z.inj_succ, Z.pow_succ_r in Hs by lia.
    assert (Z.abs (Z.quot s 2) = Z.abs s / 2) by (rewrite <- Z.quot_abs, <- Z.quot_div_nonneg by lia; reflexivity). dlia.
Qed.

Definition s64 (z : Z) : Z := (z + 0x8000000000000000) mod 0x10000000000000000 - 0x8000000000000000.
Definition atoi_digit (base num c : Z) : Z :=
  if isdigit c then s64 (num * base + (c - 48))
  else if ishex c then s64 (num * base + (tolower c - 97) + 10)
  else num.
Definition lass_atoi (s : list Z) : Z :=
  let '(base, s) := match strpbrk s (chars "x") with
                    | Some d => (16, drop (d + 1) s)
                    | None => (10, s)
                    end in
  let sign := if default 0 (head s) =? 45 then -1 else 1 in
  s64 (sign * foldl (atoi_digit base) 0 s).

Definition opmatch (strict : bool) (s : list Z) (o1 o2 : Z) (x : isa) : bool :=
  strcmp0 (chars (name x)) s &&
  (if strict then
     if negb (o1 .& sreg =? 0)
     then (op1 x =? o1) && ((op2 x =? o2) || (op2 x =? none))
     else (op1 x .& o1 =? op1 x) && ((op2 x =? o2) || (op2 x =? none)) || (op1 x =? none) && (op2 x =? none)
   else
     (op1 x .& o1 =? op1 x) &&
     (negb (op2 x .& (if negb (o2 .& (imm8 .| rel8) =? 0) then 0x6C0 else o2) =? 0) || (op2 x =? none))).
Definition find_instruction (s : list Z) (o1 o2 : Z) : option isa :=
  match find (opmatch true s o1 o2) x86 with
  | Some x => Some x
  | None => find (opmatch false s o1 o2) x86
  end.

Definition UCHAR_MAX : Z := 255.
Definition find_syntax (l : list syntax) (s : list Z) : option syntax :=
  find (fun e => strcmp0 (chars (syn_name e)) s) l.
Definition classify (s : list Z) : Z :=
  if isdigit (default 0 (head s)) then
    if UCHAR_MAX <? u32 (Z.abs (s32 (lass_atoi s))) then imm32 else imm8
  else match find_syntax registers s with
       | Some e => code e .| r32
       | None =>
           match find_syntax half s with
           | Some e => code e .| r8
           | None =>
               match find_syntax segments s with
               | Some e => code e .| sreg
               | None => -1
               end
           end
       end.

(** ** Memory operands *)

Record instruction_s := MkIns { modrm : Z; ins_sib : Z; ins_disp : Z }.

(** [disp], [index], [base] and the operand counter [c] of [calc_sib]. *)
Record sib_acc := MkAcc { a_disp : Z; a_index : Z; a_base : Z; a_scale : Z; a_c : Z }.
Definition drop_reg (x : Z) : Z := x .& Z.lnot (r8 .| r32).

(** A token of the operand: a number goes through [num], a name is the index,
    then the base. *)
Definition sib_token (num : nat -> Z -> sib_acc -> sib_acc) (mask : Z -> Z) (off : nat) (pch : list Z) (a : sib_acc) : sib_acc :=
  if isdigit (default 0 (head pch)) then num off (s32 (lass_atoi pch)) a
  else
    MkAcc (a_disp a)
      (if a_c a =? 0 then mask (classify pch) else a_index a)
      (if a_c a =? 1 then classify pch else a_base a)
      (a_scale a) (a_c a + 1).

(** [while (pch)] over the tokens; the pointer moves forward at every token, so
    the length of the line bounds the iterations. *)
Fixpoint sib_loop (fuel : nat) (line delim : list Z) (step : nat -> list Z -> sib_acc -> sib_acc)
    (tok : option (nat * list Z)) (ptr : option nat) (a : sib_acc) : option sib_acc :=
  match tok with
  | None => Some a
  | Some (off, pch) =>
      match fuel with
      | O => None
      | S f =>
          let '(tok', ptr') := strtok line delim ptr in
          sib_loop f line delim step tok' ptr' (step off pch a)
      end
  end.

(** A pointer that may be NULL: NULL is below every pointer into the line. *)
Definition ptr_of (o : option nat) : Z := match o with Some i => Z.of_nat i + 1 | None => 0 end.

Definition calc_sib (line : list Z) (op1_in : Z) : option instruction_s :=
  let plus := strchr line 43 in
  let minus := strchr line 45 in
  let star := strchr line 42 in
  let '(op1, disp) :=
    if op1_in =? 0 then
      match strchr line 44 with
      | Some k =>
          let rest := drop k line in
          let op := drop (strspn rest [32; 44]) rest in
          let o := classify op in
          (o, if negb (o .& (imm8 .| imm32) =? 0) then s32 (lass_atoi op) else 0)
      | None => (op1_in, 0)
      end
    else (op1_in, 0) in
  let fuel := S (S (length line)) in
  match star with
  | None =>
      let '(tok, ptr) := strtok line (chars " [+-],") (Some O) in
      let num (_ : nat) n a := MkAcc n (a_index a) (a_base a) (a_scale a) (a_c a) in
      match sib_loop fuel line (chars " [+-],*") (sib_token num drop_reg) tok ptr (MkAcc disp (-1) (-1) 0 0) with
      | None => None
      | Some a =>
          if negb (a_disp a =? 0) then
            let d := s32 (a_disp a * (if minus then -1 else 1)) in
            Some (MkIns (MODRM (if UCHAR_MAX <? d then MOD_FOUR else MOD_ONE) (drop_reg op1) (a_index a)) 0 d)
          else
            Some (MkIns (MODRM (if a_index a =? EBP then MOD_ONE else MOD_ZERO) (drop_reg op1) (a_index a)) 0 0)
      end
  | Some _ =>
      let '(tok, ptr) := strtok line (chars " [+],*") (Some O) in
      let num (off : nat) n a :=
        let a1 := if (ptr_of plus <? ptr_of star) && (ptr_of (Some off) <? ptr_of plus)
                  then MkAcc n (a_index a) (a_base a) (a_scale a) (a_c a) else a in
        if (ptr_of plus <? ptr_of star) && (ptr_of plus <? ptr_of (Some off))
        then MkAcc (a_disp a1) (a_index a1) (a_base a1) n (a_c a1) else a1 in
      match sib_loop fuel line (chars " [+],*") (sib_token num id) tok ptr (MkAcc disp (-1) (-1) (-1) 0) with
      | None => None
      | Some a =>
          let both := negb (a_index a =? 0) && negb (a_base a =? 0) in
          let mod_ := if both then (if negb (a_index a .& r32 =? 0) then 2 else 1) else 0 in
          let index := if both then drop_reg (a_index a) else a_index a in
          let base := if both then drop_reg (a_base a) else a_base a in
          let '(base, mod_) := if base =? -1 then (5, 0) else (base, mod_) in
          Some (MkIns (MODRM mod_ op1 4) (MODRM (log2 (a_scale a)) index base) (a_disp a))
      end
  end.

(** ** One line *)

(** The loops of [db], [dw] and [dd]. *)
Fixpoint data_loop (fuel : nat) (line : list Z) (wr : Z -> lass_state -> lass_state) (text : bool)
    (ptr : option nat) (s : lass_state) : outcome lass_state unit :=
  let '(tok, ptr') := strtok line [44; 32; 39; 34] ptr in
  match tok with
  | None => Ok tt s
  | Some (_, pch) =>
      match fuel with
      | O => Spin
      | S f =>
          let s' := if isdigit (default 0 (head pch)) then wr (s32 (lass_atoi pch)) s
                    else if text then foldl (fun s c => write_byte c s) s pch else s in
          data_loop f line wr text ptr' s'
      end
  end.

Record scan := MkScan {
  inst : option (list Z); syn0 : Z; syn1 : Z; count : nat; immediate : Z; imm : bool;
  mode : Z; m : Z; rev : bool; sib : Z;
}.
Definition scan0 : scan := MkScan None 0 0 0 0 false MOD_REG (-1) false 0.

Definition scan_memory (displacement : list Z) (c : scan) : option scan :=
  match calc_sib displacement (syn0 c) with
  | None => None
  | Some a =>
      let mm := modrm a in
      let first := syn0 c =? 0 in
      Some (MkScan (inst c) (if first then ((mm .>> 3) .& 0x7) .| r32 else syn0 c) (syn1 c .| r32) (count c)
              (ins_disp a) true (mm .>> 6) mm (first || rev c) (ins_sib a))
  end.

(** The copy [strdup] makes has no terminator; [after] are the characters that
    follow it in the heap. *)
Definition scan_word (after pch : list Z) (c : scan) : M lass_state scan :=
  match count c with
  | O => ret (MkScan (Some (pch ++ after)) (syn0 c) (syn1 c) 1 (immediate c) (imm c) (mode c) (m c) (rev c) (sib c))
  | S k =>
      let n := classify pch in
      let lit := negb (n .& (imm8 .| imm32) =? 0) in
      sym <-- (if n =? -1 then v <-- find_symbol pch ;; ret (Some v) else ret None) ;;
      let n' := if n =? -1 then rel8 else n in
      let value := match sym with Some v => v | None => if lit then s32 (lass_atoi pch) else immediate c end in
      match k with
      | O => ret (MkScan (inst c) n' (syn1 c) 2 value (lit || imm c) (mode c) (m c) (rev c) (sib c))
      | S O => ret (MkScan (inst c) (syn0 c) n' 3 value (lit || imm c) (mode c) (m c) (rev c) (sib c))
      | _ => fun _ => Undef
      end
  end.

Fixpoint scan_loop (fuel : nat) (after line : list Z) (disp : option nat) (tok : option (nat * list Z))
    (ptr : option nat) (c : scan) : M lass_state scan :=
  match tok with
  | None => ret c
  | Some (off, pch) =>
      if default 0 (head pch) =? 59 then ret c
      else if bool_decide (disp = Some off) then
        match scan_memory (drop off line) c with Some c' => ret c' | None => fun _ => Spin end
      else
        match fuel with
        | O => fun _ => Spin
        | S f =>
            c' <-- scan_word after pch c ;;
            let '(tok', ptr') := strtok line [32; 44; 9] ptr in
            scan_loop f after line disp tok' ptr' c'
        end
  end.

Definition reg_bits : Z := r32 .| r8 .| sreg.
Definition imm_bits : Z := imm8 .| imm32 .| rel8 .| rel32.
Definition has (x bits : Z) : bool := negb (x .& bits =? 0).

(** Opcode and ModRM byte with two operands.  In [MODRM(mode, syn[0] &= ~(..),
    syn[1] &= ~(..))] the macro's [& 0x7] binds into the assignment, so the
    operands keep their low three bits. *)
Definition encode_two (x : isa) (c : scan) (s : lass_state) : lass_state :=
  let o := if rev c then Z.lxor (primary x) 0x2 else primary x in
  let '(mm, s0) :=
    if has (syn0 c) reg_bits && has (syn1 c) reg_bits then
      if m c =? -1
      then (MODRM (mode c) (syn0 c .& (Z.lnot reg_bits .& 0x7)) (syn1 c .& (Z.lnot reg_bits .& 0x7)),
            syn0 c .& (Z.lnot reg_bits .& 0x7))
      else (m c, syn0 c)
    else if has (syn0 c) (r32 .| r8) && has (syn1 c) imm_bits then
      if m c =? -1
      then (MODRM (mode c) (extension x) (syn0 c .& (Z.lnot (r32 .| r8) .& 0x7)), syn0 c .& (Z.lnot (r32 .| r8) .& 0x7))
      else (m c, syn0 c)
    else (m c, syn0 c) in
  let mm := if has s0 imm_bits then MODRM (mode c) (extension x) 0 else mm in
  if extension x =? 0xDEAD then write_byte ((o .& Z.lnot 0x7) .| (s0 .& Z.lnot (r32 .| r8))) s
  else write_word ((mm .<< 8) .| o) s.

Definition encode_one (x : isa) (c : scan) (s : lass_state) : lass_state :=
  let o := primary x in
  if (extension x =? 0xDEAD) && (m c =? -1) then write_byte ((o .& Z.lnot 0x7) .| (syn0 c .& Z.lnot reg_bits)) s
  else if syn0 c =? 0 then write_byte o s
  else if has (syn0 c) 0x6C0 || has (syn0 c) sreg then write_byte o s
  else
    let mm := if m c =? -1 then MODRM (mode c) (extension x) (syn0 c .& Z.lnot reg_bits) else m c in
    write_word ((mm .<< 8) .| o) s.

Definition encode_imm (x : isa) (c : scan) (start : Z) (s : lass_state) : lass_state :=
  let sw := if op2 x =? none then op1 x else op2 x in
  let cp := current_position s in
  let rel := immediate c - cp - (cp - start) - elf_offset s in
  if sw =? imm8 then write_byte (immediate c .& 0xFF) s
  else if sw =? imm32 then write_dword (immediate c) s
  else if sw =? rel8 then write_byte rel s
  else if sw =? rel32 then write_dword rel s
  else if mode c =? 1 then write_byte (immediate c) s
  else write_dword (immediate c) s.

Definition encode (x : isa) (c : scan) (s : lass_state) : lass_state :=
  let start := current_position s in
  let s1 := if negb (secondary x =? 0) then write_byte (secondary x) s else s in
  let s2 := if negb (prefix x =? 0) then write_byte 0x0F s1 else s1 in
  let s3 := if negb (syn1 c =? 0) then encode_two x c s2 else encode_one x c s2 in
  let s4 := if negb (sib c =? 0) then write_byte (sib c) s3 else s3 in
  if imm c then encode_imm x c start s4 else s4.

Definition parse_line (after line : list Z) : M lass_state unit :=
  let disp := strpbrk line (chars "[") in
  let fuel := S (S (length line)) in
  match strtok line [32; 44; 9] (Some O) with
  | (Some (off, pch), ptr) =>
      if strcmp0 pch (chars "db") then data_loop fuel line write_byte true ptr
      else if strcmp0 pch (chars "dw") then data_loop fuel line write_word false ptr
      else if strcmp0 pch (chars "dd") then data_loop fuel line write_dword false ptr
      else
        c <-- scan_loop fuel after line disp (Some (off, pch)) ptr scan0 ;;
        match inst c with
        | None => fun _ => Undef
        | Some i =>
            match find_instruction i (syn0 c) (syn1 c) with
            | Some x => modify (encode x c)
            | None => ret tt
            end
        end
  | (None, _) => ret tt
  end.

(** ** The two passes *)

(** The lines [pass] works on.  The pointer to the first line is overwritten by
    the pointer to the second one; a pointer is stored only for a line that
    does not start with a terminator.  The word after the last pointer stored is
    taken to be 0, where the second loop stops. *)
Fixpoint split_lines (cur : list Z) (buffer : list Z) : list (list Z) :=
  match buffer with
  | [] => [cur]
  | c :: t => if c =? 10 then cur :: split_lines [] t else split_lines (cur ++ [c]) t
  end.
(** [*new] is 0 only at the end of the buffer (an empty line in the middle still
    holds its newline when it is tested). *)
Definition line_array (buffer : list Z) : list (list Z) :=
  match split_lines [] buffer with
  | [] => []
  | l0 :: rest =>
      let stored := match last rest with Some [] => removelast rest | _ => rest end in
      match stored with [] => [l0] | _ => stored end
  end.

Fixpoint pass_lines (after : list Z) (pass_no : Z) (lines : list (list Z)) : M lass_state unit :=
  match lines with
  | [] => ret tt
  | l :: rest =>
      (if (default 0 (head l) =? 59) || (default 0 (head l) =? 0) then ret tt
       else match strchr l 58 with
            | Some k => if pass_no =? 1 then add_symbol (take k l) else ret tt
            | None => parse_line after l
            end) ;;;
      pass_lines after pass_no rest
  end.
(** [buffer] is the text up to its terminator. *)
Definition pass (after buffer : list Z) (pass_no : Z) : M lass_state unit :=
  pass_lines after pass_no (line_array buffer).

(** The part of [main] that assembles the text read from the file. *)
Definition assemble (after buffer : list Z) : M lass_state unit :=
  pass after buffer 1 ;;;
  modify (fun s => MkLass (output s) 0 (current_position s) (symtab s) (unresolved s) (elf_offset s) (elf_output s)) ;;;
  pass after buffer 2.

Definition lass_init : lass_state := MkLass ∅ 0 0 [] [] 0 [].
Definition out_bytes (s : lass_state) (i : Z) (n : nat) : list Z := (fun k : nat => byte_at s (i + Z.of_nat k)) <$> seq 0 n.


(** ** Tokens *)

Lemma mem_char_spec c l : mem_char c l = true <-> c ∈ l.
Proof.
  unfold mem_char. rewrite existsb_exists. split.
  - intros (x & Hx & E). apply Z.eqb_eq in E as ->. apply list_elem_of_In. assumption.
  - intros H. exists c. split; [apply list_elem_of_In; assumption|apply Z.eqb_refl].
Qed.

Lemma mem_char_false c l : mem_char c l = false <-> c ∉ l.
Proof. rewrite <- mem_char_spec. destruct (mem_char c l); intuition congruence. Qed.

Lemma index_of_None p s : Forall (fun c => p c = false) s -> index_of p s = None.
Proof. induction 1 as [|c s H _ IH]; [reflexivity|]. cbn [index_of]. rewrite H, IH. reflexivity. Qed.

Lemma index_of_app p a c b :
  Forall (fun c => p c = false) a -> p c = true -> index_of p (a ++ c :: b) = Some (length a).
Proof.
  intros Ha Hc. induction Ha as [|x a H _ IH]; cbn [app index_of length]; [rewrite Hc; reflexivity|].
  rewrite H, IH. reflexivity.
Qed.

Lemma index_of_lt p s k : index_of p s = Some k -> (k < length s)%nat.
Proof.
  revert k. induction s as [|c s IH]; intros k; cbn [index_of length]; [discriminate|].
  destruct (p c); [intros [= <-]; lia|]. destruct (index_of p s) as [j|] eqn:E; [|discriminate].
  intros [= <-]. specialize (IH j eq_refl). lia.
Qed.

Lemma strspn_app delim a b :
  Forall (fun c => c ∈ delim) a -> (forall c, head b = Some c -> c ∉ delim) -> strspn (a ++ b) delim = length a.
Proof.
  intros Ha Hb. induction Ha as [|c a H _ IH]; cbn [app strspn length].
  - destruct b as [|c b]; [reflexivity|]. cbn [strspn]. specialize (Hb c eq_refl). apply mem_char_false in Hb as ->. reflexivity.
  - apply mem_char_spec in H as ->. rewrite IH. reflexivity.
Qed.

Lemma strspn_le s delim : (strspn s delim <= length s)%nat.
Proof. induction s as [|c s IH]; cbn; [lia|]. destruct (mem_char c delim); cbn; lia. Qed.

(** A line from some point on: delimiters, a token, and what follows it. *)
Definition token_split (delim s lead tok tail : list Z) : Prop :=
  s = lead ++ tok ++ tail /\ Forall (fun c => c ∈ delim) lead /\ Forall (fun c => c ∉ delim) tok /\
  (tok = [] -> tail = []) /\ (forall c, head tail = Some c -> c ∈ delim).

Lemma token_split_exists delim s : exists lead tok tail, token_split delim s lead tok tail.
Proof.
  induction s as [|c s (lead & tok & tail & -> & Hl & Ht & He & Hh)].
  - exists [], [], []. repeat split; auto. discriminate.
  - destruct (decide (c ∈ delim)) as [Hc|Hc].
    + exists (c :: lead), tok, tail. repeat split; auto.
    + destruct lead as [|x lead].
      * exists [], (c :: tok), tail. repeat split; auto. discriminate.
      * exists [], [c], ((x :: lead) ++ tok ++ tail). repeat split; auto; [discriminate|].
        intros y [= <-]. apply Forall_cons in Hl. tauto.
Qed.

Lemma strtok_spec line delim p lead tok tail :
  token_split delim (drop p line) lead tok tail ->
  strtok line delim (Some p) =
    (Some ((p + length lead)%nat, tok),
     match tail with [] => None | _ => Some (p + length lead + length tok + 1)%nat end).
Proof.
  intros (Es & Hl & Ht & He & Hh). unfold strtok. rewrite Es.
  assert (Hspn : strspn (lead ++ tok ++ tail) delim = length lead).
  { apply strspn_app; [assumption|]. destruct tok as [|c tok]; [rewrite He by reflexivity; discriminate|].
    intros y [= <-]. apply Forall_cons in Ht. tauto. }
  rewrite Hspn, <- drop_drop, Es, drop_app_length.
  assert (Hnone : forall l, Forall (fun c => c ∉ delim) l -> Forall (fun c => mem_char c delim = false) l)
    by (intros l Hl'; eapply Forall_impl; [exact Hl'|]; intros c; apply mem_char_false).
  destruct tok as [|c tok]; [rewrite He by reflexivity; reflexivity|].
  apply Forall_cons in Ht as [Hc Ht]. cbn [app strpbrk]. destruct tail as [|x tail].
  - rewrite app_nil_r, index_of_None by auto. reflexivity.
  - rewrite index_of_app by (auto; apply mem_char_spec, Hh; reflexivity). cbn [fmap option_fmap option_map length].
    rewrite app_comm_cons, take_app_length' by reflexivity. reflexivity.
Qed.

(** The pointer moves forward and stays within the line. *)
Lemma strtok_progress line delim p tok q :
  strtok line delim (Some p) = (tok, Some q) -> (p < q <= length line)%nat.
Proof.
  destruct (token_split_exists delim (drop p line)) as (lead & t & tail & H). rewrite (strtok_spec _ _ _ _ _ _ H).
  destruct H as (Es & _ & _ & He & _). destruct tail as [|x tail]; [discriminate|]. intros [= <- <-].
  apply (f_equal length) in Es. rewrite length_drop, !length_app in Es. cbn [length] in Es.
  destruct (Nat.le_gt_cases (length line) p); [|lia]. destruct lead, t; cbn [length] in Es; lia.
Qed.

(** Tokens still to come. *)
Definition remaining (line : list Z) (ptr : option nat) : nat :=
  match ptr with None => 0 | Some p => S (length line - p) end.

Lemma strtok_remaining line delim ptr tok ptr' :
  strtok line delim ptr = (Some tok, ptr') -> (remaining line ptr' < remaining line ptr)%nat.
Proof.
  destruct ptr as [p|]; [|discriminate]. intros H. destruct ptr' as [q|]; cbn [remaining]; [|lia].
  apply strtok_progress in H. lia.
Qed.
