(* ===== verification/LassSpec.v ===== *)
(** * What the assembler does

    Termination of every line, agreement of the token slices with [strtok] on
    memory, the lookup in the instruction table, symbols, and the bytes that
    register, immediate and jump instructions assemble to. *)

From Stdlib Require Import ZArith Lia String.
From stdpp Require Import base numbers list gmap.
From S2P Require Import Prelude Memory CString LassIsa Lass.
Open Scope Z_scope.

(** ** Termination *)

Lemma data_loop_total fuel line wr text ptr s :
  (remaining line ptr <= fuel)%nat -> exists s', data_loop fuel line wr text ptr s = Ok tt s'.
Proof.
  revert ptr s. induction fuel as [|f IH]; intros ptr s Hf; cbn [data_loop];
    destruct (Lass.strtok line [44; 32; 39; 34] ptr) as [[[off pch]|] ptr'] eqn:E; eauto.
  - apply strtok_remaining in E. lia.
  - apply IH. apply strtok_remaining in E. lia.
Qed.

Lemma sib_loop_total fuel line delim step tok ptr a :
  (remaining line ptr < fuel)%nat -> exists a', sib_loop fuel line delim step tok ptr a = Some a'.
Proof.
  revert tok ptr a. induction fuel as [|f IH]; intros [[off pch]|] ptr a Hf; cbn [sib_loop]; eauto; [lia|].
  destruct (Lass.strtok line delim ptr) as [[tok'|] ptr'] eqn:E.
  - apply IH. apply strtok_remaining in E. lia.
  - destruct f; cbn [sib_loop]; eauto.
Qed.

Lemma strtok_first line delim tok ptr :
  Lass.strtok line delim (Some O) = (tok, ptr) -> (remaining line ptr <= length line)%nat.
Proof.
  intros E. destruct ptr as [q|]; cbn [remaining]; [|lia]. apply strtok_progress in E. lia.
Qed.

Lemma calc_sib_total line o : exists a, calc_sib line o = Some a.
Proof.
  unfold calc_sib. destruct (if o =? 0 then _ else _) as [o1 d].
  destruct (Lass.strchr line 42) as [k|];
    (destruct (Lass.strtok line _ (Some O)) as [tok ptr] eqn:E; apply strtok_first in E).
  - match goal with |- context [sib_loop ?f ?l ?d ?st ?t ?p ?a] =>
      destruct (sib_loop_total f l d st t p a) as [a' ->]; [lia|] end.
    destruct (_ =? -1); eauto.
  - match goal with |- context [sib_loop ?f ?l ?d ?st ?t ?p ?a] =>
      destruct (sib_loop_total f l d st t p a) as [a' ->]; [lia|] end.
    destruct (negb _); eauto.
Qed.

Lemma find_symbol_no_spin label s : find_symbol label s <> Spin.
Proof. unfold find_symbol. destruct (find _ _); [discriminate|]. repeat case_match; discriminate. Qed.

Lemma scan_word_no_spin after pch c s : scan_word after pch c s <> Spin.
Proof.
  unfold scan_word. destruct (count c) as [|k]; [discriminate|]. unfold bind.
  destruct (classify pch =? -1).
  - pose proof (find_symbol_no_spin pch s) as H. destruct (find_symbol pch s); [|congruence|discriminate].
    destruct k as [|[|k]]; discriminate.
  - destruct k as [|[|k]]; discriminate.
Qed.

Lemma scan_loop_no_spin fuel after line disp tok ptr c s :
  (remaining line ptr < fuel)%nat -> scan_loop fuel after line disp tok ptr c s <> Spin.
Proof.
  revert tok ptr c s. induction fuel as [|f IH]; intros [[off pch]|] ptr c s Hf; [lia..| |discriminate].
  cbn [scan_loop]. destruct (_ =? 59); [discriminate|]. destruct (bool_decide _).
  - unfold scan_memory. destruct (calc_sib_total (drop off line) (syn0 c)) as [a ->]. discriminate.
  - unfold bind. pose proof (scan_word_no_spin after pch c s) as Hw.
    destruct (scan_word after pch c s) as [c' s'| |]; [|congruence|discriminate].
    destruct (Lass.strtok line _ ptr) as [[tok'|] ptr'] eqn:E.
    + apply IH. apply strtok_remaining in E. lia.
    + destruct f; discriminate.
Qed.

(** C29: the assembler terminates on every input: no line, whatever its
    characters, makes [parse_line] run for ever, so neither does a pass. *)
Theorem parse_line_terminates after line s : parse_line after line s <> Spin.
Proof.
  unfold parse_line. destruct (Lass.strtok line _ (Some O)) as [[[off pch]|] ptr] eqn:E; [|discriminate].
  apply strtok_first in E.
  destruct (strcmp0 pch _); [|destruct (strcmp0 pch _); [|destruct (strcmp0 pch _)]].
  1-3: match goal with |- data_loop ?f ?l ?w ?t ?p ?s <> Spin =>
         destruct (data_loop_total f l w t p s) as [s' ->]; [lia|discriminate] end.
  unfold bind. match goal with |- context [scan_loop ?f ?a ?l ?d ?t ?p ?c ?s] =>
    pose proof (scan_loop_no_spin f a l d t p c s ltac:(lia)) as H; destruct (scan_loop f a l d t p c s) as [c' s'| |] end;
    [|congruence|discriminate].
  destruct (inst c'); [|discriminate]. destruct (find_instruction _ _ _); discriminate.
Qed.

(** ** Tokens in memory *)

(** The slices of the line model are what [strtok] gives on memory: for a
    line at [base], a call with the pointer [p] characters into it returns the
    address of the slice, which it has terminated in place, and leaves the
    static pointer where the model says (NULL at the end of the line). *)
Theorem strtok_slices_agree mm base line d delim p off tok ptr :
  cstr mm base line -> cstr mm d delim -> 0 < base -> 0 < d ->
  base + Z.of_nat (length line) < 0x100000000 -> (p <= length line)%nat ->
  Lass.strtok line delim (Some p) = (Some (off, tok), ptr) ->
  exists mm', CString.strtok mm NULL (base + Z.of_nat p) d =
    (mm', match ptr with Some q => base + Z.of_nat q | None => NULL end, base + Z.of_nat off) /\
    cstr mm' (base + Z.of_nat off) tok /\
    (forall q, ptr = Some q -> cstr mm' (base + Z.of_nat q) (drop q line)).
Proof.
  intros Hs Hd Hb Hd0 Hlt Hp Htok.
  destruct (token_split_exists delim (drop p line)) as (lead & t & tail & H).
  rewrite (strtok_spec _ _ _ _ _ _ H) in Htok. destruct H as (Es & Hl & Ht & He & Hh).
  assert (Hline : line = take p line ++ lead ++ t ++ tail) by (rewrite <- Es, take_drop; reflexivity).
  assert (Hlen : length (take p line) = p) by (rewrite length_take; lia).
  assert (Hc : cstr mm (base + Z.of_nat p) (lead ++ t ++ tail)).
  { rewrite Hline in Hs. apply cstr_suffix in Hs. rewrite Hlen in Hs. assumption. }
  assert (Hll : (p + (length lead + (length t + length tail)) = length line)%nat).
  { apply (f_equal length) in Hline. rewrite !length_app, Hlen in Hline. lia. }
  destruct (decide (t = [])) as [->|Hne].
  - rewrite He in * by reflexivity. rewrite !app_nil_r in Hc. injection Htok as <- <- <-. exists mm.
    rewrite (strtok_empty mm NULL _ d lead delim Hc Hd) by (assumption || lia).
    rewrite Nat2Z.inj_add, Z.add_assoc. split; [reflexivity|]. split; [|discriminate].
    rewrite <- (app_nil_r lead) in Hc. apply cstr_suffix in Hc. exact Hc.
  - pose proof (strtok_token mm NULL _ d lead t tail delim Hc Hd ltac:(lia) Hd0 ltac:(rewrite !length_app;
      lia) Hl Ht Hne Hh) as E.
    cbv zeta in E. rewrite E. pose proof (cstr_suffix _ _ _ _ Hc) as Hr. injection Htok as <- <- <-.
    rewrite Nat2Z.inj_add, Z.add_assoc. destruct tail as [|x tail].
    + exists mm. split; [reflexivity|]. rewrite app_nil_r in Hr. split; [assumption|discriminate].
    + eexists. split; [f_equal; f_equal; lia|]. split; [apply (cstr_cut _ _ _ (x :: tail)); assumption|].
      intros q [= <-].
      assert (Hq : drop (p + length lead + length t + 1) line = tail).
      { rewrite <- !drop_drop, Es, !drop_app_length. reflexivity. }
      rewrite Hq. pose proof (cstr_suffix _ _ _ _ Hr) as Hx. apply (cstr_suffix _ _ [x] tail) in Hx. cbn [length] in Hx, Hll.
      replace (base + Z.of_nat (p + length lead + length t + 1)) with (base + Z.of_nat p + Z.of_nat (length lead) + Z.of_nat (length t) + Z.of_nat 1) by lia.
      eapply cstr_frame; [exact Hx|]. intros a Ha. rewrite load8_store8_ne; [reflexivity|lia].
Qed.

(** ** The instruction table *)

#[export] Instance isa_eq_dec : EqDecision isa.
Proof. solve_decision. Defined.

Lemma find_first {A : Type} (P : A -> bool) l x :
  find P l = Some x -> exists l1 l2, l = l1 ++ x :: l2 /\ P x = true /\ forall y, y ∈ l1 -> P y = false.
Proof.
  induction l as [|a l IH]; cbn [find]; [discriminate|]. destruct (P a) eqn:E.
  - intros [= <-]. exists [], l. split; [reflexivity|]. split; [assumption|]. intros y Hy. inversion Hy.
  - intros H. destruct (IH H) as (l1 & l2 & -> & Hx & Hl). exists (a :: l1), l2. split; [reflexivity|].
    split; [assumption|]. intros y Hy. apply elem_of_cons in Hy as [->|Hy]; auto.
Qed.

Lemma strcmp0_spec s1 s2 : strcmp0 s1 s2 = true <-> s1 `prefix_of` s2.
Proof.
  unfold strcmp0, strncmp0. rewrite bool_decide_eq_true, firstn_all. split.
  - intros E. exists (drop (length s1) s2). rewrite E at 1. symmetry. apply take_drop.
  - intros [k ->]. symmetry. apply take_app_length.
Qed.

(** Every row named [n] comes after a row for the same operands whose name is a
    proper prefix of [n]. *)
Fixpoint shadowed (n : string) (seen l : list isa) : bool :=
  match l with
  | [] => true
  | y :: t =>
      if bool_decide (name y = n) &&
         negb (existsb (fun z => negb (bool_decide (name z = n)) && strcmp0 (chars (name z)) (chars (name y)) &&
                         (op1 z =? op1 y) && (op2 z =? op2 y)) (if bool_decide (name y = n) then seen else []))
      then false else shadowed n (seen ++ [y]) t
  end.

Lemma shadowed_spec n l : forall seen, shadowed n seen l = true -> forall l1 y l2, l = l1 ++ y :: l2 -> name y = n ->
  exists z, z ∈ seen ++ l1 /\ name z <> n /\ chars (name z) `prefix_of` chars (name y) /\ op1 z = op1 y /\ op2 z = op2 y.
Proof.
  induction l as [|a l IH]; intros seen H l1 y l2 E Hn; [destruct l1; discriminate|].
  cbn [shadowed] in H. destruct (_ && _) eqn:Ha in H; [discriminate|]. rename H into Ht. destruct l1 as [|b l1].
  - injection E as <- <-. rewrite bool_decide_eq_true_2 in Ha by assumption. cbn [andb] in Ha. apply negb_false_iff in Ha.
    apply existsb_exists in Ha as (z & Hz & Hp).
    rewrite !andb_true_iff, negb_true_iff, bool_decide_eq_false, strcmp0_spec, !Z.eqb_eq in Hp.
    exists z. rewrite app_nil_r. apply list_elem_of_In in Hz. tauto.
  - injection E as <- ->. destruct (IH _ Ht l1 y l2 eq_refl Hn) as (z & Hz & Hp). exists z.
    rewrite <- app_assoc in Hz. auto.
Qed.

Lemma opmatch_shadow b s o1 o2 z y :
  chars (name z) `prefix_of` chars (name y) -> op1 z = op1 y -> op2 z = op2 y ->
  opmatch b s o1 o2 y = true -> opmatch b s o1 o2 z = true.
Proof.
  intros Hp E1 E2. unfold opmatch. rewrite E1, E2, !andb_true_iff, !strcmp0_spec. intros [Hy ?].
  split; [etransitivity; eassumption|assumption].
Qed.

Lemma shadowed_dead n : shadowed n [] x86 = true ->
  forall s o1 o2 x, find_instruction s o1 o2 = Some x -> name x <> n.
Proof.
  intros Hsh s o1 o2 x H Hn. unfold find_instruction in H.
  assert (exists b, find (opmatch b s o1 o2) x86 = Some x) as [b Hb]
    by (destruct (find (opmatch true s o1 o2) x86) eqn:E; [exists true; congruence|eauto]).
  apply find_first in Hb as (l1 & l2 & E & Hx & Hl).
  destruct (shadowed_spec _ _ _ Hsh _ _ _ E Hn) as (z & Hz & _ & Hp & E1 & E2).
  pose proof (opmatch_shadow _ _ _ _ _ _ Hp E1 E2 Hx) as Hz'. rewrite (Hl z Hz) in Hz'. discriminate.
Qed.

Definition dead_mnemonics : list string :=
  ["btc"; "btr"; "bts"; "cmovbe"; "cmovle"; "cmovnbe"; "cmovnle"; "cmovpe"; "cmpsb"; "cmpsw"; "cmpsd";
   "fdivr"; "fsub"; "fsubr"; "iretd"; "jbe"; "jle"; "jnbe"; "jnle"; "jpe"; "loopnz"; "loopne"; "loopz";
   "loope"; "movsb"; "movsw"; "movsd"; "outsb"; "outsw"; "outsd"; "popad"; "popfd"; "pushad"; "pushfd";
   "rdtscp"; "repnz"; "repne"; "repz"; "repe"; "setbe"; "setle"; "setnbe"; "setnle"; "setpe"; "stosb";
   "stosw"; "stosd"]%string.

Lemma dead_shadowed : forallb (fun n => shadowed n [] x86) dead_mnemonics = true.
Proof. vm_compute. reflexivity. Qed.

(** Because [strcmp] stops at the end of the table's name, a row is found
    for every longer mnemonic too: 47 mnemonics of the table, [jbe] and [jle]
    among them, are never selected, whatever is written and whatever the
    operands are; a shorter one ([jb], [jl]) is assembled in their place. *)
Theorem dead_mnemonics_never_selected n s o1 o2 x :
  n ∈ dead_mnemonics -> find_instruction s o1 o2 = Some x -> name x <> n.
Proof.
  intros Hn. apply shadowed_dead. apply list_elem_of_In in Hn.
  pose proof dead_shadowed as H. rewrite forallb_forall in H. apply H. assumption.
Qed.

Lemma dead_mnemonics_never_selected_witness :
  "jbe"%string ∈ dead_mnemonics /\
  find_instruction (chars "jbe") rel8 0 = Some (MkIsa "jb" rel8 none 0x72 0 0 0) /\ "jb"%string <> "jbe"%string.
Proof.
  assert (Hd : "jbe"%string ∈ dead_mnemonics) by (unfold dead_mnemonics; repeat (left || right)).
  assert (E : find_instruction (chars "jbe") rel8 0 = Some (MkIsa "jb" rel8 none 0x72 0 0 0)) by (vm_compute; reflexivity).
  split; [exact Hd|]. split; [exact E|].
  exact (dead_mnemonics_never_selected "jbe" (chars "jbe") rel8 0 _ Hd E).
Defined.

(** ** Symbols *)

Lemma until0_id l : Forall (fun c => c <> 0) l -> until0 l = l.
Proof. induction 1 as [|c l H _ IH]; cbn [until0]; [reflexivity|]. replace (c =? 0) with false by lia. rewrite IH. reflexivity.
Qed.

Lemma stored_name label cp :
  (length label < 32)%nat -> Forall (fun c => c <> 0 /\ c <> 58) label ->
  sym_name (MkSym ((fun c => if c =? 58 then 0 else c) <$> take 32 label) cp) = label.
Proof.
  intros Hlen Hc. rewrite take_ge by lia. unfold sym_name. cbn [sym_chars position]. rewrite length_fmap.
  replace (length label <? 32)%nat with true by (symmetry; apply Nat.ltb_lt; assumption). rewrite app_nil_r.
  replace ((fun c => if c =? 58 then 0 else c) <$> label) with label.
  - apply until0_id. eapply Forall_impl; [exact Hc|]. intros c Hx. apply Hx.
  - clear Hlen. symmetry. rewrite <- (list_fmap_id label) at 2. apply list_fmap_ext. intros i c Hi.
    rewrite Forall_lookup in Hc. destruct (Hc i c Hi). replace (c =? 58) with false by lia. reflexivity.
Qed.

Lemma find_app_skip {A : Type} (P : A -> bool) a x b :
  (forall y, y ∈ a -> P y = false) -> P x = true -> find P (a ++ x :: b) = Some x.
Proof.
  intros Ha Hx. induction a as [|y a IH]; cbn [app find]; [rewrite Hx; reflexivity|].
  rewrite (Ha y) by left. apply IH. intros z Hz. apply Ha. right. assumption.
Qed.

(** A label that [add_symbol] records at the current position is found
    there, now and after any further labels, as long as no label recorded
    before it is a prefix of it. *)
Theorem add_symbol_then_find label s :
  (length (symtab s) < 256)%nat -> (length label < 32)%nat -> Forall (fun c => c <> 0 /\ c <> 58) label ->
  (forall e, e ∈ symtab s -> ~ sym_name e `prefix_of` label) ->
  exists s', add_symbol label s = Ok tt s' /\
    forall t more, symtab t = symtab s' ++ more ->
      find_symbol label t = Ok (s32 (current_position s + elf_offset t)) t.
Proof.
  intros Hn Hlen Hc Hpre. unfold add_symbol.
  replace (256 <=? length (symtab s))%nat with false by (symmetry; apply Nat.leb_gt; assumption).
  eexists. split; [reflexivity|]. intros t more Ht. cbn [symtab] in Ht. unfold find_symbol. rewrite Ht, <- app_assoc. cbn [app].
  rewrite find_app_skip; [reflexivity| |].
  - intros e He. destruct (strcmp0 (sym_name e) label) eqn:E; [|reflexivity].
    apply strcmp0_spec in E. destruct (Hpre e He E).
  - apply strcmp0_spec. rewrite stored_name by assumption. reflexivity.
Qed.

Lemma add_symbol_then_find_witness :
  exists s', add_symbol (chars "main") lass_init = Ok tt s' /\
    forall t more, symtab t = symtab s' ++ more ->
      find_symbol (chars "main") t = Ok (s32 (current_position lass_init + elf_offset t)) t.
Proof.
  apply (add_symbol_then_find (chars "main") lass_init); [cbn; lia|cbn; lia| |].
  - apply (bool_decide_unpack _). vm_compute. exact I.
  - intros e He. inversion He.
Defined.

(** ** Encodings *)

(** Words of a line that hold neither delimiters nor a memory operand. *)
Definition plain (w : list Z) : Prop := w <> [] /\ Forall (fun c => c <> 0 /\ c ∉ [32; 44; 9; 91; 59]) w.

Lemma plain_not w d : plain w -> d ⊆ [32; 44; 9; 91; 59] -> Forall (fun c => c ∉ d) w.
Proof. intros [_ H] Hd. eapply Forall_impl; [exact H|]. intros c [_ Hc] Hin. apply Hc, Hd, Hin. Qed.

Lemma no_memory_operand line : Forall (fun c => c <> 91) line -> Lass.strpbrk line (chars "[") = None.
Proof.
  intros H. destruct line as [|c l]; [reflexivity|]. cbn [Lass.strpbrk]. apply Forall_cons in H as [_ H].
  rewrite index_of_None; [reflexivity|]. eapply Forall_impl; [exact H|]. intros x Hx. apply mem_char_false.
  intros Hin. apply Hx. apply list_elem_of_In in Hin. vm_compute in Hin. destruct Hin as [<-|[]]. reflexivity.
Qed.

Lemma plain_head w : plain w -> (default 0 (head w) =? 59) = false.
Proof.
  intros [Hne H]. destruct w as [|c w]; [congruence|]. apply Forall_cons in H as [[_ Hc] _]. cbn.
  apply Z.eqb_neq. intros ->. apply Hc. set_solver.
Qed.

(** The next word of a line, after some delimiters. *)
Lemma strtok_word line pre lead w tail :
  line = pre ++ lead ++ w ++ tail -> Forall (fun c => c ∈ [32; 44; 9]) lead -> plain w ->
  (forall c, head tail = Some c -> c ∈ [32; 44; 9]) ->
  Lass.strtok line [32; 44; 9] (Some (length pre)) =
    (Some ((length pre + length lead)%nat, w),
     match tail with [] => None | _ => Some (length pre + length lead + length w + 1)%nat end).
Proof.
  intros -> Hl Hw Ht. apply (strtok_spec _ _ _ lead w tail).
  rewrite drop_app_length. repeat split; auto.
  - apply plain_not; [assumption|set_solver].
  - intros ->. destruct Hw as [Hne _]. congruence.
Qed.

Lemma scan_loop_word f after line off pch ptr c s :
  plain pch ->
  scan_loop (S f) after line None (Some (off, pch)) ptr c s =
    (c' <-- scan_word after pch c ;;
     let '(tok', ptr') := Lass.strtok line [32; 44; 9] ptr in scan_loop f after line None tok' ptr' c') s.
Proof. intros H. cbn [scan_loop]. rewrite plain_head by assumption. reflexivity. Qed.

Lemma scan_loop_end f after line disp ptr c s : scan_loop f after line disp None ptr c s = Ok c s.
Proof. destruct f; reflexivity. Qed.

(** A mnemonic that is not a data directive. *)
Definition mnemonic (n : list Z) : Prop :=
  plain n /\ strcmp0 n (chars "db") = false /\ strcmp0 n (chars "dw") = false /\ strcmp0 n (chars "dd") = false.

Definition scan1 (n : list Z) : scan := MkScan (Some n) 0 0 1 0 false MOD_REG (-1) false 0.

(** What is assembled once the operands are known. *)
Definition assembled (n : list Z) (c : scan) (s : lass_state) : outcome lass_state unit :=
  match find_instruction n (syn0 c) (syn1 c) with
  | Some x => Ok tt (encode x c s)
  | None => Ok tt s
  end.

Lemma plain_no_memory w : plain w -> Forall (fun c => c <> 91) w.
Proof. intros [_ H]. eapply Forall_impl; [exact H|]. intros c [_ Hc] ->. apply Hc. set_solver. Qed.

Lemma parse_one n w s :
  mnemonic n -> plain w ->
  parse_line [] (n ++ [32] ++ w) s =
    (c <-- scan_word [] w (scan1 n) ;; match inst c with None => fun _ => Undef | Some i => assembled i c end) s.
Proof.
  intros (Hn & Hdb & Hdw & Hdd) Hw. unfold parse_line.
  rewrite no_memory_operand by (repeat (apply Forall_app; split); auto using plain_no_memory; repeat constructor; lia).
  rewrite (strtok_word _ [] [] n ([32] ++ w)); [|reflexivity|constructor|assumption|intros c [= <-]; set_solver].
  rewrite Hdb, Hdw, Hdd. cbn [app]. unfold bind at 1. rewrite scan_loop_word by assumption. unfold bind at 1.
  cbn [scan_word scan0 count ret].
  change (length [] + length [] + length n + 1)%nat with (length n + 1)%nat.
  replace (length n + 1)%nat with (length (n ++ [32])) by (rewrite length_app; reflexivity).
  rewrite (strtok_word _ (n ++ [32]) [] w []); [|rewrite app_nil_r, <- app_assoc;
    reflexivity|constructor|assumption|discriminate].
  rewrite length_app. cbn [length]. rewrite Nat.add_succ_r. rewrite scan_loop_word by assumption. rewrite app_nil_r.
  cbn [scan0 syn0 syn1 immediate imm mode m rev sib]. fold (scan1 n). unfold bind.
  destruct (scan_word [] w (scan1 n) s) as [c s'| |]; [|reflexivity|reflexivity].
  cbn [Lass.strtok]. rewrite scan_loop_end.
  destruct (inst c); [|reflexivity]. unfold assembled. destruct (find_instruction _ _ _); reflexivity.
Qed.

Lemma parse_two n w1 w2 s :
  mnemonic n -> plain w1 -> plain w2 ->
  parse_line [] (n ++ [32] ++ w1 ++ [44; 32] ++ w2) s =
    (c1 <-- scan_word [] w1 (scan1 n) ;; c <-- scan_word [] w2 c1 ;;
     match inst c with None => fun _ => Undef | Some i => assembled i c end) s.
Proof.
  intros (Hn & Hdb & Hdw & Hdd) Hw1 Hw2. unfold parse_line.
  rewrite no_memory_operand by (repeat (apply Forall_app; split); auto using plain_no_memory; repeat constructor; lia).
  rewrite (strtok_word _ [] [] n ([32] ++ w1 ++ [44; 32] ++ w2)); [|reflexivity|constructor|assumption|intros c [= <-];
    set_solver].
  rewrite Hdb, Hdw, Hdd. cbn [app]. unfold bind at 1. rewrite scan_loop_word by assumption. unfold bind at 1.
  cbn [scan_word scan0 count ret].
  change (length [] + length [] + length n + 1)%nat with (length n + 1)%nat.
  replace (length n + 1)%nat with (length (n ++ [32])) by (rewrite length_app; reflexivity).
  rewrite (strtok_word _ (n ++ [32]) [] w1 ([44; 32] ++ w2));
    [|rewrite <- app_assoc; reflexivity|constructor|assumption|intros c [= <-]; set_solver].
  cbn [app]. rewrite length_app. cbn [length]. rewrite Nat.add_succ_r. rewrite scan_loop_word by assumption. rewrite app_nil_r.
  cbn [scan0 syn0 syn1 immediate imm mode m rev sib]. fold (scan1 n). unfold bind.
  destruct (scan_word [] w1 (scan1 n) s) as [c1 s1| |]; [|reflexivity|reflexivity].
  replace (length (n ++ [32%Z]) + 0 + length w1 + 1)%nat with (length (n ++ [32] ++ w1 ++ [44])) by (rewrite !length_app;
    cbn [length]; lia).
  rewrite (strtok_word _ (n ++ [32] ++ w1 ++ [44]) [32] w2 []);
    [|rewrite app_nil_r, <- !app_assoc; reflexivity|repeat constructor; set_solver|assumption|discriminate].
  rewrite length_app. cbn [length]. rewrite Nat.add_succ_r. rewrite scan_loop_word by assumption.
  unfold bind. destruct (scan_word [] w2 c1 s1) as [c s'| |]; [|reflexivity|reflexivity].
  cbn [Lass.strtok]. rewrite scan_loop_end.
  destruct (inst c); [|reflexivity]. unfold assembled. destruct (find_instruction _ _ _); reflexivity.
Qed.

(** *** Jumps *)

Lemma byte_at_emit_eq x s : byte_at (emit x s) (current_position s) = x .& 0xFF.
Proof. unfold byte_at, emit. cbn. rewrite lookup_insert_eq. reflexivity. Qed.

Lemma byte_at_emit_ne x s i : i <> current_position s -> byte_at (emit x s) i = byte_at s i.
Proof. intros. unfold byte_at, emit. cbn. rewrite lookup_insert_ne by congruence. reflexivity. Qed.

Lemma emit_position x s : current_position (emit x s) = u32 (current_position s + 1).
Proof. reflexivity. Qed.

Lemma emit_frame x s : elf_offset (emit x s) = elf_offset s /\ symtab (emit x s) = symtab s /\
  unresolved (emit x s) = unresolved s.
Proof. auto. Qed.

(** The short jumps and their x86 opcodes ([0x70 + condition], [0xEB]). *)
Definition short_jumps : list (string * Z) :=
  [("jo", 0x70); ("jno", 0x71); ("jb", 0x72); ("jnae", 0x72); ("jc", 0x72); ("jnb", 0x73); ("jae", 0x73);
   ("jnc", 0x73); ("jz", 0x74); ("je", 0x74); ("jnz", 0x75); ("jne", 0x75); ("jna", 0x76); ("ja", 0x77);
   ("js", 0x78); ("jns", 0x79); ("jp", 0x7A); ("jnp", 0x7B); ("jpo", 0x7B); ("jl", 0x7C); ("jnge", 0x7C);
   ("jnl", 0x7D); ("jge", 0x7D); ("jng", 0x7E); ("jg", 0x7F); ("jmp", 0xEB)]%string.

#[local] Instance plain_dec w : Decision (plain w).
Proof. unfold plain. apply _. Defined.
#[local] Instance mnemonic_dec n : Decision (mnemonic n).
Proof. unfold mnemonic. apply _. Defined.

Lemma short_jumps_found :
  Forall (fun '(n, opc) => mnemonic (chars n) /\
    find_instruction (chars n) rel8 0 = Some (MkIsa n rel8 none opc 0 0 0)) short_jumps.
Proof.
  repeat (apply Forall_cons_2; [split; [apply (bool_decide_unpack _); vm_compute; exact I|vm_compute; reflexivity]|]).
  apply Forall_nil_2.
Qed.

(** A short jump to a known label.  The two bytes assembled are the x86
    opcode of the condition and the displacement; when the label is within
    reach, executing it at its own address arrives exactly at the label. *)
Theorem short_jump_reaches_label n opc label target s :
  (n, opc) ∈ short_jumps -> plain label -> classify label = -1 ->
  find_symbol label s = Ok (s32 (target + elf_offset s)) s ->
  let start := current_position s in
  0 <= start < 0x7FFFFFF0 -> 0 <= target -> 0 <= elf_offset s -> target + elf_offset s < 0x80000000 ->
  exists s', parse_line [] (chars n ++ [32] ++ label) s = Ok tt s' /\
    current_position s' = start + 2 /\ byte_at s' start = opc /\
    (forall i, i < start \/ start + 2 <= i -> byte_at s' i = byte_at s i) /\
    (-128 <= target - (start + 2) <= 127 -> start + 2 + s8 (byte_at s' (start + 1)) = target).
Proof.
  intros Hn Hl Hc Hf start Hs Ht He Hte.
  pose proof short_jumps_found as Hall. rewrite Forall_forall in Hall. destruct (Hall _ Hn) as [Hm Hi].
  rewrite parse_one by assumption. unfold bind at 1. unfold scan_word. cbn [scan1 count].
  rewrite Hc. cbn [Z.eqb Pos.eqb]. unfold bind. rewrite Hf. unfold ret. cbn [inst].
  cbn [scan1 inst syn0 syn1 imm mode m rev sib]. unfold assembled. cbn [syn0 syn1]. rewrite Hi.
  eexists. split; [reflexivity|].
  assert (Hopc : 0 <= opc < 256).
  { apply list_elem_of_In in Hn. cbn in Hn. repeat destruct Hn as [Hn|Hn]; try (injection Hn as _ <-; lia). contradiction. }
  unfold encode, encode_one, encode_imm. cbn -[emit Z.land Z.sub s32]. unfold write_byte.
  change (has rel8 1728) with true. change (negb (-1 .& (imm8 .| imm32) =? 0)) with true. cbn [orb].
  set (rel := s32 (target + elf_offset s) - _ - _ - _).
  assert (Hcp : current_position (emit opc s) = start + 1) by (rewrite emit_position; apply u32_small; fold start; lia).
  assert (Hrel : rel = target - (start + 2)).
  { unfold rel. rewrite s32_small by lia. rewrite Hcp. cbn [emit set_position put elf_offset]. fold start. lia. }
  split; [rewrite emit_position, Hcp, u32_small by lia; lia|].
  split; [rewrite byte_at_emit_ne by (rewrite Hcp; lia); unfold start; rewrite byte_at_emit_eq; change 0xFF with (Z.ones 8);
    rewrite land_ones_mod by lia; apply Z.mod_small; assumption|].
  split; [intros i Hi'; rewrite !byte_at_emit_ne by (rewrite ?Hcp; fold start; lia); reflexivity|].
  intros Hr. rewrite <- Hcp, byte_at_emit_eq. change 0xFF with (Z.ones 8). rewrite land_ones_mod by lia.
  change (2 ^ 8) with 256. rewrite Hrel. unfold s8. rewrite Zplus_mod_idemp_l, Z.mod_small by lia. lia.
Qed.

Definition loop_state : lass_state := MkLass ∅ 16 0 [MkSym (chars "again") 4] [] 0 [].

Lemma short_jump_reaches_label_witness :
  exists s', parse_line [] (chars "jne" ++ [32] ++ chars "again") loop_state = Ok tt s' /\
    current_position s' = 16 + 2 /\ byte_at s' 16 = 0x75 /\
    (forall i, i < 16 \/ 16 + 2 <= i -> byte_at s' i = byte_at loop_state i) /\
    (-128 <= 4 - (16 + 2) <= 127 -> 16 + 2 + s8 (byte_at s' (16 + 1)) = 4).
Proof.
  apply (short_jump_reaches_label "jne" 0x75 (chars "again") 4 loop_state).
  - unfold short_jumps. repeat (left || right).
  - apply (bool_decide_unpack _). vm_compute. exact I.
  - vm_compute. reflexivity.
  - vm_compute. reflexivity.
  - cbn. lia.
  - lia.
  - cbn. lia.
  - cbn. lia.
Defined.

(** *** Register operands *)

Definition registers32 : list (string * Z) :=
  [("eax", 0); ("ecx", 1); ("edx", 2); ("ebx", 3); ("esp", 4); ("ebp", 5); ("esi", 6); ("edi", 7)]%string.
Definition alu : list (string * Z) :=
  [("adc", 0x13); ("add", 0x03); ("and", 0x23); ("cmp", 0x3B); ("mov", 0x8B); ("or", 0x0B); ("sbb", 0x1B);
   ("sub", 0x2B); ("xor", 0x33)]%string.

Lemma registers32_classify :
  Forall (fun '(r, c) => plain (chars r) /\ classify (chars r) = c .| r32) registers32.
Proof.
  repeat (apply Forall_cons_2; [split; [apply (bool_decide_unpack _); vm_compute; exact I|vm_compute; reflexivity]|]).
  apply Forall_nil_2.
Qed.

Lemma registers32_codes r c : (r, c) ∈ registers32 -> c ∈ [0; 1; 2; 3; 4; 5; 6; 7].
Proof.
  intros H. apply list_elem_of_In in H. cbn in H. repeat destruct H as [H|H]; try (injection H as _ <-; set_solver).
  contradiction.
Qed.

Lemma alu_found_all :
  forallb (fun '(n, opc) => bool_decide (mnemonic (chars n)) && forallb (fun c1 => forallb (fun c2 =>
    match find_instruction (chars n) (c1 .| r32) (c2 .| r32) with
    | Some x => (primary x =? opc) && (extension x =? 0) && (secondary x =? 0) && (prefix x =? 0)
    | None => false
    end) [0; 1; 2; 3; 4; 5; 6; 7]) [0; 1; 2; 3; 4; 5; 6; 7]) alu = true.
Proof. vm_compute. reflexivity. Qed.

Lemma alu_found n opc c1 c2 :
  (n, opc) ∈ alu -> c1 ∈ [0; 1; 2; 3; 4; 5; 6; 7] -> c2 ∈ [0; 1; 2; 3; 4; 5; 6; 7] ->
  mnemonic (chars n) /\ exists x, find_instruction (chars n) (c1 .| r32) (c2 .| r32) = Some x /\
    primary x = opc /\ extension x = 0 /\ secondary x = 0 /\ prefix x = 0.
Proof.
  intros Hn H1 H2. apply list_elem_of_In in Hn, H1, H2. pose proof alu_found_all as H.
  rewrite forallb_forall in H. specialize (H _ Hn). apply andb_true_iff in H as [Hm H].
  rewrite forallb_forall in H. specialize (H _ H1). rewrite forallb_forall in H. specialize (H _ H2).
  split; [apply (bool_decide_unpack _); apply Is_true_true; assumption|].
  destruct (find_instruction _ _ _) as [x|]; [|discriminate]. exists x. rewrite !andb_true_iff, !Z.eqb_eq in H. tauto.
Qed.

Lemma scan_word_operand w c s n :
  classify w = n -> n <> -1 -> n .& (imm8 .| imm32) = 0 -> count c = 1%nat ->
  scan_word [] w c s = Ok (MkScan (inst c) n (syn1 c) 2 (immediate c) (imm c) (mode c) (m c) (rev c) (sib c)) s.
Proof.
  intros Hc Hn Hi Hk. unfold scan_word. rewrite Hk, Hc, Hi. replace (n =? -1) with false by lia. reflexivity.
Qed.

(** The two bytes of an opcode with its ModRM byte. *)
Lemma word_bytes b o : 0 <= b < 256 -> 0 <= o < 256 ->
  ((b .<< 8) .| o) .& 0xFF = o /\ (((b .<< 8) .| o) .>> 8) .& 0xFF = b.
Proof.
  intros Hb Ho. rewrite Z.shiftl_mul_pow2 by lia. rewrite (lor_disjoint_add 8) by (lia || apply Z_mod_mult).
  change 0xFF with (Z.ones 8). rewrite !land_ones_mod, Z.shiftr_div_pow2 by lia. change (2 ^ 8) with 256. dlia.
Qed.

(** Consecutive bytes. *)
Definition emit_all (l : list Z) (s : lass_state) : lass_state := foldl (fun s x => emit x s) s l.

Lemma emit_all_spec l : forall s, 0 <= current_position s -> current_position s + Z.of_nat (length l) < 0x100000000 ->
  let s' := emit_all l s in
  current_position s' = current_position s + Z.of_nat (length l) /\
  (forall i x, l !! i = Some x -> byte_at s' (current_position s + Z.of_nat i) = x .& 0xFF) /\
  (forall i, i < current_position s \/ current_position s + Z.of_nat (length l) <= i -> byte_at s' i = byte_at s i).
Proof.
  induction l as [|x l IH]; intros s Hs Hl; cbn [emit_all foldl length] in *.
  - split; [lia|]. split; [intros i x Hi; destruct i; discriminate|reflexivity].
  - assert (Hcp : current_position (emit x s) = current_position s + 1) by (rewrite emit_position; apply u32_small; lia).
    destruct (IH (emit x s)) as (Hp & Hb & Hf); [lia..|]. rewrite Hcp in *. split; [|split].
    + etransitivity; [exact Hp|]. lia.
    + intros [|i] y Hi; cbn in Hi.
      * injection Hi as <-. rewrite Z.add_0_r. etransitivity; [apply Hf; lia|]. apply byte_at_emit_eq.
      * specialize (Hb i y Hi). rewrite <- Hb. f_equal. lia.
    + intros i Hi. etransitivity; [apply Hf; lia|]. apply byte_at_emit_ne. lia.
Qed.

(** C16: two 32-bit registers.  For the nine ALU and move mnemonics and every
    pair of registers the line assembles to two bytes, the x86 opcode of the
    form "register, register/memory" and a ModRM byte with mode 3, the first
    register in the reg field and the second in the r/m field; nothing else is
    written.  A zero byte follows the copy of the mnemonic in the heap, which
    [strdup] does not terminate. *)
Theorem register_forms_encode n opc r1 c1 r2 c2 s :
  (n, opc) ∈ alu -> (r1, c1) ∈ registers32 -> (r2, c2) ∈ registers32 ->
  let start := current_position s in
  0 <= start < 0xFFFFFFF0 ->
  exists s' b, parse_line [] (chars n ++ [32] ++ chars r1 ++ [44; 32] ++ chars r2) s = Ok tt s' /\
    current_position s' = start + 2 /\ byte_at s' start = opc /\ byte_at s' (start + 1) = b /\
    b .>> 6 = 3 /\ (b .>> 3) .& 7 = c1 /\ b .& 7 = c2 /\
    (forall i, i < start \/ start + 2 <= i -> byte_at s' i = byte_at s i).
Proof.
  intros Hn H1 H2 start Hs. pose proof registers32_classify as Hall. rewrite Forall_forall in Hall.
  destruct (Hall _ H1) as [Hp1 Hc1], (Hall _ H2) as [Hp2 Hc2].
  apply registers32_codes in H1, H2. destruct (alu_found _ _ _ _ Hn H1 H2) as (Hm & x & Hx & Hop & He & Hse & Hpr).
  assert (Hopc : 0 <= opc < 256).
  { apply list_elem_of_In in Hn. cbn in Hn. repeat destruct Hn as [Hn|Hn]; try (injection Hn as _ <-; lia). contradiction. }
  assert (Hr : forall c, c ∈ [0; 1; 2; 3; 4; 5; 6; 7] -> c .| r32 <> -1 /\ (c .| r32) .& (imm8 .| imm32) = 0).
  { intros c Hc. apply list_elem_of_In in Hc. cbn in Hc.
    repeat destruct Hc as [<-|Hc]; try (split; [vm_compute; discriminate|reflexivity]). contradiction. }
  rewrite parse_two by assumption. unfold bind at 1.
  rewrite (scan_word_operand (chars r1) _ _ _ Hc1) by first [apply Hr; assumption | reflexivity].
  assert (E2 : forall c, count c = 2%nat -> scan_word [] (chars r2) c s =
    Ok (MkScan (inst c) (syn0 c) (c2 .| r32) 3 (immediate c) (imm c) (mode c) (m c) (rev c) (sib c)) s).
  { intros c Hk. unfold scan_word. rewrite Hk, Hc2. destruct (Hr _ H2) as [Hne ->].
    replace (c2 .| r32 =? -1) with false by lia. reflexivity. }
  unfold bind at 1. rewrite E2 by reflexivity. cbn [inst scan1]. unfold assembled. cbn [syn0 syn1]. rewrite Hx.
  exists (write_word ((MODRM 3 c1 c2 .<< 8) .| opc) s), (MODRM 3 c1 c2). split.
  { f_equal. unfold encode, encode_two. rewrite Hse, Hpr, He, Hop.
    apply list_elem_of_In in H1, H2. cbn in H1, H2. clear -H1 H2.
    repeat destruct H1 as [<-|H1]; repeat destruct H2 as [<-|H2]; try contradiction; reflexivity. }
  change (write_word ((MODRM 3 c1 c2 .<< 8) .| opc) s) with (emit_all [(MODRM 3 c1 c2 .<< 8) .| opc;
    ((MODRM 3 c1 c2 .<< 8) .| opc) .>> 8] s).
  destruct (emit_all_spec [(MODRM 3 c1 c2 .<< 8) .| opc; ((MODRM 3 c1 c2 .<< 8) .| opc) .>> 8] s) as (Hp & Hb & Hf);
    [fold start; lia|cbn; fold start; lia|].
  fold start in Hp, Hb, Hf. split; [exact Hp|].
  assert (HM : 0 <= MODRM 3 c1 c2 < 256 /\ MODRM 3 c1 c2 .>> 6 = 3 /\ (MODRM 3 c1 c2 .>> 3) .& 7 = c1 /\ MODRM 3 c1 c2 .& 7 = c2).
  { apply list_elem_of_In in H1, H2. cbn in H1, H2. clear -H1 H2.
    repeat destruct H1 as [<-|H1]; repeat destruct H2 as [<-|H2]; try contradiction; vm_compute; repeat split; congruence. }
  destruct HM as (HMb & HM). destruct (word_bytes _ _ HMb Hopc) as [Elo Ehi].
  split; [pose proof (Hb 0%nat _ eq_refl) as E; rewrite Z.add_0_r in E; rewrite E; exact Elo|].
  split; [rewrite (Hb 1%nat _ eq_refl : byte_at _ (start + 1) = _); exact Ehi|].
  repeat (split; [apply HM|]). exact Hf.
Qed.

Lemma register_forms_encode_witness :
  exists s' b, parse_line [] (chars "mov" ++ [32] ++ chars "eax" ++ [44; 32] ++ chars "ebx") lass_init = Ok tt s' /\
    current_position s' = 0 + 2 /\ byte_at s' 0 = 0x8B /\ byte_at s' (0 + 1) = b /\
    b .>> 6 = 3 /\ (b .>> 3) .& 7 = 0 /\ b .& 7 = 3 /\
    (forall i, i < 0 \/ 0 + 2 <= i -> byte_at s' i = byte_at lass_init i).
Proof.
  apply (register_forms_encode "mov" 0x8B "eax" 0 "ebx" 3 lass_init); [unfold alu|unfold registers32..|cbn; lia];
    repeat (left || right).
Defined.

(** *** Immediates *)

Definition digit (c : Z) : Prop := 48 <= c <= 57.
Definition dec_value (ds : list Z) : Z := foldl (fun n c => n * 10 + (c - 48)) 0 ds.

Lemma dec_foldl_mono ds : Forall digit ds -> forall n, 0 <= n -> n <= foldl (fun n c => n * 10 + (c - 48)) n ds.
Proof.
  induction 1 as [|c ds Hc _ IH]; intros n Hn; cbn [foldl]; [lia|]. unfold digit in Hc.
  etransitivity; [|apply IH]; lia.
Qed.

Lemma atoi_foldl ds : Forall digit ds -> forall n, 0 <= n ->
  foldl (fun n c => n * 10 + (c - 48)) n ds < 0x8000000000000000 ->
  foldl (atoi_digit 10) n ds = foldl (fun n c => n * 10 + (c - 48)) n ds.
Proof.
  induction 1 as [|c ds Hc Hds IH]; intros n Hn Hb; cbn [foldl] in *; [reflexivity|]. unfold digit in Hc.
  pose proof (dec_foldl_mono ds Hds (n * 10 + (c - 48)) ltac:(lia)).
  assert (E : atoi_digit 10 n c = n * 10 + (c - 48)).
  { unfold atoi_digit, isdigit. replace ((48 <=? c) && (c <=? 57)) with true by lia. unfold s64. rewrite Z.mod_small; lia. }
  rewrite E. apply IH; lia.
Qed.

Lemma lass_atoi_decimal ds :
  Forall digit ds -> dec_value ds < 0x8000000000000000 -> lass_atoi ds = dec_value ds.
Proof.
  intros Hd Hv. unfold lass_atoi.
  assert (Hx : Lass.strpbrk ds (chars "x") = None).
  { destruct ds as [|c ds]; [reflexivity|]. cbn [Lass.strpbrk]. apply Forall_cons in Hd as [_ Hd].
    rewrite index_of_None; [reflexivity|]. eapply Forall_impl; [exact Hd|]. intros y Hy. apply mem_char_false.
    intros Hin. apply list_elem_of_In in Hin. vm_compute in Hin. unfold digit in Hy. destruct Hin as [<-|[]]. lia. }
  rewrite Hx. assert (Hs : (default 0 (head ds) =? 45) = false).
  { destruct ds as [|c ds]; [reflexivity|]. apply Forall_cons in Hd as [Hc _]. unfold digit in Hc. cbn. lia. }
  rewrite Hs. unfold dec_value in *. rewrite atoi_foldl by (assumption || lia).
  pose proof (dec_foldl_mono ds Hd 0 ltac:(lia)). unfold s64. rewrite Z.mul_1_l, Z.mod_small; lia.
Qed.

Lemma mov_imm_found :
  forallb (fun c => forallb (fun k => bool_decide
    (find_instruction (chars "mov") (c .| r32) k = Some (MkIsa "mov" r32 imm32 0xb8 0xDEAD 0 0)))
    [imm8; imm32]) [0; 1; 2; 3; 4; 5; 6; 7] = true.
Proof. vm_compute. reflexivity. Qed.

Lemma digits_plain ds : ds <> [] -> Forall digit ds -> plain ds.
Proof.
  intros Hne Hd. split; [assumption|]. eapply Forall_impl; [exact Hd|]. unfold digit. intros c Hc. split; [lia|].
  intros Hin. apply list_elem_of_In in Hin. cbn in Hin. lia.
Qed.

(** [mov] of a decimal number into a 32-bit register, for every register
    and every number of any length below 2^31: one opcode byte that names the
    register, then the number as four bytes, lowest first. *)
Theorem mov_immediate_encodes r c ds s :
  (r, c) ∈ registers32 -> ds <> [] -> Forall digit ds -> dec_value ds < 0x80000000 ->
  let start := current_position s in
  0 <= start < 0xFFFFFFF0 ->
  exists s', parse_line [] (chars "mov" ++ [32] ++ chars r ++ [44; 32] ++ ds) s = Ok tt s' /\
    current_position s' = start + 5 /\ byte_at s' start = 0xB8 + c /\
    byte_at s' (start + 1) + 0x100 * byte_at s' (start + 2) + 0x10000 * byte_at s' (start + 3)
      + 0x1000000 * byte_at s' (start + 4) = dec_value ds /\
    (forall i, i < start \/ start + 5 <= i -> byte_at s' i = byte_at s i).
Proof.
  intros Hr Hne Hds Hv start Hs. pose proof registers32_classify as Hall. rewrite Forall_forall in Hall.
  destruct (Hall _ Hr) as [Hp Hc]. apply registers32_codes in Hr.
  pose proof (lass_atoi_decimal ds Hds ltac:(lia)) as Ha.
  pose proof (dec_foldl_mono ds Hds 0 ltac:(lia)) as Hv0. fold (dec_value ds) in Hv0.
  assert (Hk : classify ds = imm8 \/ classify ds = imm32).
  { unfold classify. replace (isdigit (default 0 (head ds))) with true; [destruct (_ <? _); auto|].
    destruct ds as [|x ds]; [congruence|]. apply Forall_cons in Hds as [Hx _]. unfold digit in Hx. unfold isdigit. cbn. lia. }
  set (k := classify ds) in *. assert (Hk' : k ∈ [imm8; imm32]) by (destruct Hk as [-> | ->]; set_solver).
  assert (Hf : find_instruction (chars "mov") (c .| r32) k = Some (MkIsa "mov" r32 imm32 0xb8 0xDEAD 0 0)).
  { pose proof mov_imm_found as H. rewrite forallb_forall in H. apply list_elem_of_In in Hr, Hk'. specialize (H _ Hr).
    rewrite forallb_forall in H. specialize (H _ Hk'). apply bool_decide_eq_true in H. exact H. }
  assert (Hcr : c .| r32 <> -1 /\ (c .| r32) .& (imm8 .| imm32) = 0).
  { apply list_elem_of_In in Hr. cbn in Hr. clear -Hr.
    repeat destruct Hr as [<-|Hr]; try (split; [vm_compute; discriminate|reflexivity]). contradiction. }
  rewrite parse_two by first [assumption | apply digits_plain; assumption | apply (bool_decide_unpack _); vm_compute; exact I].
  unfold bind at 1. rewrite (scan_word_operand (chars r) _ _ _ Hc) by first [apply Hcr | reflexivity].
  assert (E2 : forall c', count c' = 2%nat -> scan_word [] ds c' s =
    Ok (MkScan (inst c') (syn0 c') k 3 (dec_value ds) true (mode c') (m c') (rev c') (sib c')) s).
  { intros c' Hk2. unfold scan_word. rewrite Hk2. fold k. rewrite Ha, (s32_small (dec_value ds)) by lia.
    destruct Hk as [-> | ->]; reflexivity. }
  unfold bind at 1. rewrite E2 by reflexivity. cbn [inst scan1]. unfold assembled. cbn [syn0 syn1]. rewrite Hf.
  exists (emit_all ([0xB8 + c; dec_value ds; dec_value ds .>> 8; dec_value ds .>> 16; dec_value ds .>> 24]) s). split.
  { f_equal. generalize (dec_value ds) as v. intros v. clear -Hr Hk. apply list_elem_of_In in Hr. cbn in Hr.
    destruct Hk as [-> | ->]; repeat destruct Hr as [<-|Hr]; try contradiction; reflexivity. }
  assert (Hcb : 0 <= c < 8) by (clear -Hr; apply list_elem_of_In in Hr; cbn in Hr; lia).
  match goal with |- context [emit_all ?l s] => destruct (emit_all_spec l s) as (Hpos & Hb & Hfr); [fold start; lia|cbn;
    fold start; lia|] end.
  fold start in Hpos, Hb, Hfr. split; [exact Hpos|].
  assert (Eb : forall x, x .& 0xFF = u8 x) by (intros x; change 0xFF with (Z.ones 8); apply land_ones_mod; lia).
  split; [pose proof (Hb 0%nat _ eq_refl) as E; rewrite Z.add_0_r in E; rewrite E, Eb; apply u8_small; lia|].
  split; [|exact Hfr].
  rewrite (Hb 1%nat _ eq_refl : byte_at _ (start + 1) = _), (Hb 2%nat _ eq_refl : byte_at _ (start + 2) = _),
    (Hb 3%nat _ eq_refl : byte_at _ (start + 3) = _), (Hb 4%nat _ eq_refl : byte_at _ (start + 4) = _), !Eb.
  rewrite u8_split32. apply u32_small. lia.
Qed.

Lemma mov_immediate_encodes_witness :
  exists s', parse_line [] (chars "mov" ++ [32] ++ chars "ecx" ++ [44; 32] ++ chars "70000") lass_init = Ok tt s' /\
    current_position s' = 0 + 5 /\ byte_at s' 0 = 0xB8 + 1 /\
    byte_at s' (0 + 1) + 0x100 * byte_at s' (0 + 2) + 0x10000 * byte_at s' (0 + 3)
      + 0x1000000 * byte_at s' (0 + 4) = dec_value (chars "70000") /\
    (forall i, i < 0 \/ 0 + 5 <= i -> byte_at s' i = byte_at lass_init i).
Proof.
  apply (mov_immediate_encodes "ecx" 1 (chars "70000") lass_init).
  - unfold registers32. repeat (left || right).
  - discriminate.
  - apply (bool_decide_unpack _). vm_compute. exact I.
  - vm_compute. reflexivity.
  - cbn. lia.
Defined.

(** A line in memory. *)
Definition line_mem : mem := put_str (put_str ∅ 0x1000 (chars "mov eax, 7")) 0x2000 [32; 44; 9].

Lemma strtok_slices_agree_witness :
  exists mm', CString.strtok line_mem NULL (0x1000 + Z.of_nat 4) 0x2000 = (mm', 0x1000 + Z.of_nat 8, 0x1000 + Z.of_nat 4) /\
    cstr mm' (0x1000 + Z.of_nat 4) (chars "eax") /\
    (forall q, Some 8%nat = Some q -> cstr mm' (0x1000 + Z.of_nat q) (drop q (chars "mov eax, 7"))).
Proof.
  apply (strtok_slices_agree line_mem 0x1000 (chars "mov eax, 7") 0x2000 [32; 44; 9] 4 4 (chars "eax") (Some 8%nat));
    [apply is_cstr_sound; vm_compute; reflexivity|apply is_cstr_sound; vm_compute; reflexivity|lia|lia|vm_compute;
      reflexivity|cbn; lia|vm_compute; reflexivity].
Defined.
