(* ===== verification/Vga.v ===== *)
(** * kernel/drivers/vga.c: the text console

    The screen is the byte range at [VGA_MEMORY] of the kernel's memory, 80
    columns of character and attribute by 25 rows; [CURRENT_X] counts bytes.
    The writes to the CRT controller's cursor registers are a trace. *)

From stdpp Require Import base numbers list gmap.
From Stdlib Require Import ZArith Lia.
From S2P Require Import Prelude Memory CString.
Open Scope Z_scope.

Definition VGA_MEMORY : Z := 0xC00B8000.
Definition VGA_BLACK : Z := 0.
Definition VGA_LIGHTGREY : Z := 7.
Definition VGA_LIGHTGREEN : Z := 10.
Definition VGA_LIGHTCYAN : Z := 11.
Definition VGA_LIGHTRED : Z := 12.
Definition VGA_LIGHTBROWN : Z := 14.
Definition VGA_WHITE : Z := 15.
Definition VGA_COLOR (f b : Z) : Z := (b .<< 4) .| (f .& 0xF).

Record vga_state := MkVga {
  vmem : mem;
  CURRENT_X : Z;
  CURRENT_Y : Z;
  CURRENT_ATTRIB : Z;
  crtc : list (Z * Z);   (* port writes, latest first *)
}.
Definition set_vmem (m : mem) (s : vga_state) : vga_state := MkVga m (CURRENT_X s) (CURRENT_Y s) (CURRENT_ATTRIB s) (crtc s).
Definition set_xy (x y : Z) (s : vga_state) : vga_state := MkVga (vmem s) x y (CURRENT_ATTRIB s) (crtc s).
Definition out_crtc (p v : Z) (s : vga_state) : vga_state :=
  MkVga (vmem s) (CURRENT_X s) (CURRENT_Y s) (CURRENT_ATTRIB s) ((p, u8 v) :: crtc s).

Definition vga_move_cursor (x y : Z) (s : vga_state) : vga_state :=
  let temp := u16 y * 80 + u16 x in
  out_crtc 0x3D5 temp (out_crtc 0x3D4 15 (out_crtc 0x3D5 (temp .>> 8) (out_crtc 0x3D4 14 s))).
Definition vga_update_cursor (s : vga_state) : vga_state :=
  vga_move_cursor (Z.quot (CURRENT_X s) 2) (CURRENT_Y s) s.
Definition vga_setcolor (color : Z) (s : vga_state) : vga_state :=
  MkVga (vmem s) (CURRENT_X s) (CURRENT_Y s) color (crtc s).

Definition vga_clear (s : vga_state) : vga_state :=
  let m := for_up 2000 0 (fun i m =>
    store8 (store8 m (VGA_MEMORY + 2 * i) 0) (VGA_MEMORY + 2 * i + 1) (CURRENT_ATTRIB s)) (vmem s) in
  set_xy 0 0 (set_vmem m s).

(** [temp] is a [uint8_t]; the byte counts are those of the source. *)
Definition vga_scroll (s : vga_state) : vga_state :=
  let s1 :=
    if 25 <=? CURRENT_Y s then
      let temp := u8 (CURRENT_Y s - 24) in
      let m1 := memcpy (vmem s) VGA_MEMORY (VGA_MEMORY + temp * 160) (u32 ((25 - temp) * 160 * 2)) in
      let m2 := memsetw m1 (VGA_MEMORY + 24 * 160) (CURRENT_ATTRIB s .<< 8) 160 in
      set_xy (CURRENT_X s) 24 (set_vmem m2 s)
    else s in
  vga_update_cursor s1.

Definition vga_overwrite_color (color start_x start_y end_x end_y : Z) (s : vga_state) : vga_state :=
  let sizeend := 2 * end_x + 160 * end_y in
  let i0 := start_x + 1 + 160 * start_y in
  (* [i] runs from [i0] in steps of 2 while [i < sizeend] *)
  let n := Z.to_nat ((sizeend - i0 + 1) / 2) in
  set_vmem (for_up n 0 (fun k m => store8 m (VGA_MEMORY + (i0 + 2 * k)) color) (vmem s)) s.

Definition isascii (c : Z) : bool := (0 <=? c) && (c <=? 127).
Definition vga_kputc (c x y : Z) (s : vga_state) : vga_state :=
  if isascii c
  then set_vmem (store16 (vmem s) (VGA_MEMORY + (x + y * 160)) (c .| (CURRENT_ATTRIB s .<< 8))) s
  else s.

Fixpoint vga_kputs_loop (fuel : nat) (p x y : Z) (s : vga_state) : option vga_state :=
  let c := char_at (vmem s) p in
  if c =? 0 then Some s
  else match fuel with
       | O => None
       | S f => vga_kputs_loop f (p + 1) (x + 2) y (vga_kputc c (x + 2) y s)
       end.
Definition vga_kputs (p x y : Z) (s : vga_state) : option vga_state :=
  vga_kputs_loop (strfuel (vmem s)) p x y s.

(** [while (CURRENT_X % 16) CURRENT_X++]: at most 15 steps. *)
Fixpoint tab_loop (k : nat) (x : Z) : Z :=
  match k with
  | O => x
  | S k' => if Z.rem x 16 =? 0 then x else tab_loop k' (x + 1)
  end.

Definition vga_putc (c : Z) (s : vga_state) : vga_state :=
  if c =? 10 then vga_scroll (set_xy 0 (CURRENT_Y s + 1) s)
  else if c =? 8 then vga_kputc 32 (CURRENT_X s - 2) (CURRENT_Y s) (set_xy (CURRENT_X s - 2) (CURRENT_Y s) s)
  else if c =? 9 then
    let x := tab_loop 16 (CURRENT_X s) + 2 in
    if 160 <=? x then set_xy 0 (CURRENT_Y s + 1) s else set_xy x (CURRENT_Y s) s
  else
    let s1 := vga_kputc c (CURRENT_X s) (CURRENT_Y s) s in
    let x := CURRENT_X s1 + 2 in
    vga_scroll (if 160 <=? x then set_xy 0 (CURRENT_Y s1 + 1) s1 else set_xy x (CURRENT_Y s1) s1).

Fixpoint vga_puts_loop (fuel : nat) (p : Z) (s : vga_state) : option vga_state :=
  let c := char_at (vmem s) p in
  if c =? 0 then Some s
  else match fuel with
       | O => None
       | S f => vga_puts_loop f (p + 1) (vga_putc c s)
       end.
(** The fuel is that of the string before anything is printed. *)
Definition vga_puts (p : Z) (s : vga_state) : option vga_state :=
  vga_puts_loop (strfuel (vmem s)) p s.

Definition vga_pretty (p color : Z) (s : vga_state) : option vga_state :=
  match vga_puts p s with
  | Some s' => Some (vga_overwrite_color color (CURRENT_X s) (CURRENT_Y s) 80 (CURRENT_Y s') s')
  | None => None
  end.
Definition vga_init (s : vga_state) : vga_state := vga_clear (vga_setcolor (VGA_COLOR VGA_WHITE VGA_BLACK) s).

(** ** Memory written *)

Definition screen_end : Z := VGA_MEMORY + 0x2000.
Notation in_screen m1 m2 := (same_outside VGA_MEMORY screen_end m1 m2).

Lemma load8_memsetw m s c n b : 0 <= n -> s <= b < s + 2 * n ->
  load8 (memsetw m s c n) b = if Z.even (b - s) then u8 c else u8 (c .>> 8).
Proof.
  intros Hn Hb. unfold memsetw.
  pose proof (for_up_inv (fun i m' => forall b, s <= b < s + 2 * i ->
    load8 m' b = if Z.even (b - s) then u8 c else u8 (c .>> 8)) (Z.to_nat n) 0
    (fun i m => store16 m (s + 2 * i) c) m) as L. cbn beta in L. rewrite Z2Nat.id in L by lia.
    apply L; [|..|exact Hb]; clear L b Hb.
  - intros b Hb. lia.
  - intros j t Hj IH b Hb. unfold store16. rewrite !load8_store8.
    destruct (Z.eqb_spec b (s + 2 * j + 1)) as [->|]; [|destruct (Z.eqb_spec b (s + 2 * j)) as [->|]].
    + replace (s + 2 * j + 1 - s) with (1 + 2 * j) by lia. rewrite Z.even_add_mul_2. reflexivity.
    + replace (s + 2 * j - s) with (0 + 2 * j) by lia. rewrite Z.even_add_mul_2. reflexivity.
    + apply IH. lia.
Qed.

Lemma memsetw_same_outside m s c n : same_outside s (s + 2 * n) m (memsetw m s c n).
Proof.
  unfold memsetw. intros b Hb. destruct (Z.lt_ge_cases n 0).
  - rewrite (Z_to_nat_nonpos n) by lia. reflexivity.
  - apply (for_up_inv (fun _ t => load8 t b = load8 m b)); [reflexivity|].
    intros j t Hj <-. unfold store16. rewrite !load8_store8_ne by lia. reflexivity.
Qed.

Lemma store16_same_outside m a v : same_outside a (a + 2) m (store16 m a v).
Proof. intros b Hb. unfold store16. rewrite !load8_store8_ne by lia. reflexivity. Qed.

#[local] Hint Resolve memsetw_same_outside store16_same_outside : memory.

Lemma update_cursor_frame s : vmem (vga_update_cursor s) = vmem s /\ CURRENT_X (vga_update_cursor s) = CURRENT_X s /\
  CURRENT_Y (vga_update_cursor s) = CURRENT_Y s /\ CURRENT_ATTRIB (vga_update_cursor s) = CURRENT_ATTRIB s.
Proof. auto. Qed.

Lemma kputc_frame c x y s : CURRENT_X (vga_kputc c x y s) = CURRENT_X s /\ CURRENT_Y (vga_kputc c x y s) = CURRENT_Y s /\
  CURRENT_ATTRIB (vga_kputc c x y s) = CURRENT_ATTRIB s.
Proof. unfold vga_kputc. destruct (isascii c); auto. Qed.

Lemma kputc_in_screen c x y s : 0 <= x + y * 160 -> x + y * 160 + 2 <= 0x2000 -> in_screen (vmem s) (vmem (vga_kputc c x y s)).
Proof.
  intros H1 H2. unfold vga_kputc. destruct (isascii c); [|auto with memory]. cbn [set_vmem vmem].
  eapply same_outside_weaken; [| |auto with memory]; unfold screen_end; lia.
Qed.

Lemma scroll_in_screen s : 0 <= CURRENT_Y s <= 26 -> in_screen (vmem s) (vmem (vga_scroll s)).
Proof.
  intros H. unfold vga_scroll. destruct (Z.leb_spec 25 (CURRENT_Y s)); [|apply same_outside_refl].
  rewrite (proj1 (update_cursor_frame _)). cbn [set_xy set_vmem vmem].
  rewrite (u8_small (CURRENT_Y s - 24)), u32_small by lia.
  eapply same_outside_trans; [eapply same_outside_weaken; [| |apply memcpy_same_outside]|eapply same_outside_weaken;
    [| |apply memsetw_same_outside]];
    unfold screen_end; lia.
Qed.

Lemma scroll_xy s : CURRENT_X (vga_scroll s) = CURRENT_X s /\
  CURRENT_Y (vga_scroll s) = (if 25 <=? CURRENT_Y s then 24 else CURRENT_Y s) /\
  CURRENT_ATTRIB (vga_scroll s) = CURRENT_ATTRIB s.
Proof. unfold vga_scroll. destruct (25 <=? CURRENT_Y s); auto. Qed.

(** The cursor is on a cell of the screen. *)
Definition cursor_ok (s : vga_state) : Prop :=
  0 <= CURRENT_X s < 160 /\ Z.even (CURRENT_X s) = true /\ 0 <= CURRENT_Y s < 25.

Lemma even_add2 x : Z.even (x + 2) = Z.even x.
Proof. rewrite Z.even_add. destruct (Z.even x); reflexivity. Qed.

Lemma tab_loop_spec x : 0 <= x < 160 -> Z.even x = true ->
  (x <= 144 -> tab_loop 16 x <= 144) /\ x <= tab_loop 16 x <= 160 /\ Z.even (tab_loop 16 x) = true.
Proof.
  intros Hx He.
  assert (H : forallb (fun x => negb (Z.even x) || ((144 <? x) || (tab_loop 16 x <=? 144)) && (x <=? tab_loop 16 x)
                && (tab_loop 16 x <=? 160) && Z.even (tab_loop 16 x)) (seqZ 0 160) = true) by (vm_compute; reflexivity).
  rewrite forallb_forall in H. assert (Hin : x ∈ seqZ 0 160) by (clear H; apply elem_of_seqZ; lia).
  apply list_elem_of_In in Hin. specialize (H x Hin).
  rewrite He in H. cbn [negb orb] in H. rewrite !andb_true_iff, orb_true_iff in H.
  destruct H as [[[H1 H2] H3] H4]. clear He. split; [|split; [|exact H4]]; clear H4; lia.
Qed.

Lemma putc_xy_scroll s0 s :
  in_screen (vmem s0) (vmem s) -> CURRENT_X s = CURRENT_X s0 -> CURRENT_Y s = CURRENT_Y s0 -> cursor_ok s0 ->
  let x := CURRENT_X s + 2 in
  let s' := vga_scroll (if 160 <=? x then set_xy 0 (CURRENT_Y s + 1) s else set_xy x (CURRENT_Y s) s) in
  cursor_ok s' /\ in_screen (vmem s0) (vmem s').
Proof.
  intros Hm EX EY (Hx & He & Hy). cbv zeta. set (t := if 160 <=? CURRENT_X s + 2 then _ else _).
  assert (Ht : vmem t = vmem s /\ 0 <= CURRENT_X t < 160 /\ Z.even (CURRENT_X t) = true /\ 0 <= CURRENT_Y t <= 25).
  { unfold t. destruct (Z.leb_spec 160 (CURRENT_X s + 2)); cbn [set_xy vmem CURRENT_X CURRENT_Y]; repeat split; try lia.
    rewrite even_add2, EX. assumption. }
  destruct Ht as (Et & Htx & Hte & Hty). destruct (scroll_xy t) as (Ex & Ey & _). split.
  - unfold cursor_ok. rewrite Ex, Ey. split; [lia|]. split; [assumption|]. bsimp.
  - eapply same_outside_trans; [exact Hm|]. rewrite <- Et. apply scroll_in_screen. lia.
Qed.

Lemma putc_ok c s :
  cursor_ok s -> (c = 8 -> 0 < CURRENT_X s) -> (c = 9 -> CURRENT_X s <= 144 \/ CURRENT_Y s < 24) ->
  cursor_ok (vga_putc c s) /\ same_outside VGA_MEMORY (VGA_MEMORY + 0x2000) (vmem s) (vmem (vga_putc c s)).
Proof.
  intros Hok H8 H9. pose proof Hok as (Hx & He & Hy). unfold vga_putc. fold screen_end. destruct (Z.eqb_spec c 10).
  - destruct (scroll_xy (set_xy 0 (CURRENT_Y s + 1) s)) as (Ex & Ey & _). cbn [set_xy CURRENT_X CURRENT_Y] in Ex, Ey.
    unfold cursor_ok. rewrite Ex, Ey. split; [bsimp; repeat split; lia || reflexivity|].
    apply (scroll_in_screen (set_xy 0 (CURRENT_Y s + 1) s)). cbn. lia.
  - destruct (Z.eqb_spec c 8) as [->|].
    + specialize (H8 eq_refl).
      pose proof (kputc_frame 32 (CURRENT_X s - 2) (CURRENT_Y s) (set_xy (CURRENT_X s - 2) (CURRENT_Y s) s)) as (Ex & Ey & _).
      cbn [set_xy CURRENT_X CURRENT_Y] in Ex, Ey. unfold cursor_ok. rewrite Ex, Ey.
      assert (CURRENT_X s <> 1) by (intros E; rewrite E in He; discriminate).
      split; [|apply (kputc_in_screen _ _ _ (set_xy (CURRENT_X s - 2) (CURRENT_Y s) s)); lia].
      split; [lia|]. split; [|lia]. rewrite <- (even_add2 (CURRENT_X s - 2)), Z.sub_add. assumption.
    + destruct (Z.eqb_spec c 9) as [->|].
      * destruct (tab_loop_spec _ Hx He) as (Ht1 & Ht & Het). specialize (H9 eq_refl). unfold cursor_ok.
        assert (tab_loop 16 (CURRENT_X s) <> 159) by (intros E; rewrite E in Het; discriminate).
        destruct (Z.leb_spec 160 (tab_loop 16 (CURRENT_X s) + 2)); cbn [set_xy CURRENT_X CURRENT_Y vmem];
          (split; [|apply same_outside_refl]); repeat split; try lia. rewrite even_add2. assumption.
      * destruct (kputc_frame c (CURRENT_X s) (CURRENT_Y s) s) as (Ex & Ey & _).
        apply putc_xy_scroll; [apply kputc_in_screen; lia|assumption..].
Qed.

(** C38: Printing a character keeps the cursor on the screen and writes only to
    video memory, scrolling at the end of the last row.  (Excepted are a
    backspace in the first column, and a tab that would wrap on the last row:
    the code for a tab does not scroll.) *)
Theorem vga_putc_invariant c s :
  cursor_ok s -> (c = 8 -> 0 < CURRENT_X s) -> (c = 9 -> CURRENT_X s <= 144 \/ CURRENT_Y s < 24) ->
  cursor_ok (vga_putc c s) /\ same_outside VGA_MEMORY (VGA_MEMORY + 0x2000) (vmem s) (vmem (vga_putc c s)).
Proof. apply putc_ok. Qed.

Definition boot_screen : vga_state := MkVga ∅ 0 24 7 [].

Lemma vga_putc_invariant_witness :
  cursor_ok (vga_putc 10 boot_screen) /\
  same_outside VGA_MEMORY (VGA_MEMORY + 0x2000) (vmem boot_screen) (vmem (vga_putc 10 boot_screen)).
Proof. apply (vga_putc_invariant 10 boot_screen); [repeat split; cbn; lia|lia|lia]. Defined.

(** A newline on the last row scrolls: every row shows what the row below
    it showed, the last row is blank in the current colour, and the cursor is
    at its start. *)
Theorem vga_newline_scrolls s :
  CURRENT_Y s = 24 -> 0 <= CURRENT_ATTRIB s < 0x100 ->
  let s' := vga_putc 10 s in
  (forall y k, 0 <= y < 24 -> 0 <= k < 160 ->
     load8 (vmem s') (VGA_MEMORY + 160 * y + k) = load8 (vmem s) (VGA_MEMORY + 160 * (y + 1) + k)) /\
  (forall x, 0 <= x < 80 -> load16 (vmem s') (VGA_MEMORY + 160 * 24 + 2 * x) = 0x100 * CURRENT_ATTRIB s) /\
  CURRENT_X s' = 0 /\ CURRENT_Y s' = 24.
Proof.
  intros Hy Ha. unfold vga_putc. cbn [Z.eqb Pos.eqb]. rewrite Hy. change (24 + 1) with 25.
  unfold vga_scroll. cbn [set_xy CURRENT_Y CURRENT_X CURRENT_ATTRIB vmem]. change (25 <=? 25) with true. cbv iota.
  rewrite (proj1 (update_cursor_frame _)). cbn [set_vmem set_xy vmem].
  change (u8 (25 - 24)) with 1. change (u32 ((25 - 1) * 160 * 2)) with 7680. cbv zeta.
  split; [|split; [|split; reflexivity]].
  - intros y k Hr Hk. rewrite memsetw_same_outside by lia. rewrite load8_memcpy by lia.
    replace ((VGA_MEMORY <=? _) && _) with true by lia. f_equal. lia.
  - intros x Hx'. unfold load16. rewrite !load8_memsetw by lia.
    replace (VGA_MEMORY + 160 * 24 + 2 * x - (VGA_MEMORY + 24 * 160)) with (0 + 2 * x) by lia.
    replace (VGA_MEMORY + 160 * 24 + 2 * x + 1 - (VGA_MEMORY + 24 * 160)) with (1 + 2 * x) by lia.
    rewrite !Z.even_add_mul_2. cbn [Z.even]. rewrite Z.shiftr_shiftl_l, Z.shiftl_0_r by lia.
    rewrite (u8_small (CURRENT_ATTRIB s)) by lia. unfold u8. rewrite Z.shiftl_mul_pow2 by lia.
    change (2 ^ 8) with 256. rewrite Z_mod_mult. lia.
Qed.

Lemma vga_newline_scrolls_witness :
  let s' := vga_putc 10 boot_screen in
  (forall y k, 0 <= y < 24 -> 0 <= k < 160 ->
     load8 (vmem s') (VGA_MEMORY + 160 * y + k) = load8 (vmem boot_screen) (VGA_MEMORY + 160 * (y + 1) + k)) /\
  (forall x, 0 <= x < 80 -> load16 (vmem s') (VGA_MEMORY + 160 * 24 + 2 * x) = 0x100 * CURRENT_ATTRIB boot_screen) /\
  CURRENT_X s' = 0 /\ CURRENT_Y s' = 24.
Proof. apply (vga_newline_scrolls boot_screen); cbn; lia. Defined.

(** ** A string on one row *)

Definition printable (c : Z) : Prop := 32 <= c <= 126.

Lemma putc_printable c s :
  printable c -> CURRENT_X s + 2 < 160 -> CURRENT_Y s < 25 -> 0 <= CURRENT_ATTRIB s < 0x100 ->
  let s' := vga_putc c s in
  let a := VGA_MEMORY + (CURRENT_X s + CURRENT_Y s * 160) in
  CURRENT_X s' = CURRENT_X s + 2 /\ CURRENT_Y s' = CURRENT_Y s /\ CURRENT_ATTRIB s' = CURRENT_ATTRIB s /\
  load16 (vmem s') a = c + 0x100 * CURRENT_ATTRIB s /\ same_outside a (a + 2) (vmem s) (vmem s').
Proof.
  intros Hc Hx Hy Ha. unfold printable in Hc. unfold vga_putc.
  replace (c =? 10) with false by lia. replace (c =? 8) with false by lia. replace (c =? 9) with false by lia.
  unfold vga_kputc, isascii. replace ((0 <=? c) && (c <=? 127)) with true by lia. cbn [set_vmem CURRENT_X CURRENT_Y].
  replace (160 <=? CURRENT_X s + 2) with false by lia. unfold vga_scroll. cbn [set_xy set_vmem CURRENT_Y CURRENT_X].
  replace (25 <=? CURRENT_Y s) with false by lia. cbn -[store16 load16 same_outside VGA_MEMORY Z.shiftl Z.lor Z.mul].
  repeat split; [|auto with memory].
  unfold load16, store16. rewrite load8_store8_ne, !load8_store8_eq by lia. rewrite Z.shiftl_mul_pow2, Z.lor_comm by lia.
  rewrite (lor_disjoint_add 8) by (lia || apply Z_mod_mult). rewrite Z.shiftr_div_pow2 by lia.
  change (2 ^ 8) with 256. unfold u8. dlia.
Qed.

(** The cells from [a] on show [str] in colour [attr]. *)
Definition shows (m : mem) (a attr : Z) (str : list Z) : Prop :=
  forall i c, str !! i = Some c -> load16 m (a + 2 * Z.of_nat i) = c + 0x100 * attr.

Lemma puts_loop_row str : forall fuel p s,
  cstr (vmem s) p str -> Forall printable str -> (length str <= fuel)%nat ->
  p + Z.of_nat (length str) < VGA_MEMORY \/ screen_end <= p ->
  0 <= CURRENT_X s -> CURRENT_X s + 2 * Z.of_nat (length str) < 160 -> 0 <= CURRENT_Y s < 25 -> 0 <= CURRENT_ATTRIB s < 0x100 ->
  let a := VGA_MEMORY + (CURRENT_X s + CURRENT_Y s * 160) in
  exists s', vga_puts_loop fuel p s = Some s' /\ shows (vmem s') a (CURRENT_ATTRIB s) str /\
    CURRENT_X s' = CURRENT_X s + 2 * Z.of_nat (length str) /\ CURRENT_Y s' = CURRENT_Y s /\
    same_outside a (a + 2 * Z.of_nat (length str)) (vmem s) (vmem s').
Proof.
  induction str as [|c str IH]; intros fuel p s Hc Hp Hf Hd Hx Hl Hy Ha a.
  - assert (E : char_at (vmem s) p = 0).
    { destruct Hc as [_ (_ & Hz & _)]. cbn [length] in Hz. rewrite Z.add_0_r in Hz. unfold char_at. rewrite Hz. reflexivity. }
    exists s. split; [destruct fuel; cbn [vga_puts_loop]; rewrite E; reflexivity|].
    split; [intros i c Hi; destruct i; discriminate|]. cbn [length]. split; [lia|]. split; [reflexivity|apply same_outside_refl].
  - cbn [length] in *. destruct fuel as [|f]; [lia|]. apply Forall_cons in Hp as [Hpc Hp]. pose proof Hpc as Hpc'.
    unfold printable in Hpc'.
    assert (E : char_at (vmem s) p = c).
    { pose proof (cstr_app_lookup (vmem s) p [c] str 0 c Hc eq_refl) as E. rewrite Z.add_0_r in E. unfold char_at. rewrite E.
      unfold s8. rewrite Z.mod_small; lia. }
    cbn [vga_puts_loop]. rewrite E. replace (c =? 0) with false by lia.
    destruct (putc_printable c s Hpc ltac:(lia) ltac:(lia) Ha) as (Ex & Ey & Ea & Ew & Eo). fold a in Ew, Eo.
    pose proof (cstr_suffix _ _ [c] str Hc) as Hc1. cbn [length] in Hc1.
    destruct (IH f (p + 1) (vga_putc c s)) as (s' & E' & Hs & Ex' & Ey' & Eo'); rewrite ?Ex, ?Ey, ?Ea; try assumption; try lia.
    { eapply cstr_frame; [exact Hc1|]. intros i Hi. apply Eo. unfold a, screen_end in *. lia. }
    exists s'. rewrite Ex, Ey, Ea in *.
    replace (VGA_MEMORY + (CURRENT_X s + 2 + CURRENT_Y s * 160)) with (a + 2) in * by (unfold a; lia).
    split; [exact E'|]. split; [|repeat split; [lia|assumption|]].
    + intros [|i] y Hi; cbn in Hi.
      * injection Hi as <-. rewrite Z.add_0_r. rewrite <- Ew. unfold load16. rewrite !Eo' by lia. reflexivity.
      * rewrite <- (Hs i y Hi). f_equal. lia.
    + eapply same_outside_trans; eapply same_outside_weaken; [| |exact Eo| | |exact Eo']; lia.
Qed.

(** Printing a string that fits on the rest of the row shows exactly its
    characters there in the current colour, moves the cursor past them, and
    changes no other byte. *)
Theorem vga_puts_row str p s :
  cstr (vmem s) p str -> Forall printable str ->
  p + Z.of_nat (length str) < VGA_MEMORY \/ VGA_MEMORY + 0x2000 <= p ->
  0 <= CURRENT_X s -> CURRENT_X s + 2 * Z.of_nat (length str) < 160 -> 0 <= CURRENT_Y s < 25 -> 0 <= CURRENT_ATTRIB s < 0x100 ->
  let a := VGA_MEMORY + (CURRENT_X s + CURRENT_Y s * 160) in
  exists s', vga_puts p s = Some s' /\ shows (vmem s') a (CURRENT_ATTRIB s) str /\
    CURRENT_X s' = CURRENT_X s + 2 * Z.of_nat (length str) /\ CURRENT_Y s' = CURRENT_Y s /\
    same_outside a (a + 2 * Z.of_nat (length str)) (vmem s) (vmem s').
Proof.
  intros Hc Hp Hd Hx Hl Hy Ha. apply puts_loop_row; try assumption. pose proof (cstr_fuel _ _ _ Hc). lia.
Qed.

Definition hello : list Z := [72; 101; 108; 108; 111].
Definition hello_screen : vga_state := MkVga (put_str ∅ 0xC0300000 hello) 10 3 7 [].

Lemma vga_puts_row_witness :
  exists s', vga_puts 0xC0300000 hello_screen = Some s' /\ shows (vmem s') (VGA_MEMORY + (10 + 3 * 160)) 7 hello /\
    CURRENT_X s' = 10 + 2 * Z.of_nat (length hello) /\ CURRENT_Y s' = 3 /\
    same_outside (VGA_MEMORY + (10 + 3 * 160)) (VGA_MEMORY + (10 + 3 * 160) + 2 * Z.of_nat (length hello)) (vmem hello_screen) (vmem s').
Proof.
  apply (vga_puts_row hello 0xC0300000 hello_screen); [apply is_cstr_sound; vm_compute; reflexivity|repeat constructor;
    unfold printable; lia| |cbn; lia..].
  right. unfold VGA_MEMORY. lia.
Defined.
