(* ===== verification/Printf.v ===== *)
(** * kernel/lib/printf.c: formatted output

    [vsnprintf] on byte memory.  The variable arguments are the words from [ap]
    on, as the macros of stdarg.h read them; [buf] is the block its [malloc]
    returned.  [None]: the function does not return ([goto next_format] on a
    character that is no conversion repeats for ever, or [itoa] runs away). *)

From stdpp Require Import base numbers list gmap.
From Stdlib Require Import ZArith Lia.
From S2P Require Import Prelude Memory CString KStdlib.
Open Scope Z_scope.

Definition PREFIX : Z := 1.
Definition ALWAYS_SIGN : Z := 2.
Definition PAD : Z := 4.
Definition LONG : Z := 8.
Definition NOTNUM : Z := 0x10.

(** [while (num != 0)]: a 64-bit number has at most 64 digits in any base. *)
Fixpoint toa_digits (k : nat) (m : mem) (buffer i num base : Z) : mem * Z :=
  if num =? 0 then (m, i)
  else match k with
       | O => (m, i)
       | S k' => toa_digits k' (store8 m (buffer + i) (digit_char (num mod base))) buffer (i + 1) (num / base) base
       end.
Definition ltoa (m : mem) (num buffer base : Z) : mem :=
  let '(m1, i) := toa_digits 64 m buffer 0 num base in
  fst (strrev (store8 m1 (buffer + i) 0) buffer).
Definition ctoa (m : mem) (num buffer base : Z) : mem :=
  let '(m1, i) := toa_digits 8 m buffer 0 (u8 num) base in
  fst (strrev (store8 m1 (buffer + i) 0) buffer).

(** The local variables of [vsnprintf]. *)
Record fmt := MkFmt { fm : mem; format : Z; n : Z; pad : Z; flags : Z; ap : Z }.
Definition set_fm (m : mem) (s : fmt) : fmt := MkFmt m (format s) (n s) (pad s) (flags s) (ap s).
Definition put (str c : Z) (s : fmt) : fmt :=
  MkFmt (store8 (fm s) (str + n s) c) (format s) (n s + 1) (pad s) (flags s) (ap s).
Definition add_flag (f : Z) (s : fmt) : fmt := MkFmt (fm s) (format s) (n s) (pad s) (flags s .| f) (ap s).
Definition next_char (s : fmt) : fmt := MkFmt (fm s) (format s + 1) (n s) (pad s) (flags s) (ap s).
Definition take_arg (sz : Z) (s : fmt) : fmt := MkFmt (fm s) (format s) (n s) (pad s) (flags s) (ap s + sz).
Definition has_flag (f : Z) (s : fmt) : bool := negb (flags s .& f =? 0).
Definition arg_int (s : fmt) : Z := s32 (load32 (fm s) (ap s)).

(** The loop that reads the field width; its fuel bounds any string. *)
Fixpoint pad_digits (k : nat) (s : fmt) : fmt :=
  match k with
  | O => s
  | S k' =>
      let c := char_at (fm s) (format s) in
      if isdigit c
      then pad_digits k' (MkFmt (fm s) (format s + 1) (n s) (u32 (u32 (pad s * 10) + (c - 48))) (flags s .| PAD) (ap s))
      else s
  end.

Definition conv_num (m : option (mem * Z)) (s : fmt) : option fmt :=
  match m with Some (m', _) => Some (set_fm m' s) | None => None end.
Definition hex_prefix (str size : Z) (s : fmt) : fmt :=
  if has_flag PREFIX s && (n s + 2 <? size) then put str 120 (put str 48 s) else s.

(** The inner switch, from the label [next_format] to its [break]. *)
Fixpoint next_format (fuel : nat) (str size buf : Z) (s : fmt) : option fmt :=
  match fuel with
  | O => None
  | S f =>
      let c := char_at (fm s) (format s) in
      if c =? 37 then Some (set_fm (store8 (store8 (fm s) buf 37) (buf + 1) 0) s)
      else if c =? 35 then next_format f str size buf (next_char (add_flag PREFIX s))
      else if c =? 43 then next_format f str size buf (next_char (add_flag ALWAYS_SIGN s))
      else if c =? 120 then
        hex_prefix str size <$> conv_num (itoa (fm s) (load32 (fm s) (ap s)) buf 16) (take_arg 4 s)
      else if c =? 88 then
        Some (hex_prefix str size (set_fm (ctoa (fm s) (load32 (fm s) (ap s)) buf 16) (take_arg 4 s)))
      else if c =? 100 then
        let d := arg_int s in
        let s1 := take_arg 4 s in
        let s2 := if has_flag ALWAYS_SIGN s1 && (n s1 + 1 <? size) then put str (if 0 <? d then 43 else 45) s1 else s1 in
        Some (set_fm (fst (sitoa (fm s2) d buf 10)) s2)
      else if c =? 105 then
        let d := arg_int s in
        let s1 := take_arg 4 s in
        let s2 := if (n s1 + 1 <? size) && (d <? 0) then put str 45 s1 else s1 in
        Some (set_fm (fst (sitoa (fm s2) d buf 10)) s2)
      else if c =? 117 then conv_num (itoa (fm s) (load32 (fm s) (ap s)) buf 10) (take_arg 4 s)
      else if c =? 108 then
        let d := load32 (fm s) (ap s) + 0x100000000 * load32 (fm s) (ap s + 4) in
        Some (set_fm (ltoa (fm s) d buf 16) (add_flag LONG (take_arg 8 s)))
      else if c =? 111 then
        (fun s' => if has_flag PREFIX s' && (n s' + 2 <? size) then put str 48 s' else s') <$>
          conv_num (itoa (fm s) (load32 (fm s) (ap s)) buf 8) (take_arg 4 s)
      else if c =? 98 then conv_num (itoa (fm s) (load32 (fm s) (ap s)) buf 2) (take_arg 4 s)
      else if c =? 115 then
        Some (set_fm (fst (strcpy (fm s) buf (load32 (fm s) (ap s)))) (add_flag NOTNUM (take_arg 4 s)))
      else if c =? 99 then
        Some (set_fm (store8 (store8 (fm s) buf (load8 (fm s) (ap s))) (buf + 1) 0) (add_flag NOTNUM (take_arg 4 s)))
      else if c =? 119 then Some (set_fm (store8 (fm s) buf 32) (add_flag PAD s))
      else next_format f str size buf
             (pad_digits (strfuel (fm s)) (MkFmt (fm s) (format s) (n s) 0 (flags s) (ap s)))
  end.

(** The two output loops; [n] grows with [i], so [(i+n) < size] bounds both. *)
Fixpoint pad_out (k : nat) (str size buf i : Z) (s : fmt) : fmt :=
  match k with
  | O => s
  | S k' =>
      if (i <? pad s - strlen (fm s) buf) && (i + n s <? size)
      then pad_out k' str size buf (i + 1) (put str (if has_flag NOTNUM s then 32 else 48) s)
      else s
  end.
Fixpoint copy_out (k : nat) (str size buf i : Z) (s : fmt) : fmt :=
  match k with
  | O => s
  | S k' =>
      if (i <? strlen (fm s) buf) && (i + n s <? size)
      then copy_out k' str size buf (i + 1) (put str (load8 (fm s) (buf + i)) s)
      else s
  end.

(** One directive, after its '%'. *)
Definition directive (str size buf : Z) (s : fmt) : option fmt :=
  match next_format (S (S (Z.to_nat (strlen (fm s) (format s))))) str size buf (next_char s) with
  | None => None
  | Some s1 =>
      let s2 := if has_flag PAD s1 && (strlen (fm s1) buf <? pad s1)
                then pad_out (Z.to_nat size) str size buf 0 s1 else s1 in
      let s3 := copy_out (Z.to_nat size) str size buf 0 s2 in
      Some (set_fm (memset (fm s3) buf 0 (strlen (fm s3) buf)) s3)
  end.

Fixpoint vsnprintf_loop (fuel : nat) (str size buf : Z) (s : fmt) : option fmt :=
  let c := char_at (fm s) (format s) in
  if (c =? 0) || (size <=? n s) then Some s
  else match fuel with
       | O => None
       | S f =>
           match (if c =? 37 then directive str size buf s
                  else Some (let s1 := put str c s in MkFmt (fm s1) (format s1) (n s1) (pad s1) 0 (ap s1))) with
           | None => None
           | Some s' => vsnprintf_loop f str size buf (next_char s')
           end
       end.
Definition vsnprintf (m : mem) (str size fmtp args buf : Z) : option (mem * Z) :=
  let m1 := memset (memset m str 0 size) buf 0 size in
  match vsnprintf_loop (strfuel m1) str size buf (MkFmt m1 fmtp 0 0 0 args) with
  | Some s => Some (fm s, n s)
  | None => None
  end.

(** ** Formatting *)

(** A format made of ordinary characters and the conversions [%s] and [%x]. *)
Inductive piece := PChar (c : Z) | PStr (a : Z) (s : list Z) | PHex (v : Z).
Definition piece_text (p : piece) : list Z :=
  match p with PChar c => [c] | PStr _ _ => [37; 115] | PHex _ => [37; 120] end.
Definition piece_args (p : piece) : list Z :=
  match p with PChar _ => [] | PStr a _ => [a] | PHex v => [v] end.
(** What a piece prints: itself, the string, or eight digits of the number. *)
Definition render (p : piece) : list Z :=
  match p with PChar c => [c] | PStr _ s => s | PHex v => hex8 v end.

Lemma cstr_range m p w : cstr m p w -> Forall (fun c => 0 < c < 0x100) w.
Proof.
  intros Hw. pose proof (cstr_no_nul _ _ _ Hw) as H0. apply Forall_lookup. intros i c Hi.
  pose proof (list_elem_of_lookup_2 _ _ _ Hi) as Hin. rewrite <- (app_nil_r w) in Hw.
  pose proof (cstr_app_lookup _ _ w [] i c Hw Hi) as E. pose proof (load8_range m (p + Z.of_nat i)).
  destruct (Z.eq_dec c 0) as [->|]; [contradiction|lia].
Qed.

Section Render.
Context (str size buf : Z) (m0 : mem).
Context (Hsize : 0 < size <= 0x10000).
Context (Hdisj : str + size <= buf \/ buf + size <= str).

(** Addresses in neither buffer. *)
Definition outside (a : Z) : Prop := (a < str \/ str + size <= a) /\ (a < buf \/ buf + size <= a).
Definition clear_of (a len : Z) : Prop := forall i, 0 <= i < len -> outside (a + i).

Record inv (m : mem) (out : list Z) : Prop := {
  i_str : forall i c, out !! i = Some c -> load8 m (str + Z.of_nat i) = c;
  i_rest : forall a, str + Z.of_nat (length out) <= a < str + size -> load8 m a = 0;
  i_buf : forall a, buf <= a < buf + size -> load8 m a = 0;
  i_out : forall a, outside a -> load8 m a = load8 m0 a;
}.

Lemma inv_cstr m out a s : inv m out -> cstr m0 a s -> clear_of a (Z.of_nat (length s) + 1) -> cstr m a s.
Proof. intros H Hc Ho. eapply cstr_frame; [exact Hc|]. intros i Hi. apply (i_out _ _ H), Ho. lia. Qed.

Lemma inv_load32 m out a : inv m out -> clear_of a 4 -> load32 m a = load32 m0 a.
Proof. intros H Ho. apply load32_ext. intros i Hi. apply (i_out _ _ H), Ho. lia. Qed.

(** Copying the scratch string to the output. *)
Lemma copy_out_spec w : forall k i s,
  cstr (fm s) buf w -> (length w - i <= k)%nat -> (i <= length w)%nat ->
  Z.of_nat (length w) < size -> 0 <= n s -> n s + 2 * Z.of_nat (length w) - Z.of_nat i <= size ->
  exists m', copy_out k str size buf (Z.of_nat i) s =
      MkFmt m' (format s) (n s + Z.of_nat (length w - i)) (pad s) (flags s) (ap s) /\
    (forall j c, w !! (i + j)%nat = Some c -> load8 m' (str + n s + Z.of_nat j) = c) /\
    same_outside (str + n s) (str + n s + Z.of_nat (length w - i)) (fm s) m'.
Proof.
  induction k as [|k IH]; intros i s Hc Hk Hi Hw Hn Hroom.
  - assert (i = length w) as -> by lia. rewrite Nat.sub_diag. exists (fm s).
    split; [destruct s; cbn; f_equal; lia|]. split; [|auto with memory].
    intros j c Hj. apply lookup_lt_Some in Hj. lia.
  - cbn [copy_out]. rewrite (strlen_cstr _ _ _ Hc). destruct (decide (i = length w)) as [->|Hne].
    + replace (Z.of_nat (length w) <? Z.of_nat (length w)) with false by lia. cbn [andb]. rewrite Nat.sub_diag. exists (fm s).
      split; [destruct s; cbn; f_equal; lia|]. split; [|auto with memory]. intros j c Hj. apply lookup_lt_Some in Hj. lia.
    + replace (Z.of_nat i <? Z.of_nat (length w)) with true by lia. replace (Z.of_nat i + n s <? size) with true by lia.
      cbn [andb].
      destruct (lookup_lt_is_Some_2 w i) as [c Hci]; [lia|].
      assert (Eb : load8 (fm s) (buf + Z.of_nat i) = c).
      { rewrite <- (app_nil_r w) in Hc. apply (cstr_app_lookup _ _ w [] i c Hc). assumption. }
      rewrite Eb. set (s1 := put str c s).
      assert (Hc0 : 0 <= c < 0x100) by (rewrite <- Eb; apply load8_range).
      assert (Hc1 : cstr (fm s1) buf w).
      { eapply cstr_frame; [exact Hc|]. intros j Hj. unfold s1, put. cbn [fm]. apply load8_store8_ne. lia. }
      destruct (IH (S i) s1 Hc1) as (m' & E & Hw' & Hf); [lia|lia|assumption|unfold s1; cbn; lia|unfold s1; cbn [put n]; lia|].
      replace (Z.of_nat i + 1) with (Z.of_nat (S i)) by lia. exists m'. rewrite E. unfold s1 in *.
      cbn [put format n pad flags ap fm] in *.
      split; [f_equal; lia|]. split.
      * intros [|j] y Hj.
        { rewrite Nat.add_0_r in Hj. assert (y = c) as -> by congruence. rewrite Hf by lia.
          replace (str + n s + Z.of_nat 0) with (str + n s) by lia. rewrite load8_store8_eq. apply u8_small. assumption. }
        { rewrite <- (Hw' j y) by (rewrite <- Hj; f_equal; lia). f_equal. lia. }
      * eapply same_outside_trans; [|eapply same_outside_weaken; [| |exact Hf]; lia].
        intros a Ha. apply load8_store8_ne. lia.
Qed.

(** The scratch block holds [w] and zeros; the rest of memory is that of [m]. *)
Definition scratch (m m1 : mem) (w : list Z) : Prop :=
  cstr m1 buf w /\ (forall a, buf + Z.of_nat (length w) <= a < buf + size -> load8 m1 a = 0) /\
  same_outside buf (buf + size) m m1.

Definition finish (s1 : fmt) : fmt :=
  let s2 := if has_flag PAD s1 && (strlen (fm s1) buf <? pad s1)
            then pad_out (Z.to_nat size) str size buf 0 s1 else s1 in
  let s3 := copy_out (Z.to_nat size) str size buf 0 s2 in
  set_fm (memset (fm s3) buf 0 (strlen (fm s3) buf)) s3.

Lemma finish_spec m out s1 w :
  inv m out -> scratch m (fm s1) w -> has_flag PAD s1 = false -> n s1 = Z.of_nat (length out) ->
  2 * (Z.of_nat (length out) + Z.of_nat (length w)) < size ->
  exists m', finish s1 = MkFmt m' (format s1) (Z.of_nat (length (out ++ w))) (pad s1) (flags s1) (ap s1) /\ inv m' (out ++ w).
Proof.
  intros Hinv (Hw & Hz & Hm) Hpad Hn Hroom. unfold finish. rewrite Hpad. cbn [andb].
  destruct (copy_out_spec w (Z.to_nat size) 0 s1 Hw) as (m2 & E & Hcp & Hf); [lia..|].
  change (Z.of_nat 0) with 0 in E. rewrite E. cbn [fm set_fm format n pad flags ap]. rewrite Nat.sub_0_r in *.
  assert (Hw2 : cstr m2 buf w) by (eapply cstr_frame; [exact Hw|]; intros j Hj; apply Hf; lia).
  rewrite (strlen_cstr _ _ _ Hw2). rewrite Hn in *. eexists. split; [rewrite length_app, Nat2Z.inj_add; reflexivity|]. split.
  - intros i c Hi. rewrite load8_memset.
    replace ((buf <=? _) && _) with false by (apply lookup_lt_Some in Hi; rewrite length_app in Hi; lia).
    destruct (Nat.lt_ge_cases i (length out)).
    + rewrite lookup_app_l in Hi by assumption. rewrite Hf, Hm by lia. apply (i_str _ _ Hinv). assumption.
    + rewrite lookup_app_r in Hi by assumption. rewrite <- (Hcp (i - length out)%nat c Hi). f_equal. lia.
  - intros a Ha. rewrite length_app in Ha. rewrite load8_memset. replace ((buf <=? _) && _) with false by lia.
    rewrite Hf, Hm by lia. apply (i_rest _ _ Hinv). lia.
  - intros a Ha. rewrite load8_memset. destruct (Z.ltb_spec a (buf + Z.of_nat (length w))).
    + replace ((buf <=? a) && true) with true by lia. reflexivity.
    + rewrite andb_false_r. rewrite Hf by lia. apply Hz. lia.
  - intros a [Ha1 Ha2]. rewrite load8_memset. replace ((buf <=? a) && _) with false by lia.
    rewrite Hf, Hm by lia. apply (i_out _ _ Hinv). split; assumption.
Qed.

Lemma directive_finish s : directive str size buf s =
  finish <$> next_format (S (S (Z.to_nat (strlen (fm s) (format s))))) str size buf (next_char s).
Proof. unfold directive. destruct (next_format _ _ _ _ _); reflexivity. Qed.

(** [%s] and [%x] fill the scratch block. *)
Lemma next_format_str s k out a w :
  inv (fm s) out -> char_at (fm s) (format s) = 115 -> load32 (fm s) (ap s) = a -> cstr (fm s) a w ->
  Z.of_nat (length w) < size -> clear_of a (Z.of_nat (length w) + 1) ->
  exists m1, next_format (S k) str size buf s = Some (MkFmt m1 (format s) (n s) (pad s) (flags s .| NOTNUM) (ap s + 4)) /\
    scratch (fm s) m1 w.
Proof.
  intros Hinv Hc Ha Hw Hlen Hcl. cbn [next_format]. rewrite Hc. cbn [Z.eqb Pos.eqb]. rewrite Ha.
  pose proof (strcpy_bytes (fm s) buf a w Hw ltac:(lia)) as Hs.
  destruct (strcpy (fm s) buf a) as [m1 r]. cbn [fst set_fm add_flag take_arg format n pad flags ap].
  assert (Hd : buf + Z.of_nat (length w) <= a \/ a + Z.of_nat (length w) < buf).
  { destruct (Z.le_gt_cases (buf + size) a); [lia|]. right. destruct (Hcl 0 ltac:(lia)) as [_ H0].
    destruct (Z.lt_ge_cases (a + Z.of_nat (length w)) buf); [assumption|].
    destruct (Hcl (buf - a) ltac:(lia)) as [_ Hba]. lia. }
  destruct (Hs Hd) as (_ & Hb & Hf). clear Hs.
  assert (Hz : forall b, buf + Z.of_nat (length w) <= b < buf + size -> load8 m1 b = 0)
    by (intros b Hb'; rewrite Hf by lia; apply (i_buf _ _ Hinv); lia).
  exists m1. split; [reflexivity|]. split; [|split; [assumption|eapply same_outside_weaken; [| |exact Hf]; lia]].
  apply cstr_of_bytes; [assumption| |apply Hz; lia].
  eapply cstr_range; eassumption.
Qed.

Lemma next_format_hex s k out v :
  inv (fm s) out -> char_at (fm s) (format s) = 120 -> load32 (fm s) (ap s) = v -> has_flag PREFIX s = false -> 9 <= size ->
  exists m1, next_format (S k) str size buf s = Some (MkFmt m1 (format s) (n s) (pad s) (flags s) (ap s + 4)) /\
    scratch (fm s) m1 (hex8 v).
Proof.
  intros Hinv Hc Hv Hp Hsz. cbn [next_format]. rewrite Hc. cbn [Z.eqb Pos.eqb]. rewrite Hv.
  assert (Hvr : 0 <= v < 0x100000000) by (rewrite <- Hv; apply load32_range).
  destruct (itoa_hex (fm s) v buf Hvr) as (m1 & E & Hw & Hf). rewrite E.
  exists m1. cbn [conv_num fmap option_fmap option_map]. unfold hex_prefix.
  change (has_flag PREFIX (set_fm m1 (take_arg 4 s))) with (has_flag PREFIX s). rewrite Hp. split; [reflexivity|].
  split; [assumption|]. split; [|eapply same_outside_weaken; [| |exact Hf]; lia].
  intros a Ha. rewrite hex8_length in Ha. destruct (Z.eq_dec a (buf + 8)) as [->|].
  - destruct Hw as [_ (_ & Hz & _)]. rewrite hex8_length in Hz. exact Hz.
  - rewrite Hf by lia. apply (i_buf _ _ Hinv). lia.
Qed.

Definition piece_ok (p : piece) : Prop :=
  match p with
  | PChar c => 0 < c < 0x100 /\ c <> 37
  | PStr a w => cstr m0 a w /\ clear_of a (Z.of_nat (length w) + 1)
  | PHex v => True
  end.
(** The arguments of the pieces lie at consecutive words. *)
Fixpoint args_at (a : Z) (l : list Z) : Prop :=
  match l with
  | [] => True
  | x :: t => load32 m0 a = x /\ clear_of a 4 /\ args_at (a + 4) t
  end.

(** The loop's state between two pieces. *)
Record between (s : fmt) (out text args : list Z) : Prop := {
  b_inv : inv (fm s) out;
  b_n : n s = Z.of_nat (length out);
  b_flags : flags s = 0 \/ flags s = NOTNUM;
  b_text : cstr m0 (format s) text;
  b_clear : clear_of (format s) (Z.of_nat (length text) + 1);
  b_args : args_at (ap s) args;
}.

Definition step (s : fmt) : option fmt :=
  let c := char_at (fm s) (format s) in
  next_char <$> (if c =? 37 then directive str size buf s
   else Some (let s1 := put str c s in MkFmt (fm s1) (format s1) (n s1) (pad s1) 0 (ap s1))).

Lemma cstr_char s out text args i c : between s out text args -> text !! i = Some c ->
  char_at (fm s) (format s + Z.of_nat i) = s8 c.
Proof.
  intros [Hi _ _ Ht Hc _] Hl. unfold char_at. f_equal. pose proof (inv_cstr _ _ _ _ Hi Ht Hc) as H.
  rewrite <- (app_nil_r text) in H. apply (cstr_app_lookup _ _ text [] i c H Hl).
Qed.

Lemma put_inv m out c : inv m out -> 0 < c < 0x100 -> Z.of_nat (length out) < size ->
  inv (store8 m (str + Z.of_nat (length out)) c) (out ++ [c]).
Proof.
  intros [H1 H2 H3 H4] Hc Hs. split.
  - intros i x Hi. destruct (decide (i = length out)) as [->|].
    + rewrite lookup_app_r, Nat.sub_diag in Hi by lia. injection Hi as <-. rewrite load8_store8_eq. apply u8_small. lia.
    + apply lookup_lt_Some in Hi as Hlt. rewrite length_app in Hlt. cbn [length] in Hlt.
      rewrite lookup_app_l in Hi by lia. rewrite load8_store8_ne by lia. auto.
  - intros a Ha. rewrite length_app in Ha. cbn [length] in Ha. rewrite load8_store8_ne by lia. apply H2. lia.
  - intros a Ha. rewrite load8_store8_ne by lia. auto.
  - intros a Ha. rewrite load8_store8_ne by (destruct Ha; lia). auto.
Qed.

Lemma clear_of_suffix a k len : 0 <= k -> clear_of a len -> clear_of (a + k) (len - k).
Proof. intros Hk H i Hi. rewrite <- Z.add_assoc. apply H. lia. Qed.

Lemma between_step s out p text args :
  between s out (piece_text p ++ text) (piece_args p ++ args) -> piece_ok p ->
  2 * (Z.of_nat (length out) + Z.of_nat (length (render p))) < size ->
  exists s', step s = Some s' /\ between s' (out ++ render p) text args.
Proof.
  intros Hb Hok Hroom. pose proof Hb as [Hinv Hn Hfl Ht Hcl Ha].
  assert (Ht' : cstr m0 (format s + Z.of_nat (length (piece_text p))) text) by (apply cstr_suffix; assumption).
  assert (Hcl' : clear_of (format s + Z.of_nat (length (piece_text p))) (Z.of_nat (length text) + 1)).
  { eapply (clear_of_suffix _ (Z.of_nat (length (piece_text p)))) in Hcl; [|lia]. rewrite length_app in Hcl.
    replace (Z.of_nat (length text) + 1) with (Z.of_nat (length (piece_text p) + length text) + 1 - Z.of_nat (length (piece_text p))) by lia. assumption. }
  assert (Hpad : has_flag PAD s = false /\ has_flag PREFIX s = false) by (unfold has_flag; destruct Hfl as [-> | ->]; split;
    reflexivity).
  unfold step. pose proof (cstr_char _ _ _ _ 0 (default 0 (head (piece_text p))) Hb) as Hc0. rewrite Z.add_0_r in Hc0.
  destruct p as [c|a w|v]; cbn [piece_text piece_args piece_ok render app head default from_option id length] in *.
  - rewrite (Hc0 eq_refl). assert (E : (s8 c =? 37) = false) by (unfold s8; dlia). rewrite E.
    eexists. split; [reflexivity|].
    assert (Eu : store8 (fm s) (str + n s) (s8 c) = store8 (fm s) (str + n s) c) by (unfold store8; f_equal; unfold s8, u8; dlia).
    split; cbn [next_char put fm format n pad flags ap]; rewrite ?Eu, ?Hn; auto; [apply put_inv; [assumption|lia|lia]|].
    rewrite length_app. cbn [length]. lia.
  - rewrite (Hc0 eq_refl). change (s8 37 =? 37) with true. cbv iota. rewrite directive_finish.
    pose proof (cstr_char _ _ _ _ 1 115 Hb eq_refl) as Hc1. change (s8 115) with 115 in Hc1. destruct Ha as (Ha & Hac & Ha').
    destruct (next_format_str (next_char s) (S (Z.to_nat (strlen (fm s) (format s)))) out a w) as (m1 & E & Hs).
    { exact Hinv. } { exact Hc1. } { cbn [next_char fm ap]. rewrite (inv_load32 _ _ _ Hinv Hac). assumption. }
    { apply (inv_cstr _ _ _ _ Hinv); apply Hok. } { lia. } { apply Hok. }
    rewrite E. cbn [fmap option_fmap option_map next_char format n pad flags ap fm] in *.
    destruct (finish_spec (fm s) out (MkFmt m1 (format s + 1) (n s) (pad s) (flags s .| NOTNUM) (ap s + 4)) w) as (m' & E' & Hi');
      [assumption|exact Hs|unfold has_flag; cbn [flags]; destruct Hfl as [-> | ->]; reflexivity|exact Hn|lia|].
    rewrite E'. eexists. split; [reflexivity|].
    split; cbn [next_char fm format n pad flags ap]; auto; try (rewrite <- Z.add_assoc; assumption).
    right. destruct Hfl as [-> | ->]; reflexivity.
  - rewrite (Hc0 eq_refl). change (s8 37 =? 37) with true. cbv iota. rewrite directive_finish.
    pose proof (cstr_char _ _ _ _ 1 120 Hb eq_refl) as Hc1. change (s8 120) with 120 in Hc1. destruct Ha as (Ha & Hac & Ha').
    destruct (next_format_hex (next_char s) (S (Z.to_nat (strlen (fm s) (format s)))) out v) as (m1 & E & Hs).
    { exact Hinv. } { exact Hc1. } { cbn [next_char fm ap]. rewrite (inv_load32 _ _ _ Hinv Hac). assumption. }
    { apply Hpad. } { rewrite hex8_length in Hroom. lia. }
    rewrite E. cbn [fmap option_fmap option_map next_char format n pad flags ap fm] in *.
    destruct (finish_spec (fm s) out (MkFmt m1 (format s + 1) (n s) (pad s) (flags s) (ap s + 4)) (hex8 v)) as (m' & E' & Hi');
      [assumption|exact Hs|apply Hpad|exact Hn|lia|].
    rewrite E'. eexists. split; [reflexivity|].
    split; cbn [next_char fm format n pad flags ap]; auto; rewrite <- Z.add_assoc; assumption.
Qed.

Lemma loop_renders ps : forall fuel s out,
  between s out (concat (piece_text <$> ps)) (concat (piece_args <$> ps)) -> Forall piece_ok ps ->
  (length ps <= fuel)%nat -> 2 * (Z.of_nat (length out) + Z.of_nat (length (concat (render <$> ps)))) < size ->
  exists s', vsnprintf_loop fuel str size buf s = Some s' /\ inv (fm s') (out ++ concat (render <$> ps)) /\
    n s' = Z.of_nat (length (out ++ concat (render <$> ps))).
Proof.
  induction ps as [|p ps IH]; intros fuel s out Hb Hok Hf Hroom.
  - exists s. cbn [concat fmap list_fmap]. rewrite app_nil_r. destruct Hb as [Hi Hn _ Ht Hc _]. cbn in Ht.
    assert (E : char_at (fm s) (format s) = 0).
    { pose proof (inv_cstr _ _ _ _ Hi Ht Hc) as [_ (_ & Hz & _)]. cbn in Hz. rewrite Z.add_0_r in Hz. unfold char_at.
      rewrite Hz. reflexivity. }
    split; [destruct fuel; cbn [vsnprintf_loop]; rewrite E; reflexivity|]. auto.
  - destruct fuel as [|f]; [cbn in Hf; lia|]. cbn [fmap list_fmap concat length] in *. apply Forall_cons in Hok as [Hp Hok].
    rewrite length_app in Hroom. destruct (between_step s out p _ _ Hb Hp) as (s1 & E & Hb1); [lia|].
    destruct (IH f s1 (out ++ render p) Hb1 Hok) as (s' & E' & Hi & Hn); [lia|rewrite length_app; lia|].
    exists s'. rewrite app_assoc. split; [|auto].
    cbn [vsnprintf_loop]. assert (Hc : (char_at (fm s) (format s) =? 0) = false).
    { pose proof (cstr_char _ _ _ _ 0 (default 0 (head (piece_text p))) Hb) as Hc. rewrite Z.add_0_r in Hc.
      destruct p as [c| |]; cbn in Hc, Hp; rewrite (Hc eq_refl); [|reflexivity..]. unfold s8. dlia. }
    rewrite Hc. replace (size <=? n s) with false by (destruct Hb as [_ -> _ _ _ _]; lia). cbn [orb].
    unfold step in E. destruct (if _ =? 37 then _ else _) as [s2|]; [|discriminate]. injection E as <-. exact E'.
Qed.

(** The finished output buffer is a string. *)
Lemma inv_holds m text : inv m text -> Forall (fun c => 0 < c < 0x100) text -> Z.of_nat (length text) < size -> cstr m str text.
Proof using.
  clear Hsize Hdisj. intros Hi Hr Hl. apply cstr_of_bytes; [|exact Hr|apply (i_rest _ _ Hi); lia].
  apply list_eq_same_length with (length text); [reflexivity|apply bytes_at_length|].
  intros i x y Hi' Hx Hy. rewrite bytes_at_lookup in Hx by assumption. injection Hx as <-.
  rewrite (i_str _ _ Hi i y Hy). reflexivity.
Qed.

Lemma render_chars p : piece_ok p -> Forall (fun c => 0 < c < 0x100) (render p).
Proof using.
  clear Hsize Hdisj. intros Hp. destruct p; cbn in Hp |- *; [repeat constructor; tauto|eapply cstr_range; apply Hp|].
  eapply Forall_impl; [apply hex8_chars|]. cbn. lia.
Qed.
End Render.

Lemma piece_text_length ps : (length ps <= length (concat (piece_text <$> ps)))%nat.
Proof.
  induction ps as [|p ps IH]; [reflexivity|]. cbn [fmap list_fmap concat length]. rewrite length_app.
  destruct p; cbn [piece_text length]; lia.
Qed.

(** Both buffers start out cleared. *)
Lemma cleared_inv str size buf m : inv str size buf m (memset (memset m str 0 size) buf 0 size) [].
Proof.
  split.
  - intros i c Hi. destruct i; discriminate.
  - intros a Ha. cbn [length] in Ha. rewrite !load8_memset. bsimp; reflexivity.
  - intros a Ha. rewrite load8_memset. replace ((buf <=? a) && (a <? buf + size)) with true by lia. reflexivity.
  - intros a [Ha1 Ha2]. rewrite !load8_memset. bsimp; reflexivity.
Qed.

Lemma vsnprintf_spec m str size fmtp args buf ps :
  0 < size <= 0x10000 -> str + size <= buf \/ buf + size <= str ->
  cstr m fmtp (concat (piece_text <$> ps)) ->
  clear_of str size buf fmtp (Z.of_nat (length (concat (piece_text <$> ps))) + 1) ->
  args_at str size buf m args (concat (piece_args <$> ps)) ->
  Forall (piece_ok str size buf m) ps ->
  let text := concat (render <$> ps) in
  2 * Z.of_nat (length text) < size ->
  exists m', vsnprintf m str size fmtp args buf = Some (m', Z.of_nat (length text)) /\ cstr m' str text /\
    (forall a, outside str size buf a -> load8 m' a = load8 m a).
Proof.
  intros Hsz Hd Ht Hcl Ha Hok text Hroom. unfold vsnprintf.
  pose proof (cleared_inv str size buf m) as Hi. set (m1 := memset _ buf 0 size) in *.
  destruct (loop_renders str size buf m Hsz Hd ps (strfuel m1) (MkFmt m1 fmtp 0 0 0 args) []) as (s' & E & Hi' & Hn).
  { split; auto. }
  { assumption. }
  { pose proof (inv_cstr _ _ _ _ _ _ _ _ Hi Ht Hcl) as Hc. apply cstr_fuel in Hc. pose proof (piece_text_length ps). lia. }
  { cbn [length]. exact Hroom. }
  rewrite E. cbn [app] in *. fold text in Hi', Hn. exists (fm s'). rewrite Hn. split; [reflexivity|].
  split; [|apply (i_out _ _ _ _ _ _ Hi')]. apply (inv_holds str size buf m _ text Hi'); [|lia].
  unfold text. clear -Hok. induction Hok as [|p ps Hp _ IH]; [constructor|]. cbn [fmap list_fmap concat]. apply Forall_app.
  split; [apply (render_chars _ _ _ _ p Hp)|exact IH].
Qed.

(** C30: [vsnprintf] on a format of ordinary characters, [%s] and [%x] prints
    the characters, the strings and eight-digit hexadecimal numbers in order.
    The output buffer then holds that text, terminated, the returned length is
    the text's, and memory outside the output and scratch buffers is unchanged.
    The text must fill less than half of the buffer: the loop that copies a
    conversion counts each character twice against [size]. *)
Theorem vsnprintf_renders m str size fmtp args buf ps :
  0 < size <= 0x10000 -> str + size <= buf \/ buf + size <= str ->
  cstr m fmtp (concat (piece_text <$> ps)) ->
  clear_of str size buf fmtp (Z.of_nat (length (concat (piece_text <$> ps))) + 1) ->
  args_at str size buf m args (concat (piece_args <$> ps)) ->
  Forall (piece_ok str size buf m) ps ->
  let text := concat (render <$> ps) in
  2 * Z.of_nat (length text) < size ->
  exists m', vsnprintf m str size fmtp args buf = Some (m', Z.of_nat (length text)) /\ cstr m' str text /\
    (forall a, outside str size buf a -> load8 m' a = load8 m a).
Proof. apply vsnprintf_spec. Qed.

(** An instance: "id=%x %s". *)
Definition demo_fmt : mem :=
  store32 (store32 (put_str (put_str ∅ 0x1000 [105; 100; 61; 37; 120; 32; 37; 115]) 0x2000 [111;
    107]) 0x3000 0xBEEF) 0x3004 0x2000.
Definition demo_pieces : list piece := [PChar 105; PChar 100; PChar 61; PHex 0xBEEF; PChar 32; PStr 0x2000 [111; 107]].

Lemma vsnprintf_renders_witness :
  exists m', vsnprintf demo_fmt 0x8000 0x100 0x1000 0x3000 0x9000 = Some (m', 14) /\
    cstr m' 0x8000 [105; 100; 61; 48; 48; 48; 48; 66; 69; 69; 70; 32; 111; 107] /\
    (forall a, outside 0x8000 0x100 0x9000 a -> load8 m' a = load8 demo_fmt a).
Proof.
  assert (Hc : forall a len, a + len <= 0x8000 -> clear_of 0x8000 0x100 0x9000 a len) by (intros a len H i Hi; split; lia).
  apply (vsnprintf_renders demo_fmt 0x8000 0x100 0x1000 0x3000 0x9000 demo_pieces); [lia|lia| | | | |].
  - apply is_cstr_sound. vm_compute. reflexivity.
  - apply Hc. vm_compute. discriminate.
  - cbn [demo_pieces fmap list_fmap piece_args concat app args_at].
    repeat (split; [vm_compute; reflexivity|split; [apply Hc; lia|]]). exact I.
  - repeat (apply Forall_cons_2; [cbn; try lia; auto|]); [|apply Forall_nil_2].
    split; [apply is_cstr_sound; vm_compute; reflexivity|apply Hc; cbn; lia].
  - vm_compute. reflexivity.
Defined.
