(* ===== verification/Console.v ===== *)
(** * Printing to the console: printf, dprintf, init_message (kernel/lib/printf.c)

    The functions that join the formatter and the screen.  [bufp] is the
    address of the local array [buf[256]] and [scratch] the block that the
    formatter's [malloc] returns. *)

From stdpp Require Import base numbers list gmap.
From Stdlib Require Import ZArith Lia.
From S2P Require Import Prelude Memory CString KStdlib Vga Printf.
Open Scope Z_scope.

Definition printf (fmtp args bufp scratch : Z) (s : vga_state) : option (Z * vga_state) :=
  match vsnprintf (vmem s) bufp 256 fmtp args scratch with
  | None => None
  | Some (m, i) =>
      match vga_puts bufp (set_vmem m s) with
      | Some s' => Some (i, s')
      | None => None
      end
  end.

(** [uart_write] sends the bytes up to the terminator to the serial port. *)
Fixpoint uart_write (fuel : nat) (m : mem) (c : Z) : list Z :=
  match fuel with
  | O => []
  | S f => if char_at m c =? 0 then [] else load8 m c :: uart_write f m (c + 1)
  end.
Definition dprintf (m : mem) (fmtp args bufp scratch : Z) : option (Z * mem * list Z) :=
  match vsnprintf m bufp 256 fmtp args scratch with
  | None => None
  | Some (m', i) => Some (i, m', uart_write (strfuel m') m' bufp)
  end.

(** The strings of [init_message] lie at [lit]: "[", "FAIL", " OK ", "WAIT",
    "????" and "] ", eight bytes apart. *)
Definition init_message (lit status fmtp args bufp scratch : Z) (s : vga_state) : option vga_state :=
  let '(color, message) :=
    if status =? 0 then (VGA_LIGHTRED, lit + 8)
    else if status =? 1 then (VGA_LIGHTGREEN, lit + 16)
    else if status =? 2 then (VGA_LIGHTBROWN, lit + 24)
    else (VGA_LIGHTCYAN, lit + 32) in
  match vga_puts lit s with
  | None => None
  | Some s1 =>
      match vga_puts message (vga_setcolor color s1) with
      | None => None
      | Some s2 =>
          match vga_puts (lit + 40) (vga_setcolor (VGA_COLOR VGA_WHITE VGA_BLACK) s2) with
          | None => None
          | Some s3 =>
              match vsnprintf (vmem s3) bufp 256 fmtp args scratch with
              | None => None
              | Some (m, _) => vga_puts bufp (set_vmem m s3)
              end
          end
      end
  end.

(** ** Typing a text *)

(** The screen after the characters of [text], one by one. *)
Definition typed (text : list Z) (s : vga_state) : vga_state := foldl (fun t c => vga_putc (s8 c) t) s text.

(** No backspace in the first column and no tab that wraps on the last row
    happens on the way: [vga_putc] then stays on the screen. *)
Fixpoint stays (text : list Z) (s : vga_state) : Prop :=
  match text with
  | [] => True
  | c :: t => (c = 8 -> 0 < CURRENT_X s) /\ (c = 9 -> CURRENT_X s <= 144 \/ CURRENT_Y s < 24) /\ stays t (vga_putc (s8 c) s)
  end.

(** The cursor moves without regard to what memory holds. *)
Definition same_cursor (s t : vga_state) : Prop := CURRENT_X s = CURRENT_X t /\ CURRENT_Y s = CURRENT_Y t.

Lemma scroll_cursor s t : same_cursor s t -> same_cursor (vga_scroll s) (vga_scroll t).
Proof.
  intros [Ex Ey]. destruct (scroll_xy s) as (A1 & A2 & _), (scroll_xy t) as (B1 & B2 & _). split; [congruence|].
  rewrite A2, B2, Ey. reflexivity.
Qed.

Lemma putc_cursor c s t : same_cursor s t -> same_cursor (vga_putc c s) (vga_putc c t).
Proof.
  intros [Ex Ey]. unfold vga_putc. rewrite Ex, Ey. destruct (c =? 10); [apply scroll_cursor; split; reflexivity|].
  destruct (c =? 8); [|destruct (c =? 9)].
  - destruct (kputc_frame 32 (CURRENT_X t - 2) (CURRENT_Y t) (set_xy (CURRENT_X t - 2) (CURRENT_Y t) s)) as (A1 & A2 & _),
      (kputc_frame 32 (CURRENT_X t - 2) (CURRENT_Y t) (set_xy (CURRENT_X t - 2) (CURRENT_Y t) t)) as (B1 & B2 & _).
    split; [exact (eq_trans A1 (eq_sym B1))|exact (eq_trans A2 (eq_sym B2))].
  - destruct (160 <=? _); split; reflexivity.
  - destruct (kputc_frame c (CURRENT_X t) (CURRENT_Y t) s) as (A1 & A2 & _), (kputc_frame c (CURRENT_X t) (CURRENT_Y t) t) as (B1 & B2 & _).
    rewrite A1, A2, B1, B2, Ex, Ey. apply scroll_cursor. destruct (160 <=? _); split; reflexivity.
Qed.

Lemma stays_cursor text : forall s t, same_cursor s t -> stays text s -> stays text t.
Proof.
  induction text as [|c text IH]; intros s t E; [auto|]. destruct E as [Ex Ey]. cbn [stays]. rewrite Ex, Ey.
  intros (H8 & H9 & H). split; [exact H8|]. split; [exact H9|]. apply (IH (vga_putc (s8 c) s)); [apply putc_cursor; split; assumption|exact H].
Qed.

(** [vga_puts] types the string; what it writes to is the screen. *)
Lemma puts_loop_types text : forall fuel p s,
  cstr (vmem s) p text -> (length text <= fuel)%nat -> p + Z.of_nat (length text) < VGA_MEMORY \/ screen_end <= p ->
  cursor_ok s -> stays text s ->
  vga_puts_loop fuel p s = Some (typed text s) /\ cursor_ok (typed text s) /\
  same_outside VGA_MEMORY screen_end (vmem s) (vmem (typed text s)).
Proof.
  induction text as [|c text IH]; intros fuel p s Hc Hf Hd Hok Hs.
  - assert (E : char_at (vmem s) p = 0).
    { destruct Hc as [_ (_ & Hz & _)]. cbn [length] in Hz. rewrite Z.add_0_r in Hz. unfold char_at. rewrite Hz. reflexivity. }
    split; [destruct fuel; cbn [vga_puts_loop]; rewrite E; reflexivity|]. split; [exact Hok|apply same_outside_refl].
  - cbn [length] in *. destruct fuel as [|f]; [lia|]. destruct Hs as (H8 & H9 & Hs).
    pose proof (cstr_range _ _ _ Hc) as Hr. apply Forall_cons in Hr as [Hcr _].
    assert (E : char_at (vmem s) p = s8 c).
    { pose proof (cstr_app_lookup (vmem s) p [c] text 0 c Hc eq_refl) as E. rewrite Z.add_0_r in E. unfold char_at. rewrite E. reflexivity. }
    assert (Hne : (s8 c =? 0) = false /\ (s8 c = 8 -> c = 8) /\ (s8 c = 9 -> c = 9)) by (unfold s8; repeat split; dlia).
    destruct Hne as (Hne & Hn8 & Hn9).
    destruct (putc_ok (s8 c) s Hok ltac:(auto) ltac:(auto)) as [Hok1 Hm1]. fold screen_end in Hm1.
    destruct (IH f (p + 1) (vga_putc (s8 c) s)) as (E' & Hok' & Hm'); try assumption; [|lia|lia|].
    { eapply cstr_frame; [exact (cstr_suffix _ _ [c] text Hc)|]. intros i Hi. cbn [length] in Hi. apply Hm1. lia. }
    cbn [vga_puts_loop]. rewrite E, Hne. split; [exact E'|]. split; [exact Hok'|]. apply (same_outside_trans _ _ _ _ _ Hm1 Hm').
Qed.

(** A printable text that fits on the rest of the row. *)
Lemma typed_row text : forall s, Forall printable text ->
  0 <= CURRENT_X s -> CURRENT_X s + 2 * Z.of_nat (length text) < 160 -> 0 <= CURRENT_Y s < 25 -> 0 <= CURRENT_ATTRIB s < 0x100 ->
  let a := VGA_MEMORY + (CURRENT_X s + CURRENT_Y s * 160) in
  let s' := typed text s in
  shows (vmem s') a (CURRENT_ATTRIB s) text /\ CURRENT_X s' = CURRENT_X s + 2 * Z.of_nat (length text) /\
  CURRENT_Y s' = CURRENT_Y s /\ CURRENT_ATTRIB s' = CURRENT_ATTRIB s /\
  same_outside a (a + 2 * Z.of_nat (length text)) (vmem s) (vmem s').
Proof.
  induction text as [|c text IH]; intros s Hp Hx Hl Hy Ha a s'.
  - split; [intros i c Hi; destruct i; discriminate|]. unfold s'. cbn. split; [lia|]. auto with memory.
  - cbn [length] in *. apply Forall_cons in Hp as [Hpc Hp]. pose proof Hpc as Hpc'. unfold printable in Hpc'.
    assert (Es : s8 c = c) by (unfold s8; dlia). assert (Et : s' = typed text (vga_putc c s)) by (unfold s', typed; cbn; rewrite Es; reflexivity).
    destruct (putc_printable c s Hpc ltac:(lia) ltac:(lia) Ha) as (Ex & Ey & Ea & Ew & Eo). fold a in Ew, Eo.
    destruct (IH (vga_putc c s) Hp) as (Hs & Ex' & Ey' & Ea' & Eo'); rewrite ?Ex, ?Ey, ?Ea; try lia.
    rewrite <- Et, ?Ex, ?Ey, ?Ea in *.
    replace (VGA_MEMORY + (CURRENT_X s + 2 + CURRENT_Y s * 160)) with (a + 2) in * by (unfold a; lia).
    split; [|split; [lia|split; [assumption|split; [assumption|]]]].
    + intros [|i] y Hi; cbn in Hi.
      * injection Hi as <-. rewrite Z.add_0_r. rewrite <- Ew. unfold load16. rewrite !Eo' by lia. reflexivity.
      * rewrite <- (Hs i y Hi). f_equal. lia.
    + eapply same_outside_trans; eapply same_outside_weaken; [| |exact Eo| | |exact Eo']; lia.
Qed.

(** The same with a newline at its end: on the last row the screen scrolls. *)
Lemma typed_line text s : Forall printable text ->
  0 <= CURRENT_X s -> CURRENT_X s + 2 * Z.of_nat (length text) < 160 -> 0 <= CURRENT_Y s < 25 -> 0 <= CURRENT_ATTRIB s < 0x100 ->
  let s' := typed (text ++ [10]) s in
  shows (vmem s') (VGA_MEMORY + (CURRENT_X s + Z.min (CURRENT_Y s) 23 * 160)) (CURRENT_ATTRIB s) text /\
  CURRENT_X s' = 0 /\ CURRENT_Y s' = Z.min (CURRENT_Y s + 1) 24.
Proof.
  intros Hp Hx Hl Hy Ha s'. destruct (typed_row text s Hp Hx Hl Hy Ha) as (Hs & Ex & Ey & Ea & _).
  assert (Es : s' = vga_putc 10 (typed text s)) by (unfold s', typed; rewrite foldl_app; reflexivity).
  rewrite Es. set (t := typed text s) in *. destruct (Z.eq_dec (CURRENT_Y s) 24) as [E24|Hne].
  - destruct (vga_newline_scrolls t ltac:(congruence) ltac:(congruence)) as (Hrow & _ & Hx' & Hy'). split; [|split; [exact Hx'|lia]].
    intros i c Hi. rewrite <- (Hs i c Hi). apply lookup_lt_Some in Hi. rewrite E24. change (Z.min 24 23) with 23. unfold load16.
    replace (VGA_MEMORY + (CURRENT_X s + 23 * 160) + 2 * Z.of_nat i) with (VGA_MEMORY + 160 * 23 + (CURRENT_X s + 2 * Z.of_nat i)) by lia.
    replace (VGA_MEMORY + 160 * 23 + (CURRENT_X s + 2 * Z.of_nat i) + 1) with (VGA_MEMORY + 160 * 23 + (CURRENT_X s + 2 * Z.of_nat i + 1)) by lia.
    rewrite !Hrow by lia. f_equal; [|f_equal]; f_equal; lia.
  - unfold vga_putc. change (10 =? 10) with true. cbv iota. unfold vga_scroll. cbn [set_xy CURRENT_Y]. rewrite Ey.
    replace (25 <=? CURRENT_Y s + 1) with false by lia. cbn [set_xy vmem CURRENT_X CURRENT_Y].
    rewrite !Z.min_l by lia. auto.
Qed.

(** C35: what [printf] prints is typed on the screen.  For a format of ordinary
    characters (newlines and tabs too), [%s] and [%x] whose text has fewer than
    128 characters, and a screen on which no backspace leaves the first column
    and no tab wraps on the last row, [printf] returns the length of the text
    and leaves the screen as typing it character by character with [vga_putc]
    does; the cursor stays on the screen, and no memory but the screen and the
    two buffers changes.  When the text is a printable line that fits on the
    rest of its row, with or without a newline at its end, it stands there in
    the current colour, one row higher when the newline scrolled the screen. *)
Theorem printf_shows_text fmtp args bufp scratch ps s :
  bufp + 256 <= scratch \/ scratch + 256 <= bufp ->
  bufp + 256 <= VGA_MEMORY \/ VGA_MEMORY + 0x2000 <= bufp ->
  cstr (vmem s) fmtp (concat (piece_text <$> ps)) ->
  clear_of bufp 256 scratch fmtp (Z.of_nat (length (concat (piece_text <$> ps))) + 1) ->
  args_at bufp 256 scratch (vmem s) args (concat (piece_args <$> ps)) ->
  Forall (piece_ok bufp 256 scratch (vmem s)) ps ->
  let text := concat (render <$> ps) in
  let len := Z.of_nat (length text) in
  2 * len < 256 -> cursor_ok s -> stays text s ->
  exists m s', printf fmtp args bufp scratch s = Some (len, s') /\
    s' = typed text (set_vmem m s) /\ cursor_ok s' /\
    (forall a, outside bufp 256 scratch a -> load8 m a = load8 (vmem s) a /\
       (a < VGA_MEMORY \/ VGA_MEMORY + 0x2000 <= a -> load8 (vmem s') a = load8 (vmem s) a)) /\
    (forall line nl, text = line ++ nl -> Forall printable line -> CURRENT_X s + 2 * Z.of_nat (length line) < 160 ->
       0 <= CURRENT_ATTRIB s < 0x100 ->
       let row y := VGA_MEMORY + (CURRENT_X s + y * 160) in
       (nl = [] -> shows (vmem s') (row (CURRENT_Y s)) (CURRENT_ATTRIB s) line /\
          CURRENT_X s' = CURRENT_X s + 2 * len /\ CURRENT_Y s' = CURRENT_Y s) /\
       (nl = [10] -> shows (vmem s') (row (Z.min (CURRENT_Y s) 23)) (CURRENT_ATTRIB s) line /\
          CURRENT_X s' = 0 /\ CURRENT_Y s' = Z.min (CURRENT_Y s + 1) 24)).
Proof.
  intros Hd Hv Ht Hcl Ha Hok text len Hroom Hcur Hst. unfold printf.
  destruct (vsnprintf_spec (vmem s) bufp 256 fmtp args scratch ps) as (m & E & Hc & Ho); [lia|assumption..|].
  fold text in E, Hc. rewrite E. unfold vga_puts. pose proof (cstr_fuel _ _ _ Hc) as Hf.
  destruct (puts_loop_types text (strfuel m) bufp (set_vmem m s)) as (E' & Hcur' & Hm'); try assumption.
  { lia. } { unfold screen_end, len in *. lia. } { apply (stays_cursor text s); [split; reflexivity|exact Hst]. }
  exists m, (typed text (set_vmem m s)). cbn [vmem set_vmem] in E' |- *. rewrite E'. split; [reflexivity|]. split; [reflexivity|].
  split; [exact Hcur'|]. split; [intros a Hout; split; [apply Ho, Hout|intros Hs; rewrite <- (Ho a Hout); apply Hm'; exact Hs]|].
  intros line nl El Hp Hx Hat. destruct Hcur as (Hcx & _ & Hcy). split; intros ->; rewrite El.
  - rewrite app_nil_r. destruct (typed_row line (set_vmem m s) Hp) as (H1 & H2 & H3 & _); cbn; try lia.
    unfold len. rewrite El, app_nil_r. auto.
  - apply (typed_line line (set_vmem m s) Hp); cbn; lia.
Qed.

Definition demo_console : vga_state := MkVga demo_fmt 0 0 7 [].

Lemma printf_shows_text_witness :
  exists s', printf 0x1000 0x3000 0x8000 0x9000 demo_console = Some (14, s') /\
    shows (vmem s') (VGA_MEMORY + (0 + 0 * 160)) 7 [105; 100; 61; 48; 48; 48; 48; 66; 69; 69; 70; 32; 111; 107] /\
    CURRENT_X s' = 0 + 2 * 14 /\ CURRENT_Y s' = 0.
Proof.
  assert (Hc : forall a len, a + len <= 0x8000 -> clear_of 0x8000 256 0x9000 a len) by (intros a len H i Hi; split; lia).
  destruct (printf_shows_text 0x1000 0x3000 0x8000 0x9000 demo_pieces demo_console) as (m & s' & E & _ & _ & _ & H).
  - lia.
  - unfold VGA_MEMORY. lia.
  - apply is_cstr_sound. vm_compute. reflexivity.
  - apply Hc. vm_compute. discriminate.
  - cbn [demo_pieces fmap list_fmap piece_args concat app args_at].
    repeat (split; [vm_compute; reflexivity|split; [apply Hc; lia|]]). exact I.
  - repeat (apply Forall_cons_2; [cbn; try lia; auto|]); [|apply Forall_nil_2].
    split; [apply is_cstr_sound; vm_compute; reflexivity|apply Hc; cbn; lia].
  - vm_compute. reflexivity.
  - repeat split; cbn; lia.
  - vm_compute. repeat split; discriminate.
  - exists s'. split; [exact E|]. apply (H [105; 100; 61; 48; 48; 48; 48; 66; 69; 69; 70; 32; 111; 107] []); try reflexivity; [|cbn; lia].
    apply (bool_decide_unpack _). vm_compute. exact I.
Defined.
