(* ===== verification/Stream.v ===== *)
(** * kernel/lib/stdio.c: in-memory streams

    A stream is the structure of stdio.h with its data block in memory; [size]
    and [offset] are [int]s that the code compares with a [size_t], so the
    comparisons are unsigned.  Blocks returned by [malloc] are arguments. *)

From stdpp Require Import base numbers list gmap.
From Stdlib Require Import ZArith Lia.
From S2P Require Import Prelude Memory CString.
Open Scope Z_scope.

Record STREAM := MkStream { data : Z; size : Z; offset : Z }.
Definition set_offset (o : Z) (s : STREAM) : STREAM := MkStream (data s) (size s) o.

Definition k_new_stream (n ptr : Z) : STREAM := MkStream ptr (s32 n) 0.

Definition no_room (s : STREAM) (n : Z) : bool := (u32 (size s) <? n) || (u32 (size s) <? u32 (offset s + n)).

Definition k_stream_write (m : mem) (s : STREAM) (msg n : Z) : mem * STREAM * Z :=
  if no_room s n then (m, s, -1)
  else (memcpy m (data s + offset s) msg n, set_offset (s32 (offset s + n)) s, 1).

(** The copy is made but not returned: the result is indeterminate. *)
Definition k_stream_read (m : mem) (s : STREAM) (n buffer : Z) : mem * cval :=
  if no_room s n then (m, Some NULL)
  else (memcpy m buffer (data s + offset s) n, None).

(** The scan stops at the character or at the end of the stream. *)
Fixpoint read_until_loop (k : nat) (m : mem) (s : STREAM) (c count : Z) : STREAM * Z :=
  match k with
  | O => (s, count)
  | S k' =>
      if negb (char_at m (data s + offset s) =? c) && (offset s <? size s)
      then read_until_loop k' m (set_offset (offset s + 1) s) c (count + 1)
      else (s, count)
  end.
(** At most [size - offset] characters are skipped. *)
Definition k_stream_read_until (m : mem) (s : STREAM) (c buffer : Z) : mem * STREAM * Z :=
  let '(s', count) := read_until_loop (Z.to_nat (size s - offset s)) m s c 0 in
  (memcpy m buffer (data s' + offset s' - count) count, s', buffer).

Definition fgetc (m : mem) (s : STREAM) : Z :=
  if 1 <? offset s then char_at m (data s + offset s - 1) else 0.

Definition k_stream_seek (s : STREAM) (p : Z) : STREAM * Z :=
  if p <? -1 then (s, -1)
  else if size s <=? p then (s, -1)
  else (set_offset p s, p).
Definition k_stream_tell (s : STREAM) : Z := offset s.

Definition fputc (m : mem) (s : STREAM) (c : Z) : mem * STREAM * Z :=
  if (size s <? 1) || (size s <? offset s + 1) then (m, s, 0)
  else (store8 m (data s + offset s) c, set_offset (offset s + 1) s, 1).

(** [for (i = 0; i < n, c[i] != 0; i++)]: only the second test counts. *)
Fixpoint fputs_loop (k : nat) (m : mem) (s : STREAM) (p : Z) : mem * STREAM :=
  match k with
  | O => (m, s)
  | S k' =>
      let ch := char_at m p in
      if ch =? 0 then (m, s)
      else let '(m', s', _) := fputc m s ch in fputs_loop k' m' s' (p + 1)
  end.
(** The value is that of the error return; success returns nothing. *)
Definition fputs (m : mem) (s : STREAM) (p : Z) : mem * STREAM * cval :=
  let n := strlen m p in
  if no_room s n then (m, s, Some (-1))
  else let '(m', s') := fputs_loop (Z.to_nat n) m s p in (m', s', None).

Definition fseek (s : STREAM) (p : Z) : STREAM * Z := k_stream_seek s p.
Definition ftell (s : STREAM) : Z := k_stream_tell s.
Definition fflush (m : mem) (s : STREAM) : mem * STREAM * Z :=
  let '(s', r) := fseek s 0 in (memset m (data s) 0 (size s), s', r).

(** ** Bounds *)

Definition stream_ok (s : STREAM) : Prop := 0 <= offset s <= size s /\ size s < 0x80000000.

Lemma no_room_spec s n : stream_ok s -> 0 <= n < 0x80000000 -> no_room s n = (size s <? offset s + n).
Proof.
  intros [Ho Hs] Hn. unfold no_room. rewrite !u32_small by lia.
  destruct (Z.ltb_spec (size s) n), (Z.ltb_spec (size s) (offset s + n)); cbn; lia || reflexivity.
Qed.

Lemma fputc_spec m s c : stream_ok s -> offset s < size s ->
  fputc m s c = (store8 m (data s + offset s) c, set_offset (offset s + 1) s, 1) /\ stream_ok (set_offset (offset s + 1) s).
Proof.
  intros [Ho Hs] Hlt. unfold fputc. replace (size s <? 1) with false by lia. replace (size s <? offset s + 1) with false by lia.
  split; [reflexivity|]. unfold stream_ok. cbn. lia.
Qed.

Lemma u8_s8 b : 0 <= b < 0x100 -> u8 (s8 b) = b.
Proof. intros H. unfold u8, s8. dlia. Qed.

(** Writing a string that is not inside the stream. *)
Lemma fputs_loop_spec w : forall m s p,
  cstr m p w -> stream_ok s -> offset s + Z.of_nat (length w) <= size s ->
  p + Z.of_nat (length w) < data s + offset s \/ data s + size s <= p ->
  exists m', fputs_loop (length w) m s p = (m', set_offset (offset s + Z.of_nat (length w)) s) /\
    bytes_at m' (data s + offset s) (length w) = w /\
    same_outside (data s + offset s) (data s + offset s + Z.of_nat (length w)) m m'.
Proof.
  induction w as [|c w IH]; intros m s p Hc Hok Hroom Hd.
  - exists m. cbn [length fputs_loop]. rewrite Z.add_0_r. split; [destruct s; reflexivity|]. auto with memory.
  - cbn [length fputs_loop] in *. pose proof (cstr_app_lookup m p [c] w 0 c Hc eq_refl) as Ec. rewrite Z.add_0_r in Ec.
    assert (Hr : 0 <= c < 0x100) by (rewrite <- Ec; apply load8_range).
    assert (H0 : c <> 0). { pose proof (cstr_no_nul _ _ _ Hc) as H. intros ->. apply H. left. }
    unfold char_at. rewrite Ec. assert (E8 : (s8 c =? 0) = false) by (unfold s8; dlia). rewrite E8.
    destruct (fputc_spec m s (s8 c) Hok ltac:(lia)) as [-> Hok1].
    pose proof (cstr_suffix _ _ [c] w Hc) as Hc1. cbn [length] in Hc1.
    destruct (IH (store8 m (data s + offset s) (s8 c)) (set_offset (offset s + 1) s) (p + 1)) as (m' & E & Hb & Hf);
      cbn [set_offset data size offset] in *; [|assumption|lia|lia|].
    + eapply cstr_frame; [exact Hc1|]. intros i Hi. apply load8_store8_ne. destruct Hok. lia.
    + exists m'. rewrite E. split; [unfold set_offset; cbn; f_equal; f_equal; lia|]. split.
      * apply list_eq. intros [|i].
        { rewrite bytes_at_lookup by lia. replace (data s + offset s + Z.of_nat 0) with (data s + offset s) by lia.
          rewrite Hf by lia. rewrite load8_store8_eq. cbn. f_equal. apply u8_s8. assumption. }
        { change ((c :: w) !! S i) with (w !! i). destruct (Nat.lt_ge_cases i (length w)) as [Hi|Hi].
          - destruct (lookup_lt_is_Some_2 w i Hi) as [y Hy]. rewrite Hy, bytes_at_lookup by lia.
            rewrite <- Hb, bytes_at_lookup in Hy by lia. injection Hy as <-. do 2 f_equal. lia.
          - rewrite lookup_ge_None_2 by (rewrite bytes_at_length; lia). rewrite lookup_ge_None_2 by lia. reflexivity. }
      * eapply same_outside_trans; [|eapply same_outside_weaken; [| |exact Hf]; lia].
        intros a Ha. apply load8_store8_ne. lia.
Qed.

Lemma fputs_spec m s p w :
  cstr m p w -> stream_ok s -> p + Z.of_nat (length w) < data s + offset s \/ data s + size s <= p ->
    Z.of_nat (length w) < 0x80000000 ->
  offset s + Z.of_nat (length w) <= size s ->
  exists m', fputs m s p = (m', set_offset (offset s + Z.of_nat (length w)) s, None) /\
    bytes_at m' (data s + offset s) (length w) = w /\
    same_outside (data s + offset s) (data s + offset s + Z.of_nat (length w)) m m'.
Proof.
  intros Hc Hok Hd Hl Hroom. unfold fputs. rewrite (strlen_cstr _ _ _ Hc), no_room_spec by (assumption || lia).
  replace (size s <? offset s + Z.of_nat (length w)) with false by lia. rewrite Nat2Z.id.
  destruct (fputs_loop_spec w m s p Hc Hok Hroom Hd) as (m' & -> & H). eauto.
Qed.

(** Writing to a stream never leaves its block.  [fputs] either rejects the
    string (when it does not fit) and changes nothing, or appends exactly its
    characters at the offset; in both cases the offset stays within the
    stream. *)
Theorem fputs_in_bounds m s p w :
  cstr m p w -> stream_ok s -> p + Z.of_nat (length w) < data s + offset s \/ data s + size s <= p ->
    Z.of_nat (length w) < 0x80000000 ->
  exists m' s' r, fputs m s p = (m', s', r) /\ stream_ok s' /\ same_outside (data s) (data s + size s) m m' /\
    (if size s <? offset s + Z.of_nat (length w)
     then r = Some (-1) /\ m' = m /\ s' = s
     else offset s' = offset s + Z.of_nat (length w) /\ bytes_at m' (data s + offset s) (length w) = w).
Proof.
  intros Hc Hok Hd Hl. destruct (Z.ltb_spec (size s) (offset s + Z.of_nat (length w))) as [Hlt|Hle].
  - exists m, s, (Some (-1)). unfold fputs. rewrite (strlen_cstr _ _ _ Hc), no_room_spec by (assumption || lia).
    replace (size s <? offset s + Z.of_nat (length w)) with true by lia.
    split; [reflexivity|]. split; [assumption|]. split; [apply same_outside_refl|]. auto.
  - destruct (fputs_spec m s p w Hc Hok Hd Hl Hle) as (m' & E & Hb & Hf). destruct Hok as [Ho Hs].
    exists m', (set_offset (offset s + Z.of_nat (length w)) s), None. rewrite E. split; [reflexivity|].
    split; [unfold stream_ok; cbn; lia|]. split; [eapply same_outside_weaken; [| |exact Hf]; lia|]. auto.
Qed.

(** ** Reading back *)

Lemma read_until_spec (w : list Z) c : forall k m s count,
  (forall i x, w !! i = Some x -> char_at m (data s + offset s + Z.of_nat i) <> c) ->
  char_at m (data s + offset s + Z.of_nat (length w)) = c ->
  offset s + Z.of_nat (length w) < size s -> (length w < k)%nat ->
  read_until_loop k m s c count = (set_offset (offset s + Z.of_nat (length w)) s, count + Z.of_nat (length w)).
Proof.
  induction w as [|x w IH]; intros k m s count Hw Hc Hs Hk; (destruct k as [|k]; [lia|]); cbn [read_until_loop length] in *.
  - replace (data s + offset s + Z.of_nat 0) with (data s + offset s) in Hc by lia. rewrite Hc, Z.eqb_refl. cbn [negb andb].
    destruct s; unfold set_offset; cbn [data size offset]; f_equal; [f_equal|]; lia.
  - pose proof (Hw 0%nat x eq_refl) as H0. replace (data s + offset s + Z.of_nat 0) with (data s + offset s) in H0 by lia.
    replace (char_at m (data s + offset s) =? c) with false by lia. replace (offset s <? size s) with true by lia.
    cbn [negb andb].
    rewrite IH; cbn [set_offset data size offset]; [|intros i y Hi; specialize (Hw (S i) y Hi)|..]; try lia.
    + unfold set_offset. cbn. f_equal; [f_equal|]; lia.
    + replace (data s + (offset s + 1) + Z.of_nat i) with (data s + offset s + Z.of_nat (S i)) by lia. assumption.
    + rewrite <- Hc. f_equal. lia.
Qed.

(** What was written can be read back.  A line [w] with its delimiter [c]
    written by [fputs], then [fseek] to where it began, then
    [k_stream_read_until c], gives a block holding exactly [w] and leaves the
    stream at the delimiter. *)
Theorem fputs_read_until m s p w c buffer :
  cstr m p (w ++ [c]) -> stream_ok s -> c ∉ w -> 0 < c < 0x80 ->
  p + Z.of_nat (length w) + 1 < data s + offset s \/ data s + size s <= p ->
  offset s + Z.of_nat (length w) + 1 < size s ->
  buffer + Z.of_nat (length w) <= data s \/ data s + size s <= buffer ->
  exists m1 s1 s2 m3 s3, fputs m s p = (m1, s1, None) /\ fseek s1 (offset s) = (s2, offset s) /\
    k_stream_read_until m1 s2 c buffer = (m3, s3, buffer) /\
    bytes_at m3 buffer (length w) = w /\ offset s3 = offset s + Z.of_nat (length w).
Proof.
  intros Hc Hok Hnc Hcr Hd Hroom Hbuf. pose proof Hok as [Ho Hs].
  destruct (fputs_spec m s p (w ++ [c]) Hc Hok) as (m1 & E & Hb & Hf); rewrite ?length_app; cbn [length]; [lia..|].
  rewrite length_app in E, Hb, Hf. cbn [length] in E, Hb, Hf.
  assert (Hch : forall i x, (w ++ [c]) !! i = Some x -> load8 m1 (data s + offset s + Z.of_nat i) = x).
  { intros i x Hi. pose proof (lookup_lt_Some _ _ _ Hi) as Hlt. rewrite length_app in Hlt. cbn [length] in Hlt.
    rewrite <- Hb, bytes_at_lookup in Hi by lia. congruence. }
  eexists m1, _, s, _, _. split; [exact E|]. split.
  { unfold fseek, k_stream_seek. cbn [set_offset size]. replace (offset s <? -1) with false by lia.
    replace (size s <=? offset s) with false by lia. destruct s. reflexivity. }
  unfold k_stream_read_until. rewrite (read_until_spec w c (Z.to_nat (size s - offset s)) m1 s 0); [|..|lia|lia].
  - split; [reflexivity|]. cbn [set_offset data offset]. split; [|reflexivity].
    replace (data s + (offset s + Z.of_nat (length w)) - (0 + Z.of_nat (length w))) with (data s + offset s) by lia. cbn [Z.add].
    rewrite <- (Nat2Z.id (length w)) at 2. rewrite memcpy_bytes by lia. rewrite Nat2Z.id.
    apply list_eq_same_length with (length w); [reflexivity|apply bytes_at_length|].
    intros i x y Hi Hx Hy. rewrite bytes_at_lookup in Hx by assumption. injection Hx as <-.
    apply Hch. rewrite lookup_app_l by assumption. assumption.
  - intros i x Hi Hcc. assert (Hl : (w ++ [c]) !! i = Some x) by (apply lookup_app_l_Some; assumption).
    unfold char_at in Hcc. pose proof (load8_range m1 (data s + offset s + Z.of_nat i)) as Hr.
    rewrite (Hch _ _ Hl) in Hcc, Hr. assert (Exc : x = c) by (unfold s8 in Hcc; dlia). rewrite Exc in Hi. apply Hnc.
    eapply list_elem_of_lookup_2. exact Hi.
  - unfold char_at. rewrite (Hch (length w) c) by (rewrite lookup_app_r, Nat.sub_diag by lia; reflexivity). unfold s8.
    rewrite Z.mod_small; lia.
Qed.

Definition demo_stream : STREAM := MkStream 0x4000 64 3.
Definition demo_text : mem := put_str ∅ 0x1000 [97; 98; 99; 10].

Lemma fputs_in_bounds_witness :
  exists m' s' r, fputs demo_text demo_stream 0x1000 = (m', s', r) /\ stream_ok s' /\
    same_outside 0x4000 (0x4000 + 64) demo_text m' /\
    (if 64 <? 3 + Z.of_nat (length [97; 98; 99; 10])
     then r = Some (-1) /\ m' = demo_text /\ s' = demo_stream
     else offset s' = 3 + Z.of_nat (length [97; 98; 99; 10]) /\ bytes_at m' (0x4000 + 3) (length [97; 98; 99; 10]) = [97; 98;
       99; 10]).
Proof.
  apply (fputs_in_bounds demo_text demo_stream 0x1000 [97; 98; 99; 10]);
    [apply is_cstr_sound; vm_compute; reflexivity|split; cbn; lia|cbn; lia|cbn; lia].
Defined.

Lemma fputs_read_until_witness :
  exists m1 s1 s2 m3 s3, fputs demo_text demo_stream 0x1000 = (m1, s1, None) /\ fseek s1 3 = (s2, 3) /\
    k_stream_read_until m1 s2 10 0x8000 = (m3, s3, 0x8000) /\
    bytes_at m3 0x8000 (length [97; 98; 99]) = [97; 98; 99] /\ offset s3 = 3 + Z.of_nat (length [97; 98; 99]).
Proof.
  apply (fputs_read_until demo_text demo_stream 0x1000 [97; 98; 99] 10 0x8000);
    [apply is_cstr_sound; vm_compute; reflexivity|split; cbn; lia|set_solver|lia|cbn; lia|cbn; lia|cbn; lia].
Defined.
