(* ===== verification/Devices.v ===== *)
(** * Small drivers: interrupt controller, clock, timer, serial port

    kernel/arch/pic.c, kernel/drivers/rtc.c, timer.c and uart.c.  A driver is
    seen through the port writes it makes; the bytes it reads from ports are
    arguments. *)

From stdpp Require Import base numbers list gmap strings.
From Stdlib Require Import ZArith Lia.
From S2P Require Import Prelude Memory CString KStdlib Vga.
Open Scope Z_scope.

(** ** kernel/arch/pic.c *)
Definition PIC1_CMD : Z := 0x20.
Definition PIC1_DATA : Z := 0x21.
Definition PIC2_CMD : Z := 0xA0.
Definition PIC2_DATA : Z := 0xA1.
Definition IRQ_SLAVE : Z := 2.
Definition IRQ0 : Z := 32.

Record pic_state := MkPic { irqmask : Z; pic_outs : list (Z * Z) }.
Definition pic_outb (p v : Z) (s : pic_state) : pic_state := MkPic (irqmask s) ((p, u8 v) :: pic_outs s).

Definition pic_boot : pic_state := MkPic (0xFFFF .& Z.lnot (1 .<< IRQ_SLAVE)) [].
Definition pic_setmask (mask : Z) (s : pic_state) : pic_state :=
  pic_outb PIC2_DATA (mask .>> 8) (pic_outb PIC1_DATA mask (MkPic mask (pic_outs s))).
Definition pic_enable (irq : Z) (s : pic_state) : pic_state :=
  pic_setmask (u16 (irqmask s .& Z.lnot (1 .<< irq))) s.
Definition pic_disable (s : pic_state) : pic_state := pic_setmask 0xFFFF s.

Definition run_outs (l : list (Z * Z)) (s : pic_state) : pic_state := foldl (fun s '(p, v) => pic_outb p v s) s l.
Definition pic_init (s : pic_state) : pic_state :=
  let s1 := run_outs
    [(PIC1_DATA, 0xFF); (PIC2_DATA, 0xFF);
     (PIC1_CMD, 0x11); (PIC1_DATA, IRQ0); (PIC1_DATA, 1 .<< IRQ_SLAVE); (PIC1_DATA, 0x3);
     (PIC2_CMD, 0x11); (PIC2_DATA, IRQ0 + 8); (PIC2_DATA, IRQ_SLAVE); (PIC2_DATA, 0x3);
     (PIC1_CMD, 0x68); (PIC1_CMD, 0x0a); (PIC2_CMD, 0x68); (PIC2_CMD, 0x0a)] s in
  if negb (irqmask s1 =? 0xFFFF) then pic_setmask (irqmask s1) s1 else s1.

(** The mask the two controllers hold: the last data bytes written to them. *)
Definition last_out (p : Z) (s : pic_state) : option Z := snd <$> find (fun '(q, _) => q =? p) (pic_outs s).

Lemma setmask_ports mask s : 0 <= mask < 0x10000 ->
  irqmask (pic_setmask mask s) = mask /\
  exists lo hi, last_out PIC1_DATA (pic_setmask mask s) = Some lo /\ last_out PIC2_DATA (pic_setmask mask s) = Some hi /\
    lo + 0x100 * hi = mask.
Proof.
  intros Hm. split; [reflexivity|]. exists (u8 mask), (u8 (mask .>> 8)). split; [reflexivity|]. split; [reflexivity|].
  rewrite Z.shiftr_div_pow2 by lia. change (2 ^ 8) with 256. unfold u8. dlia.
Qed.

(** Enabling an interrupt line clears its bit in the mask and no other, and
    programs the two controllers with that mask. *)
Theorem pic_enable_unmasks irq s :
  0 <= irq < 16 -> 0 <= irqmask s < 0x10000 ->
  let s' := pic_enable irq s in
  (forall i, 0 <= i < 16 -> Z.testbit (irqmask s') i = (if i =? irq then false else Z.testbit (irqmask s) i)) /\
  exists lo hi, last_out PIC1_DATA s' = Some lo /\ last_out PIC2_DATA s' = Some hi /\ lo + 0x100 * hi = irqmask s'.
Proof.
  intros Hi Hm. unfold pic_enable.
  destruct (setmask_ports (u16 (irqmask s .& Z.lnot (1 .<< irq))) s (u16_range _)) as [E H]. rewrite E. split; [|exact H].
  intros i Hr. unfold u16. change 0x10000 with (2 ^ 16). rewrite Z.mod_pow2_bits_low by lia.
  rewrite Z.land_spec, Z.lnot_spec, testbit_one_shift by lia. destruct (i =? irq); [apply andb_false_r|apply andb_true_r].
Qed.

Lemma pic_enable_unmasks_witness :
  let s' := pic_enable 14 pic_boot in
  (forall i, 0 <= i < 16 -> Z.testbit (irqmask s') i = (if i =? 14 then false else Z.testbit (irqmask pic_boot) i)) /\
  exists lo hi, last_out PIC1_DATA s' = Some lo /\ last_out PIC2_DATA s' = Some hi /\ lo + 0x100 * hi = irqmask s'.
Proof. apply (pic_enable_unmasks 14 pic_boot); vm_compute; intuition discriminate. Defined.

(** ** kernel/drivers/rtc.c *)
(** The byte read from the clock is binary-coded decimal. *)
Definition rtc_read (inp : Z) : Z := u32 (((inp .>> 4) .& 0x0F) * 10 + (inp .& 0x0F)).

(** [months[month - 1]]; [None] for an index outside the array. *)
Definition rtc_month (month : Z) : option string :=
  ["January"; "February"; "March"; "April"; "May"; "June"; "July"; "August"; "September"; "October"; "November"; "December"]%string
    !! Z.to_nat (u32 (month - 1)).

(** 2000-03-01. *)
Definition LEAPOCH : Z := 946684800 + 86400 * (31 + 29).
(** The locals [days] and [remsec] at the end, and the value: the function
    returns nothing.  [remsec] is unsigned. *)
Definition ctime (t : Z) : (Z * Z) * cval :=
  let secs := u32 (t - LEAPOCH) in
  let days := secs / (60 * 60 * 24) in
  let remsec := secs mod (60 * 60 * 24) in
  (if remsec <? 0 then (u32 (days - 1), u32 (remsec + 86400)) else (days, remsec), None).

Definition months : list Z := [0; 31; 59; 90; 120; 151; 181; 212; 243; 304; 334; 0].

Definition year_days (i : Z) : Z :=
  if negb (i mod 4 =? 0) then 365
  else if negb (i mod 400 =? 0) then 366
  else if negb (i mod 100 =? 0) then 365
  else 366.

(** The six registers as the clock gives them.  A month outside 1..12 reads
    beyond the table. *)
Definition time (rsec rmin rhour rday rmon ryear : Z) : cval :=
  let sec := rtc_read rsec in
  let min := rtc_read rmin in
  let hour := rtc_read rhour in
  let day := rtc_read rday in
  let mon := rtc_read rmon in
  let year := rtc_read ryear in
  let year := (if year <? 70 then year + 100 else year) + 1900 in
  let day := for_up (Z.to_nat (year - 1970)) 1970 (fun i d => u32 (d + year_days i)) day in
  match (if 1 <=? mon then months !! Z.to_nat (mon - 1) else None) with
  | None => None
  | Some md =>
      let day := u32 (u32 (day + md) + 1) in
      let t := u32 (day * 24) in
      let t := u32 (t + hour) in
      let t := u32 (t * 60) in
      let t := u32 (t + min) in
      let t := u32 (t * 60) in
      Some (u32 (t + sec))
  end.

(** *** Calendar time *)

Definition bcd (n : Z) : Z := 16 * (n / 10) + n mod 10.

Lemma rtc_read_bcd n : 0 <= n < 100 -> rtc_read (bcd n) = n.
Proof.
  intros Hn. unfold rtc_read, bcd. rewrite Z.shiftr_div_pow2 by lia. change 0x0F with (Z.ones 4). rewrite !land_ones_mod by lia.
  change (2 ^ 4) with 16. rewrite u32_small; dlia.
Qed.

(** The proleptic Gregorian calendar. *)
Definition leap (y : Z) : bool := (y mod 4 =? 0) && (negb (y mod 100 =? 0) || (y mod 400 =? 0)).
Definition days_before_year (y : Z) : Z := for_up (Z.to_nat (y - 1970)) 1970 (fun i d => d + (if leap i then 366 else 365)) 0.
Definition month_days : list Z := [0; 31; 59; 90; 120; 151; 181; 212; 243; 273; 304; 334].
(** Seconds from 1 January 1970 to a date and time. *)
Definition posix_time (year mon day hour min sec : Z) : Z :=
  let md := default 0 (month_days !! Z.to_nat (mon - 1)) in
  let days := days_before_year year + md + (if leap year && (2 <? mon) then 1 else 0) + (day - 1) in
  ((days * 24 + hour) * 60 + min) * 60 + sec.

Lemma year_days_gregorian y : 1970 <= y < 2070 -> year_days y = if leap y then 366 else 365.
Proof.
  intros Hy. assert (H : forallb (fun y => year_days y =? (if leap y then 366 else 365)) (seqZ 1970 100) = true) by (vm_compute; reflexivity).
  rewrite forallb_forall in H. assert (Hin : y ∈ seqZ 1970 100) by (clear H; apply elem_of_seqZ; lia).
  apply list_elem_of_In in Hin. specialize (H y Hin). apply Z.eqb_eq in H. exact H.
Qed.

Lemma year_loop y day : 1970 <= y < 2070 -> 0 <= day < 100 ->
  for_up (Z.to_nat (y - 1970)) 1970 (fun i d => u32 (d + year_days i)) day = day + days_before_year y /\
  0 <= days_before_year y <= 366 * (y - 1970).
Proof.
  intros Hy Hd. unfold days_before_year.
  assert (H : forall k : nat, Z.of_nat k <= 100 ->
    for_up k 1970 (fun i d => u32 (d + year_days i)) day = day + for_up k 1970 (fun i d => d + (if leap i then 366 else 365)) 0 /\
    0 <= for_up k 1970 (fun i d => d + (if leap i then 366 else 365)) 0 <= 366 * Z.of_nat k).
  { induction k as [|k IH]; intros Hk; [cbn; lia|]. rewrite !for_up_snoc. destruct IH as [-> IH]; [lia|].
    rewrite year_days_gregorian by lia. destruct (leap _); (split; [rewrite u32_small; lia|lia]). }
  specialize (H (Z.to_nat (y - 1970)) ltac:(lia)). rewrite Z2Nat.id in H by lia. exact H.
Qed.

(** What [time] computes.  For a date from January to September of the
    years 1970 to 2069 the result is the POSIX time plus two days (the day of
    the month is counted from 1 and a day is added), less the leap day, which
    the month table does not know, from March on in a leap year. *)
Theorem time_posix_offset year mon day hour min sec :
  1970 <= year < 2070 -> 1 <= mon <= 9 -> 1 <= day <= 31 -> 0 <= hour < 24 -> 0 <= min < 60 -> 0 <= sec < 60 ->
  time (bcd sec) (bcd min) (bcd hour) (bcd day) (bcd mon) (bcd (year mod 100)) =
    Some (posix_time year mon day hour min sec + 86400 * (2 - (if leap year && (2 <? mon) then 1 else 0))).
Proof.
  intros Hy Hmo Hd Hh Hmi Hs. unfold time. rewrite !rtc_read_bcd by dlia.
  assert (Ey : (if year mod 100 <? 70 then year mod 100 + 100 else year mod 100) + 1900 = year).
  { destruct (Z.ltb_spec (year mod 100) 70); dlia. }
  rewrite Ey. destruct (year_loop year day Hy ltac:(lia)) as [-> Hb]. replace (1 <=? mon) with true by lia.
  assert (Hm : exists md, months !! Z.to_nat (mon - 1) = Some md /\ month_days !! Z.to_nat (mon - 1) = Some md /\ 0 <= md < 366).
  { assert (Hc : mon = 1 \/ mon = 2 \/ mon = 3 \/ mon = 4 \/ mon = 5 \/ mon = 6 \/ mon = 7 \/ mon = 8 \/ mon = 9) by lia.
    repeat destruct Hc as [->|Hc]; [..|rewrite Hc]; eexists; (split; [reflexivity|]); (split; [reflexivity|]); lia. }
  destruct Hm as (md & E1 & E2 & Hmd). rewrite E1. unfold posix_time. rewrite E2. cbn [default from_option id].
  set (D := days_before_year year) in *. clearbody D. clear E1 E2 Ey.
  destruct (leap year && (2 <? mon)); f_equal; csimp; lia.
Qed.

Lemma time_posix_offset_witness :
  time (bcd 30) (bcd 59) (bcd 23) (bcd 28) (bcd 2) (bcd (2016 mod 100)) =
    Some (posix_time 2016 2 28 23 59 30 + 86400 * (2 - (if leap 2016 && (2 <? 2) then 1 else 0))).
Proof. apply (time_posix_offset 2016 2 28 23 59 30); lia. Defined.

(** [ctime] splits a time after its epoch into days and seconds of the day; the
    correction for a negative rest is never made, and the caller gets nothing. *)
Lemma ctime_splits t : LEAPOCH <= t < 0x100000000 ->
  exists days remsec, ctime t = ((days, remsec), None) /\ t = LEAPOCH + 86400 * days + remsec /\ 0 <= remsec < 86400.
Proof.
  intros Ht. exists ((t - LEAPOCH) / 86400), ((t - LEAPOCH) mod 86400). unfold ctime, LEAPOCH in *. rewrite u32_small by lia.
  change (60 * 60 * 24) with 86400. pose proof (Z.mod_pos_bound (t - (946684800 + 86400 * (31 + 29))) 86400 ltac:(lia)).
  replace (_ mod 86400 <? 0) with false by lia. split; [reflexivity|]. split; [|assumption].
  pose proof (Z.div_mod (t - (946684800 + 86400 * (31 + 29))) 86400 ltac:(lia)). lia.
Qed.

(** Each month has its name, and no other number has one. *)
Lemma rtc_month_named m : 0 <= m < 0x100000000 -> is_Some (rtc_month m) <-> 1 <= m <= 12.
Proof.
  intros Hm. unfold rtc_month. rewrite lookup_lt_is_Some. cbn [length]. unfold u32. split.
  - intros H. destruct (Z.eq_dec m 0) as [->|]; [change ((0 - 1) mod 0x100000000) with 0xFFFFFFFF in H; lia|]. rewrite Z.mod_small in H; lia.
  - intros H. rewrite Z.mod_small; lia.
Qed.

(** ** kernel/drivers/timer.c *)
Record timer_state := MkTimer { ticks : Z; timer_buf : Z; screen : vga_state }.
(** [ticks%1] is always 0, so every tick is printed at the top right. *)
Definition timer (s : timer_state) : option timer_state :=
  let t := u32 (ticks s + 1) in
  if t mod 1 =? 0 then
    match itoa (vmem (screen s)) t (timer_buf s) 10 with
    | None => None
    | Some (m, _) =>
        match vga_kputs (timer_buf s) 150 0 (set_vmem m (screen s)) with
        | None => None
        | Some v => Some (MkTimer t (timer_buf s) v)
        end
    end
  else Some (MkTimer t (timer_buf s) (screen s)).
Definition timer_init (buf : Z) (s : timer_state) : timer_state :=
  MkTimer 0 buf (set_vmem (memset (vmem (screen s)) buf 0 8) (screen s)).
Definition get_ticks (s : timer_state) : Z := ticks s.

(** ** kernel/drivers/uart.c *)
Definition COM1 : Z := 0x3F8.
Definition uart_init : list (Z * Z) :=
  [(COM1 + 1, 0x00); (COM1 + 3, 0x80); (COM1 + 0, 0x03); (COM1 + 1, 0x00); (COM1 + 3, 0x03); (COM1 + 2, 0xC7); (COM1 + 4, 0x00)].
(** [inb(COM1 + 5) & 0x20 == 0] is [inb(COM1 + 5) & (0x20 == 0)], always 0: the
    loop never waits for the transmitter. *)
Definition uart_busy (status : Z) : Z := status .& (if 0x20 =? 0 then 1 else 0).
Definition uart_putc (c : Z) : list (Z * Z) := [(COM1, u8 c)].

