(* ===== verification/Keyboard.v ===== *)
(** * kernel/drivers/keyboard.c: line input

    The scan-code tables, the interrupt handler and [gets].  The input buffers
    lie in the memory that also holds the screen, on which keys are echoed. *)

From stdpp Require Import base numbers list gmap.
From Stdlib Require Import ZArith Lia.
From S2P Require Import Prelude Memory CString KStdlib Vga.
Open Scope Z_scope.

Definition keyboard : list Z :=
  [0; 27; 49; 50; 51; 52; 53; 54; 55; 56; 57; 48; 45; 61; 8; 9; 113; 119;
   101; 114; 116; 121; 117; 105; 111; 112; 91; 93; 10; 0; 97; 115; 100; 102; 103; 104;
   106; 107; 108; 59; 39; 96; 0; 92; 122; 120; 99; 118; 98; 110; 109; 44; 46; 47;
   0; 42; 0; 32; 0; 0; 0; 0; 0; 0; 0; 0; 0; 0; 0; 0; 0; 0;
   254; 0; 45; 252; 0; 253; 43; 0; 255; 0; 0; 0; 0; 0; 0; 0; 0; 0].
Definition keyboard_shift : list Z :=
  [0; 27; 33; 64; 35; 36; 37; 94; 38; 42; 40; 41; 95; 43; 8; 9; 81; 87;
   69; 82; 84; 89; 85; 73; 79; 80; 123; 125; 10; 0; 65; 83; 68; 70; 71; 72;
   74; 75; 76; 58; 34; 126; 0; 124; 90; 88; 67; 86; 66; 78; 77; 60; 62; 63;
   0; 42; 0; 32; 0; 0; 0; 0; 0; 0; 0; 0; 0; 0; 0; 0; 0; 0;
   254; 0; 45; 252; 0; 253; 43; 0; 255; 0; 0; 0; 0; 0; 0; 0; 0; 0].

Record kbd_state := MkKbd { screen : vga_state; buffer : Z; linebuffer : Z; idx : Z; shift : Z; kbd_out : list (Z * Z) }.
Definition kmem (s : kbd_state) : mem := vmem (screen s).
Definition set_screen (v : vga_state) (s : kbd_state) : kbd_state := MkKbd v (buffer s) (linebuffer s) (idx s) (shift s) (kbd_out s).
Definition set_kmem (m : mem) (s : kbd_state) : kbd_state := set_screen (set_vmem m (screen s)) s.
Definition set_idx (i : Z) (s : kbd_state) : kbd_state := MkKbd (screen s) (buffer s) (linebuffer s) i (shift s) (kbd_out s).

(** A key release: only caps lock matters; its light is set. *)
Definition key_release (scancode : Z) (s : kbd_state) : kbd_state :=
  if scancode .& Z.lnot 0x80 =? 0x3a then
    let sh := if shift s =? 0 then 1 else 0 in
    MkKbd (screen s) (buffer s) (linebuffer s) (idx s) sh ((0x60, sh .<< 2) :: (0x60, 0xed) :: kbd_out s)
  else s.

(** [strcpy] has a third argument that it ignores: the line is whatever string
    starts at [buffer]. *)
Definition key_press (key : Z) (s : kbd_state) : kbd_state :=
  let s := set_screen (vga_putc (s8 key) (screen s)) s in
  if key =? 10 then set_idx 0 (set_kmem (fst (strcpy (kmem s) (linebuffer s) (buffer s))) s)
  else if key =? 8 then
    if negb (idx s =? 0) then set_idx (u32 (idx s - 1)) (set_kmem (store8 (kmem s) (buffer s + idx s) 0) s) else s
  else set_idx (u32 (idx s + 1)) (set_kmem (store8 (kmem s) (buffer s + idx s) key) s).

(** [scancode] is the byte read from port 0x60.  [None]: it is beyond the table. *)
Definition keyboard_handler (scancode : Z) (s : kbd_state) : option kbd_state :=
  let s := if 0x400 <=? idx s then set_idx 0 s else s in
  if negb (scancode .& 0x80 =? 0) then Some (key_release scancode s)
  else match (if negb (shift s =? 0) then keyboard_shift else keyboard) !! Z.to_nat scancode with
       | None => None
       | Some key => Some (key_press key s)
       end.

(** [gets] returns once a line is there ([None]: it still waits); [p] is the
    block of [strdup]. *)
Definition gets (p : Z) (s : kbd_state) : option (Z * kbd_state) :=
  if char_at (kmem s) (linebuffer s) =? 0 then None
  else
    let '(m, tmp) := strdup (kmem s) (linebuffer s) p in
    Some (tmp, set_kmem (memset m (linebuffer s) 0 0x100) s).

Definition keyboard_install (b l : Z) (s : kbd_state) : kbd_state := MkKbd (screen s) b l (idx s) (shift s) (kbd_out s).

Fixpoint handle_keys (codes : list Z) (s : kbd_state) : option kbd_state :=
  match codes with
  | [] => Some s
  | c :: t => match keyboard_handler c s with Some s' => handle_keys t s' | None => None end
  end.

(** ** A typed line *)

Definition table (s : kbd_state) : list Z := if negb (shift s =? 0) then keyboard_shift else keyboard.

(** [ks] has been typed into a buffer whose previous contents are [old]. *)
Definition typed (ks old : list Z) : list Z := ks ++ drop (length ks) old.

Record typing (s : kbd_state) (ks old : list Z) : Prop := {
  t_cursor : cursor_ok (screen s);
  t_idx : idx s = Z.of_nat (length ks);
  t_chars : forall i c, typed ks old !! i = Some c -> load8 (kmem s) (buffer s + Z.of_nat i) = c;
  t_rest : forall a, buffer s + Z.of_nat (length (typed ks old)) <= a < buffer s + 0x400 -> load8 (kmem s) a = 0;
  t_old : (length old < 0x100)%nat;
  t_line : forall a, linebuffer s <= a < linebuffer s + 0x100 -> load8 (kmem s) a = 0;
}.

(** The two buffers and the screen are apart. *)
Definition apart (s : kbd_state) : Prop :=
  (buffer s + 0x400 <= linebuffer s \/ linebuffer s + 0x100 <= buffer s) /\
  (buffer s + 0x400 <= VGA_MEMORY \/ VGA_MEMORY + 0x2000 <= buffer s) /\
  (linebuffer s + 0x100 <= VGA_MEMORY \/ VGA_MEMORY + 0x2000 <= linebuffer s).

Lemma typed_snoc ks old k i : typed (ks ++ [k]) old !! i = if decide (i = length ks) then Some k else typed ks old !! i.
Proof.
  unfold typed. rewrite length_app. cbn [length]. destruct (decide (i = length ks)) as [->|Hne].
  - rewrite lookup_app_l by (rewrite length_app; cbn; lia). rewrite lookup_app_r, Nat.sub_diag by lia. reflexivity.
  - destruct (Nat.lt_ge_cases i (length ks)).
    + rewrite !lookup_app_l by (rewrite ?length_app; cbn; lia). reflexivity.
    + rewrite !lookup_app_r by (rewrite ?length_app; cbn; lia). rewrite length_app, !lookup_drop. cbn [length]. f_equal. lia.
Qed.

Lemma typed_length ks old : length (typed ks old) = Nat.max (length ks) (length old).
Proof. unfold typed. rewrite length_app, length_drop. lia. Qed.

Lemma echo_frame s c : cursor_ok (screen s) -> c <> 8 -> c <> 9 ->
  cursor_ok (vga_putc c (screen s)) /\ same_outside VGA_MEMORY (VGA_MEMORY + 0x2000) (kmem s) (vmem (vga_putc c (screen s))).
Proof. intros H H8 H9. apply putc_ok; [assumption|congruence|congruence]. Qed.

(** One printable key. *)
Lemma type_key s ks old k code :
  apart s -> typing s ks old -> (length ks < 0x3FF)%nat -> 0 <= code < 0x80 -> table s !! Z.to_nat code = Some k ->
    32 <= k <= 126 ->
  exists s', keyboard_handler code s = Some s' /\ typing s' (ks ++ [k]) old /\ apart s' /\
    table s' = table s /\ buffer s' = buffer s /\ linebuffer s' = linebuffer s.
Proof.
  intros (Hbl & Hbv & Hlv) [Hcur Hidx Hch Hrest Hold Hline] Hlen Hc Ht Hk. unfold keyboard_handler.
  replace (0x400 <=? idx s) with false by lia.
  assert (Eb : code .& 0x80 = 0).
  { bitwise i. change 0x80 with (2 ^ 7). rewrite Z.pow2_bits_eqb by lia.
    destruct (Z.eqb_spec 7 i) as [<-|]; [|apply andb_false_r].
    rewrite (testbit_high code 7) by lia. reflexivity. }
  rewrite Eb. cbn [Z.eqb negb]. unfold table in Ht. rewrite Ht.
  destruct (echo_frame s (s8 k) Hcur) as [Hcur' Hf]; [unfold s8; dlia..|].
  eexists. split; [reflexivity|]. unfold key_press. replace (k =? 10) with false by lia. replace (k =? 8) with false by lia.
  set (v := vga_putc (s8 k) (screen s)) in *. cbn [set_screen idx]. rewrite Hidx, u32_small by lia.
  assert (Hld : forall a, a < VGA_MEMORY \/ VGA_MEMORY + 0x2000 <= a -> load8 (vmem v) a = load8 (kmem s) a) by (intros a Ha;
    apply Hf; exact Ha).
  split; [|split; [split; [exact Hbl|split; assumption]|auto]].
  set (p := buffer s + Z.of_nat (length ks)).
  assert (Hst : forall a, load8 (store8 (vmem v) p k) a = if a =? p then k else load8 (vmem v) a).
  { intros a. rewrite load8_store8, (u8_small k) by lia. reflexivity. }
  split; cbn [set_idx set_kmem set_screen screen idx buffer linebuffer].
  - exact Hcur'.
  - rewrite length_app. cbn [length]. lia.
  - intros i c Hi. change (load8 (store8 (vmem v) p k) (buffer s + Z.of_nat i) = c). rewrite Hst. unfold p.
    rewrite typed_snoc in Hi. destruct (decide (i = length ks)) as [->|Hne].
    + rewrite Z.eqb_refl. congruence.
    + replace (_ =? _) with false by lia. apply lookup_lt_Some in Hi as Hlt. rewrite Hld; [apply Hch; assumption|].
      rewrite typed_length in Hlt. lia.
  - intros a Ha. change (load8 (store8 (vmem v) p k) a = 0). rewrite typed_length, length_app in Ha. cbn [length] in Ha.
    rewrite Hst. unfold p. replace (_ =? _) with false by lia. rewrite Hld by lia. apply Hrest. rewrite typed_length. lia.
  - exact Hold.
  - intros a Ha. change (load8 (store8 (vmem v) p k) a = 0). rewrite Hst. unfold p. replace (_ =? _) with false by lia.
    rewrite Hld by lia. apply Hline. exact Ha.
Qed.

Lemma type_keys codes : forall s ks old new,
  apart s -> typing s ks old -> (length ks + length codes < 0x3FF)%nat ->
  Forall2 (fun code k => 0 <= code < 0x80 /\ table s !! Z.to_nat code = Some k /\ 32 <= k <= 126) codes new ->
  exists s', handle_keys codes s = Some s' /\ typing s' (ks ++ new) old /\ apart s' /\
    table s' = table s /\ buffer s' = buffer s /\ linebuffer s' = linebuffer s.
Proof.
  induction codes as [|code codes IH]; intros s ks old new Hap Hty Hlen Hf; inversion Hf as [|? k ? new' (Hc & Ht & Hk) Hf'];
    subst.
  - exists s. rewrite app_nil_r. auto 6.
  - cbn [length handle_keys] in *.
    destruct (type_key s ks old k code Hap Hty ltac:(lia) Hc Ht Hk) as (s1 & E & Hty1 & Hap1 & Et & Eb & El).
    rewrite E. destruct (IH s1 (ks ++ [k]) old new' Hap1 Hty1) as (s' & E' & Hty' & Hap' & Et' & Eb' & El').
    + rewrite length_app. cbn [length]. lia.
    + rewrite Et. assumption.
    + exists s'. rewrite <- app_assoc in Hty'. split; [exact E'|]. split; [exact Hty'|]. split; [exact Hap'|].
      split; [congruence|]. split; congruence.
Qed.

(** The line that Enter delivers.  Typing the keys [new] and Enter puts
    into the line buffer the characters typed, followed by what a longer
    previous line left in the input buffer beyond them: nothing when the
    buffer is fresh ([old = []]), so the first line is delivered exactly. *)
Theorem typed_line_delivered s old new codes :
  apart s -> typing s [] old -> (length new < 0x100)%nat -> 0 ∉ old ->
  Forall2 (fun code k => 0 <= code < 0x80 /\ table s !! Z.to_nat code = Some k /\ 32 <= k <= 126) codes new ->
  exists s', handle_keys (codes ++ [28]) s = Some s' /\ idx s' = 0 /\
    cstr (kmem s') (linebuffer s') (new ++ drop (length new) old).
Proof.
  intros Hap Hty Hlen H0 Hf. pose proof (Forall2_length _ _ _ Hf) as Hl.
  destruct (type_keys codes s [] old new Hap Hty) as (s1 & E1 & Hty1 & Hap1 & Et & Eb & El); [cbn; lia|assumption|].
  cbn [app] in Hty1. pose proof Hty1 as [Hcur Hidx Hch Hrest Hold Hline].
  assert (Eh : forall t, handle_keys codes s = Some t -> handle_keys (codes ++ [28]) s = keyboard_handler 28 t).
  { clear. revert s. induction codes as [|c codes IH]; intros s t; cbn [handle_keys app].
    - intros [= ->]. destruct (keyboard_handler 28 t); reflexivity.
    - destruct (keyboard_handler c s); [apply IH|discriminate]. }
  rewrite (Eh s1 E1). unfold keyboard_handler. replace (0x400 <=? idx s1) with false by lia.
  change (negb (28 .& 0x80 =? 0)) with false. cbv iota.
  assert (E28 : (if negb (shift s1 =? 0) then keyboard_shift else keyboard) !! Z.to_nat 28 = Some 10) by (destruct (negb _);
    reflexivity).
  rewrite E28. eexists. split; [reflexivity|]. unfold key_press. cbn [Z.eqb Pos.eqb].
  destruct (echo_frame s1 (s8 10) Hcur) as [_ Hfr]; [discriminate..|]. set (v := vga_putc (s8 10) (screen s1)) in *.
  split; [reflexivity|]. cbn [set_screen set_idx set_kmem linebuffer kmem screen set_vmem vmem buffer].
  destruct Hap1 as (Hbl & Hbv & Hlv). fold (typed new old). set (w := typed new old) in *.
  assert (Hwl : (length w < 0x100)%nat) by (unfold w; rewrite typed_length; lia).
  assert (Hld : forall a, a < VGA_MEMORY \/ VGA_MEMORY + 0x2000 <= a -> load8 (vmem v) a = load8 (kmem s1) a) by (intros a Ha;
    apply Hfr; exact Ha).
  assert (Hnz : Forall (fun c => 0 < c < 0x100) w).
  { apply Forall_lookup. intros i c Hi. pose proof (Hch i c Hi) as E. pose proof (load8_range (kmem s1) (buffer s1 + Z.of_nat i)).
    assert (c <> 0); [|lia]. intros ->. apply list_elem_of_lookup_2 in Hi. unfold w, typed in Hi.
    apply elem_of_app in Hi as [Hi|Hi].
    - apply list_elem_of_lookup in Hi as [j Hj]. destruct (Forall2_lookup_r _ _ _ _ _ Hf Hj) as (code & _ & _ & _ & Hk). lia.
    - apply H0. apply list_elem_of_lookup in Hi as [j Hj]. rewrite lookup_drop in Hj. eapply list_elem_of_lookup_2. exact Hj. }
  assert (Hsrc : cstr (vmem v) (buffer s1) w).
  { apply KStdlib.cstr_of_bytes; [|assumption|].
    - apply list_eq_same_length with (length w); [reflexivity|apply bytes_at_length|].
      intros i x y Hi Hx Hy. rewrite bytes_at_lookup in Hx by assumption. injection Hx as <-. rewrite Hld by lia. apply Hch.
      assumption.
    - rewrite Hld by lia. apply Hrest. fold w. lia. }
  pose proof (strcpy_bytes (vmem v) (linebuffer s1) (buffer s1) w Hsrc ltac:(lia) ltac:(lia)) as Hcp.
  change (kmem (set_screen v s1)) with (vmem v). destruct (strcpy (vmem v) (linebuffer s1) (buffer s1)) as [m' r].
  destruct Hcp as (_ & Hb & Hfo). cbn [fst].
  apply KStdlib.cstr_of_bytes; [exact Hb|exact Hnz|]. rewrite Hfo, Hld by lia. apply Hline. lia.
Qed.

(** Typing "ls" after boot, and "c" after a line "ls" was delivered and read. *)
Definition fresh_kbd : kbd_state := MkKbd (MkVga ∅ 0 0 7 []) 0xC0301000 0xC0302000 0 0 [].

Lemma fresh_typing : typing fresh_kbd [] [].
Proof.
  split; [repeat split; cbn; lia|reflexivity|intros i c Hi; destruct i; discriminate| |cbn; lia|];
    intros a Ha; unfold kmem, fresh_kbd, load8; cbn; rewrite lookup_empty; reflexivity.
Qed.

Lemma typed_line_delivered_witness :
  exists s', handle_keys ([38; 31] ++ [28]) fresh_kbd = Some s' /\ idx s' = 0 /\
    cstr (kmem s') (linebuffer s') ([108; 115] ++ drop (length [108; 115]) []).
Proof.
  apply (typed_line_delivered fresh_kbd [] [108; 115] [38; 31]); [|apply fresh_typing|cbn; lia|set_solver|].
  - unfold apart, VGA_MEMORY. cbn. lia.
  - constructor; [split; [lia|split; [reflexivity|lia]]|].
    constructor; [split; [lia|split; [reflexivity|lia]]|]. constructor.
Defined.
