(* ===== verification/X86.v ===== *)
(** * kernel/arch/x86.c and kernel/include/x86.h: segments and interrupt gates

    Descriptors are C bit-field structures: a list of fields with their widths,
    packed from the low bit up ([pack]).  The specification is how the
    processor reads the eight bytes ([hw_base], [hw_limit], [gate_offset], ...).
    [idt_init] and [gdt_init] write the tables in memory and load the table
    registers; the addresses of the tables are those the linker gives. *)

From stdpp Require Import base numbers list gmap.
From Stdlib Require Import ZArith Lia.
From S2P Require Import Prelude Memory Devices.
Open Scope Z_scope.

Definition SEG_KCODE : Z := 1.
Definition SEG_KDATA : Z := 2.
Definition SEG_KCPU : Z := 3.
Definition SEG_UCODE : Z := 4.
Definition SEG_UDATA : Z := 5.
Definition SEG_TSS : Z := 6.
Definition DPL_USER : Z := 3.
Definition STA_X : Z := 8.
Definition STA_W : Z := 2.
Definition STA_R : Z := 2.
Definition STS_T32A : Z := 9.
Definition STS_IG32 : Z := 0xE.
Definition STS_TG32 : Z := 0xF.
Definition T_SYSCALL : Z := 0x80.

(** ** Bit fields *)

(** Fields [(width, value)] from the low bit up; a value is cut to its width. *)
Fixpoint pack (l : list (Z * Z)) : Z :=
  match l with
  | [] => 0
  | (w, v) :: l => v mod 2 ^ w + 2 ^ w * pack l
  end.

Record segdesc := MkSeg {
  lim_15_0 : Z; base_15_0 : Z; base_23_16 : Z; seg_type : Z; seg_s : Z; seg_dpl : Z; seg_p : Z;
  lim_19_16 : Z; avl : Z; seg_rsv1 : Z; db : Z; g : Z; base_31_24 : Z;
}.
Definition seg_fields (d : segdesc) : list (Z * Z) :=
  [(16, lim_15_0 d); (16, base_15_0 d); (8, base_23_16 d); (4, seg_type d); (1, seg_s d); (2, seg_dpl d);
        (1, seg_p d); (4, lim_19_16 d); (1, avl d); (1, seg_rsv1 d); (1, db d); (1, g d); (8, base_31_24 d)].
Definition seg_word (d : segdesc) : Z := pack (seg_fields d).

Definition SEG (type base lim dpl : Z) : segdesc :=
  MkSeg ((lim .>> 12) .& 0xffff) (u32 base .& 0xffff) ((u32 base .>> 16) .& 0xff) type 1 dpl 1
        (u32 lim .>> 28) 0 0 1 1 (u32 base .>> 24).
Definition SEG16 (type base lim dpl : Z) : segdesc :=
  MkSeg (lim .& 0xffff) (u32 base .& 0xffff) ((u32 base .>> 16) .& 0xff) type 1 dpl 1
        (u32 lim .>> 16) 0 0 1 0 (u32 base .>> 24).
Definition set_s (v : Z) (d : segdesc) : segdesc :=
  MkSeg (lim_15_0 d) (base_15_0 d) (base_23_16 d) (seg_type d) v (seg_dpl d) (seg_p d)
        (lim_19_16 d) (avl d) (seg_rsv1 d) (db d) (g d) (base_31_24 d).

Record gatedesc := MkGate {
  off_15_0 : Z; gate_cs : Z; args : Z; gate_rsv1 : Z; gate_type : Z; gate_s : Z; gate_dpl : Z; gate_p : Z; off_31_16 : Z;
}.
Definition gate_fields (d : gatedesc) : list (Z * Z) :=
  [(16, off_15_0 d); (16, gate_cs d); (5, args d); (3, gate_rsv1 d); (4, gate_type d); (1, gate_s d);
        (2, gate_dpl d); (1, gate_p d); (16, off_31_16 d)].
Definition gate_word (d : gatedesc) : Z := pack (gate_fields d).
Definition SETGATE (istrap : bool) (sel off d : Z) : gatedesc :=
  MkGate (u32 off .& 0xffff) sel 0 0 (if istrap then STS_TG32 else STS_IG32) 0 d 1 (u32 off .>> 16).

(** ** Tables in memory *)

Definition store64 (m : mem) (a v : Z) : mem := store32 (store32 m a v) (a + 4) (v .>> 32).
Definition load64 (m : mem) (a : Z) : Z := load32 m a + 0x100000000 * load32 m (a + 4).

(** The table registers hold the limit and the base they were loaded with. *)
Record x86_state := MkX86 {
  x_mem : mem; x_pic : pic_state; idtr : Z * Z; gdtr : Z * Z; gs : Z; tr : Z;
}.
Definition set_x_mem (m : mem) (s : x86_state) : x86_state :=
  MkX86 m (x_pic s) (idtr s) (gdtr s) (gs s) (tr s).

(** The three 16-bit words [pd[3]] that [lidt] and [lgdt] build on the stack,
    and what the instruction reads from them. *)
Definition table_pd (p size : Z) : list Z := [u16 (size - 1); u16 p; u16 (u32 p .>> 16)].
Definition pd_read (pd : list Z) : Z * Z := (nth 0 pd 0, nth 1 pd 0 + 0x10000 * nth 2 pd 0).

Definition lidt (p size : Z) (s : x86_state) : x86_state :=
  MkX86 (x_mem s) (x_pic s) (pd_read (table_pd p size)) (gdtr s) (gs s) (tr s).
(** [gdt_flush] reloads the segment registers with the kernel data selector. *)
Definition lgdt (p size : Z) (s : x86_state) : x86_state :=
  MkX86 (x_mem s) (x_pic s) (idtr s) (pd_read (table_pd p size)) 0x10 (tr s).
Definition ltr (sel : Z) (s : x86_state) : x86_state :=
  MkX86 (x_mem s) (x_pic s) (idtr s) (gdtr s) (gs s) (u16 sel).
Definition load_gs (sel : Z) (s : x86_state) : x86_state :=
  MkX86 (x_mem s) (x_pic s) (idtr s) (gdtr s) (u16 sel) (tr s).

(** [struct cpu]: id, stack, ncli, the [gdt] aligned to 32 bytes, [cpu]. *)
Definition CPU_SIZE : Z := 128.
Definition cpu_stack : Z := 4.
Definition cpu_ncli : Z := 8.
Definition cpu_gdt : Z := 32.
Definition cpu_self : Z := 96.
(** [struct tss_entry] *)
Definition TSS_SIZE : Z := 104.
Definition tss_esp0 : Z := 4.
Definition tss_ss0 : Z := 8.
Definition tss_cs : Z := 76.

Section tables.
Context (idt vectors cpus system_tss stack_top : Z).

Definition set_gate (i : Z) (d : gatedesc) (m : mem) : mem := store64 m (idt + 8 * i) (gate_word d).

Definition idt_init (s : x86_state) : x86_state :=
  let s1 := MkX86 (x_mem s) (pic_init (x_pic s)) (idtr s) (gdtr s) (gs s) (tr s) in
  let m1 := for_up 256 0 (fun i m => set_gate i (SETGATE false 0x8 (load32 m (vectors + 4 * i)) 0) m) (x_mem s1) in
  let m2 := set_gate T_SYSCALL (SETGATE true 0x8 (load32 m1 (vectors + 4 * T_SYSCALL)) DPL_USER) m1 in
  lidt idt (8 * 256) (set_x_mem m2 s1).

Definition set_seg (c i : Z) (d : segdesc) (m : mem) : mem := store64 m (c + cpu_gdt + 8 * i) (seg_word d).

Definition gdt_init_cpu (id : Z) (s : x86_state) : x86_state :=
  let c := cpus + CPU_SIZE * s8 id in
  let m := x_mem s in
  let m := set_seg c SEG_KCODE (SEG (STA_X .| STA_R) 0 0xffffffff 0) m in
  let m := set_seg c SEG_KDATA (SEG STA_W 0 0xffffffff 0) m in
  let m := set_seg c SEG_UCODE (SEG (STA_X .| STA_R) 0 0xffffffff DPL_USER) m in
  let m := set_seg c SEG_UDATA (SEG STA_W 0 0xffffffff DPL_USER) m in
  let m := set_seg c SEG_KCPU (SEG STA_W (c + cpu_self) CPU_SIZE 0) m in
  let m := set_seg c SEG_TSS (set_s 0 (SEG STS_T32A system_tss (TSS_SIZE - 1) 0)) m in
  let s := lgdt (c + cpu_gdt) (8 * 8) (set_x_mem m s) in
  let s := load_gs (SEG_KCPU .<< 3) s in
  ltr (SEG_TSS .<< 3) s.

(** [cpu = &cpu[0]] assigns the pointer at %gs:0 to itself; [esp] is the stack
    pointer at the time of the call. *)
Definition gdt_init (esp : Z) (s : x86_state) : x86_state :=
  let m := x_mem s in
  let m := store32 m cpus 0 in
  let m := store32 m (cpus + cpu_stack) stack_top in
  let m := store32 m (cpus + cpu_self) cpus in
  let m := store32 m (cpus + cpu_ncli) 0 in
  let s := gdt_init_cpu 0 (set_x_mem m s) in
  let m := x_mem s in
  let m := store16 m (system_tss + tss_cs) (SEG_KCODE .<< 3) in
  let m := store16 m (system_tss + tss_ss0) (SEG_KDATA .<< 3) in
  let m := store32 m (system_tss + tss_esp0) esp in
  set_x_mem m s.
End tables.

(** ** How the processor reads a descriptor *)

Definition bits (lo w z : Z) : Z := (z / 2 ^ lo) mod 2 ^ w.

Definition hw_base (z : Z) : Z := bits 16 24 z + 0x1000000 * bits 56 8 z.
(** The last valid offset: the 20-bit limit, in pages when G is set. *)
Definition hw_limit (z : Z) : Z :=
  let l := bits 0 16 z + 0x10000 * bits 48 4 z in
  if bits 55 1 z =? 1 then l * 0x1000 + 0xFFF else l.
Definition hw_type (z : Z) : Z := bits 40 4 z.
Definition hw_s (z : Z) : Z := bits 44 1 z.
Definition hw_dpl (z : Z) : Z := bits 45 2 z.
Definition hw_present (z : Z) : Z := bits 47 1 z.

Definition gate_offset (z : Z) : Z := bits 0 16 z + 0x10000 * bits 48 16 z.
Definition gate_selector (z : Z) : Z := bits 16 16 z.
(** An interrupt gate clears IF, a trap gate leaves it. *)
Definition gate_clears_if (z : Z) : bool := hw_type z =? STS_IG32.
(** [int n] from privilege level [cpl] is allowed through a present gate. *)
Definition int_allowed (cpl z : Z) : bool := (hw_present z =? 1) && (cpl <=? hw_dpl z).

Lemma bits_here w v l : 0 <= w -> bits 0 w (pack ((w, v) :: l)) = v mod 2 ^ w.
Proof.
  intros Hw. unfold bits. cbn [pack]. rewrite Z.pow_0_r, Z.div_1_r.
  rewrite (Z.mul_comm (2 ^ w)), Z_mod_plus_full. apply Z.mod_mod. lia.
Qed.

Lemma bits_next lo k w v l : 0 <= w <= lo -> bits lo k (pack ((w, v) :: l)) = bits (lo - w) k (pack l).
Proof.
  intros Hw. unfold bits. cbn [pack]. f_equal.
  replace lo with (w + (lo - w)) at 1 by lia. rewrite Z.pow_add_r, <- Z.div_div by lia.
  f_equal. rewrite (Z.mul_comm (2 ^ w)), Z.div_add by lia. rewrite Z.div_small; [lia|]. apply Z.mod_pos_bound. lia.
Qed.

Lemma bits_split lo a b z : 0 <= lo -> 0 <= a -> 0 <= b -> bits lo (a + b) z = bits lo a z + 2 ^ a * bits (lo + a) b z.
Proof.
  intros. unfold bits. rewrite !Z.pow_add_r, <- Z.div_div by lia. rewrite Z.rem_mul_r by lia. reflexivity.
Qed.

Lemma pack_range l : Forall (fun '(w, _) => 0 <= w) l -> 0 <= pack l < 2 ^ foldr (fun '(w, _) n => w + n) 0 l.
Proof.
  induction 1 as [|[w v] l Hw Hl IH]; cbn [pack foldr]; [lia|].
  assert (0 <= foldr (fun '(w, _) n => w + n) 0 l) by (clear -Hl; induction Hl as [|[w v] l]; cbn [foldr]; lia).
  rewrite Z.pow_add_r by lia. pose proof (Z.mod_pos_bound v (2 ^ w)). nia.
Qed.

(** Reads the field at a bit offset of a packed list. *)
Ltac field := repeat (rewrite bits_next by lia); cbn [Z.sub]; apply bits_here; lia.
Ltac bits_pack_tac :=
  repeat match goal with
  | |- context [bits ?lo ?w (pack ?l)] =>
      first [rewrite (bits_here w) by lia | rewrite (bits_next lo w) by lia];
      try (match goal with |- context [bits ?x _ _] => let y := eval compute in x in change x with y end)
  end.

Lemma load64_store64 m a v : 0 <= v < 2 ^ 64 -> load64 (store64 m a v) a = v.
Proof.
  intros Hv. unfold load64, store64. rewrite (load32_store32_ne _ (a + 4)) by lia.
  rewrite !load32_store32_eq. unfold u32. rewrite Z.shiftr_div_pow2 by lia. dlia.
Qed.

Lemma load64_store64_ne m a v b : b + 8 <= a \/ a + 8 <= b -> load64 (store64 m a v) b = load64 m b.
Proof. intros. unfold load64, store64. rewrite !load32_store32_ne by lia. reflexivity. Qed.

Lemma load32_store64_ne m a v b : b + 4 <= a \/ a + 8 <= b -> load32 (store64 m a v) b = load32 m b.
Proof. intros. unfold store64. rewrite !load32_store32_ne by lia. reflexivity. Qed.

#[export] Hint Rewrite load64_store64_ne load32_store64_ne using lia : memory.

Lemma load64_store32_ne m a v b : b + 8 <= a \/ a + 4 <= b -> load64 (store32 m a v) b = load64 m b.
Proof. intros. unfold load64. rewrite !load32_store32_ne by lia. reflexivity. Qed.

Lemma seg_word_range d : 0 <= seg_word d < 2 ^ 64.
Proof. apply (pack_range (seg_fields d)). repeat constructor; lia. Qed.

Lemma gate_word_range d : 0 <= gate_word d < 2 ^ 64.
Proof. apply (pack_range (gate_fields d)). repeat constructor; lia. Qed.

(** The masks and shifts of the macros as arithmetic. *)
Ltac fields_tac :=
  csimp; change 0xffff with (Z.ones 16); change 0xff with (Z.ones 8);
  rewrite ?land_ones_mod, ?Z.shiftr_div_pow2 by lia;
  change (2 ^ 1) with 2; change (2 ^ 2) with 4; change (2 ^ 4) with 16; change (2 ^ 8) with 256;
  change (2 ^ 12) with 4096; change (2 ^ 16) with 65536; change (2 ^ 24) with 16777216; change (2 ^ 28) with 268435456.

Lemma SEG_reads type base lim dpl :
  0 <= type < 16 -> 0 <= base < 0x100000000 -> 0 <= lim < 0x100000000 -> 0 <= dpl < 4 ->
  let z := seg_word (SEG type base lim dpl) in
  hw_base z = base /\ hw_limit z = lim / 0x1000 * 0x1000 + 0xFFF /\
  hw_type z = type /\ hw_s z = 1 /\ hw_dpl z = dpl /\ hw_present z = 1.
Proof.
  intros Ht Hb Hl Hd z. unfold hw_base, hw_limit, hw_type, hw_s, hw_dpl, hw_present.
  rewrite (bits_split 16 16 8) by lia. subst z. unfold seg_word, SEG, seg_fields.
  cbn [lim_15_0 base_15_0 base_23_16 seg_type seg_s seg_dpl seg_p lim_19_16 avl seg_rsv1 db g base_31_24].
  bits_pack_tac. fields_tac. split; [dlia|]. split; [|repeat split; dlia].
  change (1 mod 2 =? 1) with true. cbv iota. dlia.
Qed.

Lemma SETGATE_reads istrap sel off d :
  0 <= sel < 0x10000 -> 0 <= off < 0x100000000 -> 0 <= d < 4 ->
  let z := gate_word (SETGATE istrap sel off d) in
  gate_offset z = off /\ gate_selector z = sel /\ hw_type z = (if istrap then STS_TG32 else STS_IG32) /\
  hw_s z = 0 /\ hw_dpl z = d /\ hw_present z = 1.
Proof.
  intros Hs Ho Hd z. unfold gate_offset, gate_selector, hw_type, hw_s, hw_dpl, hw_present. subst z.
  unfold gate_word, SETGATE, gate_fields. cbn [off_15_0 gate_cs args gate_rsv1 gate_type gate_s gate_dpl gate_p off_31_16].
  bits_pack_tac. fields_tac. split; [dlia|]. split; [dlia|]. split; [destruct istrap; reflexivity|]. repeat split; dlia.
Qed.

(** [pd[3]] gives the instruction the size and the address it was built from. *)
Lemma pd_read_table p size :
  0 <= p < 0x100000000 -> 0 < size <= 0x10000 -> pd_read (table_pd p size) = (size - 1, p).
Proof.
  intros Hp Hs. unfold pd_read, table_pd. cbn [nth]. f_equal; [csimp; lia|]. rewrite Z.shiftr_div_pow2 by lia.
  csimp. unfold u16. change (2 ^ 16) with 65536. dlia.
Qed.

(** ** The interrupt table *)

Section idt_spec.
Context (idt vectors : Z) (s : x86_state).
Hypothesis Hidt : 0 <= idt /\ idt + 0x800 <= 0x100000000.
Hypothesis Hsep : idt + 0x800 <= vectors \/ vectors + 0x400 <= idt.

Let vec (i : Z) : Z := load32 (x_mem s) (vectors + 4 * i).

Lemma set_gate_load j d i m : 0 <= i < 256 -> 0 <= j < 256 ->
  load64 (set_gate idt j d m) (idt + 8 * i) = if i =? j then gate_word d else load64 m (idt + 8 * i).
Proof using.
  intros Hi Hj. unfold set_gate. destruct (Z.eqb_spec i j) as [->|].
  - apply load64_store64, gate_word_range.
  - apply load64_store64_ne. lia.
Qed.

Lemma set_gate_vec j d i m : 0 <= i < 256 -> 0 <= j < 256 ->
  load32 (set_gate idt j d m) (vectors + 4 * i) = load32 m (vectors + 4 * i).
Proof using Hsep. intros Hi Hj. apply load32_store64_ne. lia. Qed.

Lemma idt_loop n m :
  (n <= 256)%nat -> (forall i, 0 <= i < 256 -> load32 m (vectors + 4 * i) = vec i) ->
  let m' := for_up n 0 (fun i m => set_gate idt i (SETGATE false 0x8 (load32 m (vectors + 4 * i)) 0) m) m in
  (forall i, 0 <= i < Z.of_nat n -> load64 m' (idt + 8 * i) = gate_word (SETGATE false 0x8 (vec i) 0)) /\
  (forall i, 0 <= i < 256 -> load32 m' (vectors + 4 * i) = vec i).
Proof using Hsep.
  intros Hn Hm m'. subst m'.
  apply (for_up_inv (fun k m' => (forall i, 0 <= i < k -> load64 m' (idt + 8 * i) = gate_word (SETGATE false 0x8 (vec i) 0)) /\
    (forall i, 0 <= i < 256 -> load32 m' (vectors + 4 * i) = vec i)) n 0).
  - split; [intros; lia|exact Hm].
  - intros j t Hj [IHg IHv]. split; intros i Hi.
    + rewrite set_gate_load by lia. rewrite IHv by lia. destruct (Z.eqb_spec i j) as [->|]; [reflexivity|]. apply IHg. lia.
    + rewrite set_gate_vec by lia. apply IHv. lia.
Qed.

Lemma idt_init_gate i : 0 <= i < 256 ->
  load64 (x_mem (idt_init idt vectors s)) (idt + 8 * i) =
  gate_word (SETGATE (i =? T_SYSCALL) 0x8 (vec i) (if i =? T_SYSCALL then DPL_USER else 0)).
Proof using Hsep.
  intros Hi. destruct (idt_loop 256 (x_mem s) ltac:(lia) ltac:(reflexivity)) as [Hg Hv].
  unfold idt_init. cbn [x_mem set_x_mem lidt]. unfold T_SYSCALL in *. rewrite set_gate_load by lia. rewrite Hv by lia.
  destruct (Z.eqb_spec i 0x80) as [->|]; [reflexivity|]. apply Hg. lia.
Qed.
End idt_spec.

(** C22: [idt_init] fills all 256 gates: gate [i] sends the processor to
    [vectors[i]] in the kernel code segment, is present, disables interrupts
    except for the system call; the [int] instruction of a user program is
    let through for vector 0x80 and for no other; the table register covers
    exactly the 256 gates. *)
Theorem idt_init_gates idt vectors s i :
  0 <= idt /\ idt + 0x800 <= 0x100000000 ->
  idt + 0x800 <= vectors \/ vectors + 0x400 <= idt -> 0 <= i < 256 ->
  let s' := idt_init idt vectors s in
  let z := load64 (x_mem s') (idt + 8 * i) in
  gate_offset z = load32 (x_mem s) (vectors + 4 * i) /\ gate_selector z = SEG_KCODE .<< 3 /\
  gate_clears_if z = negb (i =? T_SYSCALL) /\ int_allowed 0 z = true /\
  int_allowed 3 z = (i =? T_SYSCALL) /\ idtr s' = (0x7FF, idt).
Proof.
  intros Hidt Hsep Hi s' z. subst z s'. rewrite idt_init_gate by assumption.
  set (d := SETGATE _ _ _ _).
  destruct (SETGATE_reads (i =? T_SYSCALL) 0x8 (load32 (x_mem s) (vectors + 4 * i)) (if i =? T_SYSCALL then DPL_USER else 0))
    as (Ho & Hs & Ht & _ & Hd & Hp); [lia|apply load32_range|unfold DPL_USER; destruct (i =? T_SYSCALL); lia|].
  fold d in Ho, Hs, Ht, Hd, Hp. unfold gate_clears_if, int_allowed. rewrite Ho, Hs, Ht, Hd, Hp.
  split; [reflexivity|]. split; [reflexivity|].
  split; [destruct (i =? T_SYSCALL); reflexivity|]. split; [destruct (i =? T_SYSCALL); reflexivity|].
  split; [destruct (i =? T_SYSCALL); reflexivity|]. apply (pd_read_table idt 0x800); lia.
Qed.

Definition bare_x86 : x86_state := MkX86 ∅ pic_boot (0, 0) (0, 0) 0 0.

Lemma idt_init_gates_witness :
  let s' := idt_init 0xC0108000 0xC0107000 bare_x86 in
  int_allowed 3 (load64 (x_mem s') (0xC0108000 + 8 * 14)) = false /\ idtr s' = (0x7FF, 0xC0108000).
Proof.
  destruct (idt_init_gates 0xC0108000 0xC0107000 bare_x86 14 ltac:(lia) ltac:(lia) ltac:(lia)) as (_ & _ & _ & _ & H & H').
  split; [exact H|exact H'].
Defined.

(** ** The segment table *)

Section gdt_spec.
Context (cpus system_tss : Z) (id : Z) (s : x86_state).
Hypothesis Hid : 0 <= id < 8.
Hypothesis Hcpus : 0 <= cpus /\ cpus + 8 * CPU_SIZE <= 0x100000000.
Hypothesis Htss : 0 <= system_tss /\ system_tss + TSS_SIZE <= 0x100000000.
Let c := cpus + CPU_SIZE * id.

(** The descriptor that [gdt_init_cpu] puts in each slot it fills. *)
Definition gdt_slot (i : Z) : option segdesc :=
  if i =? SEG_KCODE then Some (SEG (STA_X .| STA_R) 0 0xffffffff 0)
  else if i =? SEG_KDATA then Some (SEG STA_W 0 0xffffffff 0)
  else if i =? SEG_UCODE then Some (SEG (STA_X .| STA_R) 0 0xffffffff DPL_USER)
  else if i =? SEG_UDATA then Some (SEG STA_W 0 0xffffffff DPL_USER)
  else if i =? SEG_KCPU then Some (SEG STA_W (c + cpu_self) CPU_SIZE 0)
  else if i =? SEG_TSS then Some (set_s 0 (SEG STS_T32A system_tss (TSS_SIZE - 1) 0))
  else None.

Lemma set_seg_load j d i m :
  load64 (set_seg c j d m) (c + cpu_gdt + 8 * i) = if i =? j then seg_word d else load64 m (c + cpu_gdt + 8 * i).
Proof using.
  unfold set_seg. destruct (Z.eqb_spec i j) as [->|].
  - apply load64_store64, seg_word_range.
  - apply load64_store64_ne. lia.
Qed.

Lemma gdt_cpu_slot i d : gdt_slot i = Some d ->
  load64 (x_mem (gdt_init_cpu cpus system_tss id s)) (c + cpu_gdt + 8 * i) = seg_word d.
Proof using Hid.
  intros Hs. unfold gdt_init_cpu. replace (s8 id) with id by (unfold s8; rewrite Z.mod_small; lia).
  fold c. cbn [x_mem set_x_mem lgdt load_gs ltr]. rewrite !set_seg_load. unfold gdt_slot in Hs.
  unfold SEG_KCODE, SEG_KDATA, SEG_UCODE, SEG_UDATA, SEG_KCPU, SEG_TSS in *.
  repeat match goal with |- context [i =? ?k] => destruct (Z.eqb_spec i k); [subst i; cbn in Hs; congruence|] end.
  discriminate.
Qed.

Lemma gdt_cpu_other a : a + 4 <= c + cpu_gdt + 8 \/ c + cpu_gdt + 56 <= a ->
  load32 (x_mem (gdt_init_cpu cpus system_tss id s)) a = load32 (x_mem s) a.
Proof using Hid.
  intros Ha. unfold gdt_init_cpu. replace (s8 id) with id by (unfold s8; rewrite Z.mod_small; lia).
  fold c. cbn [x_mem set_x_mem lgdt load_gs ltr]. unfold set_seg, SEG_KCODE, SEG_KDATA, SEG_UCODE, SEG_UDATA, SEG_KCPU, SEG_TSS.
  rewrite !load32_store64_ne by lia. reflexivity.
Qed.
End gdt_spec.

(** Clearing [s] changes that bit only. *)
Lemma set_s_reads d z : z = seg_word d ->
  let z' := seg_word (set_s 0 d) in
  hw_base z' = hw_base z /\ hw_limit z' = hw_limit z /\ hw_type z' = hw_type z /\ hw_s z' = 0 /\
  hw_dpl z' = hw_dpl z /\ hw_present z' = hw_present z.
Proof.
  intros -> z'. unfold hw_base, hw_limit, hw_type, hw_s, hw_dpl, hw_present. subst z'.
  rewrite !(bits_split 16 16 8) by lia. unfold seg_word, set_s, seg_fields.
  cbn [lim_15_0 base_15_0 base_23_16 seg_type seg_s seg_dpl seg_p lim_19_16 avl seg_rsv1 db g base_31_24].
  bits_pack_tac. repeat split; reflexivity.
Qed.

(** Segment [i] of processor [id] as the processor sees it. *)
Definition gdt_sees (cpus id : Z) (s : x86_state) (i base limit type app dpl : Z) : Prop :=
  let z := load64 (x_mem s) (cpus + CPU_SIZE * id + cpu_gdt + 8 * i) in
  hw_base z = base /\ hw_limit z = limit /\ hw_type z = type /\ hw_s z = app /\ hw_dpl z = dpl /\ hw_present z = 1.

Lemma gdt_cpu_sees cpus system_tss id s :
  0 <= id < 8 -> 0 <= cpus /\ cpus + 8 * CPU_SIZE <= 0x100000000 ->
  0 <= system_tss /\ system_tss + TSS_SIZE <= 0x100000000 ->
  let s' := gdt_init_cpu cpus system_tss id s in
  gdt_sees cpus id s' SEG_KCODE 0 0xFFFFFFFF (STA_X .| STA_R) 1 0 /\
  gdt_sees cpus id s' SEG_KDATA 0 0xFFFFFFFF STA_W 1 0 /\
  gdt_sees cpus id s' SEG_UCODE 0 0xFFFFFFFF (STA_X .| STA_R) 1 DPL_USER /\
  gdt_sees cpus id s' SEG_UDATA 0 0xFFFFFFFF STA_W 1 DPL_USER /\
  gdt_sees cpus id s' SEG_KCPU (cpus + CPU_SIZE * id + cpu_self) 0xFFF STA_W 1 0 /\
  gdt_sees cpus id s' SEG_TSS system_tss 0xFFF STS_T32A 0 0.
Proof.
  intros Hid Hc Ht s'. unfold gdt_sees. subst s'.
  assert (Hseg : forall i type base lim dpl, gdt_slot cpus system_tss id i = Some (SEG type base lim dpl) ->
    0 <= type < 16 -> 0 <= base < 0x100000000 -> 0 <= lim < 0x100000000 -> 0 <= dpl < 4 ->
    let z := load64 (x_mem (gdt_init_cpu cpus system_tss id s)) (cpus + CPU_SIZE * id + cpu_gdt + 8 * i) in
    hw_base z = base /\ hw_limit z = lim / 0x1000 * 0x1000 + 0xFFF /\ hw_type z = type /\ hw_s z = 1 /\ hw_dpl z = dpl /\ hw_present z = 1).
  { intros i type base lim dpl E ? ? ? ? z. subst z. rewrite (gdt_cpu_slot _ _ _ _ Hid _ _ E). apply SEG_reads; assumption. }
  split; [apply (Hseg SEG_KCODE 10 0 0xffffffff 0 eq_refl); lia|].
  split; [apply (Hseg SEG_KDATA 2 0 0xffffffff 0 eq_refl); lia|].
  split; [apply (Hseg SEG_UCODE 10 0 0xffffffff 3 eq_refl); lia|].
  split; [apply (Hseg SEG_UDATA 2 0 0xffffffff 3 eq_refl); lia|].
  unfold CPU_SIZE, cpu_self, TSS_SIZE in *.
  split; [apply (Hseg SEG_KCPU 2 (cpus + 128 * id + 96) 128 0 eq_refl); lia|].
  rewrite (gdt_cpu_slot _ _ _ _ Hid SEG_TSS _ eq_refl).
  destruct (set_s_reads _ _ (eq_refl (seg_word (SEG STS_T32A system_tss (TSS_SIZE - 1) 0)))) as (-> & -> & -> & -> & -> & ->).
  destruct (SEG_reads STS_T32A system_tss (TSS_SIZE - 1) 0) as (-> & -> & -> & _ & -> & ->);
    [unfold STS_T32A; lia|lia|unfold TSS_SIZE; lia|lia|]. repeat split; reflexivity.
Qed.

(** C23: [gdt_init_cpu] gives processor [id] flat kernel and user code and
    data segments with the right privilege, loads the table register with its
    own table, and selects through %gs the segment that starts at its own
    [cpu] field.  The limit of the task segment is a page: [SEG] counts in
    pages, so the 104 bytes of the structure become 4096. *)
Theorem gdt_init_cpu_segments cpus system_tss id s :
  0 <= id < 8 -> 0 <= cpus /\ cpus + 8 * CPU_SIZE <= 0x100000000 ->
  0 <= system_tss /\ system_tss + TSS_SIZE <= 0x100000000 ->
  let s' := gdt_init_cpu cpus system_tss id s in
  gdt_sees cpus id s' SEG_KCODE 0 0xFFFFFFFF (STA_X .| STA_R) 1 0 /\
  gdt_sees cpus id s' SEG_KDATA 0 0xFFFFFFFF STA_W 1 0 /\
  gdt_sees cpus id s' SEG_UCODE 0 0xFFFFFFFF (STA_X .| STA_R) 1 DPL_USER /\
  gdt_sees cpus id s' SEG_UDATA 0 0xFFFFFFFF STA_W 1 DPL_USER /\
  gdt_sees cpus id s' SEG_KCPU (cpus + CPU_SIZE * id + cpu_self) 0xFFF STA_W 1 0 /\
  gdt_sees cpus id s' SEG_TSS system_tss 0xFFF STS_T32A 0 0 /\
  gdtr s' = (63, cpus + CPU_SIZE * id + cpu_gdt) /\ gs s' = 8 * SEG_KCPU /\ tr s' = 8 * SEG_TSS.
Proof.
  intros Hid Hc Ht s'. destruct (gdt_cpu_sees cpus system_tss id s Hid Hc Ht) as (H1 & H2 & H3 & H4 & H5 & H6).
  do 6 (split; [assumption|]). subst s'. split; [|split; reflexivity].
  unfold gdt_init_cpu. cbn [gdtr lgdt load_gs ltr]. replace (s8 id) with id by (unfold s8; rewrite Z.mod_small; lia).
  unfold CPU_SIZE, cpu_gdt in *. apply (pd_read_table _ 64); lia.
Qed.

Lemma gdt_init_cpu_segments_witness :
  gdt_sees 0xC0109000 1 (gdt_init_cpu 0xC0109000 0xC010A000 1 bare_x86) SEG_UCODE 0 0xFFFFFFFF (STA_X .| STA_R) 1 DPL_USER.
Proof.
  apply (gdt_init_cpu_segments 0xC0109000 0xC010A000 1 bare_x86); unfold CPU_SIZE, TSS_SIZE; lia.
Defined.

(** After [gdt_init], the word at %gs:0 (the variable [cpu]) is the address of
    the first processor's structure, whatever was there before. *)
Theorem gdt_init_cpu_local cpus system_tss stack_top esp s :
  0 <= cpus /\ cpus + 8 * CPU_SIZE <= 0x100000000 ->
  cpus + 8 * CPU_SIZE <= system_tss \/ system_tss + TSS_SIZE <= cpus ->
  0 <= system_tss /\ system_tss + TSS_SIZE <= 0x100000000 ->
  let s' := gdt_init cpus system_tss stack_top esp s in
  gs s' = 8 * SEG_KCPU /\
  load32 (x_mem s') (hw_base (load64 (x_mem s') (cpus + cpu_gdt + 8 * SEG_KCPU))) = cpus /\
  load32 (x_mem s') (system_tss + tss_esp0) = u32 esp.
Proof.
  intros Hc Hsep Ht s'. subst s'. unfold gdt_init. set (s1 := set_x_mem _ s).
  destruct (gdt_cpu_sees cpus system_tss 0 s1 ltac:(lia) Hc Ht) as (_ & _ & _ & _ & H5 & _).
  set (s2 := gdt_init_cpu cpus system_tss 0 s1) in *. unfold gdt_sees in H5.
  replace (cpus + CPU_SIZE * 0) with cpus in H5 by lia. destruct H5 as [H5 _]. cbn [x_mem set_x_mem gs].
  unfold CPU_SIZE, cpu_gdt, cpu_self, SEG_KCPU, TSS_SIZE, tss_cs, tss_ss0, tss_esp0 in *.
  split; [reflexivity|]. split; [|apply load32_store32_eq].
  assert (E64 : forall m a v b, b + 8 <= a \/ a + 2 <= b -> load64 (store16 m a v) b = load64 m b).
  { intros. unfold load64, load32, store16. autorewrite with memory. reflexivity. }
  assert (E32 : forall m a v b, b + 4 <= a \/ a + 2 <= b -> load32 (store16 m a v) b = load32 m b).
  { intros. unfold load32, store16. autorewrite with memory. reflexivity. }
  rewrite load64_store32_ne, !E64, H5 by lia. rewrite load32_store32_ne, !E32 by lia.
  unfold s2. rewrite gdt_cpu_other; [|lia|unfold CPU_SIZE, cpu_gdt; lia].
  unfold s1. cbn [x_mem set_x_mem]. unfold cpu_stack, cpu_ncli. rewrite load32_store32_ne, load32_store32_eq by lia.
  apply u32_small. lia.
Qed.

Lemma gdt_init_cpu_local_witness :
  gs (gdt_init 0xC0109000 0xC010A000 0xC010B000 0xC010AF00 bare_x86) = 24.
Proof.
  apply (gdt_init_cpu_local 0xC0109000 0xC010A000 0xC010B000 0xC010AF00 bare_x86); unfold CPU_SIZE, TSS_SIZE; lia.
Defined.
