(* ===== verification/Elf.v ===== *)
(** * kernel/elf.c: symbols of an ELF file

    The structures of elf.h at the offsets the C compiler gives their fields,
    the table of kernel symbols that [build_ksyms] makes from the file's symbol
    table, and [ksym_find], which names the function an address lies in.  The
    addresses of string literals and of the blocks [malloc] returned are
    arguments; [assert] and [vga_pretty] only print. *)

From stdpp Require Import base numbers list gmap.
From Stdlib Require Import ZArith Lia.
From S2P Require Import Prelude Memory CString Paging Ext2.
Open Scope Z_scope.

Definition ELF_MAGIC : Z := 0x464C457F.
Definition EM_386 : Z := 3.
Definition ET_EXEC : Z := 2.
Definition SHT_SYMTAB : Z := 2.
Definition SHT_STRTAB : Z := 3.
Definition SHT_REL : Z := 9.

(** ** Structure fields *)
Definition e_ident (m : mem) (e k : Z) : Z := load32 m (e + 4 * k).
Definition e_type (m : mem) (e : Z) : Z := load16 m (e + 16).
Definition e_machine (m : mem) (e : Z) : Z := load16 m (e + 18).
Definition e_entry (m : mem) (e : Z) : Z := load32 m (e + 24).
Definition e_phoff (m : mem) (e : Z) : Z := load32 m (e + 28).
Definition e_shoff (m : mem) (e : Z) : Z := load32 m (e + 32).
Definition e_phentsize (m : mem) (e : Z) : Z := load16 m (e + 42).
Definition e_phnum (m : mem) (e : Z) : Z := load16 m (e + 44).
Definition e_shentsize (m : mem) (e : Z) : Z := load16 m (e + 46).
Definition e_shnum (m : mem) (e : Z) : Z := load16 m (e + 48).
Definition e_shstrndx (m : mem) (e : Z) : Z := load16 m (e + 50).

Definition SHDR_SIZE : Z := 40.
Definition sh_name (m : mem) (h : Z) : Z := load32 m h.
Definition sh_type (m : mem) (h : Z) : Z := load32 m (h + 4).
Definition sh_offset (m : mem) (h : Z) : Z := load32 m (h + 16).
Definition sh_size (m : mem) (h : Z) : Z := load32 m (h + 20).
Definition sh_info (m : mem) (h : Z) : Z := load32 m (h + 28).

Definition PHDR_SIZE : Z := 32.
Definition p_type (m : mem) (p : Z) : Z := load32 m p.
Definition p_offset (m : mem) (p : Z) : Z := load32 m (p + 4).
Definition p_vaddr (m : mem) (p : Z) : Z := load32 m (p + 8).
Definition p_filesz (m : mem) (p : Z) : Z := load32 m (p + 16).
Definition p_memsz (m : mem) (p : Z) : Z := load32 m (p + 20).

(** [st_name] and [st_size] are declared with 16 bits, so the fields after
    them do not lie where the file has them; the size is still 16. *)
Definition SYM_SIZE : Z := 16.
Definition st_name (m : mem) (y : Z) : Z := load16 m y.
Definition st_value (m : mem) (y : Z) : Z := load32 m (y + 4).
Definition st_size (m : mem) (y : Z) : Z := load16 m (y + 8).
Definition st_info (m : mem) (y : Z) : Z := load8 m (y + 10).

Definition REL_SIZE : Z := 8.
Definition r_offset (m : mem) (r : Z) : Z := load32 m r.
Definition r_info (m : mem) (r : Z) : Z := load16 m (r + 4).

(** [struct ksym]: address, name, size. *)
Definition KSYM_SIZE : Z := 40.
Definition ks_name : Z := 4.
Definition ks_size : Z := 36.

(** Enough steps of [sz] bytes to reach [last] from [first]. *)
Definition steps (first last sz : Z) : nat := S (Z.to_nat ((last - first) / sz)).

(** ** Sections *)

(** The section headers from [shdr] up to [last]: the last one whose name
    begins with each of the two literals, 0 if there is none. *)
Fixpoint scan_sections (fuel : nat) (m : mem) (string_table lit_sym lit_str shdr last symtab strtab : Z) : Z * Z :=
  match fuel with
  | O => (symtab, strtab)
  | S f =>
      if shdr <? last then
        let name := u32 (string_table + sh_name m shdr) in
        let symtab := if strcmp m lit_sym name =? 0 then shdr else symtab in
        let strtab := if strcmp m lit_str name =? 0 then shdr else strtab in
        scan_sections f m string_table lit_sym lit_str (shdr + SHDR_SIZE) last symtab strtab
      else (symtab, strtab)
  end.
Definition find_tables (m : mem) (data lit_sym lit_str : Z) : Z * Z :=
  let shdr := u32 (data + e_shoff m data) in
  let sh_str := u32 (shdr + e_shentsize m data * e_shstrndx m data) in
  let last_shdr := u32 (shdr + e_shentsize m data * e_shnum m data) in
  let string_table := u32 (data + sh_offset m sh_str) in
  scan_sections (steps shdr last_shdr SHDR_SIZE) m string_table lit_sym lit_str (shdr + SHDR_SIZE) last_shdr NULL NULL.

(** ** Kernel symbols *)

(** [for (int i = 0; i < 32, i < strlen(tmp); i++)]: the comma drops the first
    condition, the whole name is copied. *)
Fixpoint copy_name (fuel : nat) (m : mem) (dst tmp i : Z) : mem :=
  match fuel with
  | O => m
  | S f => if i <? strlen m tmp then copy_name f (store8 m (dst + i) (load8 m (tmp + i))) dst tmp (i + 1) else m
  end.

(** The symbols from [sym] up to [last_sym]; [q] counts the entries made. *)
Fixpoint ksym_loop (fuel : nat) (m : mem) (ks strtab_d sym last_sym q : Z) : mem * Z :=
  match fuel with
  | O => (m, q)
  | S f =>
      if sym <? last_sym then
        let '(m', q') :=
          if negb (st_name m sym =? 0) && (KERNEL_VIRT <? st_value m sym) then
            let tmp := u32 (st_name m sym + strtab_d) in
            let e := ks + KSYM_SIZE * q in
            let m1 := store32 m e (st_value m sym) in
            let m2 := store32 m1 (e + ks_size) (st_size m1 sym) in
            (copy_name (strfuel m2) m2 (e + ks_name) tmp 0, q + 1)
          else (m, q) in
        ksym_loop f m' ks strtab_d (sym + SYM_SIZE) last_sym q'
      else (m, q)
  end.

(** The variables [kernel_symbols] and [no_ksym], and memory. *)
Record ksym_state := MkKsym { ks_mem : mem; kernel_symbols : Z; no_ksym : Z }.

(** [ks] is the block [malloc(sizeof(struct ksym) * sym_tab_sz)] returned. *)
Definition parse_ksyms (data lit_sym lit_str ks : Z) (s : ksym_state) : ksym_state :=
  let m := ks_mem s in
  let '(symtab, strtab) := find_tables m data lit_sym lit_str in
  if (strtab =? 0) || (symtab =? 0) then s
  else
    let sym := u32 (data + sh_offset m symtab) in
    let last_sym := u32 (sym + sh_size m symtab) in
    let strtab_d := u32 (data + sh_offset m strtab) in
    let '(m', q) := ksym_loop (steps sym last_sym SYM_SIZE) m ks strtab_d sym last_sym 0 in
    MkKsym m' ks q.

(** [name] is the literal "kernel.bin", [dirbuf] and [buf] the blocks of
    [find_inode_in_dir] and [ext2_open]; [None]: the directory has an entry
    of length 0, which is never passed. *)
Definition build_ksyms `{BlockCache} (name dirbuf buf lit_sym lit_str ks : Z) (s : ksym_state) : option ksym_state :=
  match find_inode_in_dir (ks_mem s) name 2 dirbuf with
  | None => None
  | Some ki =>
      let '(m1, data) := ext2_open (ks_mem s) (ext2_inode (ks_mem s) 1 ki) buf in
      Some (parse_ksyms data lit_sym lit_str ks (MkKsym m1 (kernel_symbols s) (no_ksym s)))
  end.

Definition ksym_diff (s : ksym_state) (addr i : Z) : Z :=
  s32 (addr - load32 (ks_mem s) (kernel_symbols s + KSYM_SIZE * i)).

(** The loop's variables [match] and [closest_diff]. *)
Definition ksym_match (addr : Z) (s : ksym_state) : Z * Z :=
  for_up (Z.to_nat (no_ksym s)) 0 (fun i '(match_, closest_diff) =>
    let diff := ksym_diff s addr i in
    if (diff <? closest_diff) && (0 <? diff) then (i, diff) else (match_, closest_diff)) (0, 0x1000).
Definition ksym_find (addr : Z) (s : ksym_state) : Z :=
  if kernel_symbols s =? 0 then NULL
  else kernel_symbols s + KSYM_SIZE * (ksym_match addr s).1 + ks_name.

(** ** Relocations listed by elf_objdump *)

(** What [elf_objdump] prints for each entry of [.rel.text]: offset, addend,
    type and the address of the symbol's name. *)
Record reloc := MkReloc { rl_addr : Z; rl_addend : Z; rl_type : Z; rl_name : Z }.
Definition dump_rel (m : mem) (data symtab strtab_d target r : Z) : reloc :=
  let t := u8 (r_info m r) in
  let s := u8 (r_info m r .>> 8) in
  let sym := u32 (data + sh_offset m symtab) + SYM_SIZE * s in
  let sym_name := u32 (st_name m sym + strtab_d) in
  let addend := load32 m (u32 (data + sh_offset m target + r_offset m r)) in
  let addend := u32 (addend - r_offset m r) in
  MkReloc (r_offset m r) addend t sym_name.
Fixpoint dump_rels (fuel : nat) (m : mem) (data symtab strtab_d target r last : Z) : list reloc :=
  match fuel with
  | O => []
  | S f => if r <? last then dump_rel m data symtab strtab_d target r :: dump_rels f m data symtab strtab_d target (r + REL_SIZE) last
           else []
  end.

(** The three tables [elf_objdump] looks for: name and type must both match. *)
Definition match_section (m : mem) (string_table lit type shdr cur : Z) : Z :=
  if (strcmp m lit (u32 (string_table + sh_name m shdr)) =? 0) && (sh_type m shdr =? type) then shdr else cur.
Fixpoint scan_typed (fuel : nat) (m : mem) (string_table lit_sym lit_str lit_rel shdr last : Z) (t : Z * Z * Z) : Z * Z * Z :=
  match fuel with
  | O => t
  | S f =>
      if shdr <? last then
        let '(symtab, strtab, reltab) := t in
        scan_typed f m string_table lit_sym lit_str lit_rel (shdr + SHDR_SIZE) last
          (match_section m string_table lit_sym SHT_SYMTAB shdr symtab,
           match_section m string_table lit_str SHT_STRTAB shdr strtab,
           match_section m string_table lit_rel SHT_REL shdr reltab)
      else t
  end.
(** [None]: the symbol or string table is missing. *)
Definition elf_objdump (m : mem) (data lit_sym lit_str lit_rel : Z) : option (list reloc) :=
  let shdr := u32 (data + e_shoff m data) in
  let sh_str := u32 (shdr + e_shentsize m data * e_shstrndx m data) in
  let last_shdr := u32 (shdr + e_shentsize m data * e_shnum m data) in
  let string_table := u32 (data + sh_offset m sh_str) in
  let '(symtab, strtab, reltab) :=
    scan_typed (steps shdr last_shdr SHDR_SIZE) m string_table lit_sym lit_str lit_rel (shdr + SHDR_SIZE) last_shdr (NULL, NULL, NULL) in
  if (strtab =? 0) || (symtab =? 0) then None
  else
    let strtab_d := u32 (data + sh_offset m strtab) in
    if reltab =? 0 then Some []
    else
      let r := u32 (data + sh_offset m reltab) in
      let last := u32 (r + sh_size m reltab) in
      let target := u32 (data + e_shoff m data + sh_info m reltab * e_shentsize m data) in
      Some (dump_rels (steps r last REL_SIZE) m data symtab strtab_d target r last).

(** ** The nearest symbol *)

Lemma ksym_match_spec addr s n : n = Z.to_nat (no_ksym s) ->
  let '(r, d) := ksym_match addr s in
  (r = 0 /\ d = 0x1000 /\ forall i, 0 <= i < Z.of_nat n -> ~ 0 < ksym_diff s addr i < 0x1000) \/
  (0 <= r < Z.of_nat n /\ d = ksym_diff s addr r /\ 0 < d < 0x1000 /\
   (forall i, 0 <= i < Z.of_nat n -> 0 < ksym_diff s addr i -> d <= ksym_diff s addr i) /\
   (forall i, 0 <= i < r -> 0 < ksym_diff s addr i -> d < ksym_diff s addr i)).
Proof.
  intros ->. unfold ksym_match.
  apply (for_up_inv (fun k '(r, d) =>
    (r = 0 /\ d = 0x1000 /\ forall i, 0 <= i < k -> ~ 0 < ksym_diff s addr i < 0x1000) \/
    (0 <= r < k /\ d = ksym_diff s addr r /\ 0 < d < 0x1000 /\
     (forall i, 0 <= i < k -> 0 < ksym_diff s addr i -> d <= ksym_diff s addr i) /\
     (forall i, 0 <= i < r -> 0 < ksym_diff s addr i -> d < ksym_diff s addr i))) _ 0).
  - left. split; [reflexivity|]. split; [reflexivity|]. intros; lia.
  - intros j [r d] Hj IH. set (dj := ksym_diff s addr j).
    assert (Hlast : forall i, 0 <= i < j + 1 -> i < j \/ i = j) by lia.
    destruct (Z.ltb_spec dj d) as [Hlt|Hge]; [destruct (Z.ltb_spec 0 dj) as [Hpos|Hneg]|]; cbn [andb].
    + right. destruct IH as [(-> & -> & IH)|(Hr & -> & Hd & IH1 & IH2)].
      * split; [lia|]. split; [reflexivity|]. split; [lia|]. split.
        -- intros i Hi Hp. destruct (Hlast i Hi) as [Hlti| ->]; [|lia]. specialize (IH i ltac:(lia)). lia.
        -- intros i Hi Hp. specialize (IH i ltac:(lia)). lia.
      * split; [lia|]. split; [reflexivity|]. split; [lia|]. split.
        -- intros i Hi Hp. destruct (Hlast i Hi) as [Hlti| ->]; [|lia]. specialize (IH1 i ltac:(lia) Hp). lia.
        -- intros i Hi Hp. specialize (IH1 i ltac:(lia) Hp). lia.
    + destruct IH as [(-> & -> & IH)|(Hr & Hd & Hd' & IH1 & IH2)]; [left|right].
      * split; [reflexivity|]. split; [reflexivity|]. intros i Hi. destruct (Hlast i Hi) as [Hlti| ->]; [apply IH; lia|lia].
      * split; [lia|]. split; [assumption|]. split; [assumption|]. split; [|assumption].
        intros i Hi Hp. destruct (Hlast i Hi) as [Hlti| ->]; [apply IH1; lia|lia].
    + destruct IH as [(-> & -> & IH)|(Hr & Hd & Hd' & IH1 & IH2)]; [left|right].
      * split; [reflexivity|]. split; [reflexivity|]. intros i Hi. destruct (Hlast i Hi) as [Hlti| ->]; [apply IH; lia|lia].
      * split; [lia|]. split; [assumption|]. split; [assumption|]. split; [|assumption].
        intros i Hi Hp. destruct (Hlast i Hi) as [Hlti| ->]; [apply IH1; lia|lia].
Qed.

(** The entry that [ksym_find] picks when a symbol starts less than a page
    below the address. *)
Lemma ksym_match_closest addr s i :
  0 <= i < no_ksym s -> 0 < ksym_diff s addr i < 0x1000 ->
  (forall j, 0 <= j < no_ksym s -> j <> i -> 0 < ksym_diff s addr j -> ksym_diff s addr i < ksym_diff s addr j) ->
  (ksym_match addr s).1 = i.
Proof.
  intros Hi Hd Hmin. pose proof (ksym_match_spec addr s _ eq_refl) as H. destruct (ksym_match addr s) as [r d].
  destruct H as [(_ & _ & H)|(Hr & -> & Hr' & H1 & _)]; [exfalso; apply (H i); [lia|assumption]|]. cbn [fst].
  destruct (Z.eq_dec r i) as [|Hne]; [assumption|]. specialize (Hmin r ltac:(lia) Hne ltac:(lia)).
  specialize (H1 i ltac:(lia) ltac:(lia)). lia.
Qed.

(** ** Building the table *)

Definition name_copied (m m' : mem) (dst : Z) (w : list Z) : Prop :=
  bytes_at m' dst (length w) = w /\ same_outside dst (dst + Z.of_nat (length w)) m m'.

Lemma copy_name_spec fuel m dst tmp w i :
  cstr m tmp w -> dst + Z.of_nat (length w) <= tmp \/ tmp + Z.of_nat (length w) < dst ->
  0 <= i <= Z.of_nat (length w) -> Z.of_nat (length w) - i < Z.of_nat fuel ->
  (forall j, 0 <= j < i -> load8 m (dst + j) = load8 m (tmp + j)) ->
  let m' := copy_name fuel m dst tmp i in
  (forall j, 0 <= j < Z.of_nat (length w) -> load8 m' (dst + j) = load8 m (tmp + j)) /\
  same_outside dst (dst + Z.of_nat (length w)) m m'.
Proof.
  revert m i. induction fuel as [|f IH]; intros m i Hw Hsep Hi Hf Hdone; [lia|].
  cbn [copy_name]. rewrite (strlen_cstr _ _ _ Hw). destruct (Z.ltb_spec i (Z.of_nat (length w))) as [Hlt|Hge].
  - set (m1 := store8 m (dst + i) (load8 m (tmp + i))).
    assert (Hm1 : forall a, tmp <= a <= tmp + Z.of_nat (length w) -> load8 m1 a = load8 m a)
      by (intros a Ha; apply load8_store8_ne; lia).
    assert (Hw1 : cstr m1 tmp w) by (apply (cstr_frame m m1 tmp w Hw); intros j Hj; apply Hm1; lia).
    destruct (IH m1 (i + 1) Hw1 Hsep ltac:(lia) ltac:(lia)) as [H1 H2].
    + intros j Hj. rewrite (Hm1 (tmp + j)) by lia. unfold m1. rewrite load8_store8.
      destruct (Z.eqb_spec (dst + j) (dst + i)); [replace j with i by lia; apply u8_small, load8_range|apply Hdone; lia].
    + split.
      * intros j Hj. rewrite H1 by lia. apply Hm1. lia.
      * intros a Ha. rewrite H2 by assumption. apply load8_store8_ne. lia.
  - split; [intros j Hj; apply Hdone; lia|apply same_outside_refl].
Qed.

Lemma copy_name_copies m dst tmp w :
  cstr m tmp w -> dst + Z.of_nat (length w) <= tmp \/ tmp + Z.of_nat (length w) < dst ->
  name_copied m (copy_name (strfuel m) m dst tmp 0) dst w.
Proof.
  intros Hw Hsep. pose proof (cstr_fuel m tmp w Hw).
  destruct (copy_name_spec (strfuel m) m dst tmp w 0 Hw Hsep ltac:(lia) ltac:(lia) ltac:(intros; lia)) as [H1 H2].
  split; [|assumption]. destruct Hw as [Hb _]. rewrite <- Hb at 2. apply bytes_at_eq. exact H1.
Qed.

Lemma load16_frame lo hi m1 m2 a : same_outside lo hi m1 m2 -> a + 2 <= lo \/ hi <= a -> load16 m2 a = load16 m1 a.
Proof. intros H Ha. unfold load16. rewrite !H by lia. reflexivity. Qed.

Section ksyms.
Context (m0 : mem) (ks strtab_d sym n : Z) (name : Z -> list Z).
Hypothesis Hn : 0 <= n.

Definition sym_at (i : Z) : Z := sym + SYM_SIZE * i.
Definition keep (i : Z) : bool := negb (st_name m0 (sym_at i) =? 0) && (KERNEL_VIRT <? st_value m0 (sym_at i)).
Definition sym_tmp (i : Z) : Z := u32 (st_name m0 (sym_at i) + strtab_d).

(** The symbols kept among the first [k], in order. *)
Fixpoint kept (k : nat) : list Z :=
  match k with
  | O => []
  | S k' => kept k' ++ (if keep (Z.of_nat k') then [Z.of_nat k'] else [])
  end.

(** The names are strings outside the table, of at most 32 characters; the
    symbols lie outside the table. *)
Record file_ok : Prop := {
  fo_name : forall i, 0 <= i < n -> keep i = true -> cstr m0 (sym_tmp i) (name i) /\ Z.of_nat (length (name i)) <= 32;
  fo_sep : forall i, 0 <= i < n -> keep i = true ->
    sym_tmp i + 33 <= ks \/ ks + KSYM_SIZE * n <= sym_tmp i;
  fo_syms : sym + SYM_SIZE * n <= ks \/ ks + KSYM_SIZE * n <= sym;
}.
Hypothesis Hfile : file_ok.

(** Entry [j] of the table describes symbol [i]. *)
Definition entry_for (m : mem) (j i : Z) : Prop :=
  load32 m (ks + KSYM_SIZE * j) = st_value m0 (sym_at i) /\
  load32 m (ks + KSYM_SIZE * j + ks_size) = st_size m0 (sym_at i) /\
  bytes_at m (ks + KSYM_SIZE * j + ks_name) (length (name i)) = name i.

Definition table_for (k : nat) (m : mem) (q : Z) : Prop :=
  same_outside ks (ks + KSYM_SIZE * n) m0 m /\ q = Z.of_nat (length (kept k)) /\
  forall j i, kept k !! j = Some i -> entry_for m (Z.of_nat j) i.

Lemma kept_length k : (length (kept k) <= k)%nat.
Proof using. induction k; cbn [kept length]; [lia|]. rewrite length_app. destruct (keep _); cbn [length]; lia. Qed.

Lemma sym_frame k m q i : table_for k m q -> 0 <= i < n ->
  st_name m (sym_at i) = st_name m0 (sym_at i) /\ st_value m (sym_at i) = st_value m0 (sym_at i) /\
  st_size m (sym_at i) = st_size m0 (sym_at i).
Proof using Hfile.
  intros [H _] Hi. destruct Hfile as [_ _ Hs]. unfold sym_at, st_name, st_value, st_size, SYM_SIZE, KSYM_SIZE in *.
  rewrite !(load16_frame _ _ _ _ _ H), (same_outside_load32 _ _ _ _ _ H) by lia. auto.
Qed.

Lemma kept_range k j i : kept k !! j = Some i -> 0 <= i < Z.of_nat k /\ keep i = true.
Proof using.
  revert j. induction k as [|k IH]; intros j; cbn [kept]; [discriminate|]. rewrite lookup_app.
  destruct (kept k !! j) eqn:E.
  - intros [= ->]. destruct (IH j E). split; [lia|assumption].
  - destruct (keep (Z.of_nat k)) eqn:Hk; [|intros H; destruct (j - length (kept k))%nat; discriminate].
    intros H. apply list_lookup_singleton_Some in H as [_ <-]. split; [lia|assumption].
Qed.

Lemma kept_inj k j1 j2 i : kept k !! j1 = Some i -> kept k !! j2 = Some i -> j1 = j2.
Proof using.
  revert j1 j2. induction k as [|k IH]; intros j1 j2; cbn [kept]; [discriminate|].
  intros H1%lookup_app_Some H2%lookup_app_Some.
  assert (Hlast : forall j, (if keep (Z.of_nat k) then [Z.of_nat k] else []) !! j = Some i -> i = Z.of_nat k /\ j = 0%nat).
  { intros j. destruct (keep _); [|destruct j; discriminate]. intros [-> <-]%list_lookup_singleton_Some. auto. }
  destruct H1 as [H1|[Hg1 H1]], H2 as [H2|[Hg2 H2]].
  - apply IH; assumption.
  - apply kept_range in H1 as [? _]. apply Hlast in H2. lia.
  - apply kept_range in H2 as [? _]. apply Hlast in H1. lia.
  - apply Hlast in H1, H2. lia.
Qed.

(** One entry written at index [q]. *)
Definition put_entry (m : mem) (i q : Z) : mem :=
  let e := ks + KSYM_SIZE * q in
  let m1 := store32 m e (st_value m (sym_at i)) in
  let m2 := store32 m1 (e + ks_size) (st_size m1 (sym_at i)) in
  copy_name (strfuel m2) m2 (e + ks_name) (u32 (st_name m (sym_at i) + strtab_d)) 0.

Lemma load16_range m a : 0 <= load16 m a < 0x10000.
Proof using. unfold load16. pose proof (load8_range m a). pose proof (load8_range m (a + 1)). lia. Qed.

Lemma put_entry_spec k m q : table_for k m q -> Z.of_nat k < n -> keep (Z.of_nat k) = true ->
  let m' := put_entry m (Z.of_nat k) q in
  same_outside (ks + KSYM_SIZE * q) (ks + KSYM_SIZE * (q + 1)) m m' /\ entry_for m' q (Z.of_nat k).
Proof using Hfile Hn.
  intros HT Hk Hkeep m'. set (i := Z.of_nat k) in *. destruct (sym_frame k m q i HT ltac:(lia)) as (En & Ev & Es).
  destruct HT as (Hout & Hq & _). pose proof (kept_length k) as Hlen. assert (Hqn : 0 <= q < n) by lia.
  destruct (fo_name Hfile i ltac:(lia) Hkeep) as [Hname H32]. pose proof (fo_sep Hfile i ltac:(lia) Hkeep) as Hsep.
  pose proof (fo_syms Hfile) as Hss. unfold KSYM_SIZE, SYM_SIZE in *.
  subst m'. unfold put_entry. rewrite Ev, En. fold (sym_tmp i). set (m1 := store32 m _ _).
  assert (Es1 : st_size m1 (sym_at i) = st_size m0 (sym_at i)).
  { rewrite <- Es. apply (load16_frame (ks + KSYM_SIZE * q) (ks + KSYM_SIZE * q + 4)); [apply store32_same_outside|].
    unfold sym_at, SYM_SIZE, KSYM_SIZE. lia. }
  rewrite Es1. set (m2 := store32 m1 _ _). unfold KSYM_SIZE, ks_size, ks_name in *.
  assert (Ho2 : same_outside (ks + 40 * q) (ks + 40 * (q + 1)) m m2).
  { apply (same_outside_trans _ _ _ m1); (eapply same_outside_weaken; [| |apply store32_same_outside]; lia). }
  assert (Hname2 : cstr m2 (sym_tmp i) (name i)).
  { apply (cstr_frame m0 m2 _ _ Hname). intros j Hj. rewrite Ho2 by lia. apply Hout. lia. }
  destruct (copy_name_copies m2 (ks + 40 * q + 4) (sym_tmp i) (name i) Hname2 ltac:(lia)) as [Hb Hc].
  set (m3 := copy_name _ _ _ _ _) in *. split; [|split; [|split]].
  - apply (same_outside_trans _ _ _ m2 _ Ho2). eapply same_outside_weaken; [| |exact Hc]; lia.
  - rewrite (same_outside_load32 _ _ _ _ _ Hc) by (unfold KSYM_SIZE; lia). unfold m2, m1, KSYM_SIZE.
    rewrite load32_store32_ne, load32_store32_eq by lia. apply u32_small, load32_range.
  - rewrite (same_outside_load32 _ _ _ _ _ Hc) by (unfold KSYM_SIZE, ks_size; lia). unfold m2, KSYM_SIZE, ks_size.
    rewrite load32_store32_eq. apply u32_small. pose proof (load16_range m0 (sym_at i + 8)). unfold st_size. lia.
  - exact Hb.
Qed.

Lemma entry_for_frame lo hi m m' j i : same_outside lo hi m m' ->
  Z.of_nat (length (name i)) <= 32 -> ks + KSYM_SIZE * j + KSYM_SIZE <= lo \/ hi <= ks + KSYM_SIZE * j ->
  entry_for m j i -> entry_for m' j i.
Proof using.
  intros Ho Hl Hs (H1 & H2 & H3). unfold entry_for, KSYM_SIZE, ks_size, ks_name in *.
  rewrite !(same_outside_load32 _ _ _ _ _ Ho) by lia. split; [assumption|]. split; [assumption|].
  rewrite <- H3 at 2. apply bytes_at_eq. intros x Hx. apply Ho. lia.
Qed.

Lemma table_step k m q : table_for k m q -> Z.of_nat k < n ->
  let '(m', q') := if keep (Z.of_nat k) then (put_entry m (Z.of_nat k) q, q + 1) else (m, q) in
  table_for (S k) m' q'.
Proof using Hfile Hn.
  intros HT Hk. destruct (keep (Z.of_nat k)) eqn:Hkeep.
  2:{ destruct HT as (H1 & H2 & H3). unfold table_for. cbn [kept]. rewrite Hkeep, app_nil_r. auto. }
  destruct (put_entry_spec k m q HT Hk Hkeep) as [Ho He]. destruct HT as (H1 & H2 & H3).
  pose proof (kept_length k) as Hlen. unfold table_for. cbn [kept]. rewrite Hkeep. split; [|split].
  - eapply same_outside_trans; [exact H1|]. eapply same_outside_weaken; [| |exact Ho]; unfold KSYM_SIZE; lia.
  - rewrite length_app. cbn [length]. lia.
  - intros j i Hj. apply lookup_app_Some in Hj as [Hj|[Hge Hj]].
    + apply (entry_for_frame _ _ m _ _ _ Ho); [|apply lookup_lt_Some in Hj; unfold KSYM_SIZE; lia|apply H3; assumption].
      destruct (kept_range k j i Hj). apply (fo_name Hfile); [lia|assumption].
    + apply list_lookup_singleton_Some in Hj as [Hj <-]. replace (Z.of_nat j) with q by lia. exact He.
Qed.

Lemma ksym_loop_spec r : forall k fuel m q,
  (Z.of_nat k + Z.of_nat r = n) -> (r <= fuel)%nat -> table_for k m q ->
  let '(m', q') := ksym_loop fuel m ks strtab_d (sym_at (Z.of_nat k)) (sym + SYM_SIZE * n) q in
  table_for (Z.to_nat n) m' q'.
Proof using Hfile Hn.
  induction r as [|r IH]; intros k fuel m q Hk Hf HT.
  - replace (Z.to_nat n) with k by lia. destruct fuel as [|f]; cbn [ksym_loop]; [exact HT|].
    replace (sym_at (Z.of_nat k) <? sym + SYM_SIZE * n) with false by (unfold sym_at; lia). exact HT.
  - destruct fuel as [|f]; [lia|]. cbn [ksym_loop].
    replace (sym_at (Z.of_nat k) <? sym + SYM_SIZE * n) with true by (unfold sym_at, SYM_SIZE; lia).
    destruct (sym_frame k m q (Z.of_nat k) HT ltac:(lia)) as (En & Ev & _).
    pose proof (table_step k m q HT ltac:(lia)) as Hstep.
    replace (sym_at (Z.of_nat k) + SYM_SIZE) with (sym_at (Z.of_nat (S k))) by (unfold sym_at; lia).
    replace (negb (st_name m (sym_at (Z.of_nat k)) =? 0) && (KERNEL_VIRT <? st_value m (sym_at (Z.of_nat k))))
      with (keep (Z.of_nat k)) by (unfold keep; rewrite En, Ev; reflexivity).
    fold (put_entry m (Z.of_nat k) q). destruct (keep (Z.of_nat k)); apply IH; try assumption; lia.
Qed.
End ksyms.

(** [ksym_diff] of addresses in the kernel's gigabyte is their difference. *)
Lemma kernel_diff a v : KERNEL_VIRT < a < 0x100000000 -> KERNEL_VIRT < v < 0x100000000 -> s32 (a - v) = a - v.
Proof. unfold KERNEL_VIRT. intros. apply s32_small. lia. Qed.

Lemma steps_enough sym n : 0 <= n -> (Z.to_nat n <= steps sym (sym + SYM_SIZE * n) SYM_SIZE)%nat.
Proof. intros. unfold steps, SYM_SIZE. replace (sym + 16 * n - sym) with (n * 16) by lia. rewrite Z.div_mul by lia. lia. Qed.

(** C24: the symbol table round trip.  After [build_ksyms] has read the symbol
    table of the file at [data], [ksym_find] of an address that lies less than
    a page above the start of symbol [i], with no other kept symbol starting
    in between, points at the name of symbol [i] as the file spells it. *)
Theorem ksyms_name_nearest s data lit_sym lit_str ks symtab strtab n name i j addr :
  let m := ks_mem s in
  let sym := u32 (data + sh_offset m symtab) in
  let strtab_d := u32 (data + sh_offset m strtab) in
  find_tables m data lit_sym lit_str = (symtab, strtab) -> symtab <> 0 -> strtab <> 0 -> ks <> 0 ->
  sh_size m symtab = SYM_SIZE * n -> 0 <= n -> sym + SYM_SIZE * n < 0x100000000 ->
  file_ok m ks strtab_d sym n name ->
  kept m sym (Z.to_nat n) !! j = Some i ->
  st_value m (sym_at sym i) < addr < st_value m (sym_at sym i) + 0x1000 -> addr < 0x100000000 ->
  (forall k, 0 <= k < n -> k <> i -> keep m sym k = true ->
     st_value m (sym_at sym k) < st_value m (sym_at sym i) \/ addr <= st_value m (sym_at sym k)) ->
  let s' := parse_ksyms data lit_sym lit_str ks s in
  no_ksym s' = Z.of_nat (length (kept m sym (Z.to_nat n))) /\
  bytes_at (ks_mem s') (ksym_find addr s') (length (name i)) = name i.
Proof.
  intros m sym strtab_d Ht Hsy Hst Hks Hsz Hn Hend Hfile Hj Haddr Hmax Hnear s'.
  assert (HT : table_for m ks sym n name (Z.to_nat n) (ks_mem s') (no_ksym s') /\ kernel_symbols s' = ks).
  { subst s'. unfold parse_ksyms. fold m. rewrite Ht. replace (strtab =? 0) with false by lia.
    replace (symtab =? 0) with false by lia. cbn [orb]. rewrite Hsz. fold sym strtab_d.
    rewrite (u32_small (sym + SYM_SIZE * n)) by (unfold sym, SYM_SIZE in *; pose proof (u32_range (data + sh_offset m symtab)); lia).
    pose proof (ksym_loop_spec m ks strtab_d sym n name Hn Hfile (Z.to_nat n) 0 (steps sym (sym + SYM_SIZE * n) SYM_SIZE) m 0
      ltac:(lia) ltac:(apply steps_enough; assumption)) as HL.
    replace (sym_at sym (Z.of_nat 0)) with sym in HL by (unfold sym_at; lia).
    destruct (ksym_loop _ _ _ _ _ _ _) as [m' q]. cbn [ks_mem no_ksym kernel_symbols]. split; [|reflexivity]. apply HL.
    split; [apply same_outside_refl|]. split; [reflexivity|]. intros ? ?; discriminate. }
  destruct HT as [(Hout & Hq & Hent) Hbase]. split; [exact Hq|].
  assert (Hd : forall j' i', kept m sym (Z.to_nat n) !! j' = Some i' ->
    ksym_diff s' addr (Z.of_nat j') = addr - st_value m (sym_at sym i')).
  { intros j' i' Hj'. destruct (Hent j' i' Hj') as [Ha _]. destruct (kept_range _ _ _ _ _ Hj') as [Hr Hk].
    destruct (kept_range _ _ _ _ _ Hj) as [_ Hki]. unfold keep in Hk, Hki.
    unfold ksym_diff. rewrite Hbase, Ha. pose proof (load32_range m (sym_at sym i' + 4)).
    apply kernel_diff; unfold st_value in *; lia. }
  pose proof (lookup_lt_Some _ _ _ Hj) as Hjl.
  unfold ksym_find. rewrite Hbase. replace (ks =? 0) with false by lia.
  rewrite (ksym_match_closest addr s' (Z.of_nat j)).
  - apply (Hent j i Hj).
  - lia.
  - rewrite (Hd j i Hj). lia.
  - intros x Hx Hne Hpos. rewrite Hq in Hx. destruct (kept m sym (Z.to_nat n) !! Z.to_nat x) as [i'|] eqn:Ex;
      [|apply lookup_ge_None in Ex; lia].
    pose proof (Hd _ _ Ex) as E1. rewrite Z2Nat.id in E1 by lia. rewrite E1 in Hpos |- *. rewrite (Hd j i Hj).
    destruct (kept_range _ _ _ _ _ Ex) as [Hr Hk].
    destruct (Z.eq_dec i' i) as [->|Hi]; [|destruct (Hnear i' ltac:(lia) Hi Hk); lia].
    exfalso. apply Hne. pose proof (kept_inj m sym (Z.to_nat n) _ _ i Ex Hj). lia.
Qed.

(** A file at 0xC0310000 with sections .symtab, .strtab and .shstrtab, and two
    kernel symbols, [main] at 0xC0100010 and [trap] at 0xC0100200. *)
Definition words_at (m : mem) (a : Z) (ws : list Z) : mem :=
  foldl (fun m '(i, w) => store32 m (a + 4 * i) w) m (imap (fun i w => (Z.of_nat i, w)) ws).
Definition demo_elf : mem :=
  let m := words_at ∅ 0xC0310000 [ELF_MAGIC; 0; 0; 0; 0x30002; 1; 0; 0; 52; 0; 52; 0x280000; 0x30004] in
  let m := words_at m 0xC031005C [1; 2; 0; 0; 0x200; 48] in       (* .symtab *)
  let m := words_at m 0xC0310084 [9; 3; 0; 0; 0x300; 16] in       (* .strtab *)
  let m := words_at m 0xC03100AC [17; 3; 0; 0; 0x400; 32] in      (* .shstrtab *)
  let m := words_at m 0xC0310200 [0; 0; 0; 0; 1; 0xC0100010; 0x40; 0; 6; 0xC0100200; 0x80; 0] in
  let m := put_str m 0xC0310301 [109; 97; 105; 110] in
  let m := put_str m 0xC0310306 [116; 114; 97; 112] in
  let m := put_str m 0xC0310401 [46; 115; 121; 109; 116; 97; 98] in
  let m := put_str m 0xC0310409 [46; 115; 116; 114; 116; 97; 98] in
  let m := put_str m 0xC0310411 [46; 115; 104; 115; 116; 114; 116; 97; 98] in
  let m := put_str m 0xC0108000 [46; 115; 121; 109; 116; 97; 98] in
  put_str m 0xC0108010 [46; 115; 116; 114; 116; 97; 98].
Definition demo_name (i : Z) : list Z := if i =? 1 then [109; 97; 105; 110] else [116; 114; 97; 112].

Lemma demo_file_ok : file_ok demo_elf 0xC0320000 0xC0310300 0xC0310200 3 demo_name.
Proof.
  assert (Hi : forall i, 0 <= i < 3 -> keep demo_elf 0xC0310200 i = true -> i = 1 \/ i = 2).
  { intros i Hi Hk. destruct (Z.eq_dec i 0) as [->|]; [vm_compute in Hk; discriminate|lia]. }
  split.
  - intros i Hr Hk. destruct (Hi i Hr Hk) as [-> | ->]; (split; [apply is_cstr_sound; vm_compute; reflexivity|simpl; lia]).
  - intros i Hr Hk. left. destruct (Hi i Hr Hk) as [-> | ->]; vm_compute; discriminate.
  - left. unfold SYM_SIZE. lia.
Qed.

Lemma ksyms_name_nearest_witness :
  let s' := parse_ksyms 0xC0310000 0xC0108000 0xC0108010 0xC0320000 (MkKsym demo_elf 0 0) in
  no_ksym s' = 2 /\ bytes_at (ks_mem s') (ksym_find 0xC0100234 s') 4 = [116; 114; 97; 112].
Proof.
  pose proof (ksyms_name_nearest (MkKsym demo_elf 0 0) 0xC0310000 0xC0108000 0xC0108010 0xC0320000 0xC031005C 0xC0310084 3
           demo_name 2 1 0xC0100234) as H. cbv zeta in H. cbn [ks_mem] in H.
  assert (E1 : u32 (0xC0310000 + sh_offset demo_elf 0xC031005C) = 0xC0310200) by (vm_compute; reflexivity).
  assert (E2 : u32 (0xC0310000 + sh_offset demo_elf 0xC0310084) = 0xC0310300) by (vm_compute; reflexivity).
  assert (E3 : kept demo_elf 0xC0310200 (Z.to_nat 3) = [1; 2]) by (vm_compute; reflexivity).
  assert (E4 : st_value demo_elf (sym_at 0xC0310200 2) = 0xC0100200) by (vm_compute; reflexivity).
  assert (Et : find_tables demo_elf 0xC0310000 0xC0108000 0xC0108010 = (0xC031005C, 0xC0310084)) by (vm_compute; reflexivity).
  assert (Es : sh_size demo_elf 0xC031005C = SYM_SIZE * 3) by (vm_compute; reflexivity).
  assert (Hn : forall k, 0 <= k < 3 -> k <> 2 -> keep demo_elf 0xC0310200 k = true ->
    st_value demo_elf (sym_at 0xC0310200 k) < 0xC0100200 \/ 0xC0100234 <= st_value demo_elf (sym_at 0xC0310200 k)).
  { intros k Hk Hne Hkeep. left. assert (k = 1) as ->; [|vm_compute; reflexivity].
    destruct (Z.eq_dec k 0) as [->|]; [vm_compute in Hkeep; discriminate|lia]. }
  rewrite E1, E2, E3, E4 in H.
  apply (H Et ltac:(lia) ltac:(lia) ltac:(lia) Es ltac:(lia) ltac:(reflexivity) demo_file_ok eq_refl ltac:(lia) ltac:(lia) Hn).
Defined.

(** [ksym_find] compares with [diff > 0]: an address at which a symbol
    starts is not found there, and an address with no symbol less than a page
    below it gets the name of the first symbol of the table. *)
Theorem ksym_find_misses addr s :
  kernel_symbols s <> 0 ->
  (forall i, 0 <= i < no_ksym s -> ~ 0 < ksym_diff s addr i < 0x1000) ->
  ksym_find addr s = kernel_symbols s + ks_name.
Proof.
  intros Hk Hno. unfold ksym_find. replace (kernel_symbols s =? 0) with false by lia.
  pose proof (ksym_match_spec addr s _ eq_refl) as H. destruct (ksym_match addr s) as [r d].
  destruct H as [(-> & _)|(Hr & -> & Hd & _)]; [cbn [fst]; lia|]. exfalso. apply (Hno r); [lia|assumption].
Qed.

Lemma ksym_find_misses_witness :
  let s' := parse_ksyms 0xC0310000 0xC0108000 0xC0108010 0xC0320000 (MkKsym demo_elf 0 0) in
  ksym_find 0xC0108000 s' = kernel_symbols s' + ks_name.
Proof.
  intros s'. assert (En : no_ksym s' = 2) by (vm_compute; reflexivity).
  apply (ksym_find_misses 0xC0108000 s').
  - vm_compute. discriminate.
  - rewrite En. intros i Hi. assert (i = 0 \/ i = 1) as [-> | ->] by lia; vm_compute; intros [_ H]; discriminate.
Defined.
