(* ===== verification/AddrSpace.v ===== *)
(** * Address spaces of user programs

    A page directory that [k_create_pagedir] makes ends in two slots that are
    not tables of its own: 1022 holds the kernel's directory and 1023 the
    directory itself.  [space] is the invariant of such a directory: below slot
    1022 every slot holds a table of its own.  Mapping a page then changes the
    translation of that page and of no other, also when the table is new.
    [uspace] adds the page allocator and the pages mapped so far; [map_user] is
    the pair of calls [k_page_alloc] and [_paging_map] by which the ELF loader
    and [sys_sbrk] extend a program's memory. *)

From stdpp Require Import base numbers list gmap.
From Stdlib Require Import ZArith Lia.
From S2P Require Import Prelude Memory CString Mm Paging Malloc HeapPages.
Open Scope Z_scope.

(** [_paging_map(pd, k_page_alloc(), virt, flags)] *)
Definition map_user (pd virt flags : Z) : M pg_state unit := fun s =>
  match k_page_alloc (pg_mm s) with
  | Ok r x => (phys <-- use r ;; modify (_paging_map pd phys virt flags)) (set_mm x s)
  | Spin => Spin
  | Undef => Undef
  end.

(** The new address space that [elf_load] makes and enters. *)
Definition new_space : M pg_state Z :=
  elf_pd <-- k_create_pagedir 0x0 0 0x7 ;;
  modify (k_map_kernel elf_pd) ;;;
  modify (k_swap_pd elf_pd) ;;;
  ret elf_pd.

Record space (s : pg_state) (pd : Z) : Prop := {
  sp_ok : mm_heap_ok (pg_mm s);
  sp_bits : KERNEL_VIRT + 0x1000 <= MM_CURRENT_PD (pg_mm s) /\ MM_CURRENT_PD (pg_mm s) + 128 <= MM_CURRENT_PT (pg_mm s) /\
            MM_CURRENT_PT (pg_mm s) + 128 <= MM_HEAP (pg_mm s) /\ MM_HEAP (pg_mm s) < MM_HEAP_MAX;
  sp_dir : in_window pd /\ pd + 0x1000 <= MM_HEAP (pg_mm s) /\
           MM_CURRENT_PT (pg_mm s) + 128 <= pd;
  sp_slot : forall i, 0 <= i < 1022 -> let e := ldw (pg_mem s) pd i in e <> 0 ->
    present e = true /\ e mod 0x1000 < 0x400 /\ 0x1000 <= e /\ page_base e + KERNEL_VIRT + 0x1000 <= MM_HEAP (pg_mm s) /\
    page_base e + KERNEL_VIRT <> pd /\
    MM_CURRENT_PT (pg_mm s) + 128 <= page_base e + KERNEL_VIRT;
  sp_inj : forall i j, 0 <= i < 1022 -> 0 <= j < 1022 -> i <> j ->
    ldw (pg_mem s) pd i <> 0 -> ldw (pg_mem s) pd j <> 0 ->
    page_base (ldw (pg_mem s) pd i) <> page_base (ldw (pg_mem s) pd j);
  sp_fresh : forall a, MM_HEAP (pg_mm s) <= a < MM_HEAP_MAX -> load8 (pg_mem s) a = 0;
}.

(** The addresses of the first 1022 slots. *)
Definition SPACE_TOP : Z := 1022 * 0x400000.

Lemma space_index va : 0 <= va < SPACE_TOP -> 0 <= va / 0x400000 < 1022.
Proof. unfold SPACE_TOP. intros. dlia. Qed.

Lemma heap_window h : KERNEL_VIRT + 0x1000 <= h -> h < MM_HEAP_MAX -> h mod 0x1000 = 0 -> in_window h.
Proof. unfold in_window, KERNEL_VIRT, MM_HEAP_MAX. lia. Qed.

Section slots.
Context (s : pg_state) (pd : Z).
Hypothesis Hsp : space s pd.
Let m := pg_mem s.

Lemma space_slot i : 0 <= i < 1022 -> ldw m pd i <> 0 ->
  frame_of (ldw m pd i) = page_base (ldw m pd i) /\ 0 < page_base (ldw m pd i) < 0x300000 /\
  P2V (page_base (ldw m pd i)) = page_base (ldw m pd i) + KERNEL_VIRT /\
  in_window (page_base (ldw m pd i) + KERNEL_VIRT).
Proof.
  intros Hi Hnz. destruct (sp_slot _ _ Hsp i Hi Hnz) as (_ & Hf & Hlo & Hhi & _). fold m in Hf, Hlo, Hhi.
  pose proof (sp_bits _ _ Hsp) as Hb. unfold page_base, KERNEL_VIRT, MM_HEAP_MAX in *.
  split; [rewrite frame_of_eq by apply load32_range; dlia|]. split; [dlia|].
  split; [apply P2V_low; dlia|]. unfold in_window, KERNEL_VIRT. dlia.
Qed.

Lemma space_empty i : 0 <= i < 1022 -> (frame_of (ldw m pd i) =? 0) = (ldw m pd i =? 0).
Proof.
  intros Hi. destruct (Z.eqb_spec (ldw m pd i) 0) as [->|Hnz]; [reflexivity|].
  destruct (space_slot i Hi Hnz) as (-> & H & _). lia.
Qed.

(** A table that was just taken from the heap is empty. *)
Lemma fresh_table j : 0 <= j < 1024 -> ldw m (MM_HEAP (pg_mm s)) j = 0.
Proof.
  intros Hj. pose proof (sp_bits _ _ Hsp) as Hb. pose proof (proj2 (sp_ok _ _ Hsp)) as Ha.
  unfold ldw. rewrite word_window; [|apply heap_window; lia|lia].
  assert (Hz : forall o, 0 <= o < 4 -> load8 m (MM_HEAP (pg_mm s) + 4 * j + o) = 0).
  { intros o Ho. apply (sp_fresh _ _ Hsp). unfold MM_HEAP_MAX in *. dlia. }
  pose proof (Hz 0 ltac:(lia)) as H0. rewrite Z.add_0_r in H0. unfold load32. rewrite H0, !Hz by lia. reflexivity.
Qed.
End slots.

Section map_space.
Context (s : pg_state) (pd phys virt flags : Z).
Hypothesis Hsp : space s pd.
Hypothesis Hv : 0 <= virt < SPACE_TOP.
Hypothesis Hphys : 0 <= phys < 0x100000000 /\ phys mod 0x1000 = 0.
Hypothesis Hfl : 0 <= flags < 0x400.
Hypothesis Hodd : present flags = true.
Hypothesis Hroom : ldw (pg_mem s) pd (virt / 0x400000) = 0 -> MM_HEAP (pg_mm s) + 0x4000 < MM_HEAP_MAX.

Let m := pg_mem s.
Let pdi := virt / 0x400000.
Let pti := (virt / 0x1000) mod 1024.
Let h := MM_HEAP (pg_mm s).
Let new := ldw m pd pdi =? 0.
Let pt := if new then h else page_base (ldw m pd pdi) + KERNEL_VIRT.
Let s' := _paging_map pd phys virt flags s.
Let m' := pg_mem s'.
Let h' := if new then h + 0x4000 else h.

Lemma sm_pt : in_window pt /\ pt <> pd /\ pt + 0x1000 <= h' /\ KERNEL_VIRT + 0x1000 <= pt /\
  MM_CURRENT_PT (pg_mm s) + 128 <= pt.
Proof using Hsp Hv.
  clear Hfl Hphys Hodd Hroom.
  pose proof (space_index virt Hv) as Hi. pose proof (sp_bits _ _ Hsp) as Hb. pose proof (sp_dir _ _ Hsp) as Hd.
  unfold pt, h', new. fold m. destruct (Z.eqb_spec (ldw m pd pdi) 0) as [E|Hnz].
  - pose proof (proj2 (sp_ok _ _ Hsp)) as Ha. fold h in Hb, Hd, Ha. split; [apply heap_window; lia|]. lia.
  - destruct (sp_slot _ _ Hsp pdi Hi Hnz) as (_ & H1 & H2 & H3 & H4 & H5). fold m h in H1, H2, H3, H4, H5.
    destruct (space_slot s pd Hsp pdi Hi Hnz) as (_ & H6 & _ & H7). fold m in H6, H7.
    split; [exact H7|]. split; [exact H4|]. split; [exact H3|]. split; [unfold page_base in *; dlia|exact H5].
Qed.

Lemma sm_state :
  s' = set_mm (set_mem (stw (stw m pt pti (phys + flags)) pd pdi (pt - KERNEL_VIRT + flags)) (set_heap h' (pg_mm s))) s.
Proof.
  pose proof (space_index virt Hv) as Hi. destruct sm_pt as (Hw & Hne & _).
  pose proof (V2P_window pt Hw) as Hvp. destruct Hw as [Hw Ha].
  assert (Eor : phys .| flags = phys + flags /\ (pt - KERNEL_VIRT) .| flags = pt - KERNEL_VIRT + flags).
  { split; apply or_flags; try assumption; [apply Hphys|unfold KERNEL_VIRT; dlia]. }
  destruct Eor as [E1 E2].
  unfold s', _paging_map. rewrite pd_index_eq, pt_index_eq. fold m pdi pti. rewrite (space_empty s pd Hsp) by assumption.
  unfold pt, h', new in *. fold m in E1, E2, Hvp |- *. destruct (Z.eqb_spec (ldw m pd pdi) 0) as [E|Hnz]; cbn [negb].
  - destruct (mm_alloc_cases 0x1000 _ (sp_ok _ _ Hsp) ltac:(lia)) as [[Hf _]|[_ ->]]; [specialize (Hroom E); lia|].
    cbn. fold h. rewrite Hvp, E1, E2. reflexivity.
  - destruct (space_slot s pd Hsp pdi Hi Hnz) as (Ef & _ & Ep & _). fold m in Ef, Ep. rewrite Ef, Ep.
    rewrite Hvp, E1, E2. destruct s as [[] ? ? ?]. reflexivity.
Qed.

Lemma sm_fields : MM_CURRENT_PD (pg_mm s') = MM_CURRENT_PD (pg_mm s) /\ MM_CURRENT_PT (pg_mm s') = MM_CURRENT_PT (pg_mm s) /\
  MM_HEAP (pg_mm s') = h' /\ CURRENT_PAGE_DIRECTORY s' = CURRENT_PAGE_DIRECTORY s /\
  KERNEL_PAGE_DIRECTORY s' = KERNEL_PAGE_DIRECTORY s.
Proof. rewrite sm_state. repeat split; reflexivity. Qed.

Lemma sm_slot i : 0 <= i < 1024 -> ldw m' pd i = if i =? pdi then pt - KERNEL_VIRT + flags else ldw m pd i.
Proof.
  intros Hi. pose proof (space_index virt Hv) as Hpi. destruct sm_pt as (Hw & Hne & _). pose proof (proj1 (sp_dir _ _ Hsp)) as Hd.
  pose proof (pt_index_range virt). unfold m'. rewrite sm_state. cbn [pg_mem set_mm pg_mm set_mem mm_mem].
  rewrite !ldw_stw by (assumption || lia). rewrite Z.eqb_refl. replace (pd =? pt) with false by lia. cbn [andb].
  destruct (i =? pdi); [|reflexivity]. apply u32_small. unfold in_window, KERNEL_VIRT in *. lia.
Qed.

Lemma sm_entry q j : in_window q -> q <> pd -> 0 <= j < 1024 ->
  ldw m' q j = if (q =? pt) && (j =? pti) then phys + flags else ldw m q j.
Proof.
  intros Hq Hne Hj. pose proof (space_index virt Hv) as Hpi. destruct sm_pt as (Hw & _). pose proof (proj1 (sp_dir _ _ Hsp)) as Hd.
  pose proof (pt_index_range virt). unfold m'. rewrite sm_state. cbn [pg_mem set_mm pg_mm set_mem mm_mem].
  rewrite !ldw_stw by (assumption || lia). replace (q =? pd) with false by lia. cbn [andb].
  destruct ((q =? pt) && (j =? pti)); [|reflexivity]. apply u32_small. dlia.
Qed.

(** Only the directory and the table change. *)
Lemma sm_bytes a : a < pd \/ pd + 0x1000 <= a -> a < pt \/ pt + 0x1000 <= a -> load8 m' a = load8 m a.
Proof.
  intros H1 H2. destruct sm_pt as (Hw & _). pose proof (space_index virt Hv). unfold m'. rewrite sm_state.
  cbn [pg_mem set_mm pg_mm set_mem mm_mem].
  rewrite stw_other; [|apply (sp_dir _ _ Hsp)|lia|assumption]. apply stw_other; [assumption|apply pt_index_range|assumption].
Qed.

Lemma sm_base : page_base (pt - KERNEL_VIRT + flags) = pt - KERNEL_VIRT /\ P2V (pt - KERNEL_VIRT) = pt.
Proof.
  destruct sm_pt as ((Hw & Ha) & _). unfold page_base, KERNEL_VIRT in *. split; [dlia|].
  rewrite P2V_low by lia. unfold KERNEL_VIRT. lia.
Qed.

Lemma sm_space : space s' pd.
Proof.
  destruct sm_fields as (Ed & Et & Eh & _). destruct sm_pt as (Hw & Hne & Hend & Hlo & Hout). destruct sm_base as [Hb1 Hb2].
  pose proof (sp_ok _ _ Hsp) as [Hok Hal]. pose proof (sp_bits _ _ Hsp) as Hbits. pose proof (sp_dir _ _ Hsp) as Hd.
  pose proof (space_index virt Hv) as Hpi. fold h in Hok, Hal, Hbits, Hd.
  assert (Hh : h <= h' /\ h' mod 0x1000 = 0 /\ h' < MM_HEAP_MAX /\ 0 < h').
  { unfold h', new. destruct (Z.eqb_spec (ldw m pd pdi) 0) as [E|_]; [specialize (Hroom E); fold h in Hroom; dlia|lia]. }
  split; rewrite ?Ed, ?Et, ?Eh.
  - split; rewrite Eh; lia.
  - lia.
  - split; [apply Hd|]. split; [lia|apply Hd].
  - intros i Hi. fold m'. rewrite sm_slot by lia. cbn zeta. destruct (Z.eqb_spec i pdi) as [->|Hi2].
    + intros _. rewrite Hb1. destruct Hw as [Hw Ha]. unfold KERNEL_VIRT, page_base in *.
      split; [rewrite present_entry; [exact Hodd|dlia]|].
      split; [dlia|]. split; [lia|]. split; [lia|]. split; [lia|]. lia.
    + intros Hnz. destruct (sp_slot _ _ Hsp i Hi Hnz) as (H0 & H1 & H2 & H3 & H4 & H5). fold m h in H0, H1, H2, H3, H4, H5.
      split; [exact H0|]. split; [exact H1|]. split; [exact H2|]. split; [lia|]. split; [exact H4|exact H5].
  - assert (Hsep : forall j, 0 <= j < 1022 -> j <> pdi -> ldw m pd j <> 0 -> pt - KERNEL_VIRT <> page_base (ldw m pd j)).
    { intros j Hj Hjp Hnz. destruct (sp_slot _ _ Hsp j Hj Hnz) as (_ & _ & _ & H3 & _). fold m h in H3.
      unfold pt, new. destruct (Z.eqb_spec (ldw m pd pdi) 0) as [E|Hnz2]; [lia|].
      pose proof (sp_inj _ _ Hsp j pdi Hj Hpi Hjp Hnz Hnz2) as Hn. fold m in Hn. lia. }
    intros i j Hi Hj Hij. fold m'. rewrite !sm_slot by lia.
    destruct (Z.eqb_spec i pdi) as [->|Hi2]; destruct (Z.eqb_spec j pdi) as [->|Hj2]; rewrite ?Hb1.
    + congruence.
    + intros _ Hnz. apply Hsep; assumption.
    + intros Hnz _. apply not_eq_sym, Hsep; assumption.
    + apply (sp_inj _ _ Hsp); assumption.
  - intros a Ha. fold m'. rewrite sm_bytes by lia. apply (sp_fresh _ _ Hsp). fold h. lia.
Qed.

(** The translation of every other page is as before. *)
Lemma sm_walk va : 0 <= va < SPACE_TOP ->
  mmu m' pd va = if va / 0x1000 =? virt / 0x1000 then Some (phys + va mod 0x1000) else mmu m pd va.
Proof.
  intros Hva. pose proof (space_index va Hva) as Hi. pose proof (space_index virt Hv) as Hpi.
  pose proof (pt_index_range va) as Hj. destruct sm_pt as (Hw & Hne & _). destruct sm_base as [Hb1 Hb2].
  unfold mmu. rewrite sm_slot by lia. destruct (Z.eqb_spec (va / 0x400000) pdi) as [Es|Hs].
  - rewrite Hb1, Hb2, present_entry, Hodd by (destruct Hw; unfold KERNEL_VIRT; dlia).
    rewrite sm_entry by assumption. rewrite Z.eqb_refl. cbn [andb].
    destruct (Z.eqb_spec (va / 0x1000) (virt / 0x1000)) as [Ep|Hp].
    + unfold pti. rewrite Ep, Z.eqb_refl, present_entry, Hodd by apply Hphys. f_equal. unfold page_base.
      destruct Hphys. dlia.
    + unfold pti. rewrite (other_page_index va virt Hp Es). rewrite Es. unfold pt, new.
      destruct (Z.eqb_spec (ldw m pd pdi) 0) as [E|Hnz].
      * rewrite E. unfold h, m. rewrite (fresh_table s pd Hsp) by assumption. reflexivity.
      * destruct (space_slot s pd Hsp pdi Hpi Hnz) as (_ & _ & Ep & _). fold m in Ep. rewrite Ep.
        pose proof (proj1 (sp_slot _ _ Hsp pdi Hpi Hnz)) as Hpr. fold m in Hpr. rewrite Hpr. reflexivity.
  - replace (va / 0x1000 =? virt / 0x1000) with false by (symmetry; apply Z.eqb_neq; intros E; apply Hs; dlia).
    destruct (present (ldw m pd (va / 0x400000))) eqn:Hp; [|reflexivity].
    assert (Hnz : ldw m pd (va / 0x400000) <> 0) by (intros E; rewrite E in Hp; discriminate).
    destruct (space_slot s pd Hsp _ Hi Hnz) as (_ & _ & Ep & Hw2). fold m in Ep, Hw2. rewrite Ep.
    destruct (sp_slot _ _ Hsp _ Hi Hnz) as (_ & _ & _ & H3 & H4 & _). fold m h in H3, H4.
    rewrite sm_entry by assumption.
    replace (page_base (ldw m pd (va / 0x400000)) + KERNEL_VIRT =? pt) with false; [reflexivity|].
    symmetry. apply Z.eqb_neq. unfold pt, new. destruct (Z.eqb_spec (ldw m pd pdi) 0) as [E|Hnz2]; [lia|].
    pose proof (sp_inj _ _ Hsp _ _ Hi Hpi Hs Hnz Hnz2) as Hn. fold m pdi in Hn. lia.
Qed.
End map_space.

(** ** The page allocator and the mapped pages *)

(** Everything below the bitmaps and above the bump allocator's memory keeps
    its bytes; the heap pointer only grows. *)
Record extends (s s' : pg_state) : Prop := {
  ex_PD : MM_CURRENT_PD (pg_mm s') = MM_CURRENT_PD (pg_mm s);
  ex_PT : MM_CURRENT_PT (pg_mm s') = MM_CURRENT_PT (pg_mm s);
  ex_cur : CURRENT_PAGE_DIRECTORY s' = CURRENT_PAGE_DIRECTORY s;
  ex_kern : KERNEL_PAGE_DIRECTORY s' = KERNEL_PAGE_DIRECTORY s;
  ex_heap : MM_HEAP (pg_mm s) <= MM_HEAP (pg_mm s');
  ex_bytes : forall a, a < MM_CURRENT_PD (pg_mm s) \/ MM_HEAP_MAX <= a -> load8 (pg_mem s') a = load8 (pg_mem s) a;
}.

Lemma extends_refl s : extends s s.
Proof. split; reflexivity || lia. Qed.

Lemma extends_trans s1 s2 s3 : extends s1 s2 -> extends s2 s3 -> extends s1 s3.
Proof.
  intros [A1 A2 A3 A4 A5 A6] [B1 B2 B3 B4 B5 B6]. split; try congruence; [lia|].
  intros a Ha. rewrite B6, A6 by (rewrite ?A1; assumption). reflexivity.
Qed.

Lemma map_extends s pd phys virt flags :
  space s pd -> 0 <= virt < SPACE_TOP -> 0 <= phys < 0x100000000 /\ phys mod 0x1000 = 0 -> 0 <= flags < 0x400 ->
  (ldw (pg_mem s) pd (virt / 0x400000) = 0 -> MM_HEAP (pg_mm s) + 0x4000 < MM_HEAP_MAX) ->
  let s' := _paging_map pd phys virt flags s in
  extends s s' /\ MM_HEAP (pg_mm s') <= MM_HEAP (pg_mm s) + 0x4000 /\
  (ldw (pg_mem s) pd (virt / 0x400000) <> 0 -> MM_HEAP (pg_mm s') = MM_HEAP (pg_mm s)) /\
  (forall a, MM_CURRENT_PD (pg_mm s) <= a < MM_CURRENT_PT (pg_mm s) + 128 -> load8 (pg_mem s') a = load8 (pg_mem s) a).
Proof.
  intros Hsp Hv Hp Hf Hr s'. destruct (sm_fields s pd phys virt flags Hsp Hv Hp Hf Hr) as (Ed & Et & Eh & Ec & Ek).
  destruct (sm_pt s pd virt Hsp Hv) as ((Hw & Ha) & _ & Hend & Hlo & Hout). fold s' in Ed, Et, Eh, Ec, Ek.
  pose proof (sp_dir _ _ Hsp) as ((Hdw & Hda) & Hde & Hdo). pose proof (sp_bits _ _ Hsp) as Hb.
  assert (Hlt : MM_HEAP (pg_mm s') < MM_HEAP_MAX).
  { rewrite Eh. destruct (Z.eqb_spec (ldw (pg_mem s) pd (virt / 0x400000)) 0) as [E|_]; [apply Hr; exact E|lia]. }
  rewrite <- Eh in Hend. split; [split; try assumption|split; [|split]].
  - rewrite Eh. destruct (_ =? 0); lia.
  - intros a Hb'. unfold s'. apply sm_bytes; try assumption; unfold KERNEL_VIRT in *; lia.
  - rewrite Eh. destruct (_ =? 0); lia.
  - intros Hnz. rewrite Eh. destruct (Z.eqb_spec (ldw (pg_mem s) pd (virt / 0x400000)) 0); [contradiction|reflexivity].
  - intros a Hz. unfold s'. apply sm_bytes; try assumption; lia.
Qed.

(** [Mp] gives the frame of each user page that is mapped. *)
Record uspace (s : pg_state) (pd : Z) (P : pool) (Mp : gmap Z Z) : Prop := {
  us_space : space s pd;
  us_pool : pool_rel (pg_mm s) P;
  us_region : 1 <= region P < 768;
  us_used : forall i, i ∈ used P -> 0 <= i < 1024;
  us_user : forall va, 0 <= va < KERNEL_VIRT ->
    mmu (pg_mem s) pd va = (fun f => f + va mod 0x1000) <$> Mp !! (va / 0x1000);
  us_kern : forall va, KERNEL_VIRT <= va < KERNEL_VIRT + 0x400000 -> mmu (pg_mem s) pd va = Some (va - KERNEL_VIRT);
  us_frame : forall v f, Mp !! v = Some f -> exists p, f = page_addr (region P) p /\ p ∈ used P;
  us_inj : forall v w f, Mp !! v = Some f -> Mp !! w = Some f -> v = w;
}.

(** Marking a page in the bitmap leaves the directory and its tables alone. *)
Lemma space_frame s s' pd :
  space s pd -> MM_CURRENT_PD (pg_mm s') = MM_CURRENT_PD (pg_mm s) -> MM_CURRENT_PT (pg_mm s') = MM_CURRENT_PT (pg_mm s) ->
  MM_HEAP (pg_mm s') = MM_HEAP (pg_mm s) ->
  (forall a, KERNEL_VIRT <= a < MM_HEAP_MAX ->
     a < MM_CURRENT_PD (pg_mm s) \/ MM_CURRENT_PT (pg_mm s) + 128 <= a -> load8 (pg_mem s') a = load8 (pg_mem s) a) ->
  space s' pd /\ (forall va, 0 <= va < SPACE_TOP -> mmu (pg_mem s') pd va = mmu (pg_mem s) pd va).
Proof.
  intros Hsp Ed Et Eh Hm. pose proof (sp_dir _ _ Hsp) as (Hdw & Hde & Hdo). pose proof (sp_bits _ _ Hsp) as Hb.
  assert (Hpage : forall q j, in_window q -> q + 0x1000 <= MM_HEAP (pg_mm s) ->
    MM_CURRENT_PT (pg_mm s) + 128 <= q -> 0 <= j < 1024 ->
    ldw (pg_mem s') q j = ldw (pg_mem s) q j).
  { intros q j Hq He Ho Hj. apply ldw_frame; [assumption|assumption|]. intros a Ha. destruct Hq.
    apply Hm; lia. }
  assert (Hdir : forall i, 0 <= i < 1024 -> ldw (pg_mem s') pd i = ldw (pg_mem s) pd i) by (intros; apply Hpage; assumption).
  split.
  - split; rewrite ?Ed, ?Et, ?Eh.
    + destruct (sp_ok _ _ Hsp). split; rewrite Eh; assumption.
    + exact Hb.
    + split; [exact Hdw|split; assumption].
    + intros i Hi. rewrite Hdir by lia. apply (sp_slot _ _ Hsp i Hi).
    + intros i j Hi Hj. rewrite !Hdir by lia. apply (sp_inj _ _ Hsp i j Hi Hj).
    + intros a Ha. rewrite Hm by lia. apply (sp_fresh _ _ Hsp a Ha).
  - intros va Hva. pose proof (space_index va Hva) as Hi. unfold mmu. rewrite Hdir by lia.
    destruct (present (ldw (pg_mem s) pd (va / 0x400000))) eqn:Hp; [|reflexivity].
    assert (Hnz : ldw (pg_mem s) pd (va / 0x400000) <> 0) by (intros E; rewrite E in Hp; discriminate).
    destruct (space_slot s pd Hsp _ Hi Hnz) as (_ & _ & Ep & Hw2). rewrite Ep.
    destruct (sp_slot _ _ Hsp _ Hi Hnz) as (_ & _ & _ & H3 & _ & H5).
    rewrite Hpage; [reflexivity|assumption..|apply pt_index_range].
Qed.

(** A frame that no page of the pool has; the pool's pages only become more. *)
Definition fresh_frame (P : pool) (f : Z) : Prop := forall p, p ∈ used P -> f <> page_addr (region P) p.
Definition pool_grows (P P' : pool) : Prop := region P' = region P /\ used P ⊆ used P'.

Lemma fresh_frame_grows P P' f : pool_grows P P' -> fresh_frame P' f -> fresh_frame P f.
Proof. intros [Er Hu] Hf p Hp. rewrite <- Er. apply Hf, Hu, Hp. Qed.

Lemma pool_grows_trans P1 P2 P3 : pool_grows P1 P2 -> pool_grows P2 P3 -> pool_grows P1 P3.
Proof. intros [E1 H1] [E2 H2]. split; [congruence|]. intros i Hi. apply H2, H1, Hi. Qed.

Lemma fresh_unmapped s pd P Mp f v : uspace s pd P Mp -> fresh_frame P f -> Mp !! v <> Some f.
Proof. intros Hus Hf Hv. destruct (us_frame _ _ _ _ Hus v f Hv) as (p & E & Hp). exact (Hf p Hp E). Qed.

Lemma map_user_spec s pd P Mp virt flags :
  uspace s pd P Mp -> 0 <= virt < KERNEL_VIRT -> 0 <= flags < 0x400 -> present flags = true ->
  (size (used P) < 1024)%nat -> MM_HEAP (pg_mm s) + 0x4000 < MM_HEAP_MAX ->
  exists f P' s', map_user pd virt flags s = Ok tt s' /\ uspace s' pd P' (<[virt / 0x1000 := f]> Mp) /\
    extends s s' /\ MM_HEAP (pg_mm s') <= MM_HEAP (pg_mm s) + 0x4000 /\
    (size (used P') <= S (size (used P)))%nat /\
    (0x400000 <= f < KERNEL_VIRT - 0xFFF /\ f mod 0x1000 = 0) /\ fresh_frame P f /\ pool_grows P P'.
Proof.
  intros [Hsp Hpool Hreg Hused Huser Hkern Hframe Hinj] Hv Hf Hpr Hsz Hroom.
  destruct (pool_has_page P Hused Hsz) as (p & Hp & Hpb & Hpu).
  destruct (k_page_alloc_page _ P p Hpool ltac:(lia) Hp Hpb) as [Ea HR].
  set (P1 := MkPool (region P) ({[p]} ∪ used P) (heap P)) in HR.
  set (s1 := set_mm (set_mem (mm_bitmap_set_bit (mm_mem (pg_mm s)) (MM_CURRENT_PT (pg_mm s)) p) (pg_mm s)) s).
  set (f := page_addr (region P) p) in *. pose proof (sp_bits _ _ Hsp) as Hb.
  assert (Hfr : 0x400000 <= f < KERNEL_VIRT - 0xFFF /\ f mod 0x1000 = 0) by (unfold f, page_addr, KERNEL_VIRT; dlia).
  assert (Hbit : forall a, a < MM_CURRENT_PT (pg_mm s) \/ MM_CURRENT_PT (pg_mm s) + 128 <= a -> load8 (pg_mem s1) a = load8 (pg_mem s) a).
  { intros a Ha. apply set_bit_bytes; assumption. }
  destruct (space_frame s s1 pd Hsp eq_refl eq_refl eq_refl) as [Hsp1 Hwalk1].
  { intros a _ Ha. apply Hbit. lia. }
  assert (Hv' : 0 <= virt < SPACE_TOP) by (unfold SPACE_TOP, KERNEL_VIRT in *; lia).
  assert (Hf' : 0 <= f < 0x100000000 /\ f mod 0x1000 = 0) by (unfold KERNEL_VIRT in *; lia).
  assert (Hr1 : ldw (pg_mem s1) pd (virt / 0x400000) = 0 -> MM_HEAP (pg_mm s1) + 0x4000 < MM_HEAP_MAX) by (intros _; exact Hroom).
  set (s2 := _paging_map pd f virt flags s1).
  destruct (map_extends s1 pd f virt flags Hsp1 Hv' Hf' Hf Hr1) as (Hex & Hh & _ & Hbits). fold s2 in Hex, Hh, Hbits.
  pose proof (sm_walk s1 pd f virt flags Hsp1 Hv' Hf' Hf Hpr Hr1) as Hwalk2. fold s2 in Hwalk2.
  assert (Hsp2 : space s2 pd) by (apply sm_space; assumption).
  exists f, (MkPool (region P) ({[p]} ∪ used P) (MM_HEAP (pg_mm s2))), s2.
  split; [unfold map_user; rewrite Ea; reflexivity|]. split; [|split; [|split; [exact Hh|split; [|split; [exact Hfr|split]]]]].
  - split; cbn [region used heap]; try assumption.
    + apply (pool_rel_frame (pg_mm s1) (pg_mm s2) P1 HR); [apply Hex|apply Hex|exact Hbits|apply Hex|apply Hsp2].
    + intros i [Hi%elem_of_singleton|Hi]%elem_of_union; [lia|auto].
    + intros va Hva. rewrite Hwalk2, Hwalk1, Huser by (unfold SPACE_TOP, KERNEL_VIRT in *; lia).
      destruct (Z.eqb_spec (va / 0x1000) (virt / 0x1000)) as [->|Hne]; [rewrite lookup_insert_eq; reflexivity|].
      rewrite lookup_insert_ne by congruence. reflexivity.
    + intros va Hva. rewrite Hwalk2, Hwalk1, Hkern by (unfold SPACE_TOP, KERNEL_VIRT in *; lia).
      replace (va / 0x1000 =? virt / 0x1000) with false; [reflexivity|]. unfold KERNEL_VIRT in *. symmetry. apply Z.eqb_neq. dlia.
    + intros v g [[<- <-]|[_ Hg]]%lookup_insert_Some; [exists p; split; [reflexivity|apply elem_of_union_l, elem_of_singleton; reflexivity]|].
      destruct (Hframe v g Hg) as (p' & -> & Hp'). exists p'. split; [reflexivity|apply elem_of_union_r; exact Hp'].
    + assert (Hnew : forall v, Mp !! v <> Some f).
      { intros v Hg. destruct (Hframe v f Hg) as (p' & E & Hp'). apply Hpu.
        replace p with p' by (unfold f, page_addr in E; lia). exact Hp'. }
      clearbody f. intros v w g [[<- <-]|[Hv1 Hg1]]%lookup_insert_Some [[Ew Eg]|[Hw1 Hg2]]%lookup_insert_Some.
      * exact Ew.
      * exfalso. apply (Hnew w Hg2).
      * exfalso. subst g. apply (Hnew v Hg1).
      * apply (Hinj v w g); assumption.
  - apply (extends_trans _ s1); [|exact Hex]. split; try reflexivity. intros a Ha. apply Hbit. unfold KERNEL_VIRT in *. lia.
  - cbn [used]. rewrite size_union_alt, size_singleton. assert (Hsub : used P ∖ {[p]} ⊆ used P) by (intros x [Hx _]%elem_of_difference; exact Hx).
    apply subseteq_size in Hsub. lia.
  - intros p' Hp' E. apply Hpu. replace p with p' by (unfold f, page_addr in E; lia). exact Hp'.
  - split; [reflexivity|]. intros i Hi. apply elem_of_union_r, Hi.
Qed.

(** ** A new directory with the kernel in it *)

(** The state in which the loader runs: allocator in order, the bump
    allocator's memory not yet used, with room for two more tables. *)
Record kernel_ready (s : pg_state) (P : pool) : Prop := {
  kr_pool : pool_rel (pg_mm s) P;
  kr_region : 1 <= region P < 768;
  kr_used : forall i, i ∈ used P -> 0 <= i < 1024;
  kr_bits : KERNEL_VIRT + 0x1000 <= MM_CURRENT_PD (pg_mm s) /\ MM_HEAP (pg_mm s) + 0x8000 < MM_HEAP_MAX;
  kr_fresh : forall a, MM_HEAP (pg_mm s) <= a < MM_HEAP_MAX -> load8 (pg_mem s) a = 0;
}.

Lemma kernel_page_index j : 0 <= j < 1024 -> (j * 0x1000 + KERNEL_VIRT) / 0x400000 = 768.
Proof. unfold KERNEL_VIRT. intros. dlia. Qed.

Section create.
Context (s : pg_state) (P : pool).
Hypothesis Hready : kernel_ready s P.
Let pd := MM_HEAP (pg_mm s).
Let m := pg_mem s.
Let v1 := V2P (KERNEL_PAGE_DIRECTORY s) .| PF_PRESENT .| PF_RW.
Let v2 := V2P pd .| PF_PRESENT .| PF_RW.
Let s1 := set_pg_mem (stw (stw m pd 1022 v1) pd 1023 v2) (set_mm (set_heap (pd + 0x4000) (pg_mm s)) s).

Lemma create_eq : k_create_pagedir 0 0 0x7 s = Ok pd s1.
Proof.
  destruct Hready as [H1 H2 H3 H4 H5]. unfold k_create_pagedir.
  destruct (mm_alloc_cases 0x1000 _ (rel_ok _ _ H1) ltac:(lia)) as [[Hf _]|[_ ->]]; [lia|]. reflexivity.
Qed.

Lemma pd_window : in_window pd.
Proof.
  destruct Hready as [H1 H2 H3 H4 H5]. pose proof (rel_lay _ _ H1). destruct (rel_ok _ _ H1). apply heap_window; unfold pd; lia.
Qed.

Lemma create_slot i : 0 <= i < 1022 -> ldw (pg_mem s1) pd i = 0.
Proof.
  intros Hi. pose proof pd_window as Hw. destruct Hready as [H1 H2 H3 H4 H5].
  cbn [s1 pg_mem set_pg_mem set_mm pg_mm set_mem mm_mem]. rewrite !ldw_stw by (assumption || lia).
  rewrite Z.eqb_refl. replace (i =? 1023) with false by lia. replace (i =? 1022) with false by lia. cbn [andb].
  unfold ldw. rewrite word_window by (assumption || lia).
  assert (Hz : forall o, 0 <= o < 4 -> load8 m (pd + 4 * i + o) = 0) by (intros o Ho; apply H5; fold pd; lia).
  pose proof (Hz 0 ltac:(lia)) as H0. rewrite Z.add_0_r in H0. unfold load32. rewrite H0, !Hz by lia. reflexivity.
Qed.

Lemma create_bytes a : a < pd \/ pd + 0x1000 <= a -> load8 (pg_mem s1) a = load8 m a.
Proof.
  intros Ha. pose proof pd_window as Hw. cbn [s1 pg_mem set_pg_mem set_mm pg_mm set_mem mm_mem].
  rewrite !stw_other by (assumption || lia). reflexivity.
Qed.

Lemma create_space : space s1 pd /\ extends s s1 /\ pool_rel (pg_mm s1) (MkPool (region P) (used P) (pd + 0x4000)).
Proof.
  pose proof pd_window as Hw. destruct Hready as [H1 H2 H3 H4 H5]. pose proof (rel_lay _ _ H1) as Hl.
  destruct (rel_ok _ _ H1) as [Hok Hal]. fold pd in H4, H5, Hl, Hok, Hal.
  assert (Hok1 : mm_heap_ok (pg_mm s1)) by (split; cbn; [unfold MM_HEAP_MAX in *; lia|dlia]).
  split; [|split].
  - split; cbn [s1 set_pg_mem set_mm pg_mm set_mem set_heap MM_CURRENT_PD MM_CURRENT_PT MM_HEAP].
    + exact Hok1.
    + lia.
    + split; [assumption|]. lia.
    + intros i Hi Hnz. exfalso. apply Hnz, create_slot. exact Hi.
    + intros i j Hi Hj _ Hnz. exfalso. apply Hnz, create_slot. exact Hi.
    + intros a Ha. rewrite create_bytes by lia. apply H5. lia.
  - split; try reflexivity; [cbn; unfold pd; lia|]. intros a Ha. apply create_bytes. unfold in_window, KERNEL_VIRT, MM_HEAP_MAX in *. lia.
  - apply (pool_rel_frame (pg_mm s) (pg_mm s1) P H1 eq_refl eq_refl); [|cbn; fold pd; lia|exact Hok1].
    intros a Ha. apply create_bytes. lia.
Qed.

(** The state of the loop of [k_map_kernel] before iteration [k]. *)
Record kernel_mapped (k : Z) (t : pg_state) : Prop := {
  km_space : space t pd;
  km_ext : extends s1 t;
  km_heap : MM_HEAP (pg_mm t) <= pd + 0x8000;
  km_slot : 0 < k -> ldw (pg_mem t) pd 768 <> 0;
  km_first : k = 0 -> MM_HEAP (pg_mm t) = pd + 0x4000;
  km_bits : forall a, MM_CURRENT_PD (pg_mm s) <= a < MM_CURRENT_PT (pg_mm s) + 128 -> load8 (pg_mem t) a = load8 m a;
  km_walk : forall va, 0 <= va < SPACE_TOP ->
    mmu (pg_mem t) pd va = if (KERNEL_VIRT <=? va) && (va <? KERNEL_VIRT + k * 0x1000) then Some (va - KERNEL_VIRT) else None;
}.

Lemma kernel_mapped_step k t : 0 <= k < 1024 -> kernel_mapped k t ->
  kernel_mapped (k + 1) (_paging_map pd (k * 0x1000) (k * 0x1000 + KERNEL_VIRT) 0x3 t).
Proof.
  intros Hk [Hsp Hex Hh Hsl Hf Hb Hwk]. set (virt := k * 0x1000 + KERNEL_VIRT).
  pose proof (kernel_page_index k Hk) as Hidx. fold virt in Hidx.
  assert (Hv : 0 <= virt < SPACE_TOP) by (unfold virt, SPACE_TOP, KERNEL_VIRT; lia).
  assert (Hp : 0 <= k * 0x1000 < 0x100000000 /\ (k * 0x1000) mod 0x1000 = 0) by dlia.
  assert (Hroom : ldw (pg_mem t) pd (virt / 0x400000) = 0 -> MM_HEAP (pg_mm t) + 0x4000 < MM_HEAP_MAX).
  { rewrite Hidx. intros E. pose proof (kr_bits _ _ Hready) as Hb4. fold pd in Hb4.
    destruct (Z.eq_dec k 0) as [E0|]; [rewrite (Hf E0); lia|exfalso; apply Hsl; [lia|exact E]]. }
  destruct (map_extends t pd _ virt 0x3 Hsp Hv Hp ltac:(lia) Hroom) as (Hex2 & Hh2 & Hh3 & Hb2).
  pose proof (sm_slot t pd _ virt 0x3 Hsp Hv Hp ltac:(lia) Hroom 768 ltac:(lia)) as Hslot. rewrite Hidx in Hslot, Hh3.
  destruct (sm_pt t pd virt Hsp Hv) as (_ & _ & _ & Hlo & _). rewrite Hidx in Hlo.
  rewrite Z.eqb_refl in Hslot. split.
  - apply sm_space; try assumption; [lia|reflexivity].
  - apply (extends_trans _ t); assumption.
  - destruct (Z.eq_dec k 0) as [E0|]; [specialize (Hf E0); lia|rewrite Hh3 by (apply Hsl; lia); exact Hh].
  - intros _. rewrite Hslot. destruct (_ =? 0); lia.
  - lia.
  - intros a Ha. rewrite Hb2; [apply Hb; exact Ha|]. rewrite (ex_PD _ _ Hex), (ex_PT _ _ Hex). exact Ha.
  - intros va Hva. rewrite (sm_walk t pd _ virt 0x3 Hsp Hv Hp ltac:(lia) eq_refl Hroom va Hva), (Hwk va Hva).
    unfold virt, KERNEL_VIRT. clear -Hk Hva. destruct (Z.eqb_spec (va / 0x1000) ((k * 0x1000 + 0xC0000000) / 0x1000)) as [E|Hne].
    + replace ((0xC0000000 <=? va) && (va <? 0xC0000000 + (k + 1) * 0x1000)) with true by dlia. f_equal. dlia.
    + replace ((0xC0000000 <=? va) && (va <? 0xC0000000 + (k + 1) * 0x1000))
        with ((0xC0000000 <=? va) && (va <? 0xC0000000 + k * 0x1000)); [reflexivity|].
      destruct (Z.leb_spec 0xC0000000 va); [|reflexivity]. cbn [andb]. dlia.
Qed.

Lemma map_kernel_mapped : kernel_mapped 1024 (k_map_kernel pd s1).
Proof.
  destruct create_space as (Hsp & Hex & _). unfold k_map_kernel.
  apply (for_up_inv kernel_mapped 0x400 0).
  - split; try assumption; try reflexivity; try lia.
    + apply extends_refl.
    + cbn. lia.
    + intros a Ha. apply create_bytes. pose proof (rel_lay _ _ (kr_pool _ _ Hready)) as Hl. fold pd in Hl. lia.
    + intros va Hva. unfold mmu. rewrite create_slot by (apply space_index; exact Hva). cbn [present].
      replace ((KERNEL_VIRT <=? va) && (va <? KERNEL_VIRT + 0 * 0x1000)) with false by lia. reflexivity.
  - intros j t Hj. apply kernel_mapped_step. lia.
Qed.
End create.

(** Changing the directory in use changes neither memory nor the allocator. *)
Lemma swap_space s pd q : space s pd -> space (k_swap_pd q s) pd.
Proof. intros [H1 H2 H3 H4 H5 H6]. split; assumption. Qed.

Lemma new_space_eq s P :
  kernel_ready s P -> exists t, new_space s = Ok (MM_HEAP (pg_mm s)) (k_swap_pd (MM_HEAP (pg_mm s)) t) /\ kernel_mapped s 1024 t.
Proof.
  intros Hr. pose proof (map_kernel_mapped s P Hr) as Hkm. unfold new_space. rewrite (bind_Ok _ _ _ _ _ (create_eq s P Hr)).
  eexists. split; [rewrite !bind_modify; unfold ret; reflexivity|exact Hkm].
Qed.

Lemma new_space_spec s P :
  kernel_ready s P ->
  exists pd P' s', new_space s = Ok pd s' /\ uspace s' pd P' ∅ /\ CURRENT_PAGE_DIRECTORY s' = pd /\ cr3 s' = V2P pd /\
    KERNEL_PAGE_DIRECTORY s' = KERNEL_PAGE_DIRECTORY s /\ used P' = used P /\
    MM_HEAP (pg_mm s') <= MM_HEAP (pg_mm s) + 0x8000 /\
    (forall a, a < MM_CURRENT_PD (pg_mm s) \/ MM_HEAP_MAX <= a -> load8 (pg_mem s') a = load8 (pg_mem s) a) /\
    MM_CURRENT_PD (pg_mm s') = MM_CURRENT_PD (pg_mm s).
Proof.
  intros Hr. destruct (create_space s P Hr) as (Hsp1 & Hex1 & Hpool1). destruct (new_space_eq s P Hr) as (t & E & Hkm).
  destruct Hkm as [Hsp Hex Hh _ _ Hb Hwk]. set (pd := MM_HEAP (pg_mm s)) in *.
  exists pd, (MkPool (region P) (used P) (MM_HEAP (pg_mm t))), (k_swap_pd pd t).
  split; [exact E|]. destruct Hr as [H1 H2 H3 H4 H5].
  split; [|split; [reflexivity|split; [reflexivity|split; [exact (ex_kern _ _ Hex)|split; [reflexivity|split; [exact Hh|]]]]]].
  - split; cbn [region used heap]; try assumption.
    + apply swap_space. exact Hsp.
    + apply (pool_rel_frame (pg_mm s) (pg_mm t) P H1); [apply Hex|apply Hex|exact Hb|pose proof (ex_heap _ _ Hex); cbn in *; lia|apply Hsp].
    + intros va Hva. change (pg_mem (k_swap_pd pd t)) with (pg_mem t). rewrite Hwk by (unfold SPACE_TOP, KERNEL_VIRT in *; lia).
      replace (KERNEL_VIRT <=? va) with false by lia. rewrite lookup_empty. reflexivity.
    + intros va Hva. change (pg_mem (k_swap_pd pd t)) with (pg_mem t). rewrite Hwk by (unfold SPACE_TOP, KERNEL_VIRT in *; lia).
      replace ((KERNEL_VIRT <=? va) && (va <? KERNEL_VIRT + 1024 * 0x1000)) with true by lia. reflexivity.
    + intros v f Hf. rewrite lookup_empty in Hf. discriminate.
    + intros v w f Hf. rewrite lookup_empty in Hf. discriminate.
  - split; [|exact (ex_PD _ _ Hex)]. intros a Ha. change (pg_mem (k_swap_pd pd t)) with (pg_mem t).
    rewrite (ex_bytes _ _ Hex), (ex_bytes _ _ Hex1) by assumption. reflexivity.
Qed.

(** C21: the address space that the loader makes.  Every address of the 4 MB
    window at [KERNEL_VIRT] translates to the physical address [KERNEL_VIRT]
    below it, no address under [KERNEL_VIRT] translates, and the processor runs
    on the new directory.  (The kernel's own directory maps more: the heap above
    the window, the controllers' pages and the first 4 MB at their own
    addresses.) *)
Theorem new_space_maps_kernel s P :
  kernel_ready s P ->
  exists pd s', new_space s = Ok pd s' /\ cr3 s' = V2P pd /\ CURRENT_PAGE_DIRECTORY s' = pd /\
    (forall va, KERNEL_VIRT <= va < KERNEL_VIRT + 0x400000 -> mmu (pg_mem s') pd va = Some (va - KERNEL_VIRT)) /\
    (forall va, 0 <= va < KERNEL_VIRT -> mmu (pg_mem s') pd va = None).
Proof.
  intros Hr. destruct (new_space_spec s P Hr) as (pd & P' & s' & E & Hus & Hcur & Hcr3 & _).
  exists pd, s'. split; [exact E|]. split; [exact Hcr3|]. split; [exact Hcur|]. split; [apply Hus|].
  intros va Hva. rewrite (us_user _ _ _ _ Hus va Hva), lookup_empty. reflexivity.
Qed.

(** Bytes outside the allocator's memory do not matter. *)
Lemma ready_frame s s' P :
  kernel_ready s P -> MM_CURRENT_PD (pg_mm s') = MM_CURRENT_PD (pg_mm s) -> MM_CURRENT_PT (pg_mm s') = MM_CURRENT_PT (pg_mm s) ->
  MM_HEAP (pg_mm s') = MM_HEAP (pg_mm s) ->
  (forall a, MM_CURRENT_PD (pg_mm s) <= a < MM_HEAP_MAX -> load8 (pg_mem s') a = load8 (pg_mem s) a) -> kernel_ready s' P.
Proof.
  intros [H1 H2 H3 H4 H5] Ed Et Eh Hm. pose proof (rel_lay _ _ H1) as Hl. split; try assumption.
  - rewrite (rel_heap_pool _ _ H1), <- Eh. apply (pool_rel_frame (pg_mm s) (pg_mm s') P H1 Ed Et); [|lia|unfold mm_heap_ok; rewrite Eh; apply H1].
    intros a Ha. apply Hm. unfold MM_HEAP_MAX in *. lia.
  - rewrite Ed, Eh. exact H4.
  - rewrite Eh. intros a Ha. rewrite Hm by lia. apply H5, Ha.
Qed.

(** A booted kernel: bitmaps at 0xC0124000 and 0xC0128000, region 1 in use. *)
Definition ready_pg : pg_state :=
  MkPg (MkMm (store32 ∅ 0xC0124000 1) 0xC0124000 0xC0128000 0xC012C000) 0xC0110000 0xC0110000 0x110000.

Lemma ready_bytes a : load8 (pg_mem ready_pg) a = if a =? 0xC0124000 then 1 else 0.
Proof.
  unfold pg_mem, ready_pg. cbn [pg_mm mm_mem]. unfold store32. rewrite !load8_store8. unfold load8. rewrite lookup_empty.
  cbn [default]. destruct (Z.eqb_spec a 0xC0124000) as [->|]; [reflexivity|].
  repeat (match goal with |- context [?x =? ?y] => destruct (x =? y) end; [reflexivity|]). reflexivity.
Qed.

Lemma ready_word b i : 0xC0124000 <= b -> 0 <= i < 1024 ->
  load32 (pg_mem ready_pg) (b + 4 * (i / 32)) = if b + 4 * (i / 32) =? 0xC0124000 then 1 else 0.
Proof.
  intros Hb Hi. unfold load32. rewrite !ready_bytes. set (a := b + 4 * (i / 32)).
  assert (0xC0124000 <= a) by (subst a; dlia).
  replace (a + 1 =? 0xC0124000) with false by lia. replace (a + 2 =? 0xC0124000) with false by lia.
  replace (a + 3 =? 0xC0124000) with false by lia. destruct (a =? 0xC0124000); reflexivity.
Qed.

Lemma ready_ready : kernel_ready ready_pg (MkPool 1 ∅ 0xC012C000).
Proof.
  split; cbn [region used heap ready_pg pg_mm MM_CURRENT_PD MM_CURRENT_PT MM_HEAP].
  - split; cbn [region used heap ready_pg pg_mm mm_mem MM_CURRENT_PD MM_CURRENT_PT MM_HEAP]; try lia.
    + intros i Hi. unfold bit_used. fold (pg_mm ready_pg). pose proof (ready_word 0xC0124000 i ltac:(lia) Hi) as E.
      unfold pg_mem, ready_pg in E. cbn [pg_mm mm_mem] in E. rewrite E.
      destruct (Z.eqb_spec (0xC0124000 + 4 * (i / 32)) 0xC0124000) as [E0|].
      * assert (Hi32 : i mod 32 = i) by (apply Z.mod_small; dlia). rewrite Hi32. destruct (Z.eq_dec i 0) as [->|]; [reflexivity|].
        replace (i <? 1) with false by lia. apply (testbit_high 1 1); lia.
      * rewrite Z.bits_0. symmetry. apply Z.ltb_ge. dlia.
    + intros i Hi. unfold bit_used. pose proof (ready_word 0xC0128000 i ltac:(lia) Hi) as E.
      unfold pg_mem, ready_pg in E. cbn [pg_mm mm_mem] in E. rewrite E.
      replace (0xC0128000 + 4 * (i / 32) =? 0xC0124000) with false by dlia. rewrite Z.bits_0. reflexivity.
    + split; [cbn; unfold MM_HEAP_MAX; lia|reflexivity].
  - lia.
  - intros i Hi. set_solver.
  - unfold KERNEL_VIRT, MM_HEAP_MAX. lia.
  - intros a Ha. rewrite ready_bytes. replace (a =? 0xC0124000) with false by lia. reflexivity.
Qed.

Lemma new_space_maps_kernel_witness :
  exists pd s', new_space ready_pg = Ok pd s' /\ mmu (pg_mem s') pd 0xC0100123 = Some 0x100123 /\ mmu (pg_mem s') pd 0x1000 = None.
Proof.
  destruct (new_space_maps_kernel ready_pg _ ready_ready) as (pd & s' & E & _ & _ & Hk & Hu).
  exists pd, s'. split; [exact E|]. split; [apply (Hk 0xC0100123); unfold KERNEL_VIRT; lia|apply Hu; unfold KERNEL_VIRT; lia].
Defined.
