(* ===== verification/ElfLoad.v ===== *)
(** * kernel/elf.c: loading a program

    [elf_load] reads a file, makes a new address space, enters it, maps and
    fills the pages of every program header, adds a page for the heap and one
    for the stack, and enters the program.  Once the processor runs on the new
    directory, memory is reached through the two-level walk [mmu]: the byte at
    virtual address [va] is the byte at the physical address it translates to
    (physical memory below 4 MB is the kernel window).  An access that does not
    translate raises a page fault outside the heap, whose handler halts the
    processor for ever: [Spin].  The diagnostic lines ([printf], and [assert],
    which only prints) are left out, with the block of the kernel heap that each
    of them takes and gives back. *)

From stdpp Require Import base numbers list gmap.
From Stdlib Require Import ZArith Lia.
From S2P Require Import Prelude Memory CString Mm Paging Malloc HeapPages Ext2 Elf AddrSpace.
Open Scope Z_scope.

(** ** Accesses through the current directory *)

Definition vread8 (va : Z) : M pg_state Z := fun s =>
  match mmu (pg_mem s) (CURRENT_PAGE_DIRECTORY s) va with
  | Some pa => Ok (load8 (pg_mem s) (canon pa)) s
  | None => Spin
  end.
Definition vwrite8 (va v : Z) : M pg_state unit := fun s =>
  match mmu (pg_mem s) (CURRENT_PAGE_DIRECTORY s) va with
  | Some pa => Ok tt (set_pg_mem (store8 (pg_mem s) (canon pa) v) s)
  | None => Spin
  end.
Definition vread32 (va : Z) : M pg_state Z :=
  b0 <-- vread8 va ;; b1 <-- vread8 (va + 1) ;; b2 <-- vread8 (va + 2) ;; b3 <-- vread8 (va + 3) ;;
  ret (b0 + 0x100 * b1 + 0x10000 * b2 + 0x1000000 * b3).
Definition vwrite32 (va v : Z) : M pg_state unit :=
  vwrite8 va v ;;; vwrite8 (va + 1) (v .>> 8) ;;; vwrite8 (va + 2) (v .>> 16) ;;; vwrite8 (va + 3) (v .>> 24).

(** [for (i = ...; k times; i++) f(i)] *)
Fixpoint for_m {S : Type} (k : nat) (i : Z) (f : Z -> M S unit) : M S unit :=
  match k with
  | O => ret tt
  | S k' => f i ;;; for_m k' (i + 1) f
  end.

(** [memset], [memcpy] and [strcpy] of kernel/lib/string.c on these accesses. *)
Definition vmemset (p c n : Z) : M pg_state unit := for_m (Z.to_nat n) 0 (fun i => vwrite8 (p + i) c).
Definition vmemcpy (dst src n : Z) : M pg_state unit :=
  for_m (Z.to_nat n) 0 (fun i => b <-- vread8 (src + i) ;; vwrite8 (dst + i) b).
Fixpoint vstrlen (fuel : nat) (p i : Z) : M pg_state Z :=
  match fuel with
  | O => fun _ => Spin
  | S f => c <-- vread8 (p + i) ;; if c =? 0 then ret i else vstrlen f p (i + 1)
  end.
(** [n] is the length of the string: no terminator is written. *)
Definition vstrcpy (dst src : Z) : M pg_state unit :=
  fuel <-- gets (fun s => strfuel (pg_mem s)) ;;
  n <-- vstrlen fuel src 0 ;;
  vmemcpy dst src (u16 n).

(** ** The loader *)

(** [k_paging_map(k_page_alloc(), virt, flags)] *)
Definition k_map_user (virt flags : Z) : M pg_state unit := fun s => map_user (CURRENT_PAGE_DIRECTORY s) virt flags s.

(** [for (int i = 0; i <= phdr->p_memsz; i += 0x1000)] *)
Fixpoint map_segment (fuel : nat) (phdr i : Z) : M pg_state unit :=
  match fuel with
  | O => ret tt
  | S f =>
      memsz <-- vread32 (phdr + 20) ;;
      if i <=? memsz then
        vaddr <-- vread32 (phdr + 8) ;;
        k_map_user (u32 (vaddr + i)) 0x7 ;;;
        map_segment f phdr (i + 0x1000)
      else ret tt
  end.

Definition load_segment (data phdr : Z) : M pg_state unit :=
  n <-- vread32 (phdr + 20) ;;
  map_segment (S (S (Z.to_nat (n / 0x1000)))) phdr 0 ;;;
  vaddr <-- vread32 (phdr + 8) ;;
  off <-- vread32 (phdr + 4) ;;
  memsz <-- vread32 (phdr + 20) ;;
  vmemset vaddr 0 memsz ;;;
  vmemcpy vaddr (u32 (data + off)) memsz.

Fixpoint load_segments (fuel : nat) (data phdr last_phdr : Z) : M pg_state unit :=
  match fuel with
  | O => ret tt
  | S f => if phdr <? last_phdr then load_segment data phdr ;;; load_segments f data (phdr + PHDR_SIZE) last_phdr else ret tt
  end.

(** [struct _proc_mmap] of kernel/include/types.h *)
Record proc_mmap := MkMmap { mm_pd : Z; mm_base : Z; mm_brk : Z }.

(** The arguments, at the addresses [var1] = 0x4000, [v] = 0x4500 and [stack] =
    0x4F00 counted down twice, and the read of the entry point.  [lit] is the
    literal "new.s". *)
Definition write_args (data lit : Z) : M pg_state Z :=
  let var1 := 0x4000 in
  vwrite32 0x4500 var1 ;;;
  vstrcpy var1 lit ;;;
  vwrite32 0x4EFC var1 ;;;
  vwrite32 0x4EF8 0 ;;;
  vread32 (data + 24).
(** The heap page at [base] and the stack page. *)
Definition start_program (data lit base : Z) : M pg_state Z :=
  k_map_user base 0x7 ;;;
  k_map_user 0x4000 0x7 ;;;
  write_args data lit.

(** From the file at [data] to the entry point and stack pointer given to
    [enter_usermode]. *)
Definition elf_exec (data lit : Z) : M pg_state (proc_mmap * (Z * Z)) :=
  m <-- gets pg_mem ;;
  let phdr := u32 (data + e_phoff m data) in
  let last_phdr := u32 (phdr + e_phentsize m data * e_phnum m data) in
  elf_pd <-- new_space ;;
  load_segments (steps phdr last_phdr PHDR_SIZE) data phdr last_phdr ;;;
  let last_phdr := last_phdr - PHDR_SIZE in
  vaddr <-- vread32 (last_phdr + 8) ;;
  memsz <-- vread32 (last_phdr + 20) ;;
  let base := u32 (vaddr + memsz + 0x1000) .& not32 0xFFF in
  entry <-- start_program data lit base ;;
  ret (MkMmap elf_pd base base, (entry, 0x4EF8)).

(** The paging state and the variable [cp_mmap]. *)
Record proc_state := MkProc { pr_pg : pg_state; cp_mmap : proc_mmap }.

(** [buf] is the block [ext2_open] got from [malloc]. *)
Definition elf_load `{BlockCache} (i_no buf lit : Z) : M proc_state (Z * Z) := fun s =>
  let m := pg_mem (pr_pg s) in
  let '(m1, data) := ext2_open m (ext2_inode m 1 i_no) buf in
  match elf_exec data lit (set_pg_mem m1 (pr_pg s)) with
  | Ok (mp, r) x => Ok r (MkProc x mp)
  | Spin => Spin
  | Undef => Undef
  end.

(** ** User bytes *)

Definition ubyte (s : pg_state) (Mp : gmap Z Z) (u : Z) : option Z :=
  (fun f => load8 (pg_mem s) (f + u mod 0x1000)) <$> Mp !! (u / 0x1000).

Lemma canon_window va : KERNEL_VIRT <= va < KERNEL_VIRT + 0x400000 -> canon (va - KERNEL_VIRT) = va.
Proof.
  unfold canon, KERNEL_VIRT. intros. replace ((0 <=? va - 0xC0000000) && (va - 0xC0000000 <? 0x400000)) with true by lia. lia.
Qed.

(** Changing bytes outside the allocator's memory keeps the address space. *)
Lemma uspace_frame s s' pd P Mp :
  uspace s pd P Mp -> pg_mm s' = set_mem (pg_mem s') (pg_mm s) ->
  (forall a, KERNEL_VIRT <= a < MM_HEAP_MAX -> load8 (pg_mem s') a = load8 (pg_mem s) a) ->
  uspace s' pd P Mp.
Proof.
  intros [Hsp Hpool Hreg Hused Huser Hkern Hframe Hinj] Emm Hm.
  assert (Ed : MM_CURRENT_PD (pg_mm s') = MM_CURRENT_PD (pg_mm s) /\ MM_CURRENT_PT (pg_mm s') = MM_CURRENT_PT (pg_mm s) /\
    MM_HEAP (pg_mm s') = MM_HEAP (pg_mm s)) by (rewrite Emm; repeat split; reflexivity). destruct Ed as (Ed & Et & Eh).
  destruct (space_frame s s' pd Hsp Ed Et Eh) as [Hsp' Hwk]; [intros a Ha _; apply Hm; exact Ha|].
  pose proof (sp_bits _ _ Hsp) as Hb. split; try assumption.
  - rewrite (rel_heap_pool _ _ Hpool), <- Eh. apply (pool_rel_frame (pg_mm s) (pg_mm s') P Hpool Ed Et); [|lia|apply Hsp'].
    intros a Ha. change (mm_mem (pg_mm s')) with (pg_mem s'). apply Hm. lia.
  - intros va Hva. rewrite Hwk by (unfold SPACE_TOP, KERNEL_VIRT in *; lia). apply Huser. exact Hva.
  - intros va Hva. rewrite Hwk by (unfold SPACE_TOP, KERNEL_VIRT in *; lia). apply Hkern. exact Hva.
Qed.

Section access.
Context (s : pg_state) (pd : Z) (P : pool) (Mp : gmap Z Z).
Hypothesis Hus : uspace s pd P Mp.
Hypothesis Hcur : CURRENT_PAGE_DIRECTORY s = pd.

Lemma us_frame_range v f : Mp !! v = Some f -> 0x400000 <= f < KERNEL_VIRT - 0xFFF /\ f mod 0x1000 = 0.
Proof.
  intros H. destruct (us_frame _ _ _ _ Hus v f H) as (p & -> & Hp). pose proof (us_used _ _ _ _ Hus p Hp).
  pose proof (us_region _ _ _ _ Hus). unfold page_addr, KERNEL_VIRT. dlia.
Qed.

Lemma vread8_kernel va : KERNEL_VIRT <= va < KERNEL_VIRT + 0x400000 -> vread8 va s = Ok (load8 (pg_mem s) va) s.
Proof.
  intros Hva. unfold vread8. rewrite Hcur, (us_kern _ _ _ _ Hus va Hva), canon_window by assumption. reflexivity.
Qed.

Lemma vread32_kernel va : KERNEL_VIRT <= va /\ va + 4 <= KERNEL_VIRT + 0x400000 -> vread32 va s = Ok (load32 (pg_mem s) va) s.
Proof.
  intros Hva. unfold vread32. rewrite (bind_Ok _ _ _ _ _ (vread8_kernel va ltac:(lia))), (bind_Ok _ _ _ _ _ (vread8_kernel (va + 1) ltac:(lia))),
    (bind_Ok _ _ _ _ _ (vread8_kernel (va + 2) ltac:(lia))), (bind_Ok _ _ _ _ _ (vread8_kernel (va + 3) ltac:(lia))). reflexivity.
Qed.

Lemma vread8_user va f : 0 <= va < KERNEL_VIRT -> Mp !! (va / 0x1000) = Some f ->
  vread8 va s = Ok (load8 (pg_mem s) (f + va mod 0x1000)) s.
Proof.
  intros Hva Hf. destruct (us_frame_range _ _ Hf) as [Hr Ha]. unfold vread8. rewrite Hcur, (us_user _ _ _ _ Hus va Hva), Hf. cbn.
  unfold canon. replace (f + va mod 0x1000 <? 0x400000) with false by dlia. rewrite andb_false_r. reflexivity.
Qed.

(** Writing one byte of a mapped page. *)
Lemma vwrite8_user va v f : 0 <= va < KERNEL_VIRT -> Mp !! (va / 0x1000) = Some f ->
  exists s', vwrite8 va v s = Ok tt s' /\ uspace s' pd P Mp /\ CURRENT_PAGE_DIRECTORY s' = pd /\
    pg_mm s' = set_mem (pg_mem s') (pg_mm s) /\
    (forall a, KERNEL_VIRT <= a -> load8 (pg_mem s') a = load8 (pg_mem s) a) /\
    (forall u, 0 <= u < KERNEL_VIRT -> ubyte s' Mp u = if u =? va then Some (u8 v) else ubyte s Mp u).
Proof.
  intros Hva Hf. destruct (us_frame_range _ _ Hf) as [Hr Ha]. set (a := f + va mod 0x1000).
  assert (Har : 0x400000 <= a < KERNEL_VIRT) by (unfold a, KERNEL_VIRT in *; dlia).
  set (s' := set_pg_mem (store8 (pg_mem s) a v) s). exists s'.
  assert (Em : forall b, load8 (pg_mem s') b = if b =? a then u8 v else load8 (pg_mem s) b) by (intros b; apply load8_store8).
  split; [|split; [|split; [|split; [|split]]]].
  - unfold vwrite8. rewrite Hcur, (us_user _ _ _ _ Hus va Hva), Hf. cbn. unfold canon. fold a.
    replace (a <? 0x400000) with false by lia. rewrite andb_false_r. reflexivity.
  - apply (uspace_frame s s' pd P Mp Hus); [destruct s as [[] ? ? ?]; reflexivity|]. intros b Hb. rewrite Em.
    replace (b =? a) with false by lia. reflexivity.
  - exact Hcur.
  - destruct s as [[] ? ? ?]. reflexivity.
  - intros b Hb. rewrite Em. replace (b =? a) with false by lia. reflexivity.
  - intros u Hu. unfold ubyte. destruct (Z.eqb_spec u va) as [->|Hne]; [rewrite Hf; cbn; fold a; rewrite Em, Z.eqb_refl; reflexivity|].
    destruct (Mp !! (u / 0x1000)) as [g|] eqn:Hg; [|reflexivity]. cbn. f_equal. rewrite Em.
    replace (g + u mod 0x1000 =? a) with false; [reflexivity|]. symmetry. apply Z.eqb_neq. unfold a. intros E.
    destruct (us_frame_range _ _ Hg) as [_ Hga]. assert (g = f) as -> by dlia.
    pose proof (us_inj _ _ _ _ Hus _ _ _ Hf Hg). apply Hne. dlia.
Qed.
End access.

(** ** Filling a range of mapped pages *)

Section fill.
Context (pd : Z) (P : pool) (Mp : gmap Z Z).

(** [s'] is [s] with the user bytes of [[lo, hi)] replaced by [val]. *)
Record wrote (s s' : pg_state) (lo hi : Z) (val : Z -> Z) : Prop := {
  w_us : uspace s' pd P Mp;
  w_cur : CURRENT_PAGE_DIRECTORY s' = pd;
  w_mm : pg_mm s' = set_mem (pg_mem s') (pg_mm s);
  w_kern : forall a, KERNEL_VIRT <= a -> load8 (pg_mem s') a = load8 (pg_mem s) a;
  w_user : forall u, 0 <= u < KERNEL_VIRT -> ubyte s' Mp u = if (lo <=? u) && (u <? hi) then Some (val u) else ubyte s Mp u;
}.

Definition mapped (lo hi : Z) : Prop := forall u, lo <= u < hi -> is_Some (Mp !! (u / 0x1000)).

Lemma wrote_nil s lo val : uspace s pd P Mp -> CURRENT_PAGE_DIRECTORY s = pd -> wrote s s lo lo val.
Proof.
  intros Hus Hcur. split; try assumption; try reflexivity; [destruct s as [[] ? ? ?]; reflexivity|].
  intros u Hu. replace ((lo <=? u) && (u <? lo)) with false by lia. reflexivity.
Qed.

Lemma wrote_app s1 s2 s3 lo mid hi val : lo <= mid <= hi ->
  wrote s1 s2 lo mid val -> wrote s2 s3 mid hi val -> wrote s1 s3 lo hi val.
Proof.
  intros Hm [A1 A2 A3 A4 A5] [B1 B2 B3 B4 B5]. split; try assumption.
  - rewrite B3, A3. reflexivity.
  - intros a Ha. rewrite B4, A4 by assumption. reflexivity.
  - intros u Hu. rewrite B5, A5 by assumption.
    destruct (Z.leb_spec lo u), (Z.leb_spec mid u), (Z.ltb_spec u mid), (Z.ltb_spec u hi); cbn [andb]; reflexivity || lia.
Qed.

(** A loop whose iteration [j] writes the byte [val (p + j)] at [p + j]. *)
Lemma for_m_wrote p val f k : forall i s,
  uspace s pd P Mp -> CURRENT_PAGE_DIRECTORY s = pd ->
  (forall j t, i <= j < i + Z.of_nat k -> uspace t pd P Mp -> CURRENT_PAGE_DIRECTORY t = pd ->
     (forall a, KERNEL_VIRT <= a -> load8 (pg_mem t) a = load8 (pg_mem s) a) ->
     exists t', f j t = Ok tt t' /\ wrote t t' (p + j) (p + j + 1) val) ->
  exists s', for_m k i f s = Ok tt s' /\ wrote s s' (p + i) (p + i + Z.of_nat k) val.
Proof.
  induction k as [|k IH]; intros i s Hus Hcur Hf.
  - exists s. split; [reflexivity|]. replace (p + i + Z.of_nat 0) with (p + i) by lia. apply wrote_nil; assumption.
  - destruct (Hf i s ltac:(lia) Hus Hcur ltac:(reflexivity)) as (s1 & E1 & W1).
    destruct (IH (i + 1) s1 (w_us _ _ _ _ _ W1) (w_cur _ _ _ _ _ W1)) as (s2 & E2 & W2).
    { intros j t Hj Ht1 Ht2 Ht3. apply Hf; [lia|assumption..|]. intros a Ha. rewrite Ht3, (w_kern _ _ _ _ _ W1) by assumption. reflexivity. }
    exists s2. split; [cbn [for_m]; rewrite (bind_Ok _ _ _ _ _ E1); exact E2|].
    apply (wrote_app s s1 s2 _ (p + i + 1)); [lia|exact W1|].
    replace (p + i + 1) with (p + (i + 1)) by lia. replace (p + i + Z.of_nat (S k)) with (p + (i + 1) + Z.of_nat k) by lia. exact W2.
Qed.

Lemma vwrite8_wrote s va v val : uspace s pd P Mp -> CURRENT_PAGE_DIRECTORY s = pd ->
  0 <= va < KERNEL_VIRT -> is_Some (Mp !! (va / 0x1000)) -> u8 v = val va ->
  exists s', vwrite8 va v s = Ok tt s' /\ wrote s s' va (va + 1) val.
Proof.
  intros Hus Hcur Hva [f Hf] Hv. destruct (vwrite8_user s pd P Mp Hus Hcur va v f Hva Hf) as (s' & E & H1 & H2 & H3 & H4 & H5).
  exists s'. split; [exact E|]. split; try assumption. intros u Hu. rewrite H5 by exact Hu.
  destruct (Z.eqb_spec u va) as [->|]; [replace ((va <=? va) && (va <? va + 1)) with true by lia; rewrite Hv; reflexivity|].
  replace ((va <=? u) && (u <? va + 1)) with false by lia. reflexivity.
Qed.

Lemma vmemset_spec s p c n : uspace s pd P Mp -> CURRENT_PAGE_DIRECTORY s = pd ->
  0 <= p -> 0 <= n -> p + n <= KERNEL_VIRT -> mapped p (p + n) ->
  exists s', vmemset p c n s = Ok tt s' /\ wrote s s' p (p + n) (fun _ => u8 c).
Proof.
  intros Hus Hcur Hp Hn Hk Hm. unfold vmemset.
  destruct (for_m_wrote p (fun _ => u8 c) (fun i => vwrite8 (p + i) c) (Z.to_nat n) 0 s Hus Hcur) as (s' & E & W).
  - intros j t Hj Ht1 Ht2 _. apply vwrite8_wrote; try assumption; [lia|apply Hm; lia|reflexivity].
  - exists s'. split; [exact E|]. rewrite Z2Nat.id, Z.add_0_r in W by lia. exact W.
Qed.

Lemma vmemcpy_spec s dst src n : uspace s pd P Mp -> CURRENT_PAGE_DIRECTORY s = pd ->
  0 <= dst -> 0 <= n -> dst + n <= KERNEL_VIRT -> mapped dst (dst + n) ->
  KERNEL_VIRT <= src -> src + n <= KERNEL_VIRT + 0x400000 ->
  exists s', vmemcpy dst src n s = Ok tt s' /\ wrote s s' dst (dst + n) (fun u => load8 (pg_mem s) (src + (u - dst))).
Proof.
  intros Hus Hcur Hp Hn Hk Hm Hs1 Hs2. unfold vmemcpy.
  destruct (for_m_wrote dst (fun u => load8 (pg_mem s) (src + (u - dst))) (fun i => b <-- vread8 (src + i) ;; vwrite8 (dst + i) b)
    (Z.to_nat n) 0 s Hus Hcur) as (s' & E & W).
  - intros j t Hj Ht1 Ht2 Ht3. rewrite (bind_Ok _ _ _ _ _ (vread8_kernel t pd P Mp Ht1 Ht2 (src + j) ltac:(lia))).
    apply vwrite8_wrote; try assumption; [lia|apply Hm; lia|]. rewrite Ht3 by lia.
    replace (src + (dst + j - dst)) with (src + j) by lia. apply u8_small, load8_range.
  - exists s'. split; [exact E|]. rewrite Z2Nat.id, Z.add_0_r in W by lia. exact W.
Qed.
End fill.

Arguments w_us {pd P Mp s s' lo hi val}.
Arguments w_cur {pd P Mp s s' lo hi val}.
Arguments w_mm {pd P Mp s s' lo hi val}.
Arguments w_kern {pd P Mp s s' lo hi val}.
Arguments w_user {pd P Mp s s' lo hi val}.

(** ** Mapping the pages of a segment *)

(** [Mp'] has [cnt] more pages from page [lo] on, and is [Mp] elsewhere. *)
Definition more_pages (Mp Mp' : gmap Z Z) (lo cnt : Z) : Prop :=
  (forall v, lo <= v < lo + cnt -> is_Some (Mp' !! v)) /\ (forall v, v < lo \/ lo + cnt <= v -> Mp' !! v = Mp !! v).

(** [n] more pages, each with a new table, can be had. *)
Definition budget (s : pg_state) (P : pool) (n : Z) : Prop :=
  Z.of_nat (size (used P)) + n <= 1024 /\ MM_HEAP (pg_mm s) + 0x4000 * n < MM_HEAP_MAX.

(** [s'] has pages [[lo, lo + cnt)] mapped in addition. *)
Record mapped_more (pd : Z) (s s' : pg_state) (P P' : pool) (Mp Mp' : gmap Z Z) (lo cnt n : Z) : Prop := {
  mo_us : uspace s' pd P' Mp';
  mo_cur : CURRENT_PAGE_DIRECTORY s' = pd;
  mo_ext : extends s s';
  mo_pages : more_pages Mp Mp' lo cnt;
  mo_budget : budget s' P' (n - cnt);
}.

Arguments mo_us {pd s s' P P' Mp Mp' lo cnt n}.
Arguments mo_cur {pd s s' P P' Mp Mp' lo cnt n}.
Arguments mo_ext {pd s s' P P' Mp Mp' lo cnt n}.
Arguments mo_pages {pd s s' P P' Mp Mp' lo cnt n}.
Arguments mo_budget {pd s s' P P' Mp Mp' lo cnt n}.

Lemma k_map_user_spec s pd P Mp virt n :
  uspace s pd P Mp -> CURRENT_PAGE_DIRECTORY s = pd -> 0 <= virt < KERNEL_VIRT -> budget s P n -> 1 <= n ->
  exists s' P' Mp', k_map_user virt 0x7 s = Ok tt s' /\ mapped_more pd s s' P P' Mp Mp' (virt / 0x1000) 1 n.
Proof.
  intros Hus Hcur Hv [Hb1 Hb2] Hn.
  destruct (map_user_spec s pd P Mp virt 0x7 Hus Hv ltac:(lia) eq_refl ltac:(lia) ltac:(lia))
    as (f & P' & s' & E & Hus' & Hex & Hh & Hsz & _).
  exists s', P', (<[virt / 0x1000 := f]> Mp). split; [unfold k_map_user; rewrite Hcur; exact E|]. split.
  - exact Hus'.
  - rewrite (ex_cur _ _ Hex). exact Hcur.
  - exact Hex.
  - split; intros v Hvv.
    + replace v with (virt / 0x1000) by lia. rewrite lookup_insert_eq. eauto.
    + apply lookup_insert_ne. lia.
  - split; lia.
Qed.

Section segment.
Context (pd phdr : Z).
Hypothesis Hphdr : MM_HEAP_MAX <= phdr /\ phdr + PHDR_SIZE <= KERNEL_VIRT + 0x400000.

Lemma vread32_file s P Mp off : uspace s pd P Mp -> CURRENT_PAGE_DIRECTORY s = pd -> 0 <= off <= 28 ->
  vread32 (phdr + off) s = Ok (load32 (pg_mem s) (phdr + off)) s.
Proof.
  intros Hus Hcur Ho. apply (vread32_kernel s pd P Mp Hus Hcur). unfold MM_HEAP_MAX, KERNEL_VIRT, PHDR_SIZE in *. lia.
Qed.

Lemma extends_file s s' off : extends s s' -> 0 <= off <= 28 -> load32 (pg_mem s') (phdr + off) = load32 (pg_mem s) (phdr + off).
Proof. intros Hex Ho. apply load32_ext. intros i Hi. apply (ex_bytes _ _ Hex). unfold PHDR_SIZE in *. lia. Qed.

Lemma map_segment_spec vaddr memsz r : forall fuel k s P Mp,
  uspace s pd P Mp -> CURRENT_PAGE_DIRECTORY s = pd ->
  load32 (pg_mem s) (phdr + 8) = vaddr -> load32 (pg_mem s) (phdr + 20) = memsz ->
  0 <= k -> k + Z.of_nat r = memsz / 0x1000 + 1 -> (r < fuel)%nat -> vaddr + memsz < KERNEL_VIRT ->
  forall n, Z.of_nat r <= n -> budget s P n ->
  exists s' P' Mp', map_segment fuel phdr (0x1000 * k) s = Ok tt s' /\
    mapped_more pd s s' P P' Mp Mp' (vaddr / 0x1000 + k) (Z.of_nat r) n.
Proof.
  induction r as [|r IH]; intros fuel k s P Mp Hus Hcur Ev Em Hk Hr Hf Hend n Hn Hb;
    (destruct fuel as [|f]; [lia|]); cbn [map_segment];
    rewrite (bind_Ok _ _ _ _ _ (vread32_file s P Mp 20 Hus Hcur ltac:(lia))), Em;
    pose proof (load32_range (pg_mem s) (phdr + 8)) as Hvr; pose proof (load32_range (pg_mem s) (phdr + 20)) as Hmr;
    rewrite Ev in Hvr; rewrite Em in Hmr.
  - replace (0x1000 * k <=? memsz) with false by dlia. exists s, P, Mp. split; [reflexivity|].
    split; [assumption..|apply extends_refl| |rewrite Z.sub_0_r; exact Hb].
    split; intros v Hv; [lia|reflexivity].
  - replace (0x1000 * k <=? memsz) with true by dlia.
    rewrite (bind_Ok _ _ _ _ _ (vread32_file s P Mp 8 Hus Hcur ltac:(lia))), Ev.
    assert (Hpk : u32 (vaddr + 0x1000 * k) = vaddr + 0x1000 * k) by (apply u32_small; unfold KERNEL_VIRT in *; dlia).
    rewrite Hpk. destruct (k_map_user_spec s pd P Mp (vaddr + 0x1000 * k) n Hus Hcur ltac:(dlia) Hb ltac:(lia))
      as (s1 & P1 & Mp1 & E1 & [Hus1 Hcur1 Hex1 Hpg1 Hb1]).
    rewrite (bind_Ok _ _ _ _ _ E1). replace (0x1000 * k + 0x1000) with (0x1000 * (k + 1)) by lia.
    destruct (IH f (k + 1) s1 P1 Mp1 Hus1 Hcur1 (eq_trans (extends_file s s1 8 Hex1 ltac:(lia)) Ev)
      (eq_trans (extends_file s s1 20 Hex1 ltac:(lia)) Em) ltac:(lia) ltac:(lia) ltac:(lia) Hend (n - 1) ltac:(lia) Hb1)
      as (s2 & P2 & Mp2 & E2 & [Hus2 Hcur2 Hex2 Hpg2 Hb2]).
    exists s2, P2, Mp2. split; [exact E2|]. split; try assumption.
    + apply (extends_trans _ s1); assumption.
    + replace ((vaddr + 0x1000 * k) / 0x1000) with (vaddr / 0x1000 + k) in Hpg1 by dlia.
      destruct Hpg1 as [A1 A2], Hpg2 as [B1 B2]. split; intros v Hv.
      * destruct (Z.eq_dec v (vaddr / 0x1000 + k)) as [->|]; [rewrite B2 by lia; apply A1; lia|apply B1; lia].
      * rewrite B2, A2 by lia. reflexivity.
    + replace (n - Z.of_nat (S r)) with (n - 1 - Z.of_nat r) by lia. exact Hb2.
Qed.
End segment.

(** ** Loading *)

(** A program header: where its pages start, how many the loader maps. *)
Record segment := MkSeg { sg_vaddr : Z; sg_off : Z; sg_memsz : Z }.
Definition seg_at (m : mem) (phdr : Z) : segment := MkSeg (p_vaddr m phdr) (p_offset m phdr) (p_memsz m phdr).
Definition sg_page (g : segment) : Z := sg_vaddr g / 0x1000.
Definition sg_pages (g : segment) : Z := sg_memsz g / 0x1000 + 1.

(** The segment lies below the kernel, its bytes lie in the file buffer, and
    the last byte is on a page that is mapped. *)
Record seg_ok (data : Z) (g : segment) : Prop := {
  so_vaddr : sg_vaddr g + sg_memsz g < KERNEL_VIRT;
  so_tail : sg_vaddr g mod 0x1000 + sg_memsz g mod 0x1000 <= 0x1000;
  so_file : MM_HEAP_MAX <= data /\ data + sg_off g + sg_memsz g <= KERNEL_VIRT + 0x400000;
}.

(** The kernel's image below the bitmaps and the kernel heap are as before. *)
Record high_same (s s' : pg_state) : Prop := {
  hs_PD : MM_CURRENT_PD (pg_mm s') = MM_CURRENT_PD (pg_mm s);
  hs_bytes : forall a, KERNEL_VIRT <= a -> a < MM_CURRENT_PD (pg_mm s) \/ MM_HEAP_MAX <= a -> load8 (pg_mem s') a = load8 (pg_mem s) a;
}.

Lemma high_refl s : high_same s s.
Proof. split; reflexivity. Qed.

Lemma high_trans s1 s2 s3 : high_same s1 s2 -> high_same s2 s3 -> high_same s1 s3.
Proof.
  intros [A1 A2] [B1 B2]. split; [congruence|]. intros a H1 H2. rewrite B2, A2; [reflexivity|assumption..|rewrite A1; assumption].
Qed.

Lemma high_extends s s' : extends s s' -> high_same s s'.
Proof. intros H. split; [apply (ex_PD _ _ H)|]. intros a _ Ha. apply (ex_bytes _ _ H a Ha). Qed.

Lemma high_wrote pd P Mp s s' lo hi val : wrote pd P Mp s s' lo hi val -> high_same s s'.
Proof. intros [_ _ H1 H2 _]. split; [rewrite H1; reflexivity|]. intros a Ha _. apply H2. exact Ha. Qed.

Arguments high_wrote {pd P Mp s s' lo hi val}.

Lemma high_heap s s' a : high_same s s' -> MM_HEAP_MAX <= a -> load8 (pg_mem s') a = load8 (pg_mem s) a.
Proof. intros H Ha. apply (hs_bytes _ _ H); [unfold MM_HEAP_MAX, KERNEL_VIRT in *; lia|right; exact Ha]. Qed.

Lemma seg_at_same s s' phdr : high_same s s' -> MM_HEAP_MAX <= phdr -> seg_at (pg_mem s') phdr = seg_at (pg_mem s) phdr.
Proof.
  intros H Hp. unfold seg_at, p_vaddr, p_offset, p_memsz.
  rewrite (load32_ext (pg_mem s') (pg_mem s) (phdr + 8)), (load32_ext (pg_mem s') (pg_mem s) (phdr + 4)),
    (load32_ext (pg_mem s') (pg_mem s) (phdr + 20)) by (intros i Hi; apply (high_heap _ _ _ H); lia). reflexivity.
Qed.

Lemma page_bound v sz u : 0 <= sz -> v mod 0x1000 + sz mod 0x1000 <= 0x1000 -> v <= u < v + sz ->
  v / 0x1000 <= u / 0x1000 < v / 0x1000 + (sz / 0x1000 + 1).
Proof. intros. dlia. Qed.

Record loaded_one (pd data : Z) (g : segment) (s s' : pg_state) (P' : pool) (Mp Mp' : gmap Z Z) (n : Z) : Prop := {
  lo_us : uspace s' pd P' Mp';
  lo_cur : CURRENT_PAGE_DIRECTORY s' = pd;
  lo_pages : more_pages Mp Mp' (sg_page g) (sg_pages g);
  lo_high : high_same s s';
  lo_budget : budget s' P' (n - sg_pages g);
  lo_bytes : forall u, sg_vaddr g <= u < sg_vaddr g + sg_memsz g ->
    ubyte s' Mp' u = Some (load8 (pg_mem s) (data + sg_off g + (u - sg_vaddr g)));
  lo_other : forall u, 0 <= u < KERNEL_VIRT -> u / 0x1000 < sg_page g \/ sg_page g + sg_pages g <= u / 0x1000 ->
    ubyte s' Mp' u = ubyte s Mp u;
}.

Lemma load_segment_spec pd data phdr s P Mp n :
  uspace s pd P Mp -> CURRENT_PAGE_DIRECTORY s = pd ->
  MM_HEAP_MAX <= phdr /\ phdr + PHDR_SIZE <= KERNEL_VIRT + 0x400000 ->
  let g := seg_at (pg_mem s) phdr in
  seg_ok data g -> sg_pages g <= n -> budget s P n ->
  exists s' P' Mp', load_segment data phdr s = Ok tt s' /\ loaded_one pd data g s s' P' Mp Mp' n.
Proof.
  intros Hus Hcur Hph g [Hend Htail Hfile] Hn Hb. unfold load_segment.
  assert (Hr : 0 <= sg_vaddr g /\ 0 <= sg_memsz g /\ 0 <= sg_off g)
    by (unfold g, seg_at, p_vaddr, p_memsz, p_offset; cbn; pose proof (load32_range (pg_mem s) (phdr + 8));
        pose proof (load32_range (pg_mem s) (phdr + 20)); pose proof (load32_range (pg_mem s) (phdr + 4)); lia).
  rewrite (bind_Ok _ _ _ _ _ (vread32_file pd phdr Hph s P Mp 20 Hus Hcur ltac:(lia))).
  change (load32 (pg_mem s) (phdr + 20)) with (sg_memsz g).
  destruct (map_segment_spec pd phdr Hph (sg_vaddr g) (sg_memsz g) (Z.to_nat (sg_pages g)) (S (S (Z.to_nat (sg_memsz g / 0x1000)))) 0
    s P Mp Hus Hcur eq_refl eq_refl ltac:(lia) ltac:(unfold sg_pages; dlia) ltac:(unfold sg_pages; dlia) Hend n
    ltac:(unfold sg_pages in *; dlia) Hb) as (s1 & P1 & Mp1 & E1 & [Hus1 Hcur1 Hex1 Hpg1 Hb1]).
  rewrite Z.mul_0_r in E1. rewrite (bind_Ok _ _ _ _ _ E1). fold (sg_page g) in Hpg1. rewrite Z.add_0_r in Hpg1.
  rewrite Z2Nat.id in Hpg1, Hb1 by (unfold sg_pages; dlia).
  rewrite (bind_Ok _ _ _ _ _ (vread32_file pd phdr Hph s1 P1 Mp1 8 Hus1 Hcur1 ltac:(lia))).
  rewrite (bind_Ok _ _ _ _ _ (vread32_file pd phdr Hph s1 P1 Mp1 4 Hus1 Hcur1 ltac:(lia))).
  rewrite (bind_Ok _ _ _ _ _ (vread32_file pd phdr Hph s1 P1 Mp1 20 Hus1 Hcur1 ltac:(lia))).
  rewrite !(extends_file phdr Hph s s1) by (assumption || lia).
  change (load32 (pg_mem s) (phdr + 20)) with (sg_memsz g). change (load32 (pg_mem s) (phdr + 8)) with (sg_vaddr g).
  change (load32 (pg_mem s) (phdr + 4)) with (sg_off g).
  assert (Hmap : mapped Mp1 (sg_vaddr g) (sg_vaddr g + sg_memsz g)).
  { intros u Hu. apply Hpg1. pose proof (page_bound _ _ u (proj1 (proj2 Hr)) Htail Hu). unfold sg_page, sg_pages. lia. }
  destruct (vmemset_spec pd P1 Mp1 s1 (sg_vaddr g) 0 (sg_memsz g) Hus1 Hcur1 ltac:(lia) ltac:(lia) ltac:(lia) Hmap) as (s2 & E2 & W2).
  rewrite (bind_Ok _ _ _ _ _ E2). unfold MM_HEAP_MAX in Hfile.
  rewrite u32_small by (unfold KERNEL_VIRT in *; lia).
  destruct (vmemcpy_spec pd P1 Mp1 s2 (sg_vaddr g) (data + sg_off g) (sg_memsz g) (w_us W2) (w_cur W2)
    ltac:(lia) ltac:(lia) ltac:(lia) Hmap ltac:(unfold KERNEL_VIRT in *; lia) ltac:(lia)) as (s3 & E3 & W3).
  exists s3, P1, Mp1. split; [exact E3|].
  assert (Hmm : pg_mm s3 = set_mem (pg_mem s3) (pg_mm s1)) by (rewrite (w_mm W3), (w_mm W2); reflexivity).
  assert (Hk : high_same s s2) by (apply (high_trans _ s1); [apply high_extends, Hex1|apply (high_wrote W2)]).
  split.
  - apply W3.
  - apply W3.
  - exact Hpg1.
  - apply (high_trans _ s2 _ Hk), (high_wrote W3).
  - unfold budget in *. rewrite Hmm. exact Hb1.
  - intros u Hu. rewrite (w_user W3) by lia.
    replace ((sg_vaddr g <=? u) && (u <? sg_vaddr g + sg_memsz g)) with true by lia. f_equal.
    apply (high_heap _ _ _ Hk). unfold MM_HEAP_MAX. lia.
  - intros u Hu Ho. pose proof (page_bound (sg_vaddr g) (sg_memsz g) u (proj1 (proj2 Hr)) Htail) as Hpb.
    unfold sg_page, sg_pages in Ho. rewrite (w_user W3), (w_user W2) by exact Hu.
    replace ((sg_vaddr g <=? u) && (u <? sg_vaddr g + sg_memsz g)) with false by lia.
    unfold ubyte. rewrite (proj2 Hpg1) by (unfold sg_page, sg_pages; lia). destruct (Mp !! (u / 0x1000)) as [f|] eqn:Hf; [|reflexivity].
    cbn. f_equal. apply (ex_bytes _ _ Hex1). destruct (us_frame_range s pd P Mp Hus _ _ Hf).
    pose proof (sp_bits _ _ (us_space _ _ _ _ Hus)). left. unfold KERNEL_VIRT in *. dlia.
Qed.

(** The segments of [k] consecutive program headers. *)
Fixpoint segs (m : mem) (phdr : Z) (k : nat) : list segment :=
  match k with
  | O => []
  | S k' => seg_at m phdr :: segs m (phdr + PHDR_SIZE) k'
  end.
Definition apart (g h : segment) : Prop := sg_page g + sg_pages g <= sg_page h \/ sg_page h + sg_pages h <= sg_page g.
Definition total_pages (l : list segment) : Z := foldr (fun g n => sg_pages g + n) 0 l.
Definition off_page (v : Z) (g : segment) : Prop := v < sg_page g \/ sg_page g + sg_pages g <= v.

(** Every byte of the segment is the byte of the file, as of state [s0]. *)
Definition holds_segment (data : Z) (s0 s : pg_state) (Mp : gmap Z Z) (g : segment) : Prop :=
  forall u, sg_vaddr g <= u < sg_vaddr g + sg_memsz g ->
    ubyte s Mp u = Some (load8 (pg_mem s0) (data + sg_off g + (u - sg_vaddr g))).

Lemma segs_same s s' k : forall phdr, high_same s s' -> MM_HEAP_MAX <= phdr -> segs (pg_mem s') phdr k = segs (pg_mem s) phdr k.
Proof.
  induction k as [|k IH]; intros phdr Hh Hp; [reflexivity|]. cbn [segs]. rewrite (seg_at_same s s') by assumption.
  rewrite IH by (assumption || (unfold PHDR_SIZE; lia)). reflexivity.
Qed.

Lemma total_pages_nonneg l : Forall (fun g => 0 <= sg_memsz g) l -> 0 <= total_pages l.
Proof.
  induction 1 as [|g l Hg Hl IH]; [reflexivity|]. change (0 <= sg_pages g + total_pages l).
  assert (0 <= sg_pages g) by (unfold sg_pages; dlia). lia.
Qed.

Lemma segs_memsz m phdr k : Forall (fun g => 0 <= sg_memsz g) (segs m phdr k).
Proof. revert phdr. induction k; intros; constructor; [cbn; apply load32_range|auto]. Qed.

Lemma segs_vaddr m phdr k : Forall (fun g => 0 <= sg_vaddr g) (segs m phdr k).
Proof. revert phdr. induction k; intros; constructor; [cbn; apply load32_range|auto]. Qed.

Lemma segs_off m phdr k : Forall (fun g => 0 <= sg_off g) (segs m phdr k).
Proof. revert phdr. induction k; intros; constructor; [cbn; apply load32_range|auto]. Qed.

Record loaded_all (pd data : Z) (l : list segment) (s s' : pg_state) (P' : pool) (Mp Mp' : gmap Z Z) (n : Z) : Prop := {
  la_us : uspace s' pd P' Mp';
  la_cur : CURRENT_PAGE_DIRECTORY s' = pd;
  la_high : high_same s s';
  la_budget : budget s' P' (n - total_pages l);
  la_holds : Forall (holds_segment data s s' Mp') l;
  la_other : forall u, 0 <= u < KERNEL_VIRT -> Forall (off_page (u / 0x1000)) l -> ubyte s' Mp' u = ubyte s Mp u;
}.

Lemma holds_rebase data s s1 s2 Mp l :
  high_same s s1 -> Forall (seg_ok data) l -> Forall (fun g => 0 <= sg_off g) l ->
  Forall (holds_segment data s1 s2 Mp) l -> Forall (holds_segment data s s2 Mp) l.
Proof.
  intros Hh Hok Hoff H. induction H as [|g l Hg H IH]; [constructor|].
  apply Forall_cons in Hok as [[_ _ [Hd _]] Hok], Hoff as [Hof Hoff]. constructor; [|auto].
  intros u Hu. rewrite (Hg u Hu). f_equal. apply (high_heap _ _ _ Hh). lia.
Qed.

(** Segments off two pages keep their bytes when only those pages change. *)
Lemma holds_kept data s s1 s2 Mp1 Mp2 v l :
  Forall (seg_ok data) l -> Forall (fun g => 0 <= sg_vaddr g) l -> Forall (off_page 4) l -> Forall (off_page v) l ->
  (forall u, 0 <= u < KERNEL_VIRT -> u / 0x1000 <> v -> u / 0x1000 <> 4 -> ubyte s2 Mp2 u = ubyte s1 Mp1 u) ->
  Forall (holds_segment data s s1 Mp1) l -> Forall (holds_segment data s s2 Mp2) l.
Proof.
  intros Hok Hva H4 Hv Hu H. induction H as [|g l Hg H IH]; [constructor|].
  apply Forall_cons in Hok as [[He Ht _] Hok], H4 as [G4 H4], Hv as [Gv Hv], Hva as [Ga Hva]. constructor; [|auto].
  intros u Hr. destruct (Z.le_gt_cases (sg_memsz g) 0) as [|Hm]; [lia|].
  pose proof (page_bound (sg_vaddr g) (sg_memsz g) u ltac:(lia) Ht Hr). unfold off_page, sg_page, sg_pages in *. rewrite Hu by lia. apply Hg. exact Hr.
Qed.

Lemma load_segments_spec pd data k : forall fuel phdr s P Mp n,
  uspace s pd P Mp -> CURRENT_PAGE_DIRECTORY s = pd -> (k <= fuel)%nat ->
  MM_HEAP_MAX <= phdr /\ phdr + PHDR_SIZE * Z.of_nat k <= KERNEL_VIRT + 0x400000 ->
  let l := segs (pg_mem s) phdr k in
  Forall (seg_ok data) l -> ForallOrdPairs apart l -> total_pages l <= n -> budget s P n ->
  exists s' P' Mp', load_segments fuel data phdr (phdr + PHDR_SIZE * Z.of_nat k) s = Ok tt s' /\
    loaded_all pd data l s s' P' Mp Mp' n.
Proof.
  induction k as [|k IH]; intros fuel phdr s P Mp n Hus Hcur Hf Hph l Hok Hap Hn Hb.
  - exists s, P, Mp. split.
    + destruct fuel as [|f]; [reflexivity|]. cbn [load_segments]. rewrite Z.mul_0_r, Z.add_0_r, Z.ltb_irrefl. reflexivity.
    + split; try assumption; [apply high_refl|cbn; rewrite Z.sub_0_r; exact Hb|constructor|reflexivity].
  - destruct fuel as [|f]; [lia|]. cbn [load_segments]. unfold PHDR_SIZE in *.
    assert (Hlt : (phdr <? phdr + 32 * Z.of_nat (S k)) = true) by (apply Z.ltb_lt; lia). rewrite Hlt. subst l. cbn [segs] in *.
    set (g := seg_at (pg_mem s) phdr) in *. apply Forall_cons in Hok as [Hg Hok].
    inversion Hap as [|? ? Hap1 Hap2]; subst. cbn [total_pages foldr] in Hn. fold (total_pages (segs (pg_mem s) (phdr + PHDR_SIZE) k)) in Hn.
    pose proof (total_pages_nonneg _ (segs_memsz (pg_mem s) (phdr + PHDR_SIZE) k)) as Hnn.
    destruct (load_segment_spec (CURRENT_PAGE_DIRECTORY s) data phdr s P Mp n Hus eq_refl ltac:(unfold PHDR_SIZE; lia) Hg ltac:(fold g; lia) Hb)
      as (s1 & P1 & Mp1 & E1 & [Hus1 Hcur1 Hpg1 Hhigh1 Hb1 Hby1 Hot1]).
    rewrite (bind_Ok _ _ _ _ _ E1). fold g in Hpg1, Hb1, Hby1, Hot1.
    assert (El : segs (pg_mem s1) (phdr + 32) k = segs (pg_mem s) (phdr + PHDR_SIZE) k)
      by (unfold PHDR_SIZE; apply segs_same; [exact Hhigh1|lia]).
    destruct (IH f (phdr + 32) s1 P1 Mp1 (n - sg_pages g) Hus1 Hcur1 ltac:(lia) ltac:(lia)) as (s2 & P2 & Mp2 & E2 & H2);
      [rewrite El; assumption|rewrite El; assumption|rewrite El; lia|assumption|].
    rewrite El in H2. destruct H2 as [Hus2 Hcur2 Hhigh2 Hb2 Hh2 Hot2].
    exists s2, P2, Mp2. replace (phdr + 32 * Z.of_nat (S k)) with (phdr + 32 + 32 * Z.of_nat k) by lia.
    split; [exact E2|]. split; try assumption.
    + apply (high_trans _ s1); assumption.
    + cbn [total_pages foldr]. fold (total_pages (segs (pg_mem s) (phdr + PHDR_SIZE) k)).
      replace (n - (sg_pages g + total_pages (segs (pg_mem s) (phdr + PHDR_SIZE) k)))
        with (n - sg_pages g - total_pages (segs (pg_mem s) (phdr + PHDR_SIZE) k)) by lia. exact Hb2.
    + assert (Hm0 : 0 <= sg_memsz g /\ 0 <= sg_vaddr g /\ 0 <= sg_off g) by (unfold g; cbn; unfold p_memsz, p_vaddr, p_offset;
        pose proof (load32_range (pg_mem s) (phdr + 8)); pose proof (load32_range (pg_mem s) (phdr + 20)); pose proof (load32_range (pg_mem s) (phdr + 4)); lia).
      constructor.
      * intros u Hu. rewrite Hot2; [apply Hby1; exact Hu|destruct Hg; lia|].
        eapply Forall_impl; [exact Hap1|]. intros h Hh. destruct Hg as [_ Ht _].
        pose proof (page_bound _ _ u (proj1 Hm0) Ht Hu). unfold off_page, apart, sg_page, sg_pages in *. lia.
      * apply (holds_rebase data s s1); [exact Hhigh1|exact Hok|apply segs_off|exact Hh2].
    + intros u Hu Ho. apply Forall_cons in Ho as [Ho1 Ho2]. rewrite Hot2, Hot1 by assumption. reflexivity.
Qed.

(** ** The heap page, the stack page and the arguments *)

Section tail.
Context (pd : Z) (P : pool) (Mp : gmap Z Z).

Definition word_byte (va v u : Z) : Z := u8 (v .>> (8 * (u - va))).

Lemma vwrite32_spec s va v : uspace s pd P Mp -> CURRENT_PAGE_DIRECTORY s = pd ->
  0 <= va -> va + 4 <= KERNEL_VIRT -> mapped Mp va (va + 4) ->
  exists s', vwrite32 va v s = Ok tt s' /\ wrote pd P Mp s s' va (va + 4) (word_byte va v).
Proof.
  intros Hus Hcur Hlo Hhi Hm. unfold vwrite32.
  assert (H1 : forall t o x, uspace t pd P Mp -> CURRENT_PAGE_DIRECTORY t = pd -> 0 <= o < 4 -> u8 x = word_byte va v (va + o) ->
    exists t', vwrite8 (va + o) x t = Ok tt t' /\ wrote pd P Mp t t' (va + o) (va + o + 1) (word_byte va v)).
  { intros t o x Ht Hc Ho Hx. apply vwrite8_wrote; try assumption; [lia|apply Hm; lia]. }
  assert (Hb : forall o, word_byte va v (va + o) = u8 (v .>> (8 * o))) by (intros o; unfold word_byte; do 3 f_equal; lia).
  destruct (H1 s 0 v Hus Hcur ltac:(lia) ltac:(rewrite Hb; reflexivity)) as (s1 & E1 & W1). rewrite Z.add_0_r in E1.
  destruct (H1 s1 1 (v .>> 8) (w_us W1) (w_cur W1) ltac:(lia) ltac:(rewrite Hb; reflexivity)) as (s2 & E2 & W2).
  destruct (H1 s2 2 (v .>> 16) (w_us W2) (w_cur W2) ltac:(lia) ltac:(rewrite Hb; reflexivity)) as (s3 & E3 & W3).
  destruct (H1 s3 3 (v .>> 24) (w_us W3) (w_cur W3) ltac:(lia) ltac:(rewrite Hb; reflexivity)) as (s4 & E4 & W4).
  exists s4. split.
  - rewrite (bind_Ok _ _ _ _ _ E1), (bind_Ok _ _ _ _ _ E2), (bind_Ok _ _ _ _ _ E3). exact E4.
  - replace (va + 0 + 1) with (va + 1) in W1 by lia. rewrite Z.add_0_r in W1.
    apply (wrote_app pd P Mp s s1 s4 va (va + 1)); [lia|exact W1|]. replace (va + 1 + 1) with (va + 2) in W2 by lia.
    apply (wrote_app pd P Mp s1 s2 s4 _ (va + 2)); [lia|exact W2|]. replace (va + 2 + 1) with (va + 3) in W3 by lia.
    apply (wrote_app pd P Mp s2 s3 s4 _ (va + 3)); [lia|exact W3|]. replace (va + 3 + 1) with (va + 4) in W4 by lia. exact W4.
Qed.

Lemma vstrlen_spec s p w : uspace s pd P Mp -> CURRENT_PAGE_DIRECTORY s = pd ->
  cstr (pg_mem s) p w -> KERNEL_VIRT <= p -> p + Z.of_nat (length w) < KERNEL_VIRT + 0x400000 ->
  forall fuel i, 0 <= i <= Z.of_nat (length w) -> Z.of_nat (length w) - i < Z.of_nat fuel ->
  vstrlen fuel p i s = Ok (Z.of_nat (length w)) s.
Proof.
  intros Hus Hcur Hw Hlo Hhi. induction fuel as [|f IH]; intros i Hi Hf; [lia|]. cbn [vstrlen].
  rewrite (bind_Ok _ _ _ _ _ (vread8_kernel s pd P Mp Hus Hcur (p + i) ltac:(lia))).
  destruct Hw as [_ (_ & Hz & Hnz)]. destruct (Z.eq_dec i (Z.of_nat (length w))) as [->|].
  - rewrite Hz. reflexivity.
  - specialize (Hnz i ltac:(lia)). replace (load8 (pg_mem s) (p + i) =? 0) with false by lia. apply IH; lia.
Qed.

Lemma vstrcpy_spec s dst p w : uspace s pd P Mp -> CURRENT_PAGE_DIRECTORY s = pd ->
  cstr (pg_mem s) p w -> KERNEL_VIRT <= p -> p + Z.of_nat (length w) < KERNEL_VIRT + 0x400000 ->
  Z.of_nat (length w) < 0x10000 -> 0 <= dst -> dst + Z.of_nat (length w) <= KERNEL_VIRT ->
  mapped Mp dst (dst + Z.of_nat (length w)) ->
  exists s', vstrcpy dst p s = Ok tt s' /\
    wrote pd P Mp s s' dst (dst + Z.of_nat (length w)) (fun u => load8 (pg_mem s) (p + (u - dst))).
Proof.
  intros Hus Hcur Hw Hlo Hhi Hl Hd1 Hd2 Hm. unfold vstrcpy.
  rewrite (bind_Ok _ _ s _ _ (eq_refl (gets (fun s => strfuel (pg_mem s)) s))).
  pose proof (cstr_fuel _ _ _ Hw). rewrite (bind_Ok _ _ _ _ _ (vstrlen_spec s p w Hus Hcur Hw Hlo Hhi (strfuel (pg_mem s)) 0 ltac:(lia) ltac:(lia))).
  rewrite u16_small by lia. apply (vmemcpy_spec pd P Mp s dst p); try assumption; lia.
Qed.

Lemma ubyte_vread8 s u b : uspace s pd P Mp -> CURRENT_PAGE_DIRECTORY s = pd -> 0 <= u < KERNEL_VIRT ->
  ubyte s Mp u = Some b -> vread8 u s = Ok b s.
Proof.
  intros Hus Hcur Hu Hb. unfold ubyte in Hb. destruct (Mp !! (u / 0x1000)) as [f|] eqn:Hf; [|discriminate].
  cbn in Hb. injection Hb as <-. apply (vread8_user s pd P Mp Hus Hcur); assumption.
Qed.
End tail.

Record started (pd data base : Z) (s s' : pg_state) (P' : pool) (Mp Mp' : gmap Z Z) (w : list Z) : Prop := {
  st_us : uspace s' pd P' Mp';
  st_cur : CURRENT_PAGE_DIRECTORY s' = pd;
  st_high : high_same s s';
  st_args : forall i b, w !! i = Some b -> ubyte s' Mp' (0x4000 + Z.of_nat i) = Some b;
  st_stack : forall o, 0 <= o < 4 -> ubyte s' Mp' (0x4EF8 + o) = Some 0 /\ ubyte s' Mp' (0x4EFC + o) = Some (word_byte 0x4EFC 0x4000 (0x4EFC + o));
  st_base : is_Some (Mp' !! (base / 0x1000));
  st_other : forall u, 0 <= u < KERNEL_VIRT -> u / 0x1000 <> base / 0x1000 -> u / 0x1000 <> 4 -> ubyte s' Mp' u = ubyte s Mp u;
}.

Section args.
Context (pd data lit : Z) (w : list Z) (s : pg_state) (P : pool) (Mp : gmap Z Z).
Hypothesis Hus : uspace s pd P Mp.
Hypothesis Hcur : CURRENT_PAGE_DIRECTORY s = pd.
Hypothesis Hpg : is_Some (Mp !! 4).
Hypothesis Hdata : MM_HEAP_MAX <= data /\ data + 52 <= KERNEL_VIRT + 0x400000.
Hypothesis Hw : cstr (pg_mem s) lit w.
Hypothesis Hl1 : KERNEL_VIRT <= lit.
Hypothesis Hl2 : lit + Z.of_nat (length w) < MM_CURRENT_PD (pg_mm s).
Hypothesis Hl3 : Z.of_nat (length w) <= 0x500.

(** The user bytes after the four writes. *)
Definition args_bytes (u : Z) : option Z :=
  if (0x4EF8 <=? u) && (u <? 0x4EFC) then Some (word_byte 0x4EF8 0 u)
  else if (0x4EFC <=? u) && (u <? 0x4F00) then Some (word_byte 0x4EFC 0x4000 u)
  else if (0x4000 <=? u) && (u <? 0x4000 + Z.of_nat (length w)) then Some (load8 (pg_mem s) (lit + (u - 0x4000)))
  else if (0x4500 <=? u) && (u <? 0x4504) then Some (word_byte 0x4500 0x4000 u) else ubyte s Mp u.

Lemma write_args_spec :
  exists s', write_args data lit s = Ok (load32 (pg_mem s) (data + 24)) s' /\ uspace s' pd P Mp /\ CURRENT_PAGE_DIRECTORY s' = pd /\
    high_same s s' /\ forall u, 0 <= u < KERNEL_VIRT -> ubyte s' Mp u = args_bytes u.
Proof.
  assert (Hk : 0x5000 <= KERNEL_VIRT) by (unfold KERNEL_VIRT; lia).
  assert (Hm : forall lo hi, 0x4000 <= lo -> hi <= 0x5000 -> mapped Mp lo hi)
    by (intros lo hi H1 H2 u Hu; replace (u / 0x1000) with 4 by dlia; exact Hpg).
  destruct (vwrite32_spec pd P Mp s 0x4500 0x4000 Hus Hcur ltac:(lia) ltac:(lia) ltac:(apply Hm; lia)) as (s3 & E3 & W3).
  pose proof (high_wrote W3) as H03. pose proof (sp_bits _ _ (us_space _ _ _ _ Hus)) as Hbits.
  assert (Hw3 : cstr (pg_mem s3) lit w) by (apply (cstr_frame (pg_mem s) _ _ _ Hw); intros i Hi; apply (hs_bytes _ _ H03); lia).
  destruct (vstrcpy_spec pd P Mp s3 0x4000 lit w (w_us W3) (w_cur W3) Hw3 Hl1
    ltac:(unfold MM_HEAP_MAX, KERNEL_VIRT in *; lia) ltac:(lia) ltac:(lia) ltac:(lia) ltac:(apply Hm; lia)) as (s4 & E4 & W4).
  destruct (vwrite32_spec pd P Mp s4 0x4EFC 0x4000 (w_us W4) (w_cur W4) ltac:(lia) ltac:(lia) ltac:(apply Hm; lia)) as (s5 & E5 & W5).
  destruct (vwrite32_spec pd P Mp s5 0x4EF8 0 (w_us W5) (w_cur W5) ltac:(lia) ltac:(lia) ltac:(apply Hm; lia)) as (s6 & E6 & W6).
  assert (H06 : high_same s s6).
  { apply (high_trans _ s3 _ H03), (high_trans _ s4 _ (high_wrote W4)), (high_trans _ s5 _ (high_wrote W5)), (high_wrote W6). }
  exists s6. split; [|split; [apply (w_us W6)|split; [apply (w_cur W6)|split; [exact H06|]]]].
  - unfold write_args. rewrite (bind_Ok _ _ _ _ _ E3), (bind_Ok _ _ _ _ _ E4), (bind_Ok _ _ _ _ _ E5),
      (bind_Ok _ _ _ _ _ E6), (vread32_kernel s6 pd P Mp (w_us W6) (w_cur W6)) by (unfold MM_HEAP_MAX, KERNEL_VIRT in *; lia).
    f_equal. apply load32_ext. intros i Hi. apply (high_heap _ _ _ H06). lia.
  - intros u Hu. rewrite (w_user W6), (w_user W5), (w_user W4), (w_user W3) by exact Hu. unfold args_bytes.
    destruct ((0x4000 <=? u) && (u <? 0x4000 + Z.of_nat (length w))) eqn:E; [|reflexivity].
    rewrite (hs_bytes _ _ H03) by lia. reflexivity.
Qed.
End args.

(** A page mapped in addition leaves the bytes of the others. *)
Lemma mapped_more_other pd s s' P P' Mp Mp' lo cnt n u :
  uspace s pd P Mp -> mapped_more pd s s' P P' Mp Mp' lo cnt n ->
  u / 0x1000 < lo \/ lo + cnt <= u / 0x1000 -> ubyte s' Mp' u = ubyte s Mp u.
Proof.
  intros Hus [_ _ Hex [_ Hpg] _] Hu. unfold ubyte. rewrite Hpg by assumption.
  destruct (Mp !! (u / 0x1000)) as [f|] eqn:Hf; [|reflexivity]. cbn. f_equal. apply (ex_bytes _ _ Hex).
  destruct (us_frame_range s pd P Mp Hus _ _ Hf). pose proof (sp_bits _ _ (us_space _ _ _ _ Hus)).
  left. unfold KERNEL_VIRT in *. dlia.
Qed.

Lemma start_program_spec pd data lit base w s P Mp :
  uspace s pd P Mp -> CURRENT_PAGE_DIRECTORY s = pd -> budget s P 2 ->
  0 <= base < KERNEL_VIRT -> base / 0x1000 <> 4 ->
  MM_HEAP_MAX <= data /\ data + 52 <= KERNEL_VIRT + 0x400000 ->
  cstr (pg_mem s) lit w -> KERNEL_VIRT <= lit -> lit + Z.of_nat (length w) < MM_CURRENT_PD (pg_mm s) -> Z.of_nat (length w) <= 0x500 ->
  exists s' P' Mp', start_program data lit base s = Ok (load32 (pg_mem s) (data + 24)) s' /\ started pd data base s s' P' Mp Mp' w.
Proof.
  intros Hus Hcur Hb Hbase Hb4 Hdata Hw Hl1 Hl2 Hl3. unfold start_program.
  destruct (k_map_user_spec s pd P Mp base 2 Hus Hcur Hbase Hb ltac:(lia)) as (s1 & P1 & Mp1 & E1 & M1). pose proof (mo_us M1) as Hus1.
  destruct (k_map_user_spec s1 pd P1 Mp1 0x4000 1 Hus1 (mo_cur M1) ltac:(unfold KERNEL_VIRT; lia) (mo_budget M1) ltac:(lia))
    as (s2 & P2 & Mp2 & E2 & M2). change (0x4000 / 0x1000) with 4 in M2.
  assert (H02 : high_same s s2) by (apply (high_trans _ s1); apply high_extends; [apply M1|apply M2]).
  pose proof (sp_bits _ _ (us_space _ _ _ _ Hus)) as Hbits.
  assert (Hw2 : cstr (pg_mem s2) lit w) by (apply (cstr_frame (pg_mem s) _ _ _ Hw); intros i Hi; apply (hs_bytes _ _ H02); lia).
  destruct (write_args_spec pd data lit w s2 P2 Mp2 (mo_us M2) (mo_cur M2) (proj1 (mo_pages M2) 4 ltac:(lia)) Hdata Hw2 Hl1
    ltac:(rewrite (hs_PD _ _ H02); lia) Hl3) as (s3 & E3 & Hus3 & Hcur3 & H23 & Hub).
  assert (Hk : 0x5000 <= KERNEL_VIRT) by (unfold KERNEL_VIRT; lia).
  exists s3, P2, Mp2. split.
  - rewrite (bind_Ok _ _ _ _ _ E1), (bind_Ok _ _ _ _ _ E2), E3. f_equal. apply load32_ext. intros i Hi. apply (high_heap _ _ _ H02). lia.
  - split; try assumption; unfold args_bytes in Hub.
    + apply (high_trans _ s2); assumption.
    + intros i b Hi. pose proof (lookup_lt_Some _ _ _ Hi). rewrite Hub by lia.
      replace ((0x4EF8 <=? 0x4000 + Z.of_nat i) && _) with false by lia. replace ((0x4EFC <=? 0x4000 + Z.of_nat i) && _) with false by lia.
      replace ((0x4000 <=? 0x4000 + Z.of_nat i) && _) with true by lia. replace (lit + (0x4000 + Z.of_nat i - 0x4000)) with (lit + Z.of_nat i) by lia.
      pose proof (cstr_lookup _ _ _ (Z.of_nat i) Hw2 ltac:(lia)) as Hc. rewrite Nat2Z.id in Hc. congruence.
    + intros o Ho. rewrite !Hub by lia. replace ((0x4EF8 <=? 0x4EF8 + o) && _) with true by lia.
      replace ((0x4EF8 <=? 0x4EFC + o) && _) with false by lia. replace ((0x4EFC <=? 0x4EFC + o) && _) with true by lia.
      split; [|reflexivity]. unfold word_byte. rewrite Z.shiftr_0_l. reflexivity.
    + rewrite (proj2 (mo_pages M2)) by lia. apply (mo_pages M1). lia.
    + intros u Hu Hnb Hn4. rewrite Hub by exact Hu.
      replace ((0x4EF8 <=? u) && (u <? 0x4EFC)) with false by dlia. replace ((0x4EFC <=? u) && (u <? 0x4F00)) with false by dlia.
      replace ((0x4000 <=? u) && (u <? 0x4000 + Z.of_nat (length w))) with false by dlia. replace ((0x4500 <=? u) && (u <? 0x4504)) with false by dlia.
      rewrite (mapped_more_other pd s1 s2 P1 P2 Mp1 Mp2 _ _ _ u Hus1 M2) by lia.
      apply (mapped_more_other pd s s1 P P1 Mp Mp1 _ _ _ u Hus M1). lia.
Qed.

(** ** The whole load *)

(** A loadable file at [data] with [k] program headers, in a kernel with enough
    pages: [l] are its segments, [base] the page after the last one. *)
Record elf_ok (s : pg_state) (P : pool) (data lit : Z) (w : list Z) (k : nat) : Prop := {
  eo_ready : kernel_ready s P;
  eo_data : MM_HEAP_MAX <= data /\ data + 52 <= KERNEL_VIRT + 0x400000;
  eo_num : e_phnum (pg_mem s) data = Z.of_nat k /\ (0 < k)%nat;
  eo_size : e_phentsize (pg_mem s) data = PHDR_SIZE;
  eo_phdr : data + e_phoff (pg_mem s) data + PHDR_SIZE * Z.of_nat k <= KERNEL_VIRT + 0x400000;
  eo_lit : cstr (pg_mem s) lit w /\ KERNEL_VIRT <= lit /\ lit + Z.of_nat (length w) < MM_CURRENT_PD (pg_mm s) /\ Z.of_nat (length w) <= 0x500;
  eo_segs : Forall (seg_ok data) (segs (pg_mem s) (data + e_phoff (pg_mem s) data) k);
  eo_apart : ForallOrdPairs apart (segs (pg_mem s) (data + e_phoff (pg_mem s) data) k);
  eo_pages : let n := total_pages (segs (pg_mem s) (data + e_phoff (pg_mem s) data) k) + 2 in
    Z.of_nat (size (used P)) + n <= 1024 /\ MM_HEAP (pg_mm s) + 0x8000 + 0x4000 * n < MM_HEAP_MAX;
}.

(** The page [cp_mmap.base] that the loader gives the program's heap. *)
Definition heap_base (g : segment) : Z := (sg_vaddr g + sg_memsz g + 0x1000) / 0x1000 * 0x1000.

Lemma segs_last m k : forall phdr d, (0 < k)%nat -> List.last (segs m phdr k) d = seg_at m (phdr + PHDR_SIZE * (Z.of_nat k - 1)).
Proof.
  induction k as [|k IH]; intros phdr d Hk; [lia|]. destruct k as [|k].
  - cbn [segs List.last]. f_equal. lia.
  - change (List.last (segs m phdr (S (S k))) d) with (List.last (segs m (phdr + PHDR_SIZE) (S k)) d).
    rewrite IH by lia. f_equal. lia.
Qed.

Lemma base_mask x : 0 <= x -> x + 0x1000 < 0x100000000 -> u32 (x + 0x1000) .& not32 0xFFF = (x + 0x1000) / 0x1000 * 0x1000.
Proof.
  intros Hx Hy. rewrite u32_small by lia. change 0xFFF with (Z.ones 12). rewrite land_not_ones by lia.
  change (2 ^ 12) with 0x1000. dlia.
Qed.

(** After the new address space and the segments. *)
Lemma elf_segments s P data lit w k :
  elf_ok s P data lit w k -> let phdr := data + e_phoff (pg_mem s) data in let l := segs (pg_mem s) phdr k in
  exists pd s1 s2 P2 Mp, new_space s = Ok pd s1 /\
    load_segments (steps phdr (phdr + PHDR_SIZE * Z.of_nat k) PHDR_SIZE) data phdr (phdr + PHDR_SIZE * Z.of_nat k) s1 = Ok tt s2 /\
    uspace s2 pd P2 Mp /\ CURRENT_PAGE_DIRECTORY s2 = pd /\ high_same s s2 /\ budget s2 P2 2 /\ Forall (holds_segment data s s2 Mp) l.
Proof.
  intros [Hr Hdata Hnum Hsz Hph Hlit Hsegs Hap [Hpg1 Hpg2]] phdr l. fold phdr in Hph, Hsegs, Hap, Hpg1, Hpg2. fold l in Hsegs, Hap, Hpg1, Hpg2.
  destruct (new_space_spec s P Hr) as (pd & P1 & s1 & E1 & Hus1 & Hcur1 & _ & _ & Hused & Hheap & Hbytes & EPD).
  assert (H01 : high_same s s1) by (split; [exact EPD|intros a _ Ha; apply Hbytes; exact Ha]).
  assert (Hoff : 0 <= e_phoff (pg_mem s) data) by apply load32_range.
  assert (El : segs (pg_mem s1) phdr k = l) by (apply segs_same; [exact H01|unfold phdr; lia]).
  destruct (load_segments_spec pd data k (steps phdr (phdr + PHDR_SIZE * Z.of_nat k) PHDR_SIZE) phdr s1 P1 ∅ (total_pages l + 2) Hus1 Hcur1)
    as (s2 & P2 & Mp & E2 & L2).
  - unfold steps, PHDR_SIZE. replace (phdr + 32 * Z.of_nat k - phdr) with (Z.of_nat k * 32) by lia. rewrite Z.div_mul by lia. lia.
  - split; [unfold phdr; lia|exact Hph].
  - rewrite El. exact Hsegs.
  - rewrite El. exact Hap.
  - rewrite El. lia.
  - split; [rewrite Hused; lia|lia].
  - rewrite El in L2. destruct L2 as [Hus2 Hcur2 H12 Hb2 Hh2 _].
    exists pd, s1, s2, P2, Mp. split; [exact E1|]. split; [exact E2|]. split; [exact Hus2|]. split; [exact Hcur2|].
    split; [apply (high_trans _ s1); assumption|].
    split; [replace 2 with (total_pages l + 2 - total_pages l) by lia; exact Hb2|].
    apply (holds_rebase data s s1); [exact H01|exact Hsegs|apply segs_off|exact Hh2].
Qed.

Lemma elf_exec_spec s P data lit w k g :
  elf_ok s P data lit w k -> let l := segs (pg_mem s) (data + e_phoff (pg_mem s) data) k in
  (forall d, List.last l d = g) -> heap_base g < KERNEL_VIRT -> heap_base g / 0x1000 <> 4 ->
  Forall (off_page 4) l -> Forall (off_page (heap_base g / 0x1000)) l ->
  exists pd s' P' Mp, elf_exec data lit s = Ok (MkMmap pd (heap_base g) (heap_base g), (e_entry (pg_mem s) data, 0x4EF8)) s' /\
    uspace s' pd P' Mp /\ CURRENT_PAGE_DIRECTORY s' = pd /\ Forall (holds_segment data s s' Mp) l /\
    (forall i b, w !! i = Some b -> ubyte s' Mp (0x4000 + Z.of_nat i) = Some b) /\
    (forall o, 0 <= o < 4 -> ubyte s' Mp (0x4EF8 + o) = Some 0 /\ ubyte s' Mp (0x4EFC + o) = Some (word_byte 0x4EFC 0x4000 (0x4EFC + o))) /\
    is_Some (Mp !! (heap_base g / 0x1000)).
Proof.
  intros Hok l Hlast Hbase Hb4 H4 Hbo. destruct (elf_segments s P data lit w k Hok) as (pd & s1 & s2 & P2 & Mp & E1 & E2 & Hus2 & Hcur2 & H02 & Hbud & Hh).
  destruct Hok as [_ Hdata [Hnum Hk] Hsz Hph (Hw & Hl1 & Hl2 & Hl3) Hsegs _ _]. fold l in Hsegs, Hh.
  set (phdr := data + e_phoff (pg_mem s) data) in *. assert (Hoff : 0 <= e_phoff (pg_mem s) data) by apply load32_range.
  unfold elf_exec. rewrite (bind_Ok _ _ s _ _ (eq_refl (gets pg_mem s))). cbn beta zeta. rewrite Hnum, Hsz.
  unfold MM_HEAP_MAX, KERNEL_VIRT, PHDR_SIZE in Hph, Hdata.
  rewrite (u32_small (data + e_phoff (pg_mem s) data)) by (fold phdr; lia). fold phdr.
  rewrite (u32_small (phdr + PHDR_SIZE * Z.of_nat k)) by (unfold PHDR_SIZE, phdr in *; lia).
  rewrite (bind_Ok _ _ _ _ _ E1), (bind_Ok _ _ _ _ _ E2).
  set (p := phdr + PHDR_SIZE * Z.of_nat k - PHDR_SIZE). assert (Eg : g = seg_at (pg_mem s2) p).
  { rewrite (seg_at_same s s2 p H02) by (unfold p, phdr, PHDR_SIZE, MM_HEAP_MAX; lia). transitivity (List.last l g); [symmetry; apply Hlast|].
    unfold l. rewrite segs_last by exact Hk. f_equal. unfold p, phdr, PHDR_SIZE. lia. }
  rewrite (bind_Ok _ _ _ _ _ (vread32_kernel s2 pd P2 Mp Hus2 Hcur2 (p + 8) ltac:(unfold p, phdr, PHDR_SIZE, KERNEL_VIRT; lia))).
  rewrite (bind_Ok _ _ _ _ _ (vread32_kernel s2 pd P2 Mp Hus2 Hcur2 (p + 20) ltac:(unfold p, phdr, PHDR_SIZE, KERNEL_VIRT; lia))).
  assert (Eb : u32 (load32 (pg_mem s2) (p + 8) + load32 (pg_mem s2) (p + 20) + 0x1000) .& not32 0xFFF = heap_base g).
  { pose proof (load32_range (pg_mem s2) (p + 8)). pose proof (load32_range (pg_mem s2) (p + 20)). unfold heap_base, KERNEL_VIRT in *.
    rewrite Eg in Hbase |- *. cbn [seg_at sg_vaddr sg_memsz] in Hbase |- *. unfold p_vaddr, p_memsz in *. apply base_mask; [lia|dlia]. }
  rewrite Eb. destruct (start_program_spec pd data lit (heap_base g) w s2 P2 Mp Hus2 Hcur2 Hbud) as (s3 & P3 & Mp3 & E3 & [A1 A2 A3 A4 A5 A6 A7]);
    try assumption.
  - pose proof (load32_range (pg_mem s2) (p + 8)). pose proof (load32_range (pg_mem s2) (p + 20)). split; [|exact Hbase].
    rewrite Eg. unfold heap_base, seg_at, p_vaddr, p_memsz. cbn. dlia.
  - apply (cstr_frame (pg_mem s) _ _ _ Hw). intros i Hi. apply (hs_bytes _ _ H02); lia.
  - rewrite (hs_PD _ _ H02). exact Hl2.
  - exists pd, s3, P3, Mp3. split; [|split; [exact A1|split; [exact A2|split; [|split; [exact A4|split; [exact A5|exact A6]]]]]].
    + assert (Ee : load32 (pg_mem s2) (data + 24) = e_entry (pg_mem s) data)
        by (apply load32_ext; intros i Hi; apply (high_heap _ _ _ H02); unfold MM_HEAP_MAX; lia).
      rewrite (bind_Ok _ _ _ _ _ E3), Ee. reflexivity.
    + apply (holds_kept data s s2 s3 Mp Mp3 (heap_base g / 0x1000) l); assumption || apply segs_vaddr.
Qed.

Lemma heap_base_user m phdr k g : (0 < k)%nat -> (forall d, List.last (segs m phdr k) d = g) ->
  0 <= heap_base g /\ heap_base g mod 0x1000 = 0.
Proof.
  intros Hk Hl. rewrite <- (Hl g), segs_last by exact Hk. unfold heap_base, seg_at, p_vaddr, p_memsz. cbn [sg_vaddr sg_memsz].
  pose proof (load32_range m (phdr + PHDR_SIZE * (Z.of_nat k - 1) + 8)). pose proof (load32_range m (phdr + PHDR_SIZE * (Z.of_nat k - 1) + 20)). dlia.
Qed.

(** A user page is translated into its frame, and no other page is. *)
Lemma page_alone pd P Mp s va f : uspace s pd P Mp -> 0 <= va < KERNEL_VIRT -> va mod 0x1000 = 0 -> Mp !! (va / 0x1000) = Some f ->
  (forall off, 0 <= off < 0x1000 -> mmu (pg_mem s) pd (va + off) = Some (f + off)) /\
  (forall u x, 0 <= u < KERNEL_VIRT -> mmu (pg_mem s) pd u = Some x -> f <= x < f + 0x1000 -> u / 0x1000 = va / 0x1000).
Proof.
  intros Hus Hva Hal Hf. destruct (us_frame_range s pd P Mp Hus _ _ Hf) as [_ Hfa]. split.
  - intros off Ho. rewrite (us_user _ _ _ _ Hus) by (unfold KERNEL_VIRT in *; dlia).
    replace ((va + off) / 0x1000) with (va / 0x1000) by dlia. rewrite Hf. cbn. f_equal. dlia.
  - intros u x Hu. rewrite (us_user _ _ _ _ Hus u Hu). destruct (Mp !! (u / 0x1000)) as [f'|] eqn:Hf'; [|discriminate].
    intros [= <-] Hx. destruct (us_frame_range s pd P Mp Hus _ _ Hf') as [_ Hfa'].
    assert (f' = f) as -> by dlia. apply (us_inj _ _ _ _ Hus _ _ f); assumption.
Qed.


(** A file at 0xC0310000 with the entry point 0x08048004 and one segment of 16
    bytes from offset 0x100, and the literal at 0xC0108000. *)
Definition exec_mem : mem :=
  let m := store32 (pg_mem ready_pg) 0xC0310018 0x08048004 in
  let m := store32 m 0xC031001C 52 in
  let m := store32 m 0xC0310028 0x200034 in
  let m := store32 m 0xC031002C 0x280001 in
  let m := store32 m 0xC0310038 0x100 in
  let m := store32 m 0xC031003C 0x08048000 in
  let m := store32 m 0xC0310048 16 in
  let m := store32 m 0xC0310100 0x0080CDB8 in
  let m := store32 m 0xC0108000 0x2E77656E in
  store32 m 0xC0108004 0x73.
Definition exec_pg : pg_state := set_pg_mem exec_mem ready_pg.

Lemma exec_ready : kernel_ready exec_pg (MkPool 1 ∅ 0xC012C000).
Proof.
  apply (ready_frame ready_pg); [exact ready_ready|reflexivity..|]. intros a Ha.
  change (MM_CURRENT_PD (pg_mm ready_pg)) with 0xC0124000 in Ha. unfold MM_HEAP_MAX in Ha.
  change (pg_mem exec_pg) with exec_mem. unfold exec_mem. rewrite !load8_store32_ne by lia. reflexivity.
Qed.

Definition exec_seg : segment := MkSeg 0x08048000 0x100 16.

Lemma exec_segs : segs (pg_mem exec_pg) (0xC0310000 + e_phoff (pg_mem exec_pg) 0xC0310000) 1 = [exec_seg].
Proof. vm_compute. reflexivity. Qed.

Lemma exec_ok : elf_ok exec_pg (MkPool 1 ∅ 0xC012C000) 0xC0310000 0xC0108000 [110; 101; 119; 46; 115] 1.
Proof.
  split; rewrite ?exec_segs.
  - exact exec_ready.
  - unfold MM_HEAP_MAX, KERNEL_VIRT. lia.
  - split; [vm_compute; reflexivity|lia].
  - vm_compute. reflexivity.
  - vm_compute. discriminate.
  - split; [apply is_cstr_sound; vm_compute; reflexivity|]. vm_compute. split; [discriminate|split; [reflexivity|discriminate]].
  - repeat constructor; vm_compute; try reflexivity; discriminate.
  - repeat constructor.
  - vm_compute. split; [discriminate|reflexivity].
Qed.

