(* ===== verification/UserHeap.v ===== *)
(** * The heap of a user program: sys_sbrk (kernel/syscall.c) and libc/usr/glue.c

    [sys_sbrk] maps pages at [cp_mmap.brk] and moves it.  The user library's
    [malloc] is a bump allocator over system call 8: [HEAP_LOW] is the end of
    the last block, [HEAP_BASE] the break the kernel reported last.  The user's
    variables are a record beside the kernel's [proc_state]; [sys_brk] is what
    system call 8 does (the dispatch is in Trap). *)

From stdpp Require Import base numbers list gmap.
From Stdlib Require Import ZArith Lia.
From S2P Require Import Prelude Memory CString Mm Paging Malloc HeapPages Ext2 Elf AddrSpace ElfLoad.
Open Scope Z_scope.

Definition brk (s : proc_state) : Z := mm_brk (cp_mmap s).

(** The body of the loop: [_paging_map(m->pd, k_page_alloc(), m->brk, 0x7); m->brk += 0x1000] *)
Definition sbrk_page : M proc_state unit := fun s =>
  let mp := cp_mmap s in
  match map_user (mm_pd mp) (mm_brk mp) 0x7 (pr_pg s) with
  | Ok _ x => Ok tt (MkProc x (MkMmap (mm_pd mp) (mm_base mp) (u32 (mm_brk mp + 0x1000))))
  | Spin => Spin
  | Undef => Undef
  end.
(** [for (int i = n; i > 0; i -= 0x1000)] *)
Fixpoint sbrk_loop (fuel : nat) (i : Z) : M proc_state unit :=
  match fuel with
  | O => ret tt
  | S f => if 0 <? i then sbrk_page ;;; sbrk_loop f (i - 0x1000) else ret tt
  end.
Definition sys_sbrk (n : Z) : M proc_state unit := sbrk_loop (S (S (Z.to_nat (s32 n / 0x1000)))) (s32 n).
(** Case 8 of [syscall]: the result is left in [eax]. *)
Definition sys_brk (n : Z) : M proc_state Z := sys_sbrk n ;;; gets brk.

Record user_state := MkUser { u_proc : proc_state; HEAP_BASE : Z; HEAP_LOW : Z }.

Definition on_kernel {A : Type} (c : M proc_state A) : M user_state A := fun s =>
  match c (u_proc s) with
  | Ok r x => Ok r (MkUser x (HEAP_BASE s) (HEAP_LOW s))
  | Spin => Spin
  | Undef => Undef
  end.
Definition set_base (x : Z) (s : user_state) : user_state := MkUser (u_proc s) x (HEAP_LOW s).
Definition set_low (x : Z) (s : user_state) : user_state := MkUser (u_proc s) (HEAP_BASE s) x.

Definition heap_init : M user_state unit :=
  low <-- on_kernel (sys_brk 0) ;;
  modify (set_low low) ;;;
  modify (fun s => set_base (HEAP_LOW s) s).
Definition crt_initialize : M user_state unit := heap_init.

Definition malloc (n : Z) : M user_state Z :=
  modify (fun s => set_low (u32 (HEAP_LOW s + n)) s) ;;;
  low <-- gets HEAP_LOW ;;
  base <-- gets HEAP_BASE ;;
  (if u32 (base + 0x1000) <=? low
   then b <-- on_kernel (sys_brk (u32 (low - base))) ;; modify (set_base b)
   else ret tt) ;;;
  low <-- gets HEAP_LOW ;;
  ret (u32 (low - n)).
Definition free (ptr : Z) : M user_state unit := ret tt.

(** A byte of the program's memory, reached through its own directory. *)
Definition poke (va v : Z) : M user_state unit := on_kernel (fun p =>
  match vwrite8 va v (pr_pg p) with Ok r x => Ok r (MkProc x (cp_mmap p)) | Spin => Spin | Undef => Undef end).
Definition peek (va : Z) : M user_state Z := on_kernel (fun p =>
  match vread8 va (pr_pg p) with Ok r x => Ok r (MkProc x (cp_mmap p)) | Spin => Spin | Undef => Undef end).

(** ** Growing the program's memory *)

(** The running program's address space, with [Mp] its pages. *)
Record running (s : proc_state) (P : pool) (Mp : gmap Z Z) : Prop := {
  rn_us : uspace (pr_pg s) (mm_pd (cp_mmap s)) P Mp;
  rn_cur : CURRENT_PAGE_DIRECTORY (pr_pg s) = mm_pd (cp_mmap s);
  rn_brk : 0 <= brk s /\ brk s mod 0x1000 = 0;
}.

(** [cnt] pages from the break on are mapped to frames that were free, the
    other pages keep their frames, and no byte of a frame changes. *)
Record grown (s s' : proc_state) (P P' : pool) (Mp Mp' : gmap Z Z) (cnt n : Z) : Prop := {
  gr_run : running s' P' Mp';
  gr_map : cp_mmap s' = MkMmap (mm_pd (cp_mmap s)) (mm_base (cp_mmap s)) (brk s + 0x1000 * cnt);
  gr_pool : pool_grows P P';
  gr_new : forall v, brk s / 0x1000 <= v < brk s / 0x1000 + cnt -> exists f, Mp' !! v = Some f /\ fresh_frame P f;
  gr_old : forall v, v < brk s / 0x1000 \/ brk s / 0x1000 + cnt <= v -> Mp' !! v = Mp !! v;
  gr_bytes : forall a, 0x400000 <= a < KERNEL_VIRT -> load8 (pg_mem (pr_pg s')) a = load8 (pg_mem (pr_pg s)) a;
  gr_budget : budget (pr_pg s') P' (n - cnt);
}.
Arguments gr_run {s s' P P' Mp Mp' cnt n}.
Arguments gr_map {s s' P P' Mp Mp' cnt n}.
Arguments gr_pool {s s' P P' Mp Mp' cnt n}.
Arguments gr_new {s s' P P' Mp Mp' cnt n}.
Arguments gr_old {s s' P P' Mp Mp' cnt n}.
Arguments gr_bytes {s s' P P' Mp Mp' cnt n}.
Arguments gr_budget {s s' P P' Mp Mp' cnt n}.

Lemma proc_eta s : MkProc (pr_pg s) (cp_mmap s) = s.
Proof. destruct s. reflexivity. Qed.

Lemma grown_brk s s' P P' Mp Mp' cnt n : grown s s' P P' Mp Mp' cnt n -> brk s' = brk s + 0x1000 * cnt.
Proof. intros A. unfold brk at 1. rewrite (gr_map A). reflexivity. Qed.

Lemma grown_refl s P Mp n : running s P Mp -> budget (pr_pg s) P n -> grown s s P P Mp Mp 0 n.
Proof.
  intros Hr Hb. split; [exact Hr| |split; reflexivity|intros; lia|reflexivity|reflexivity|rewrite Z.sub_0_r; exact Hb].
  unfold brk. rewrite Z.add_0_r. destruct (cp_mmap s). reflexivity.
Qed.

Lemma sbrk_page_spec s P Mp n : running s P Mp -> brk s < KERNEL_VIRT -> budget (pr_pg s) P n -> 1 <= n ->
  exists s' P' Mp', sbrk_page s = Ok tt s' /\ grown s s' P P' Mp Mp' 1 n.
Proof.
  intros [Hus Hcur [Hb0 Hba]] Hk [Hbd1 Hbd2] Hn.
  destruct (map_user_spec (pr_pg s) (mm_pd (cp_mmap s)) P Mp (brk s) 0x7 Hus ltac:(lia) ltac:(lia) eq_refl ltac:(lia) ltac:(lia))
    as (f & P' & x & E & Hus' & Hex & Hh & Hsz & _ & Hfresh & Hgr).
  pose proof (sp_bits _ _ (us_space _ _ _ _ Hus)) as Hbits.
  assert (Eb : u32 (brk s + 0x1000) = brk s + 0x1000) by (apply u32_small; unfold KERNEL_VIRT in *; lia).
  exists (MkProc x (MkMmap (mm_pd (cp_mmap s)) (mm_base (cp_mmap s)) (brk s + 0x1000))), P', (<[brk s / 0x1000 := f]> Mp).
  split; [unfold sbrk_page; fold (brk s); rewrite E, Eb; reflexivity|]. split.
  - split; [exact Hus'|cbn; rewrite (ex_cur _ _ Hex); exact Hcur|cbn; dlia].
  - reflexivity.
  - exact Hgr.
  - intros v Hv. exists f. replace v with (brk s / 0x1000) by lia. rewrite lookup_insert_eq. auto.
  - intros v Hv. apply lookup_insert_ne. lia.
  - intros a Ha. apply (ex_bytes _ _ Hex). lia.
  - cbn. split; lia.
Qed.

Lemma grown_trans s s1 s2 P P1 P2 Mp Mp1 Mp2 c1 c2 n : 0 <= c1 -> 0 <= c2 -> brk s mod 0x1000 = 0 ->
  grown s s1 P P1 Mp Mp1 c1 n -> grown s1 s2 P1 P2 Mp1 Mp2 c2 (n - c1) -> grown s s2 P P2 Mp Mp2 (c1 + c2) n.
Proof.
  intros H1 H2 Ha A B. pose proof (grown_brk _ _ _ _ _ _ _ _ A) as Eb.
  assert (Ep : brk s1 / 0x1000 = brk s / 0x1000 + c1) by (rewrite Eb; dlia). split.
  - apply B.
  - rewrite (gr_map B), Eb, (gr_map A). cbn. f_equal. lia.
  - apply (pool_grows_trans _ P1); [apply A|apply B].
  - intros v Hv. destruct (Z_lt_dec v (brk s / 0x1000 + c1)) as [Hlt|Hge].
    + rewrite (gr_old B) by lia. apply (gr_new A). lia.
    + destruct (gr_new B v ltac:(lia)) as (f & Hf & Hfr). exists f. split; [exact Hf|].
      apply (fresh_frame_grows _ P1); [apply A|exact Hfr].
  - intros v Hv. rewrite (gr_old B), (gr_old A) by lia. reflexivity.
  - intros a Hr. rewrite (gr_bytes B), (gr_bytes A) by assumption. reflexivity.
  - replace (n - (c1 + c2)) with (n - c1 - c2) by lia. apply B.
Qed.

(** The number of pages [sys_sbrk n] maps. *)
Definition brk_pages (n : Z) : Z := (n + 0xFFF) / 0x1000.

Lemma user_sbrk_loop_spec r : forall fuel i s P Mp n,
  brk_pages i = Z.of_nat r -> (r < fuel)%nat -> running s P Mp -> brk s + 0x1000 * Z.of_nat r <= KERNEL_VIRT ->
  Z.of_nat r <= n -> budget (pr_pg s) P n ->
  exists s' P' Mp', sbrk_loop fuel i s = Ok tt s' /\ grown s s' P P' Mp Mp' (Z.of_nat r) n.
Proof.
  induction r as [|r IH]; intros fuel i s P Mp n Hi Hf Hr Hk Hn Hb;
    (destruct fuel as [|f]; [lia|]); cbn [sbrk_loop]; unfold brk_pages in Hi.
  - replace (0 <? i) with false by dlia. exists s, P, Mp. split; [reflexivity|apply grown_refl; assumption].
  - replace (0 <? i) with true by dlia.
    destruct (sbrk_page_spec s P Mp n Hr ltac:(lia) Hb ltac:(lia)) as (s1 & P1 & Mp1 & E1 & G1).
    rewrite (bind_Ok _ _ _ _ _ E1). pose proof (grown_brk _ _ _ _ _ _ _ _ G1) as Eb.
    destruct (IH f (i - 0x1000) s1 P1 Mp1 (n - 1)) as (s2 & P2 & Mp2 & E2 & G2);
      [unfold brk_pages; dlia|lia|apply G1|lia|lia|apply (gr_budget G1)|].
    exists s2, P2, Mp2. split; [exact E2|]. replace (Z.of_nat (S r)) with (1 + Z.of_nat r) by lia.
    apply (grown_trans s s1 s2 P P1 P2 Mp Mp1 Mp2); [lia|lia|apply Hr|exact G1|exact G2].
Qed.

Lemma sys_sbrk_spec x s P Mp n : 0 <= x < 0x80000000 -> running s P Mp ->
  brk s + 0x1000 * brk_pages x <= KERNEL_VIRT -> brk_pages x <= n -> budget (pr_pg s) P n ->
  exists s' P' Mp', sys_sbrk x s = Ok tt s' /\ grown s s' P P' Mp Mp' (brk_pages x) n.
Proof.
  intros Hx Hr Hk Hn Hb. assert (0 <= brk_pages x) by (unfold brk_pages; dlia).
  unfold sys_sbrk. rewrite s32_small by lia.
  destruct (user_sbrk_loop_spec (Z.to_nat (brk_pages x)) (S (S (Z.to_nat (x / 0x1000)))) x s P Mp n)
    as (s' & P' & Mp' & E & G); rewrite ?Z2Nat.id by lia; try assumption.
  - reflexivity.
  - unfold brk_pages. dlia.
  - rewrite Z2Nat.id in G by lia. eauto 10.
Qed.

(** A user byte seen through the program's own directory. *)
Lemma running_read s P Mp va : running s P Mp -> 0 <= va < KERNEL_VIRT ->
  vread8 va (pr_pg s) = match ubyte (pr_pg s) Mp va with Some b => Ok b (pr_pg s) | None => Spin end.
Proof.
  intros [Hus Hcur _] Hva. unfold ubyte. destruct (Mp !! (va / 0x1000)) as [f|] eqn:Hf; cbn.
  - apply (vread8_user _ _ _ _ Hus Hcur va f Hva Hf).
  - unfold vread8. rewrite Hcur, (us_user _ _ _ _ Hus va Hva), Hf. reflexivity.
Qed.

Lemma running_write_none s P Mp va v : running s P Mp -> 0 <= va < KERNEL_VIRT -> Mp !! (va / 0x1000) = None ->
  vwrite8 va v (pr_pg s) = Spin.
Proof. intros [Hus Hcur _] Hva Hf. unfold vwrite8. rewrite Hcur, (us_user _ _ _ _ Hus va Hva), Hf. reflexivity. Qed.

(** The bytes of a page that keeps its frame are kept. *)
Lemma grown_ubyte s s' P P' Mp Mp' cnt n va : running s P Mp -> grown s s' P P' Mp Mp' cnt n ->
  va / 0x1000 < brk s / 0x1000 \/ brk s / 0x1000 + cnt <= va / 0x1000 -> ubyte (pr_pg s') Mp' va = ubyte (pr_pg s) Mp va.
Proof.
  intros Hr G Hv. unfold ubyte. rewrite (gr_old G) by exact Hv. destruct (Mp !! (va / 0x1000)) as [f|] eqn:Hf; [|reflexivity].
  cbn. f_equal. destruct (us_frame_range _ _ _ _ (rn_us _ _ _ Hr) _ _ Hf). apply (gr_bytes G). dlia.
Qed.

(** ** The user library's allocator *)

(** [HEAP_BASE] is the break, the last block ends less than a page above it,
    and every page from the start of the heap to the break is mapped. *)
Record heap_inv (s : user_state) (P : pool) (Mp : gmap Z Z) : Prop := {
  hi_run : running (u_proc s) P Mp;
  hi_base : HEAP_BASE s = brk (u_proc s);
  hi_low : mm_base (cp_mmap (u_proc s)) <= HEAP_LOW s < HEAP_BASE s + 0x1000;
  hi_start : 0 <= mm_base (cp_mmap (u_proc s)) <= brk (u_proc s) /\ mm_base (cp_mmap (u_proc s)) mod 0x1000 = 0;
  hi_top : brk (u_proc s) <= KERNEL_VIRT;
  hi_pages : forall v, mm_base (cp_mmap (u_proc s)) / 0x1000 <= v < brk (u_proc s) / 0x1000 -> is_Some (Mp !! v);
}.

Lemma sys_brk_zero s : sys_brk 0 s = Ok (brk s) s.
Proof. reflexivity. Qed.

Lemma crt_initialize_eq s : crt_initialize s = Ok tt (MkUser (u_proc s) (brk (u_proc s)) (brk (u_proc s))).
Proof. destruct s as [[] ? ?]. reflexivity. Qed.

Lemma crt_initialize_inv s P Mp : running (u_proc s) P Mp -> brk (u_proc s) = mm_base (cp_mmap (u_proc s)) -> brk (u_proc s) <= KERNEL_VIRT ->
  exists s', crt_initialize s = Ok tt s' /\ heap_inv s' P Mp /\ u_proc s' = u_proc s.
Proof.
  intros Hr Hb Ht. rewrite crt_initialize_eq. eexists. split; [reflexivity|]. split; [|reflexivity].
  pose proof (rn_brk _ _ _ Hr) as [H1 H2]. split; cbn [u_proc HEAP_BASE HEAP_LOW]; try assumption; rewrite <- ?Hb; lia.
Qed.

(** What a call does: [c] pages are added at the break, [c] = 0 when the block
    ends less than a page above it. *)
Record allocated (s s' : user_state) (P P' : pool) (Mp Mp' : gmap Z Z) (n m : Z) : Prop := {
  al_grown : let c := if HEAP_BASE s + 0x1000 <=? HEAP_LOW s + n then brk_pages (HEAP_LOW s + n - HEAP_BASE s) else 0 in
    grown (u_proc s) (u_proc s') P P' Mp Mp' c m;
  al_base : HEAP_BASE s' = brk (u_proc s');
  al_low : HEAP_LOW s' = HEAP_LOW s + n;
}.

Lemma malloc_allocated s P Mp n m : heap_inv s P Mp -> 0 <= n -> HEAP_LOW s + n + 0x1000 <= KERNEL_VIRT ->
  brk_pages (HEAP_LOW s + n - HEAP_BASE s) <= m -> 0 <= m -> budget (pr_pg (u_proc s)) P m ->
  exists s' P' Mp', malloc n s = Ok (HEAP_LOW s) s' /\ allocated s s' P P' Mp Mp' n m.
Proof.
  intros [Hr Hbase Hlow Hst Htop Hpg] Hn Hk Hm Hm0 Hb. pose proof (rn_brk _ _ _ Hr) as [Hb1 Hb2].
  assert (E1 : u32 (HEAP_LOW s + n) = HEAP_LOW s + n) by (apply u32_small; unfold KERNEL_VIRT in *; lia).
  assert (E2 : u32 (HEAP_LOW s + n - n) = HEAP_LOW s) by (rewrite u32_small; unfold KERNEL_VIRT in *; lia).
  assert (E3 : u32 (HEAP_BASE s + 0x1000) = HEAP_BASE s + 0x1000) by (apply u32_small; unfold KERNEL_VIRT in *; lia).
  unfold malloc, bind, modify, gets, ret. cbn [set_low HEAP_LOW HEAP_BASE u_proc]. rewrite E1, E3.
  destruct (HEAP_BASE s + 0x1000 <=? HEAP_LOW s + n) eqn:Hg.
  - destruct Hb as [Hb3 Hb4]. rewrite (u32_small (HEAP_LOW s + n - HEAP_BASE s)) by (unfold KERNEL_VIRT in *; lia).
    destruct (sys_sbrk_spec (HEAP_LOW s + n - HEAP_BASE s) (u_proc s) P Mp m) as (x & P' & Mp' & E & G);
      [unfold brk_pages in Hm; dlia|exact Hr|unfold brk_pages; dlia|exact Hm|split; assumption|].
    unfold on_kernel, sys_brk, bind, gets. cbn [u_proc HEAP_BASE HEAP_LOW]. change (u_proc (set_low (HEAP_LOW s + n) s)) with (u_proc s). rewrite E. cbn. rewrite E2.
    eexists _, P', Mp'. split; [reflexivity|]. split; cbn [u_proc HEAP_BASE HEAP_LOW]; try reflexivity. rewrite Hg. exact G.
  - cbn. rewrite E2. eexists _, P, Mp. split; [reflexivity|]. split; cbn [u_proc HEAP_BASE HEAP_LOW]; try assumption; [|reflexivity].
    rewrite Hg. apply grown_refl; assumption.
Qed.

(** The pages of the heap after a call. *)
Lemma allocated_inv s s' P P' Mp Mp' n m : heap_inv s P Mp -> 0 <= n -> HEAP_LOW s + n + 0x1000 <= KERNEL_VIRT ->
  allocated s s' P P' Mp Mp' n m -> heap_inv s' P' Mp'.
Proof.
  intros [Hr Hbase Hlow Hst Htop Hpg] Hn Hk [G Eb El]. cbv zeta in G. pose proof (rn_brk _ _ _ Hr) as [Hb1 Hb2].
  pose proof (grown_brk _ _ _ _ _ _ _ _ G) as Hbrk.
  assert (Em : mm_base (cp_mmap (u_proc s')) = mm_base (cp_mmap (u_proc s))) by (rewrite (gr_map G); reflexivity).
  set (c := if HEAP_BASE s + 0x1000 <=? HEAP_LOW s + n then _ else _) in *.
  assert (Hc : 0 <= c /\ HEAP_LOW s + n < brk (u_proc s) + 0x1000 * c + 0x1000 /\ brk (u_proc s) + 0x1000 * c <= KERNEL_VIRT).
  { unfold c, brk_pages. destruct (Z.leb_spec (HEAP_BASE s + 0x1000) (HEAP_LOW s + n)); dlia. }
  split; rewrite ?Em, ?El, ?Eb, ?Hbrk; try lia; [apply G|].
  intros v Hv. destruct (Z_lt_dec v (brk (u_proc s) / 0x1000)) as [Hlt|Hge].
  - rewrite (gr_old G) by lia. apply Hpg. lia.
  - destruct (gr_new G v ltac:(dlia)) as (f & Hf & _). eauto.
Qed.

(** What the processor sees of a growth: a frame of its own for each page. *)
Lemma grown_frames s s' P P' Mp Mp' cnt n : running s P Mp -> grown s s' P P' Mp Mp' cnt n -> 0 <= cnt ->
  brk s + 0x1000 * cnt <= KERNEL_VIRT ->
  let new := brk s + 0x1000 * cnt in
  exists frame,
    (forall va, brk s <= va < new ->
       fresh_frame P (frame (va / 0x1000)) /\
       mmu (pg_mem (pr_pg s')) (mm_pd (cp_mmap s')) va = Some (frame (va / 0x1000) + va mod 0x1000)) /\
    (forall va ua, brk s <= va < new -> brk s <= ua < new -> frame (va / 0x1000) = frame (ua / 0x1000) -> va / 0x1000 = ua / 0x1000) /\
    (forall va b, 0 <= va < brk s \/ new <= va < KERNEL_VIRT ->
       vread8 va (pr_pg s) = Ok b (pr_pg s) <-> vread8 va (pr_pg s') = Ok b (pr_pg s')).
Proof.
  intros Hr G Hc Hk new. pose proof (rn_brk _ _ _ Hr) as [Hb1 Hb2]. exists (fun v => default 0 (Mp' !! v)).
  assert (Hnew : forall va, brk s <= va < new -> exists f, Mp' !! (va / 0x1000) = Some f /\ fresh_frame P f)
    by (intros va Hva; apply (gr_new G); unfold new in *; dlia).
  split; [|split].
  - intros va Hva. destruct (Hnew va Hva) as (f & Hf & Hfr). rewrite Hf. split; [exact Hfr|].
    rewrite (us_user _ _ _ _ (rn_us _ _ _ (gr_run G)) va ltac:(unfold KERNEL_VIRT in *; lia)), Hf. reflexivity.
  - intros va ua Hva Hua. destruct (Hnew va Hva) as (f & Hf & _), (Hnew ua Hua) as (g & Hg & _). rewrite Hf, Hg. cbn.
    intros ->. apply (us_inj _ _ _ _ (rn_us _ _ _ (gr_run G)) _ _ g); assumption.
  - intros va b Hva. rewrite (running_read s P Mp va Hr), (running_read s' P' Mp' va (gr_run G)) by (unfold KERNEL_VIRT in *; lia).
    rewrite (grown_ubyte s s' P P' Mp Mp' _ _ va Hr G) by (unfold new in *; dlia).
    destruct (ubyte (pr_pg s) Mp va); split; intros [= ->]; reflexivity.
Qed.

(** C19: system call 8 extends the program by whole pages.  [sys_brk x] returns
    the new break, the old one plus [x] rounded up to pages.  Each page between
    them gets a frame of its own that the page allocator had free, and the
    processor translates its addresses into that frame; every other user byte
    reads as before.  An [x] of 2^31 or more is a negative [int] and does
    nothing. *)
Theorem sys_brk_extends x s P Mp : running s P Mp ->
  (0x80000000 <= x < 0x100000000 -> sys_brk x s = Ok (brk s) s) /\
  (0 <= x < 0x80000000 -> brk s + 0x1000 * brk_pages x <= KERNEL_VIRT -> budget (pr_pg s) P (brk_pages x) ->
   let new := brk s + 0x1000 * brk_pages x in
   exists s' frame, sys_brk x s = Ok new s' /\ brk s' = new /\
     (forall va, brk s <= va < new ->
        fresh_frame P (frame (va / 0x1000)) /\
        mmu (pg_mem (pr_pg s')) (mm_pd (cp_mmap s')) va = Some (frame (va / 0x1000) + va mod 0x1000)) /\
     (forall va ua, brk s <= va < new -> brk s <= ua < new -> frame (va / 0x1000) = frame (ua / 0x1000) -> va / 0x1000 = ua / 0x1000) /\
     (forall va b, 0 <= va < brk s \/ new <= va < KERNEL_VIRT ->
        vread8 va (pr_pg s) = Ok b (pr_pg s) <-> vread8 va (pr_pg s') = Ok b (pr_pg s'))).
Proof.
  intros Hr. split.
  - intros Hx. unfold sys_brk, sys_sbrk. assert (Hs : s32 x < 0) by (unfold s32; dlia).
    cbn [sbrk_loop]. replace (0 <? s32 x) with false by lia. reflexivity.
  - intros Hx Hk Hb new. destruct (sys_sbrk_spec x s P Mp (brk_pages x) Hx Hr Hk ltac:(lia) Hb) as (s' & P' & Mp' & E & G).
    pose proof (grown_brk _ _ _ _ _ _ _ _ G) as Eb. fold new in Eb.
    destruct (grown_frames s s' P P' Mp Mp' (brk_pages x) _ Hr G ltac:(unfold brk_pages; dlia) Hk) as (frame & Hf).
    exists s', frame. split; [unfold sys_brk, bind, gets; rewrite E, Eb; reflexivity|]. split; [exact Eb|exact Hf].
Qed.

(** Storing one byte of the program's memory. *)
Lemma poke_spec s P Mp va v f : heap_inv s P Mp -> 0 <= va < KERNEL_VIRT -> Mp !! (va / 0x1000) = Some f ->
  exists s', poke va v s = Ok tt s' /\ heap_inv s' P Mp /\ HEAP_LOW s' = HEAP_LOW s /\ peek va s' = Ok (u8 v) s' /\
    (forall ua b, 0 <= ua < KERNEL_VIRT -> ua <> va -> peek ua s = Ok b s -> peek ua s' = Ok b s').
Proof.
  intros [Hr Hbase Hlow Hst Htop Hpg] Hva Hf. pose proof Hr as [Hus Hcur Hbrk].
  destruct (vwrite8_user _ _ _ _ Hus Hcur va v f Hva Hf) as (x & E & Hus' & Hcur' & _ & _ & Hu).
  exists (MkUser (MkProc x (cp_mmap (u_proc s))) (HEAP_BASE s) (HEAP_LOW s)).
  assert (Hr' : running (MkProc x (cp_mmap (u_proc s))) P Mp) by (split; assumption).
  split; [unfold poke, on_kernel; rewrite E; reflexivity|]. split; [split; assumption|]. split; [reflexivity|].
  unfold peek, on_kernel. cbn [u_proc]. split.
  - rewrite (running_read _ P Mp va Hr' Hva). cbn [pr_pg]. rewrite Hu, Z.eqb_refl by assumption. reflexivity.
  - intros ua b Hua Hne. rewrite (running_read _ P Mp ua Hr Hua), (running_read _ P Mp ua Hr' Hua). cbn [pr_pg].
    rewrite Hu, (proj2 (Z.eqb_neq ua va) Hne) by assumption. destruct (ubyte (pr_pg (u_proc s)) Mp ua); intros [= ->]; reflexivity.
Qed.

(** C20: blocks of the user library's [malloc].  A call returns the end of the
    block before it, so that blocks do not overlap, and keeps the invariant of
    the library's two variables.  When the block ends at least a page above the
    break, or not above it, each byte of the block can then be stored and reads
    back, and the store changes no other byte of the program.  (A call that
    grows the heap may replace the page at the old break,
    [user_malloc_loses_page]; the other blocks fault, [user_malloc_faults].) *)
Theorem user_malloc_mapped s P Mp n m : heap_inv s P Mp -> 0 <= n -> HEAP_LOW s + n + 0x1000 <= KERNEL_VIRT ->
  brk_pages (HEAP_LOW s + n - HEAP_BASE s) <= m -> 0 <= m -> budget (pr_pg (u_proc s)) P m ->
  exists s' P' Mp', malloc n s = Ok (HEAP_LOW s) s' /\ heap_inv s' P' Mp' /\ HEAP_LOW s' = HEAP_LOW s + n /\
    (HEAP_BASE s + 0x1000 <= HEAP_LOW s + n \/ HEAP_LOW s + n <= HEAP_BASE s ->
     forall va v, HEAP_LOW s <= va < HEAP_LOW s + n ->
       exists s2, poke va v s' = Ok tt s2 /\ heap_inv s2 P' Mp' /\ HEAP_LOW s2 = HEAP_LOW s' /\ peek va s2 = Ok (u8 v) s2 /\
         (forall ua b, 0 <= ua < KERNEL_VIRT -> ua <> va -> peek ua s' = Ok b s' -> peek ua s2 = Ok b s2)).
Proof.
  intros Hi Hn Hk Hm Hm0 Hb. destruct (malloc_allocated s P Mp n m Hi Hn Hk Hm Hm0 Hb) as (s' & P' & Mp' & E & A).
  pose proof (allocated_inv s s' P P' Mp Mp' n m Hi Hn Hk A) as Hi'. exists s', P', Mp'.
  split; [exact E|]. split; [exact Hi'|]. split; [apply A|]. intros Hend va v Hva.
  pose proof (hi_low _ _ _ Hi) as Hlow. pose proof (hi_start _ _ _ Hi) as Hst. pose proof (hi_start _ _ _ Hi') as Hst'.
  pose proof (rn_brk _ _ _ (hi_run _ _ _ Hi)) as [_ Hba]. pose proof (hi_base _ _ _ Hi) as Hbase.
  destruct A as [G Eb El]. cbv zeta in G. pose proof (grown_brk _ _ _ _ _ _ _ _ G) as Hbrk.
  assert (Em : mm_base (cp_mmap (u_proc s')) = mm_base (cp_mmap (u_proc s))) by (rewrite (gr_map G); reflexivity).
  destruct (hi_pages _ _ _ Hi' (va / 0x1000)) as [f Hf].
  { unfold brk_pages in Hbrk. destruct (Z.leb_spec (HEAP_BASE s + 0x1000) (HEAP_LOW s + n)); dlia. }
  apply (poke_spec s' P' Mp' va v f Hi'); [lia|exact Hf].
Qed.

(** The library asks for memory too late.  When the page at the break is
    not mapped, as after every earlier growth, a block that ends less than a
    page above the break is handed out without a system call, and storing into
    its last byte faults. *)
Theorem user_malloc_faults s P Mp n v : heap_inv s P Mp -> 0 < n -> Mp !! (HEAP_BASE s / 0x1000) = None ->
  HEAP_BASE s < HEAP_LOW s + n < HEAP_BASE s + 0x1000 -> HEAP_LOW s + n + 0x1000 <= KERNEL_VIRT ->
  exists s', malloc n s = Ok (HEAP_LOW s) s' /\ u_proc s' = u_proc s /\ poke (HEAP_LOW s + n - 1) v s' = Spin.
Proof.
  intros Hi Hn Hno Hr Hk. pose proof (hi_base _ _ _ Hi) as Hb. pose proof (hi_start _ _ _ Hi) as Hst. pose proof (hi_low _ _ _ Hi) as Hlow.
  pose proof (rn_brk _ _ _ (hi_run _ _ _ Hi)) as [_ Hba].
  eexists (MkUser (u_proc s) (HEAP_BASE s) (HEAP_LOW s + n)). split; [|split; [reflexivity|]].
  - unfold malloc, bind, modify, gets, ret. cbn [set_low HEAP_LOW HEAP_BASE u_proc].
    rewrite (u32_small (HEAP_LOW s + n)), (u32_small (HEAP_BASE s + 0x1000)) by (unfold KERNEL_VIRT in *; lia).
    replace (HEAP_BASE s + 0x1000 <=? HEAP_LOW s + n) with false by lia. cbn.
    rewrite u32_small by (unfold KERNEL_VIRT in *; lia). f_equal. lia.
  - unfold poke, on_kernel. cbn [u_proc]. rewrite (running_write_none _ P Mp); [reflexivity|apply Hi|lia|].
    replace ((HEAP_LOW s + n - 1) / 0x1000) with (HEAP_BASE s / 0x1000) by dlia. exact Hno.
Qed.

(** The first growth throws the program's data away.  The loader maps the
    page at the break before the program runs; a call that grows the heap maps
    that page again, so whatever the program stored there, it then reads the
    bytes of a frame that was free before the call. *)
Theorem user_malloc_loses_page s P Mp n m : heap_inv s P Mp -> 0 <= n -> HEAP_LOW s + n + 0x1000 <= KERNEL_VIRT ->
  HEAP_BASE s + 0x1000 <= HEAP_LOW s + n ->
  brk_pages (HEAP_LOW s + n - HEAP_BASE s) <= m -> budget (pr_pg (u_proc s)) P m ->
  exists s' f, malloc n s = Ok (HEAP_LOW s) s' /\ fresh_frame P f /\
    forall va, HEAP_BASE s <= va < HEAP_BASE s + 0x1000 -> peek va s' = Ok (load8 (pg_mem (pr_pg (u_proc s))) (f + va mod 0x1000)) s'.
Proof.
  intros Hi Hn Hk Hg Hm Hb. assert (Hm0 : 1 <= m) by (unfold brk_pages in Hm; dlia).
  destruct (malloc_allocated s P Mp n m Hi Hn Hk Hm ltac:(lia) Hb) as (s' & P' & Mp' & E & [G Eb El]). cbv zeta in G.
  replace (HEAP_BASE s + 0x1000 <=? HEAP_LOW s + n) with true in G by lia. pose proof (hi_base _ _ _ Hi) as Hbase.
  pose proof (rn_brk _ _ _ (hi_run _ _ _ Hi)) as [Hb0 Hba].
  destruct (gr_new G (brk (u_proc s) / 0x1000) ltac:(unfold brk_pages; dlia)) as (f & Hf & Hfr).
  exists s', f. split; [exact E|]. split; [exact Hfr|]. intros va Hva.
  assert (Ev : va / 0x1000 = brk (u_proc s) / 0x1000) by dlia.
  pose proof (running_read _ _ _ va (gr_run G) ltac:(lia)) as Hrd. unfold ubyte in Hrd. rewrite Ev, Hf in Hrd. cbn in Hrd.
  destruct (us_frame_range _ _ _ _ (rn_us _ _ _ (gr_run G)) _ _ Hf) as [Hf1 Hf2].
  rewrite (gr_bytes G) in Hrd by dlia. unfold peek, on_kernel. rewrite Hrd, proc_eta. destruct s'. reflexivity.
Qed.

(** A program with a new address space and its heap at 0x08049000. *)
Lemma new_process : exists s P, running s P ∅ /\ cp_mmap s = MkMmap (mm_pd (cp_mmap s)) 0x08049000 0x08049000 /\ budget (pr_pg s) P 16.
Proof.
  destruct (new_space_spec ready_pg _ ready_ready) as (pd & P & x & _ & Hus & Hcur & _ & _ & Hused & Hh & _).
  exists (MkProc x (MkMmap pd 0x08049000 0x08049000)), P. split; [|split; [reflexivity|]].
  - split; [exact Hus|exact Hcur|]. unfold brk. cbn. split; [lia|reflexivity].
  - split; cbn [pr_pg].
    + rewrite Hused. cbn [used]. rewrite size_empty. lia.
    + change (MM_HEAP (pg_mm ready_pg)) with 0xC012C000 in Hh. unfold MM_HEAP_MAX. lia.
Qed.

Lemma new_user : exists s P, heap_inv s P ∅ /\ HEAP_BASE s = 0x08049000 /\ HEAP_LOW s = 0x08049000 /\ budget (pr_pg (u_proc s)) P 16.
Proof.
  destruct new_process as (s & P & Hr & Em & Hb). assert (Hbrk : brk s = 0x08049000) by (unfold brk; rewrite Em; reflexivity).
  destruct (crt_initialize_inv (MkUser s 0 0) P ∅) as (s' & E & Hi & Ep); cbn [u_proc].
  - exact Hr.
  - rewrite Hbrk, Em. reflexivity.
  - rewrite Hbrk. unfold KERNEL_VIRT. lia.
  - rewrite crt_initialize_eq in E. cbn [u_proc] in E. injection E as <-. eexists _, P. split; [exact Hi|]. cbn [HEAP_BASE HEAP_LOW u_proc]. auto.
Qed.

Lemma sys_brk_extends_witness :
  exists s s' frame, sys_brk 0x1801 s = Ok (brk s + 0x2000) s' /\
    mmu (pg_mem (pr_pg s')) (mm_pd (cp_mmap s')) (brk s + 0x1FFF) = Some (frame 0x0804A + 0xFFF) /\ frame 0x08049 <> frame 0x0804A /\
    sys_brk 0x80000000 s = Ok (brk s) s.
Proof.
  destruct new_process as (s & P & Hr & Em & [Hb1 Hb2]). assert (Hbrk : brk s = 0x08049000) by (unfold brk; rewrite Em; reflexivity).
  destruct (sys_brk_extends 0x1801 s P ∅ Hr) as [_ H]. destruct (sys_brk_extends 0x80000000 s P ∅ Hr) as [H' _].
  change (brk_pages 0x1801) with 2 in H.
  destruct (H ltac:(lia) ltac:(unfold KERNEL_VIRT; lia) ltac:(split; lia)) as (s' & frame & E & _ & Hm & Hinj & _).
  exists s, s', frame. split; [exact E|]. rewrite Hbrk in *. split; [apply (Hm 0x0804AFFF); lia|]. split; [|apply H'; lia].
  intros Ef. pose proof (Hinj 0x08049000 0x0804A000 ltac:(lia) ltac:(lia) Ef) as Hc. discriminate.
Defined.

Lemma user_malloc_mapped_witness :
  exists s s' s2 p, malloc 0x1800 s = Ok p s' /\ p = 0x08049000 /\ poke (p + 0x17FF) 7 s' = Ok tt s2 /\ peek (p + 0x17FF) s2 = Ok 7 s2.
Proof.
  destruct new_user as (s & P & Hi & Eb & El & Hb).
  destruct (user_malloc_mapped s P ∅ 0x1800 16 Hi ltac:(lia)) as (s' & P' & Mp' & E & _ & _ & Hp);
    rewrite ?Eb, ?El; try (unfold KERNEL_VIRT; lia); [vm_compute; discriminate|exact Hb|].
  rewrite Eb, El in *. destruct (Hp ltac:(lia) 0x0804A7FF 7 ltac:(lia)) as (s2 & Hpo & _ & _ & Hpe & _).
  exists s, s', s2, 0x08049000. auto.
Defined.

Lemma user_malloc_faults_witness :
  exists s s' p, malloc 100 s = Ok p s' /\ poke (p + 99) 7 s' = Spin.
Proof.
  destruct new_user as (s & P & Hi & Eb & El & Hb).
  destruct (user_malloc_faults s P ∅ 100 7 Hi ltac:(lia)) as (s' & E & _ & Hp); rewrite ?Eb, ?El;
    [apply lookup_empty|lia|unfold KERNEL_VIRT; lia|].
  exists s, s', 0x08049000. rewrite El in E, Hp. split; [exact E|exact Hp].
Defined.

Lemma user_malloc_loses_page_witness :
  exists s s' p f, malloc 0x1000 s = Ok p s' /\ peek (p + 1) s' = Ok (load8 (pg_mem (pr_pg (u_proc s))) (f + 1)) s'.
Proof.
  destruct new_user as (s & P & Hi & Eb & El & Hb).
  destruct (user_malloc_loses_page s P ∅ 0x1000 16 Hi ltac:(lia)) as (s' & f & E & _ & Hp); rewrite ?Eb, ?El; try (unfold KERNEL_VIRT; lia);
    [vm_compute; discriminate|exact Hb|].
  exists s, s', 0x08049000, f. rewrite Eb, El in *. split; [exact E|]. apply (Hp 0x08049001). lia.
Defined.
