(* ===== verification/Apic.v ===== *)
(** * Interrupt routing on several processors: kernel/arch/ioapic.c, lapic.c

    Both controllers are reached through memory-mapped registers.  The state
    keeps the register writes in order (newest first) beside the kernel heap
    and paging; values the program reads from a register are arguments.
    [ioapic_dev] and [lapic_reg] read the trace of writes back the way the
    devices do.  The code that starts the other processors is below, with the
    processors' entry as a step relation.  [dprintf] and [panic] only print. *)

From stdpp Require Import base numbers list gmap relations.
From Stdlib Require Import ZArith Lia.
From S2P Require Import Prelude Memory CString Mm Paging Malloc Devices X86.
Open Scope Z_scope.

Record apic_state := MkApic {
  ap_hp : heap_state;
  mmio : list (Z * Z);          (* register address, value *)
  ap_outs : list (Z * Z);       (* port, byte *)
  lapic_up : bool;
}.
Definition mmio_write (a v : Z) (s : apic_state) : apic_state := MkApic (ap_hp s) ((a, u32 v) :: mmio s) (ap_outs s) (lapic_up s).
Definition ap_outb (p v : Z) (s : apic_state) : apic_state := MkApic (ap_hp s) (mmio s) ((p, u8 v) :: ap_outs s) (lapic_up s).
Definition set_up (s : apic_state) : apic_state := MkApic (ap_hp s) (mmio s) (ap_outs s) true.
Definition set_ap_hp (h : heap_state) (s : apic_state) : apic_state := MkApic h (mmio s) (ap_outs s) (lapic_up s).
Definition on_ap_pg (f : pg_state -> pg_state) (s : apic_state) : apic_state := set_ap_hp (set_pg (f (hp_pg (ap_hp s))) (ap_hp s)) s.

(** ** The I/O APIC *)

Definition IOAPIC : Z := 0xFEC00000.
Definition IOREGSEL : Z := 0x00.
Definition IOWIN : Z := 0x10.
Definition IOREDTBL : Z := 0x10.
Definition IRQ_TIMER : Z := 0.
Definition IRQ_KBD : Z := 1.
Definition IRQ_IDE : Z := 14.
Definition IRQ_ERROR : Z := 19.
Definition IRQ_SPURIOUS : Z := 0xDF.

(** [r] is what the window register returns. *)
Definition ioapic_read (reg r : Z) (s : apic_state) : Z * apic_state := (r, mmio_write (IOAPIC + IOREGSEL) reg s).
Definition ioapic_write (reg data : Z) (s : apic_state) : apic_state :=
  mmio_write (IOAPIC + IOWIN) data (mmio_write (IOAPIC + IOREGSEL) reg s).

Definition ioapic_enable (irq cpu : Z) (s : apic_state) : apic_state :=
  let low := IRQ0 + irq in
  let s := ioapic_write (IOREDTBL + irq * 2) low s in
  ioapic_write (IOREDTBL + irq * 2 + 1) (cpu .<< 24) s.

Definition ioapic_disable (irq : Z) (s : apic_state) : apic_state :=
  let s := ioapic_write (IOREDTBL + irq * 2) ((1 .<< 16) .| (0x20 + irq)) s in
  ioapic_write (IOREDTBL + irq * 2 + 1) 0 s.

Definition ioapic_init (ver : Z) (s : apic_state) : apic_state :=
  let s := if negb (k_phys_to_virt IOAPIC (hp_pg (ap_hp s)) =? 0) then s else on_ap_pg (k_paging_map IOAPIC IOAPIC 0x3) s in
  let '(ver, s) := ioapic_read 0x01 ver s in
  let max := (ver .>> 16) .& 0xFF in
  for_up (Z.to_nat max) 0 (fun i s => ioapic_disable (u8 i) s) s.

(** ** The local APIC *)

Definition LAPIC_BASE : Z := 0xFEE00000.
Definition LAPIC_ID : Z := 0x020.
Definition LAPIC_VER : Z := 0x030.
Definition LAPIC_TPR : Z := 0x080.
Definition LAPIC_EOI : Z := 0x0B0.
Definition LAPIC_SIV : Z := 0x0F0.
Definition LAPIC_ERR : Z := 0x280.
Definition LAPIC_ICRLO : Z := 0x300.
Definition LAPIC_ICRHI : Z := 0x310.
Definition TIMER : Z := 0x320.
Definition INIT_COUNT : Z := 0x380.
Definition CURR_COUNT : Z := 0x390.
Definition DIVIDE_CONF : Z := 0x3E0.
Definition PERIODIC : Z := 1.
Definition INIT : Z := 0x500.
Definition STARTUP : Z := 0x600.
Definition DELIVS : Z := 0x1000.
Definition ASSERT : Z := 0x4000.
Definition LEVEL : Z := 0x8000.
Definition BCAST : Z := 0x80000.

(** The read that follows the store waits and changes nothing. *)
Definition lapic_write (index value : Z) (s : apic_state) : apic_state := mmio_write (LAPIC_BASE + index) value s.

Definition lapic_eoi (s : apic_state) : apic_state := if negb (lapic_up s) then s else lapic_write LAPIC_EOI 0 s.

Definition lapic_test (dest sh vector : Z) (s : apic_state) : apic_state :=
  lapic_write LAPIC_ICRLO ((sh .<< 17) .| vector) (lapic_write LAPIC_ICRHI (dest .<< 24) s).

Definition lapic_timer_config (mode initial_count divide_by : Z) (s : apic_state) : apic_state :=
  let s := lapic_write TIMER ((mode .<< 17) .| (0x20 + IRQ_TIMER)) s in
  let s := lapic_write DIVIDE_CONF divide_by s in
  let s := lapic_write INIT_COUNT initial_count s in
  lapic_write CURR_COUNT 0 s.

(** [while (lapic_read(LAPIC_ICRLO) & DELIVS)]: [rs] are the values read. *)
Fixpoint lapic_wait (rs : list Z) : M apic_state unit :=
  match rs with
  | [] => fun _ => Spin
  | r :: rs' => if negb (r .& DELIVS =? 0) then lapic_wait rs' else ret tt
  end.

(** [lapic_init] up to the wait; [id] and [ver] are the registers it reads.
    [>=] binds tighter than [&]: the version is masked with [0xFF >= 4], 1. *)
Definition lapic_setup (id ver : Z) (s : apic_state) : apic_state :=
  let s := on_ap_pg (k_paging_map LAPIC_BASE LAPIC_BASE 0x3) s in
  let s := lapic_write LAPIC_SIV (0x100 .| (IRQ0 + IRQ_SPURIOUS)) s in
  let s := if id =? 0 then lapic_timer_config PERIODIC 0x10000 0x0A s else s in
  let s := if negb ((ver .>> 16) .& (if 4 <=? 0xFF then 1 else 0) =? 0) then lapic_write 0x0340 0x10000 s else s in
  let s := lapic_write LAPIC_ERR (IRQ0 + IRQ_ERROR) s in
  let s := lapic_write LAPIC_ERR 0 s in
  let s := lapic_write LAPIC_EOI 0 s in
  let s := lapic_write LAPIC_ICRHI 0 s in
  lapic_write LAPIC_ICRLO (INIT .| LEVEL .| BCAST) s.

Definition lapic_init (id ver : Z) (icr : list Z) : M apic_state unit :=
  modify (lapic_setup id ver) ;;;
  lapic_wait icr ;;;
  modify (lapic_write LAPIC_TPR 0) ;;;
  modify set_up.

(** ** Starting the other processors *)

(** A store to memory below 4 MB, which the boot directory maps twice. *)
Definition low_store16 (a v : Z) (s : apic_state) : apic_state :=
  set_ap_hp (set_hp_mem (store16 (hp_mem (ap_hp s)) (canon a) v) (ap_hp s)) s.
Definition low_store32 (a v : Z) (s : apic_state) : apic_state :=
  set_ap_hp (set_hp_mem (store32 (hp_mem (ap_hp s)) (canon a) v) (ap_hp s)) s.

(** The pointer to the warm reset vector is cut to 16 bits. *)
Definition lapic_start_AP (apic_id address : Z) (s : apic_state) : apic_state :=
  let s := ap_outb 0x71 0xA (ap_outb 0x70 0xF s) in
  let warm_reset_vector := u16 (P2V ((0x40 .<< 4) .| 0x67)) in
  let s := low_store16 warm_reset_vector 0 s in
  let s := low_store16 (warm_reset_vector + 2) (address .>> 4) s in
  let s := lapic_write LAPIC_ICRHI (apic_id .<< 24) s in
  let s := lapic_write LAPIC_ICRLO (INIT .| LEVEL .| ASSERT) s in
  let s := lapic_write LAPIC_ICRLO (INIT .| LEVEL) s in
  for_up 2 0 (fun _ s =>
    lapic_write LAPIC_ICRLO (STARTUP .| (address .>> 12)) (lapic_write LAPIC_ICRHI (apic_id .<< 24) s)) s.

Definition on_ap_hp {A : Type} (c : M heap_state A) : M apic_state A := fun s =>
  match c (ap_hp s) with
  | Ok r h => Ok r (set_ap_hp h s)
  | Spin => Spin
  | Undef => Undef
  end.

Definition STACK_SIZE : Z := 0x4000.
Definition AP_CODE : Z := 0x8000.

Section start.
(** Addresses of the array [cpus] and of the function [mp_enter]. *)
Context (cpus mp_enter : Z).

Definition start_one (i : Z) : M apic_state unit :=
  p <-- on_ap_hp (malloc STACK_SIZE) ;;
  let stack := u32 (p + STACK_SIZE) .& not32 0xF in
  modify (fun s =>
    let c := cpus + CPU_SIZE * i in
    let s := low_store32 (c + cpu_stack) stack s in
    let s := low_store32 c i s in
    let s := low_store32 (c + cpu_self) c s in
    let s := low_store32 (AP_CODE - 4) stack s in
    let s := low_store32 (AP_CODE - 8) mp_enter s in
    let s := low_store32 (AP_CODE - 12) (V2P (KERNEL_PAGE_DIRECTORY (hp_pg (ap_hp s)))) s in
    lapic_start_AP i AP_CODE s).

Fixpoint start_loop (k : nat) (i : Z) : M apic_state unit :=
  match k with
  | O => ret tt
  | S k' => start_one i ;;; start_loop k' (i + 1)
  end.

(** [memmove] goes through a block of the heap. *)
Definition mp_start_ap (nproc ap_start ap_end : Z) : M apic_state unit :=
  let ap_entry_size := u32 (ap_end - ap_start) in
  temp <-- on_ap_hp (malloc ap_entry_size) ;;
  modify (fun s => set_ap_hp (set_hp_mem (memmove (hp_mem (ap_hp s)) (canon AP_CODE) ap_start ap_entry_size temp) (ap_hp s)) s) ;;;
  on_ap_hp (free temp) ;;;
  start_loop (Z.to_nat (nproc - 1)) 1.
End start.

(** ** A processor's entry *)

(** The processor's tables and this file's state share memory. *)
Record smp_state := MkSmp { sm_x86 : x86_state; sm_ap : apic_state; ncpu : Z; proc_m : Z }.
Definition sm_mem (s : smp_state) : mem := hp_mem (ap_hp (sm_ap s)).
Definition set_sm_mem (m : mem) (s : smp_state) : smp_state :=
  MkSmp (sm_x86 s) (set_ap_hp (set_hp_mem m (ap_hp (sm_ap s))) (sm_ap s)) (ncpu s) (proc_m s).
Definition on_x86 (f : x86_state -> x86_state) (s : smp_state) : smp_state :=
  let x := f (set_x_mem (sm_mem s) (sm_x86 s)) in
  set_sm_mem (x_mem x) (MkSmp x (sm_ap s) (ncpu s) (proc_m s)).
Definition on_apic {A : Type} (c : M apic_state A) : M smp_state A := fun s =>
  match c (sm_ap s) with
  | Ok r a => Ok r (MkSmp (sm_x86 s) a (ncpu s) (proc_m s))
  | Spin => Spin
  | Undef => Undef
  end.

Definition acquire_proc : M smp_state unit := fun s =>
  if proc_m s =? 0 then Ok tt (MkSmp (sm_x86 s) (sm_ap s) (ncpu s) 1) else Spin.
Definition release_proc (s : smp_state) : smp_state := MkSmp (sm_x86 s) (sm_ap s) (ncpu s) 0.
Definition count_cpu (s : smp_state) : smp_state := MkSmp (sm_x86 s) (sm_ap s) (s32 (ncpu s + 1)) (proc_m s).

(** The base of the segment in %gs, from the descriptor it selects. *)
Definition gs_base (s : smp_state) : Z := hw_base (load64 (sm_mem s) ((gdtr (sm_x86 s)).2 + 8 * (gs (sm_x86 s) / 8))).

(** [r] is the identification register, [ver] and [icr] what [lapic_init] reads;
    [scheduler] follows.  [cpu] is the pointer at %gs:0. *)
Definition mp_enter (idt cpus system_tss r ver : Z) (icr : list Z) : M smp_state unit :=
  acquire_proc ;;;
  let id := u32 r .>> 24 in
  modify count_cpu ;;;
  modify (on_x86 (gdt_init_cpu cpus system_tss id)) ;;;
  modify (on_x86 (lidt idt (8 * 256))) ;;;
  modify (fun s => set_sm_mem (store32 (sm_mem s) (load32 (sm_mem s) (gs_base s)) id) s) ;;;
  on_apic (lapic_init r ver icr) ;;;
  modify release_proc.

Definition mp_processor_id (eflags r : Z) : Z := if negb (eflags .& 0x200 =? 0) then -1 else u32 r .>> 24.
Definition mp_number_of_processors (s : smp_state) : Z := ncpu s + 1.

(** The lines of [kernel_initialize] that route the interrupts. *)
Definition route_interrupts (ver : Z) (s : apic_state) : apic_state :=
  ioapic_enable IRQ_IDE 1 (ioapic_enable IRQ_KBD 0 (ioapic_init ver s)).

(** ** The devices' view *)

(** The I/O APIC: a write of the select register chooses the register that the
    window register then writes. *)
Definition dev_step (w : Z * Z) (d : Z * gmap Z Z) : Z * gmap Z Z :=
  if w.1 =? IOAPIC + IOREGSEL then (w.2, d.2)
  else if w.1 =? IOAPIC + IOWIN then (d.1, <[d.1 := w.2]> d.2) else d.
Definition ioapic_dev (s : apic_state) : Z * gmap Z Z := foldr dev_step (0, ∅) (mmio s).
Definition ioapic_regs (s : apic_state) : gmap Z Z := (ioapic_dev s).2.

Record route := MkRoute { rt_vector : Z; rt_masked : bool; rt_dest : Z }.
(** Entry [i] of the redirection table. *)
Definition redirection (s : apic_state) (i : Z) : option route :=
  match ioapic_regs s !! (IOREDTBL + i * 2), ioapic_regs s !! (IOREDTBL + i * 2 + 1) with
  | Some low, Some high => Some (MkRoute (low mod 0x100) (Z.testbit low 16) (high / 0x1000000))
  | _, _ => None
  end.

(** The value a register of the local APIC was last written with. *)
Definition lapic_reg (r : Z) (s : apic_state) : option Z := snd <$> find (fun w => w.1 =? LAPIC_BASE + r) (mmio s).

Lemma ioapic_write_regs reg data s : ioapic_regs (ioapic_write reg data s) = <[u32 reg := u32 data]> (ioapic_regs s).
Proof. reflexivity. Qed.

Lemma redirection_write irq low high s i :
  0 <= irq < 0x1000 -> 0 <= i < 0x1000 -> 0 <= low < 0x100000000 ->
  redirection (ioapic_write (IOREDTBL + irq * 2 + 1) high (ioapic_write (IOREDTBL + irq * 2) low s)) i =
  if i =? irq then Some (MkRoute (low mod 0x100) (Z.testbit low 16) (u32 high / 0x1000000)) else redirection s i.
Proof.
  intros Hq Hi Hl. unfold redirection. rewrite !ioapic_write_regs, !(u32_small (_ + _)), (u32_small low) by (unfold IOREDTBL; lia).
  destruct (Z.eqb_spec i irq) as [->|Hne].
  - rewrite lookup_insert_ne, !lookup_insert_eq by (unfold IOREDTBL; lia). reflexivity.
  - rewrite !lookup_insert_ne by (unfold IOREDTBL; lia). reflexivity.
Qed.

Lemma enable_redirection irq cpu s i : 0 <= irq < 224 -> 0 <= i < 0x1000 ->
  redirection (ioapic_enable irq cpu s) i = if i =? irq then Some (MkRoute (32 + irq) false (cpu mod 0x100)) else redirection s i.
Proof.
  intros Hq Hi. unfold ioapic_enable, IRQ0. rewrite redirection_write by lia. destruct (i =? irq); [|reflexivity].
  rewrite Z.mod_small, (testbit_high _ 16) by lia. f_equal. f_equal. rewrite Z.shiftl_mul_pow2 by lia. unfold u32. dlia.
Qed.

Lemma disable_redirection irq s i : 0 <= irq < 224 -> 0 <= i < 0x1000 ->
  redirection (ioapic_disable irq s) i = if i =? irq then Some (MkRoute (32 + irq) true 0) else redirection s i.
Proof.
  intros Hq Hi. unfold ioapic_disable. change (1 .<< 16) with 0x10000.
  assert (E : 0x10000 .| (0x20 + irq) = 0x10000 + (0x20 + irq)) by (apply (lor_disjoint_add 16); [lia|reflexivity|lia]).
  rewrite redirection_write by (rewrite ?E; lia). destruct (i =? irq); [|reflexivity].
  rewrite Z.lor_spec. change (Z.testbit 0x10000 16) with true. rewrite E. change (u32 0 / 0x1000000) with 0.
  cbn [orb]. do 2 f_equal. dlia.
Qed.

(** The loop of [ioapic_init] masks the entries below [n]. *)
Lemma disable_loop n s i : Z.of_nat n < 224 -> 0 <= i < 0x1000 ->
  redirection (for_up n 0 (fun k s => ioapic_disable (u8 k) s) s) i =
  if i <? Z.of_nat n then Some (MkRoute (32 + i) true 0) else redirection s i.
Proof.
  intros Hn Hi. induction n as [|n IH]; [destruct (Z.ltb_spec i (Z.of_nat 0)); [lia|reflexivity]|].
  rewrite for_up_snoc, Z.add_0_l. rewrite u8_small by lia. rewrite disable_redirection, IH by lia.
  destruct (Z.eqb_spec i (Z.of_nat n)) as [->|Hne].
  - destruct (Z.ltb_spec (Z.of_nat n) (Z.of_nat (S n))); [reflexivity|lia].
  - destruct (Z.ltb_spec i (Z.of_nat n)), (Z.ltb_spec i (Z.of_nat (S n))); reflexivity || lia.
Qed.

Lemma redirection_pg f s i : redirection (on_ap_pg f s) i = redirection s i.
Proof. reflexivity. Qed.

Lemma ioapic_init_redirection ver s i : 0 <= ver < 0x100000000 -> (ver / 0x10000) mod 0x100 < 224 -> 0 <= i < 0x1000 ->
  redirection (ioapic_init ver s) i = if i <? (ver / 0x10000) mod 0x100 then Some (MkRoute (32 + i) true 0) else redirection s i.
Proof.
  intros Hv Hm Hi. unfold ioapic_init, ioapic_read.
  replace ((ver .>> 16) .& 0xFF) with ((ver / 0x10000) mod 0x100)
    by (change 0xFF with (Z.ones 8); rewrite land_ones_mod, Z.shiftr_div_pow2 by lia; reflexivity).
  rewrite disable_loop by dlia. rewrite Z2Nat.id by dlia. destruct (i <? _); [reflexivity|].
  destruct (negb _); reflexivity.
Qed.

(** C28: the interrupts the kernel routes at boot.  With the version word that
    the code expects, [ioapic_init] and the two calls after it leave the first
    23 entries of the redirection table with vector 32 + irq and masked, except
    the keyboard's, sent to processor 0, and the disk's, sent to processor 1.
    The last entry, 23, keeps what it held: the version's field is the number of
    the highest entry and the loop stops before it. *)
Theorem route_interrupts_table s i : 0 <= i < 0x100 ->
  redirection (route_interrupts 0x00170011 s) i =
  if i =? IRQ_KBD then Some (MkRoute 33 false 0)
  else if i =? IRQ_IDE then Some (MkRoute 46 false 1)
  else if i <? 23 then Some (MkRoute (32 + i) true 0) else redirection s i.
Proof.
  intros Hi. unfold route_interrupts. rewrite !enable_redirection, ioapic_init_redirection by (unfold IRQ_KBD, IRQ_IDE; try reflexivity; lia).
  change ((0x00170011 / 0x10000) mod 0x100) with 23. unfold IRQ_KBD, IRQ_IDE.
  destruct (Z.eqb_spec i 14) as [->|]; [reflexivity|]. destruct (i =? 1); reflexivity.
Qed.

Lemma route_interrupts_table_witness :
  let s := route_interrupts 0x00170011 (MkApic demo_heap1 [] [] false) in
  redirection s 1 = Some (MkRoute 33 false 0) /\ redirection s 22 = Some (MkRoute 54 true 0) /\
  redirection s 23 = redirection (MkApic demo_heap1 [] [] false) 23.
Proof.
  cbv zeta. split; [|split]; [apply (route_interrupts_table (MkApic demo_heap1 [] [] false) 1)|
    apply (route_interrupts_table (MkApic demo_heap1 [] [] false) 22)|apply (route_interrupts_table (MkApic demo_heap1 [] [] false) 23)]; lia.
Defined.

Lemma lapic_reg_write r index v s :
  lapic_reg r (lapic_write index v s) = if index =? r then Some (u32 v) else lapic_reg r s.
Proof.
  unfold lapic_reg, lapic_write, mmio_write. cbn [mmio find fst]. unfold LAPIC_BASE.
  replace (0xFEE00000 + index =? 0xFEE00000 + r) with (index =? r) by lia. destruct (index =? r); reflexivity.
Qed.

Lemma lapic_wait_ends rs s : (exists r, r ∈ rs /\ r .& DELIVS = 0) -> lapic_wait rs s = Ok tt s.
Proof.
  induction rs as [|y rs IH]; intros (r & Hin & Hr); cbn [lapic_wait]; [apply elem_of_nil in Hin; contradiction|].
  destruct (Z.eqb_spec (y .& DELIVS) 0) as [|Hy]; [reflexivity|]. apply IH. exists r. split; [|exact Hr].
  apply elem_of_cons in Hin as [->|Hin]; [contradiction|exact Hin].
Qed.

Lemma lapic_wait_for_ever rs s : (forall r, r ∈ rs -> r .& DELIVS <> 0) -> lapic_wait rs s = Spin.
Proof.
  induction rs as [|r rs IH]; intros H; cbn [lapic_wait]; [reflexivity|].
  pose proof (H r ltac:(left)). replace (r .& DELIVS =? 0) with false by lia. apply IH. intros x Hx. apply H. right. exact Hx.
Qed.

(** What [lapic_init] leaves in a register. *)
Definition lapic_init_value (id ver r : Z) (old : option Z) : option Z :=
  if r =? LAPIC_TPR then Some 0
  else if r =? LAPIC_ICRLO then Some 0x88500
  else if r =? LAPIC_ICRHI then Some 0
  else if r =? LAPIC_EOI then Some 0
  else if r =? LAPIC_ERR then Some 0
  else if (r =? 0x340) && Z.odd (ver / 0x10000) then Some 0x10000
  else if (r =? TIMER) && (id =? 0) then Some 0x20020
  else if (r =? DIVIDE_CONF) && (id =? 0) then Some 0x0A
  else if (r =? INIT_COUNT) && (id =? 0) then Some 0x10000
  else if (r =? CURR_COUNT) && (id =? 0) then Some 0
  else if r =? LAPIC_SIV then Some 0x1FF else old.

Lemma version_bit ver : negb ((ver .>> 16) .& (if 4 <=? 0xFF then 1 else 0) =? 0) = Z.odd (ver / 0x10000).
Proof.
  change (if 4 <=? 0xFF then 1 else 0) with (Z.ones 1). rewrite land_ones_mod, Z.shiftr_div_pow2 by lia.
  change (2 ^ 1) with 2. change (2 ^ 16) with 0x10000. rewrite Zmod_odd. destruct (Z.odd _); reflexivity.
Qed.

Lemma lapic_setup_reg id ver r s :
  lapic_reg r (lapic_write LAPIC_TPR 0 (lapic_setup id ver s)) = lapic_init_value id ver r (lapic_reg r s).
Proof.
  unfold lapic_setup, lapic_init_value. rewrite version_bit.
  destruct (id =? 0), (Z.odd (ver / 0x10000)); unfold lapic_timer_config; rewrite !lapic_reg_write, ?andb_true_r, ?andb_false_r;
    unfold LAPIC_TPR, LAPIC_ICRLO, LAPIC_ICRHI, LAPIC_EOI, LAPIC_ERR, LAPIC_SIV, TIMER, DIVIDE_CONF, INIT_COUNT, CURR_COUNT;
    rewrite ?(Z.eqb_sym _ r);
    repeat match goal with |- context [r =? ?k] => destruct (Z.eqb_spec r k); [subst r; reflexivity|] end; reflexivity.
Qed.

Lemma lapic_init_Ok id ver icr s : (exists r, r ∈ icr /\ r .& DELIVS = 0) ->
  lapic_init id ver icr s = Ok tt (set_up (lapic_write LAPIC_TPR 0 (lapic_setup id ver s))).
Proof. intros Hw. unfold lapic_init. rewrite bind_modify, (bind_Ok _ _ _ _ _ (lapic_wait_ends icr _ Hw)). reflexivity. Qed.

Lemma lapic_setup_hp id ver s :
  ap_hp (lapic_setup id ver s) = set_pg (k_paging_map LAPIC_BASE LAPIC_BASE 0x3 (hp_pg (ap_hp s))) (ap_hp s).
Proof. unfold lapic_setup. destruct (negb _), (id =? 0); reflexivity. Qed.

(** The local APIC after [lapic_init].  If the delivery status is read
    clear once, the function returns with the controller enabled on vector 0xFF,
    end-of-interrupts switched on, the timer periodic on vector 0x20 on
    processor 0 only, and the controller's page mapped to itself; if the status
    is never clear it does not return. *)
Theorem lapic_init_enables id ver icr s :
  let pd := CURRENT_PAGE_DIRECTORY (hp_pg (ap_hp s)) in
  pd_wf (pg_mem (hp_pg (ap_hp s))) pd -> table_room (hp_pg (ap_hp s)) pd ->
  ((forall r, r ∈ icr -> r .& DELIVS <> 0) -> lapic_init id ver icr s = Spin) /\
  ((exists r, r ∈ icr /\ r .& DELIVS = 0) ->
   exists s', lapic_init id ver icr s = Ok tt s' /\ lapic_up s' = true /\
     (forall r, lapic_reg r s' = lapic_init_value id ver r (lapic_reg r s)) /\
     (forall va, LAPIC_BASE <= va < LAPIC_BASE + 0x1000 -> mmu (pg_mem (hp_pg (ap_hp s'))) pd va = Some va)).
Proof.
  intros pd Hwf Hroom. split.
  - intros Hno. unfold lapic_init, bind. cbn [modify]. rewrite (lapic_wait_for_ever icr _ Hno). reflexivity.
  - intros Hw. eexists. split; [apply (lapic_init_Ok id ver icr s Hw)|]. split; [reflexivity|]. split; [intros r; exact (lapic_setup_reg id ver r s)|].
    intros va Hva. cbn [set_up lapic_write mmio_write ap_hp]. rewrite lapic_setup_hp. cbn [set_pg hp_pg]. unfold k_paging_map. fold pd.
    unfold LAPIC_BASE in *. rewrite (map_walk_same (hp_pg (ap_hp s)) pd) by (assumption || reflexivity || (split; [lia|reflexivity]) || dlia).
    f_equal. dlia.
Qed.

Lemma lapic_init_enables_witness :
  let s := MkApic (set_pg boot_pg demo_heap1) [] [] false in
  exists s', lapic_init 0 0x50014 [0x1000; 0] s = Ok tt s' /\ lapic_reg LAPIC_SIV s' = Some 0x1FF /\
    lapic_reg TIMER s' = Some 0x20020 /\ mmu (pg_mem (hp_pg (ap_hp s'))) 0xC0110000 0xFEE000B0 = Some 0xFEE000B0.
Proof.
  cbv zeta. destruct (lapic_init_enables 0 0x50014 [0x1000; 0] (MkApic (set_pg boot_pg demo_heap1) [] [] false) boot_wf boot_room) as [_ H].
  destruct H as (s' & E & _ & Hr & Hm); [exists 0; split; [right; left|reflexivity]|].
  exists s'. rewrite !Hr. split; [exact E|]. split; [reflexivity|]. split; [reflexivity|]. apply (Hm 0xFEE000B0). unfold LAPIC_BASE. lia.
Defined.

(** The start-up sequence.  For a page-aligned address in the first
    megabyte, [lapic_start_AP] selects the processor, asserts and releases its
    reset and sends two start-up messages whose vector is the page of the
    address; the real-mode pointer at 40:67 is the address as well. *)
Theorem lapic_start_AP_sequence apic_id address s :
  0 <= apic_id < 0x100 -> 0 <= address < 0x100000 -> address mod 0x1000 = 0 ->
  let s' := lapic_start_AP apic_id address s in
  let dest := (LAPIC_BASE + LAPIC_ICRHI, apic_id * 0x1000000) in
  let icr v := (LAPIC_BASE + LAPIC_ICRLO, v) in
  mmio s' = [icr (STARTUP + address / 0x1000); dest; icr (STARTUP + address / 0x1000); dest; icr 0x8500; icr 0xC500; dest] ++ mmio s /\
  load16 (hp_mem (ap_hp s')) 0xC0000469 * 16 + load16 (hp_mem (ap_hp s')) 0xC0000467 = address.
Proof.
  intros Hid Had Hal s' dest icr.
  assert (E1 : u32 (apic_id .<< 24) = apic_id * 0x1000000) by (rewrite Z.shiftl_mul_pow2 by lia; apply u32_small; lia).
  assert (E2 : u32 (STARTUP .| (address .>> 12)) = STARTUP + address / 0x1000).
  { unfold STARTUP. rewrite Z.shiftr_div_pow2 by lia. change (2 ^ 12) with 0x1000.
    rewrite (lor_disjoint_add 8) by (try reflexivity; dlia). apply u32_small. dlia. }
  assert (E3 : u16 (P2V ((0x40 .<< 4) .| 0x67)) = 0x467) by reflexivity.
  unfold s', lapic_start_AP. rewrite E3. cbn [for_up]. split.
  - unfold lapic_write, mmio_write. cbn [mmio ap_outb low_store16 set_ap_hp app]. rewrite E1, E2. reflexivity.
  - set (m0 := hp_mem (ap_hp s)).
    change (hp_mem (ap_hp _)) with (store16 (store16 m0 0xC0000467 0) 0xC0000469 (address .>> 4)).
    rewrite load16_store16_eq, load16_store16_ne, load16_store16_eq by lia. rewrite Z.shiftr_div_pow2 by lia.
    change (2 ^ 4) with 16. rewrite u16_small by dlia. change (u16 0) with 0. dlia.
Qed.

Lemma lapic_start_AP_sequence_witness :
  let s' := lapic_start_AP 1 0x8000 (MkApic demo_heap1 [] [] true) in
  head (mmio s') = Some (0xFEE00300, 0x608) /\ load16 (hp_mem (ap_hp s')) 0xC0000469 * 16 + load16 (hp_mem (ap_hp s')) 0xC0000467 = 0x8000.
Proof.
  cbv zeta. destruct (lapic_start_AP_sequence 1 0x8000 (MkApic demo_heap1 [] [] true) ltac:(lia) ltac:(lia) eq_refl) as [E1 E2].
  rewrite E1. split; [reflexivity|exact E2].
Defined.

(** ** Interleavings of the processors that start

    [mp_enter] counts the processor with [ncpu++], a load and a store, between
    [acquire(&proc_m)] and [release(&proc_m)]. *)

Inductive ap_pc := Waiting | Entered | Loaded (r : Z) | Counted | Left.
Record mp_run := MkMpRun { mr_lock : Z; mr_ncpu : Z; mr_aps : list ap_pc }.

Definition try_enter (i : nat) (s : mp_run) : mp_run :=
  MkMpRun 1 (mr_ncpu s) (if mr_lock s =? 0 then <[i := Entered]> (mr_aps s) else mr_aps s).
Definition load_ncpu (i : nat) (s : mp_run) : mp_run := MkMpRun (mr_lock s) (mr_ncpu s) (<[i := Loaded (mr_ncpu s)]> (mr_aps s)).
Definition store_ncpu (i : nat) (r : Z) (s : mp_run) : mp_run := MkMpRun (mr_lock s) (s32 (r + 1)) (<[i := Counted]> (mr_aps s)).
Definition leave (i : nat) (s : mp_run) : mp_run := MkMpRun 0 (mr_ncpu s) (<[i := Left]> (mr_aps s)).

Inductive mp_step : mp_run -> mp_run -> Prop :=
| mp_try i s : mr_aps s !! i = Some Waiting -> mp_step s (try_enter i s)
| mp_load i s : mr_aps s !! i = Some Entered -> mp_step s (load_ncpu i s)
| mp_store i r s : mr_aps s !! i = Some (Loaded r) -> mp_step s (store_ncpu i r s)
| mp_leave i s : mr_aps s !! i = Some Counted -> mp_step s (leave i s).

Definition mp_boot (n : nat) : mp_run := MkMpRun 0 0 (replicate n Waiting).

Definition inside (c : ap_pc) : nat := match c with Waiting | Left => 0 | _ => 1 end.
Definition counted (c : ap_pc) : nat := match c with Counted | Left => 1 | _ => 0 end.

(** The lock says whether a processor is inside; the one that has loaded the
    counter has its current value; the counter is the number that stored it. *)
Record mp_inv (s : mp_run) : Prop := {
  mi_lock : mr_lock s = Z.of_nat (sum_list_with inside (mr_aps s));
  mi_one : (sum_list_with inside (mr_aps s) <= 1)%nat;
  mi_count : mr_ncpu s = Z.of_nat (sum_list_with counted (mr_aps s));
  mi_size : Z.of_nat (length (mr_aps s)) < 0x80000000;
  mi_load : forall i r, mr_aps s !! i = Some (Loaded r) -> r = mr_ncpu s;
}.

Lemma mp_inv_boot n : Z.of_nat n < 0x80000000 -> mp_inv (mp_boot n).
Proof.
  intros Hn. assert (H0 : forall f, f Waiting = 0%nat -> sum_list_with f (replicate n Waiting) = 0%nat).
  { intros f Hf. clear Hn. induction n as [|n IH]; [reflexivity|]. cbn. rewrite Hf. exact IH. }
  split; cbn [mp_boot mr_lock mr_ncpu mr_aps]; rewrite ?(H0 inside), ?(H0 counted), ?length_replicate by reflexivity; try lia; try reflexivity.
  intros i r Hi. apply lookup_replicate_1 in Hi as [Hi _]. discriminate.
Qed.

Lemma counted_le l : (sum_list_with counted l <= length l)%nat.
Proof. induction l as [|[] l IH]; cbn; lia. Qed.

Lemma loaded_insert (l : list ap_pc) i y n j r : (forall k q, l !! k = Some (Loaded q) -> q = n) ->
  (forall q, y = Loaded q -> q = n) -> <[i := y]> l !! j = Some (Loaded r) -> r = n.
Proof.
  intros Hl Hy Hj. apply list_lookup_insert_Some in Hj as [(_ & Ey & _)|[_ Hj]]; [apply Hy; assumption|exact (Hl j r Hj)].
Qed.

Lemma mp_inv_step s s' : mp_inv s -> mp_step s s' -> mp_inv s'.
Proof.
  intros [Hl Ho Hc Hz Hv] Hs. inversion Hs as [i t Hi|i t Hi|i r t Hi|i t Hi]; subst.
  - unfold try_enter. destruct (Z.eqb_spec (mr_lock s) 0) as [E|E].
    + pose proof (sum_insert inside _ _ _ Entered Hi) as H1. pose proof (sum_insert counted _ _ _ Entered Hi) as H2. cbn in H1, H2.
      split; cbn [mr_lock mr_ncpu mr_aps]; rewrite ?length_insert; try lia.
      intros j r Hj. refine (loaded_insert _ _ _ _ j r Hv _ Hj); discriminate.
    + split; cbn [mr_lock mr_ncpu mr_aps]; try assumption; lia.
  - pose proof (sum_insert inside _ _ _ (Loaded (mr_ncpu s)) Hi) as H1. pose proof (sum_insert counted _ _ _ (Loaded (mr_ncpu s)) Hi) as H2. cbn in H1, H2.
    split; cbn [load_ncpu mr_lock mr_ncpu mr_aps]; rewrite ?length_insert; try lia.
    intros j r Hj. refine (loaded_insert _ _ _ _ j r Hv _ Hj); congruence.
  - pose proof (sum_insert inside _ _ _ Counted Hi) as H1. pose proof (sum_insert counted _ _ _ Counted Hi) as H2. cbn in H1, H2.
    pose proof (counted_le (<[i := Counted]> (mr_aps s))) as H3. rewrite length_insert in H3. rewrite (Hv i r Hi) in *.
    split; cbn [store_ncpu mr_lock mr_ncpu mr_aps]; rewrite ?length_insert, ?s32_small by lia; try lia.
    intros j q Hj. apply list_lookup_insert_Some in Hj as [(_ & [=] & _)|[Hne Hj]].
    pose proof (sum_two inside _ i j _ _ Hne Hi Hj) as H4. cbn in H4. lia.
  - pose proof (sum_insert inside _ _ _ Left Hi) as H1. pose proof (sum_insert counted _ _ _ Left Hi) as H2. cbn in H1, H2.
    pose proof (sum_at inside _ _ _ Hi) as H3. cbn in H3.
    split; cbn [leave mr_lock mr_ncpu mr_aps]; rewrite ?length_insert; try lia.
    intros j r Hj. refine (loaded_insert _ _ _ _ j r Hv _ Hj); discriminate.
Qed.

Lemma mp_reachable n s : Z.of_nat n < 0x80000000 -> rtc mp_step (mp_boot n) s -> mp_inv s /\ length (mr_aps s) = n.
Proof.
  intros Hn H. assert (Hlen : length (mr_aps (mp_boot n)) = n) by apply length_replicate.
  pose proof (mp_inv_boot n Hn) as Hi. clear Hn. induction H as [s|s t u Hst _ IH]; [auto|].
  apply IH; [|eapply mp_inv_step; eassumption]. rewrite <- Hlen.
  inversion Hst; subst; cbn; rewrite ?length_insert; try reflexivity. destruct (_ =? 0); rewrite ?length_insert; reflexivity.
Qed.

Lemma all_counted l : sum_list_with counted l = length l <-> Forall (fun c => c = Counted \/ c = Left) l.
Proof.
  induction l as [|c l IH]; [split; [constructor|reflexivity]|]. pose proof (counted_le l) as Hle. rewrite Forall_cons, <- IH. cbn [sum_list_with length].
  assert (Hc : counted c = 1%nat <-> c = Counted \/ c = Left)
    by (destruct c; cbn; split; intros H'; try discriminate; auto; destruct H'; discriminate).
  assert (Hc1 : (counted c <= 1)%nat) by (destruct c; cbn; lia). rewrite <- Hc. lia.
Qed.

(** C25: no processor is lost in the count.  In every interleaving of the
    starting processors the count that the boot processor polls is 1 plus the
    number of processors that have stored it, so it reaches 1 + n exactly when
    all n have; the processor that is between load and store holds the current
    value. *)
Theorem mp_count_exact n s : Z.of_nat n < 0x80000000 -> rtc mp_step (mp_boot n) s ->
  mr_ncpu s = Z.of_nat (sum_list_with counted (mr_aps s)) /\
  (mr_ncpu s + 1 = Z.of_nat n + 1 <-> Forall (fun c => c = Counted \/ c = Left) (mr_aps s)) /\
  (forall i r, mr_aps s !! i = Some (Loaded r) -> r = mr_ncpu s).
Proof.
  intros Hn Hr. destruct (mp_reachable n s Hn Hr) as [[_ _ Hc _ Hv] Hlen]. split; [exact Hc|]. split; [|exact Hv].
  rewrite <- all_counted, Hc, Hlen. lia.
Qed.

Lemma mp_count_exact_witness :
  exists s, rtc mp_step (mp_boot 2) s /\ mr_aps s = [Left; Loaded 1] /\ mr_ncpu s = 1.
Proof.
  assert (Hr : rtc mp_step (mp_boot 2) (MkMpRun 1 1 [Left; Loaded 1])).
  { eapply rtc_l; [apply (mp_try 0); reflexivity|]. eapply rtc_l; [apply (mp_load 0); reflexivity|].
    eapply rtc_l; [apply (mp_store 0 0); reflexivity|]. eapply rtc_l; [apply (mp_leave 0); reflexivity|].
    eapply rtc_l; [apply (mp_try 1); reflexivity|]. eapply rtc_l; [apply (mp_load 1); reflexivity|]. apply rtc_refl. }
  eexists. split; [exact Hr|]. split; [reflexivity|]. apply (mp_count_exact 2 _ ltac:(lia) Hr).
Defined.

(** ** The mailbox

    [mp_start_ap] leaves the stack pointer of the processor it starts in the
    word below the start-up code and goes on; the started processor reads the
    word at some later time ([mov esp, [start-4]] of kernel/arch/ap_entry.s). *)

Inductive ap_boot := Halted | Started | Running (esp : Z).
Record mail_run := MkMail { ml_word : Z; ml_next : nat; ml_aps : list ap_boot }.

Section mailbox.
Context (stack : nat -> Z).

Definition post (s : mail_run) : mail_run := MkMail (stack (ml_next s)) (S (ml_next s)) (<[ml_next s := Started]> (ml_aps s)).
Definition fetch (i : nat) (s : mail_run) : mail_run := MkMail (ml_word s) (ml_next s) (<[i := Running (ml_word s)]> (ml_aps s)).

Inductive mail_step : mail_run -> mail_run -> Prop :=
| mail_post s : (ml_next s < length (ml_aps s))%nat -> mail_step s (post s)
| mail_fetch i s : ml_aps s !! i = Some Started -> mail_step s (fetch i s).

(** The runs in which each processor has read its word before the next starts. *)
Inductive paced_step : mail_run -> mail_run -> Prop :=
| paced_post s : (ml_next s < length (ml_aps s))%nat -> (forall i, ml_aps s !! i <> Some Started) -> paced_step s (post s)
| paced_fetch i s : ml_aps s !! i = Some Started -> paced_step s (fetch i s).

Definition mail_boot (n : nat) : mail_run := MkMail 0 0 (replicate n Halted).

(** A started processor is the last one, and the word is its stack. *)
Definition paced_inv (s : mail_run) : Prop :=
  (forall i, ml_aps s !! i = Some Started -> ml_word s = stack i) /\
  (forall i v, ml_aps s !! i = Some (Running v) -> v = stack i).

Lemma paced_inv_step s s' : paced_inv s -> paced_step s s' -> paced_inv s'.
Proof.
  intros [H1 H2] Hs. inversion Hs as [t Hlt Hno|i t Hi]; subst; (split; [intros j Hj|intros j v Hj]);
    apply list_lookup_insert_Some in Hj as [(<- & Ej & _)|[Hne Hj]]; try discriminate; cbn.
  - reflexivity.
  - exfalso. exact (Hno j Hj).
  - apply (H2 j v Hj).
  - apply (H1 j Hj).
  - injection Ej as <-. apply (H1 i Hi).
  - apply (H2 j v Hj).
Qed.

Lemma paced_reachable n s : rtc paced_step (mail_boot n) s -> paced_inv s.
Proof.
  intros H. assert (Hi : paced_inv (mail_boot n)).
  { split; intros i; [|intros v]; cbn; intros [Hi _]%lookup_replicate_1; discriminate. }
  induction H; eauto using paced_inv_step.
Qed.
End mailbox.

(** Two processors can get one stack.  Nothing makes [mp_start_ap] wait for
    the processor it started: with three processors or more there is a run in
    which the first two started ones both run on the second one's stack.  In
    the runs where each reads its word before the next is started, each gets
    its own. *)
Theorem mp_start_shares_stack stack n :
  (exists s, rtc (mail_step stack) (mail_boot (S (S n))) s /\
     ml_aps s !! 0%nat = Some (Running (stack 1%nat)) /\ ml_aps s !! 1%nat = Some (Running (stack 1%nat))) /\
  (forall s i v, rtc (paced_step stack) (mail_boot n) s -> ml_aps s !! i = Some (Running v) -> v = stack i).
Proof.
  split.
  - eexists. split; [|split].
    + eapply rtc_l; [apply mail_post; cbn; lia|]. eapply rtc_l; [apply mail_post; cbn; lia|].
      eapply rtc_l; [apply (mail_fetch _ 0); reflexivity|]. eapply rtc_l; [apply (mail_fetch _ 1); reflexivity|]. apply rtc_refl.
    + reflexivity.
    + reflexivity.
  - intros s i v Hr. apply (paced_reachable stack n s Hr).
Qed.

(** ** The entry of one processor *)

Lemma sm_mem_set m s : sm_mem (set_sm_mem m s) = m.
Proof. reflexivity. Qed.

Lemma gs_base_entry idt cpus system_tss id s :
  0 <= id < 8 -> 0 <= cpus /\ cpus + 8 * CPU_SIZE <= 0x100000000 -> 0 <= system_tss /\ system_tss + TSS_SIZE <= 0x100000000 ->
  let t := on_x86 (lidt idt (8 * 256)) (on_x86 (gdt_init_cpu cpus system_tss id) s) in
  gs_base t = cpus + CPU_SIZE * id + cpu_self /\
  sm_mem t = x_mem (gdt_init_cpu cpus system_tss id (set_x_mem (sm_mem s) (sm_x86 s))).
Proof.
  intros Hid Hc Ht t. set (x := gdt_init_cpu cpus system_tss id (set_x_mem (sm_mem s) (sm_x86 s))).
  assert (Em : sm_mem t = x_mem x) by reflexivity. split; [|exact Em].
  destruct (gdt_cpu_sees cpus system_tss id (set_x_mem (sm_mem s) (sm_x86 s)) Hid Hc Ht) as (_ & _ & _ & _ & [H5 _] & _). fold x in H5.
  assert (Eg : gdtr (sm_x86 t) = gdtr x) by reflexivity. assert (Es : gs (sm_x86 t) = gs x) by reflexivity.
  unfold gs_base. rewrite Em, Eg, Es. change (gs x) with (8 * SEG_KCPU).
  replace (8 * SEG_KCPU / 8) with SEG_KCPU by reflexivity.
  replace (gdtr x).2 with (cpus + CPU_SIZE * id + cpu_gdt); [exact H5|].
  unfold x, gdt_init_cpu. cbn [gdtr lgdt load_gs ltr]. replace (s8 id) with id by (unfold s8; rewrite Z.mod_small; lia).
  unfold CPU_SIZE, cpu_gdt in *. rewrite pd_read_table by lia. reflexivity.
Qed.

(** A processor that enters finds itself.  When the boot processor has put
    the address of entry [id] of [cpus] into that entry, [mp_enter] on the
    processor with that number counts it, stores its number in its own entry
    through %gs:0 and in no other, switches its controller on and releases the
    lock. *)
Theorem mp_enter_identifies idt cpus system_tss id ver icr s :
  0 <= id < 8 -> 0 <= cpus /\ cpus + 8 * CPU_SIZE <= 0x100000000 -> 0 <= system_tss /\ system_tss + TSS_SIZE <= 0x100000000 ->
  proc_m s = 0 -> 0 <= ncpu s < 8 -> (exists r, r ∈ icr /\ r .& DELIVS = 0) ->
  load32 (sm_mem s) (cpus + CPU_SIZE * id + cpu_self) = cpus + CPU_SIZE * id ->
  exists s' m, mp_enter idt cpus system_tss (id * 0x1000000) ver icr s = Ok tt s' /\
    mp_number_of_processors s' = mp_number_of_processors s + 1 /\ proc_m s' = 0 /\ lapic_up (sm_ap s') = true /\
    (forall j, 0 <= j < 8 -> load32 m (cpus + CPU_SIZE * j) = if j =? id then id else load32 (sm_mem s) (cpus + CPU_SIZE * j)) /\
    hp_pg (ap_hp (sm_ap s')) = k_paging_map LAPIC_BASE LAPIC_BASE 0x3 (set_pg_mem m (hp_pg (ap_hp (sm_ap s)))).
Proof.
  intros Hid Hc Ht Hl Hn Hw Hself. unfold mp_enter. rewrite (bind_Ok _ _ s tt (MkSmp (sm_x86 s) (sm_ap s) (ncpu s) 1))
    by (unfold acquire_proc; rewrite Hl; reflexivity).
  replace (u32 (id * 0x1000000) .>> 24) with id by (rewrite u32_small, Z.shiftr_div_pow2 by lia; change (2 ^ 24) with 0x1000000; dlia).
  rewrite !bind_modify. set (s1 := count_cpu _).
  destruct (gs_base_entry idt cpus system_tss id s1 Hid Hc Ht) as [Eg Em].
  set (t := on_x86 (lidt idt (8 * 256)) (on_x86 (gdt_init_cpu cpus system_tss id) s1)) in *.
  set (x := gdt_init_cpu cpus system_tss id (set_x_mem (sm_mem s1) (sm_x86 s1))) in *.
  assert (Ep : load32 (sm_mem t) (gs_base t) = cpus + CPU_SIZE * id).
  { rewrite Eg, Em. unfold x. rewrite gdt_cpu_other; [exact Hself|lia|unfold CPU_SIZE, cpu_self, cpu_gdt; lia]. }
  rewrite Ep. set (m := store32 (sm_mem t) (cpus + CPU_SIZE * id) id). unfold on_apic.
  eexists _, m. split; [unfold bind; rewrite (lapic_init_Ok _ ver icr _ Hw); reflexivity|].
  split; [unfold mp_number_of_processors; change (ncpu (release_proc _)) with (s32 (ncpu s + 1)); rewrite s32_small by lia; lia|].
  split; [reflexivity|]. split; [reflexivity|]. split.
  - intros j Hj. unfold m. destruct (Z.eqb_spec j id) as [->|Hne]; [rewrite load32_store32_eq; apply u32_small; lia|].
    rewrite load32_store32_ne by (unfold CPU_SIZE; lia). rewrite Em. unfold x.
    rewrite gdt_cpu_other; [reflexivity|lia|unfold CPU_SIZE, cpu_gdt; lia].
  - cbn [sm_ap release_proc set_up lapic_write mmio_write ap_hp]. rewrite lapic_setup_hp. cbn [set_pg hp_pg].
    reflexivity.
Qed.

Lemma mp_enter_identifies_witness :
  let s := MkSmp bare_x86 (MkApic (set_hp_mem (store32 ∅ 0xC01090E0 0xC0109080) demo_heap1) [] [] true) 0 0 in
  exists s' m, mp_enter 0xC0108000 0xC0109000 0xC010A000 0x1000000 0x50014 [0] s = Ok tt s' /\
    mp_number_of_processors s' = 2 /\ load32 m 0xC0109080 = 1.
Proof.
  cbv zeta. set (s := MkSmp _ _ 0 0).
  destruct (mp_enter_identifies 0xC0108000 0xC0109000 0xC010A000 1 0x50014 [0] s) as (s' & m & E & En & _ & _ & Hid & _);
    try (unfold CPU_SIZE, TSS_SIZE, s; cbn [ncpu]; lia); try reflexivity.
  - exists 0. split; [left|reflexivity].
  - exists s', m. split; [exact E|]. split; [rewrite En; reflexivity|apply (Hid 1); lia].
Defined.
