(* ===== verification/Acpi.v ===== *)
(** * Finding the processors: kernel/acpi.c

    [acpi_init] searches the BIOS area for the root pointer, maps the tables it
    leads to and counts the processors in the one with signature "APIC".  The
    tables are read through the directory the processor runs on, as in ElfLoad:
    a byte that no page maps faults for ever.  [assert] and [panic] only print
    and the [dprintf] lines are left out. *)

From stdpp Require Import base numbers list gmap.
From Stdlib Require Import ZArith Lia.
From S2P Require Import Prelude Memory CString Mm Paging Elf AddrSpace ElfLoad.
Open Scope Z_scope.

(** [acpi_header], [madt_header] and [rsdt_header] of acpi.h. *)
Definition ACPI_HEADER : Z := 36.
Definition MADT_HEADER : Z := 44.
Definition h_length : Z := 4.
Definition rsdt_ptr : Z := 16.
Definition RSDP_MAGIC : Z := 0x2052545020445352.

(** [int sum += ptr[i]] with a signed [char]. *)
Fixpoint checksum_loop (k : nat) (ptr i sum : Z) : M pg_state Z :=
  match k with
  | O => ret sum
  | S k' => c <-- vread8 (ptr + i) ;; checksum_loop k' ptr (i + 1) (s32 (sum + s8 c))
  end.
Definition acpi_checksum (ptr : Z) : M pg_state Z := sum <-- checksum_loop 20 ptr 0 0 ;; ret (s8 sum).

(** [type] and [len] are signed; a [len] of 0 never moves on: [Spin] when the
    fuel ends. *)
Fixpoint madt_loop (fuel : nat) (madt entries num_lapics : Z) : M pg_state Z :=
  match fuel with
  | O => fun _ => Spin
  | S f =>
      length <-- vread32 (madt + h_length) ;;
      if entries <? u32 (u32 (length - MADT_HEADER) + madt) then
        type <-- vread8 entries ;;
        len <-- vread8 (entries + 1) ;;
        madt_loop f madt (u32 (entries + s8 len)) (if s8 type =? 0 then num_lapics + 1 else num_lapics)
      else ret num_lapics
  end.
Definition acpi_parse_madt (fuel : nat) (madt : Z) : M pg_state Z := madt_loop fuel madt (u32 (madt + MADT_HEADER)) 0.

(** [while (ptr < P2V(0x000FFFFF))], 16 bytes at a time. *)
Fixpoint rsdp_scan (k : nat) (ptr : Z) : M pg_state Z :=
  match k with
  | O => ret ptr
  | S k' =>
      if ptr <? P2V 0xFFFFF then
        lo <-- vread32 ptr ;;
        hi <-- vread32 (ptr + 4) ;;
        if lo + 0x100000000 * hi =? RSDP_MAGIC then ret ptr else rsdp_scan k' (ptr + 16)
      else ret ptr
  end.

(** [strncmp(entry->signature, apic, 4)] for the literal "APIC". *)
Definition apic_chars : list Z := [65; 80; 73; 67].
Fixpoint sig_cmp (p : Z) (l : list Z) : M pg_state Z :=
  match l with
  | [] => ret 0
  | c :: l' => b <-- vread8 p ;; if negb (b =? c) then ret (b - c) else sig_cmp (p + 1) l'
  end.

(** The loop over the table pointers; [None]: the loop ended without a table. *)
Fixpoint rsdt_loop (fuel mfuel : nat) (r i : Z) : M pg_state (option Z) :=
  match fuel with
  | O => fun _ => Spin
  | S f =>
      length <-- vread32 (r + h_length) ;;
      if i <? u32 (length - ACPI_HEADER) / 4 then
        tp <-- vread32 (r + ACPI_HEADER + 4 * i) ;;
        let entry := P2V tp in
        modify (k_paging_map tp (P2V tp) 0x7) ;;;
        d <-- sig_cmp entry apic_chars ;;
        if d =? 0 then n <-- acpi_parse_madt mfuel entry ;; ret (Some n) else rsdt_loop f mfuel r (i + 1)
      else ret None
  end.

(** The value is indeterminate where the function ends without [return]. *)
Definition acpi_init (fuel mfuel : nat) : M pg_state cval :=
  h <-- rsdp_scan 0x2000 (P2V 0xE0000) ;;
  sum <-- acpi_checksum h ;;
  if negb (sum =? 0) then ret None
  else
    ptr <-- vread32 (h + rsdt_ptr) ;;
    modify (k_paging_map ptr (P2V ptr) 0x7) ;;;
    let r := P2V ptr in
    n <-- rsdt_loop fuel mfuel r 0 ;;
    match n with
    | Some n => ret (Some n)
    | None => modify (fun s => (k_paging_unmap r s).2) ;;; ret None
    end.

(** ** Tables in readable memory *)

(** The bytes [l] are read at [p]. *)
Definition readable (s : pg_state) (p : Z) (l : list Z) : Prop :=
  forall i b, l !! i = Some b -> 0 <= b < 0x100 /\ vread8 (p + Z.of_nat i) s = Ok b s.

Lemma readable_at s p l i b : readable s p l -> 0 <= i -> l !! Z.to_nat i = Some b -> vread8 (p + i) s = Ok b s.
Proof. intros H Hi Hb. destruct (H _ _ Hb) as [_ E]. rewrite Z2Nat.id in E by lia. exact E. Qed.

(** The word at offset [i] of the bytes. *)
Definition word_of_bytes (l : list Z) (i : nat) : Z :=
  nth i l 0 + 0x100 * nth (i + 1) l 0 + 0x10000 * nth (i + 2) l 0 + 0x1000000 * nth (i + 3) l 0.

Lemma readable_word s p l i : readable s p l -> 0 <= i -> i + 4 <= Z.of_nat (length l) ->
  vread32 (p + i) s = Ok (word_of_bytes l (Z.to_nat i)) s.
Proof.
  intros H Hi Hl. assert (Hb : forall j, 0 <= j < 4 -> vread8 (p + i + j) s = Ok (nth (Z.to_nat i + Z.to_nat j) l 0) s).
  { intros j Hj. rewrite <- Z.add_assoc. apply (readable_at s p l _ _ H); [lia|].
    rewrite Z2Nat.inj_add by lia. destruct (l !! (Z.to_nat i + Z.to_nat j)%nat) as [b|] eqn:E.
    - rewrite (nth_lookup_Some _ _ _ _ E). reflexivity.
    - apply lookup_ge_None in E. lia. }
  pose proof (Hb 0 ltac:(lia)) as H0. rewrite Z.add_0_r, Nat.add_0_r in H0. unfold vread32, word_of_bytes.
  rewrite (bind_Ok _ _ _ _ _ H0), (bind_Ok _ _ _ _ _ (Hb 1 ltac:(lia))), (bind_Ok _ _ _ _ _ (Hb 2 ltac:(lia))), (bind_Ok _ _ _ _ _ (Hb 3 ltac:(lia))).
  reflexivity.
Qed.

(** ** The checksum *)

Definition byte_sum (l : list Z) : Z := foldr Z.add 0 l.

Lemma s8_zero z : s8 z = 0 <-> z mod 0x100 = 0.
Proof. unfold s8. dlia. Qed.

Lemma sum_step sum c x : (s32 (sum + s8 c) + x) mod 0x100 = (sum + (c + x)) mod 0x100.
Proof. unfold s32, s8. dlia. Qed.

Lemma checksum_loop_spec s p l : readable s p l -> forall k i sum, (i + k)%nat = length l ->
  exists r, checksum_loop k p (Z.of_nat i) sum s = Ok r s /\ r mod 0x100 = (sum + byte_sum (drop i l)) mod 0x100.
Proof.
  intros Hr. induction k as [|k IH]; intros i sum Hk; cbn [checksum_loop].
  - exists sum. split; [reflexivity|]. rewrite drop_ge by lia. cbn. f_equal. lia.
  - destruct (lookup_lt_is_Some_2 l i ltac:(lia)) as [c Hc]. destruct (Hr i c Hc) as [_ E].
    rewrite (bind_Ok _ _ _ _ _ E). destruct (IH (S i) (s32 (sum + s8 c)) ltac:(lia)) as (r & Er & Hm).
    exists r. replace (Z.of_nat i + 1) with (Z.of_nat (S i)) by lia. split; [exact Er|].
    rewrite Hm, (drop_S l c i Hc). apply sum_step.
Qed.

(** The root pointer is accepted when its first 20 bytes sum to 0 modulo
    256, as the standard says, although the code adds them as signed [char]s. *)
Theorem acpi_checksum_zero s p l : readable s p l -> length l = 20%nat ->
  exists r, acpi_checksum p s = Ok r s /\ -0x80 <= r < 0x80 /\ (r = 0 <-> byte_sum l mod 0x100 = 0).
Proof.
  intros Hr Hl. destruct (checksum_loop_spec s p l Hr 20 0 0 ltac:(lia)) as (r & E & Hm). exists (s8 r).
  split; [unfold acpi_checksum; rewrite (bind_Ok _ _ _ _ _ E); reflexivity|]. split; [unfold s8; dlia|].
  rewrite s8_zero, Hm. reflexivity.
Qed.

(** ** The processor table *)

(** An entry is its type, its length and the rest of its bytes. *)
Record madt_entry := MkEnt { en_type : Z; en_rest : list Z }.
Definition en_len (e : madt_entry) : Z := 2 + Z.of_nat (length (en_rest e)).
Definition en_bytes (e : madt_entry) : list Z := en_type e :: en_len e :: en_rest e.
Definition entry_ok (e : madt_entry) : Prop := 0 <= en_type e < 0x80 /\ en_len e < 0x80.

#[export] Instance entry_ok_dec e : Decision (entry_ok e).
Proof. unfold entry_ok. apply _. Defined.

Definition madt_bytes (head : list Z) (es : list madt_entry) : list Z := head ++ concat (en_bytes <$> es).
Definition en_size (es : list madt_entry) : Z := Z.of_nat (length (concat (en_bytes <$> es))).

(** The processors among the entries that start before offset [lim], the
    entries beginning at offset [o]. *)
Fixpoint lapics_before (lim o : Z) (es : list madt_entry) : Z :=
  match es with
  | [] => 0
  | e :: es' => if o <? lim then (if en_type e =? 0 then 1 else 0) + lapics_before lim (o + en_len e) es' else 0
  end.

Lemma en_bytes_length e : Z.of_nat (length (en_bytes e)) = en_len e.
Proof. unfold en_len, en_bytes. cbn. lia. Qed.

Lemma en_size_cons e es : en_size (e :: es) = en_len e + en_size es.
Proof. unfold en_size. cbn [fmap list_fmap concat]. rewrite length_app, Nat2Z.inj_add, en_bytes_length. reflexivity. Qed.

Lemma en_size_nonneg es : 0 <= en_size es.
Proof. unfold en_size. lia. Qed.

Lemma en_size_app es1 es2 : en_size (es1 ++ es2) = en_size es1 + en_size es2.
Proof. unfold en_size. rewrite fmap_app, concat_app, length_app. lia. Qed.

Section madt.
Context (s : pg_state) (madt : Z) (head : list Z) (all : list madt_entry).
Let bytes := madt_bytes head all.
Hypothesis Hread : readable s madt bytes.
Hypothesis Hhead : length head = 44%nat.
Hypothesis Hlen : word_of_bytes head 4 = MADT_HEADER + en_size all.
Hypothesis Hm : 0 <= madt /\ madt + MADT_HEADER + en_size all + 0x80 < 0x100000000.
Hypothesis Hok : Forall entry_ok all.

Lemma bytes_length : Z.of_nat (length bytes) = MADT_HEADER + en_size all.
Proof. unfold bytes, madt_bytes. rewrite length_app, Hhead. unfold en_size, MADT_HEADER. lia. Qed.

Lemma madt_length : vread32 (madt + h_length) s = Ok (MADT_HEADER + en_size all) s.
Proof.
  unfold h_length. rewrite (readable_word s madt bytes 4 Hread) by (rewrite ?bytes_length; unfold MADT_HEADER, en_size; lia). f_equal. rewrite <- Hlen.
  unfold word_of_bytes, bytes, madt_bytes. rewrite !app_nth1 by (rewrite Hhead; cbn; lia). reflexivity.
Qed.

(** The first two bytes of the entry after [pre]. *)
Lemma madt_entry_bytes pre e es : all = pre ++ e :: es ->
  vread8 (madt + MADT_HEADER + en_size pre) s = Ok (en_type e) s /\
  vread8 (madt + MADT_HEADER + en_size pre + 1) s = Ok (en_len e) s.
Proof.
  intros Hall. pose proof (en_size_nonneg pre) as Hp.
  assert (Hb : bytes = (head ++ concat (en_bytes <$> pre)) ++ en_bytes e ++ concat (en_bytes <$> es)).
  { unfold bytes, madt_bytes. rewrite Hall, fmap_app, concat_app, fmap_cons. cbn [concat]. rewrite app_assoc. reflexivity. }
  assert (Hl : Z.of_nat (length (head ++ concat (en_bytes <$> pre))) = MADT_HEADER + en_size pre)
    by (rewrite length_app, Hhead; unfold en_size, MADT_HEADER; lia).
  rewrite <- !Z.add_assoc, (Z.add_assoc MADT_HEADER). split; (apply (readable_at s madt bytes _ _ Hread); [unfold MADT_HEADER; lia|]); rewrite Hb, <- Hl.
  - rewrite Nat2Z.id, lookup_app_r, Nat.sub_diag by lia. reflexivity.
  - rewrite Z2Nat.inj_add, Nat2Z.id by lia. rewrite lookup_app_r by lia. replace (_ + Z.to_nat 1 - _)%nat with 1%nat by lia. reflexivity.
Qed.

(** The loop at the entries [es], which [pre] precede. *)
Lemma madt_loop_spec : forall es pre fuel n, all = pre ++ es -> (length es < fuel)%nat ->
  madt_loop fuel madt (madt + MADT_HEADER + en_size pre) n s =
  Ok (n + lapics_before (en_size all) (MADT_HEADER + en_size pre) es) s.
Proof.
  assert (El : u32 (u32 (MADT_HEADER + en_size all - MADT_HEADER) + madt) = madt + en_size all).
  { pose proof (en_size_nonneg all). unfold MADT_HEADER in *. rewrite !u32_small by (rewrite ?u32_small; lia). lia. }
  induction es as [|e es IH]; intros pre fuel n Hall Hf; (destruct fuel as [|f]; [cbn in Hf; lia|]); cbn [madt_loop lapics_before];
    rewrite (bind_Ok _ _ _ _ _ madt_length), El.
  - rewrite app_nil_r in Hall. rewrite <- Hall. unfold MADT_HEADER. replace (_ <? _) with false by lia.
    unfold ret. f_equal. lia.
  - replace (madt + MADT_HEADER + en_size pre <? madt + en_size all) with (MADT_HEADER + en_size pre <? en_size all) by lia.
    destruct (MADT_HEADER + en_size pre <? en_size all) eqn:Hlt; [|unfold ret; f_equal; lia].
    destruct (madt_entry_bytes pre e es Hall) as [E1 E2]. rewrite (bind_Ok _ _ _ _ _ E1), (bind_Ok _ _ _ _ _ E2).
    assert (He : entry_ok e) by (rewrite Hall, Forall_app, Forall_cons in Hok; tauto). destruct He as [He1 He2].
    assert (He3 : 2 <= en_len e) by (unfold en_len; lia). pose proof (en_size_nonneg es). pose proof (en_size_nonneg pre).
    assert (Ha : en_size all = en_size pre + en_len e + en_size es) by (rewrite Hall, en_size_app, en_size_cons; lia).
    assert (Es : s8 (en_type e) = en_type e /\ s8 (en_len e) = en_len e) by (unfold s8; split; rewrite Z.mod_small; lia).
    destruct Es as [-> ->]. rewrite u32_small by (unfold MADT_HEADER in *; lia).
    assert (Ep : en_size (pre ++ [e]) = en_size pre + en_len e) by (rewrite en_size_app, en_size_cons; unfold en_size; cbn; lia).
    replace (madt + MADT_HEADER + en_size pre + en_len e) with (madt + MADT_HEADER + en_size (pre ++ [e])) by lia.
    rewrite (IH (pre ++ [e])); [|rewrite <- app_assoc; exact Hall|cbn in Hf; lia].
    f_equal. rewrite Ep. replace (MADT_HEADER + (en_size pre + en_len e)) with (MADT_HEADER + en_size pre + en_len e) by lia.
    destruct (en_type e =? 0); lia.
Qed.
End madt.

(** What [acpi_parse_madt] counts.  On a well-formed table it returns, for
    any fuel above the number of entries, the number of processor entries that
    start before offset [length - 44] of the table: the bound leaves the header
    out twice, so the entries of the last 44 bytes are not looked at. *)
Theorem madt_counts_lapics s madt head es fuel :
  readable s madt (madt_bytes head es) -> length head = 44%nat -> word_of_bytes head 4 = MADT_HEADER + en_size es ->
  0 <= madt /\ madt + MADT_HEADER + en_size es + 0x80 < 0x100000000 -> Forall entry_ok es -> (length es < fuel)%nat ->
  acpi_parse_madt fuel madt s = Ok (lapics_before (en_size es) MADT_HEADER es) s.
Proof.
  intros Hr Hh Hl Hm Hok Hf. unfold acpi_parse_madt. pose proof (en_size_nonneg es). rewrite u32_small by (unfold MADT_HEADER in *; lia).
  pose proof (madt_loop_spec s madt head es Hr Hh Hl Hm Hok es [] fuel 0 eq_refl Hf) as E.
  change (en_size []) with 0 in E. rewrite !Z.add_0_r in E. rewrite E. reflexivity.
Qed.

(** A table whose entries all lie in its last 44 bytes, such as that of a
    machine with four processors and one I/O controller, counts no processor. *)
Theorem madt_counts_none s madt head es fuel :
  readable s madt (madt_bytes head es) -> length head = 44%nat -> word_of_bytes head 4 = MADT_HEADER + en_size es ->
  0 <= madt /\ madt + MADT_HEADER + en_size es + 0x80 < 0x100000000 -> Forall entry_ok es -> (length es < fuel)%nat ->
  en_size es <= 44 -> acpi_parse_madt fuel madt s = Ok 0 s.
Proof.
  intros Hr Hh Hl Hm Hok Hf Hz. unfold acpi_parse_madt. pose proof (en_size_nonneg es). rewrite u32_small by (unfold MADT_HEADER in *; lia).
  pose proof (madt_loop_spec s madt head es Hr Hh Hl Hm Hok es [] fuel 0 eq_refl Hf) as E.
  change (en_size []) with 0 in E. rewrite !Z.add_0_r in E. rewrite E. f_equal.
  destruct es as [|e es']; [reflexivity|]. cbn [lapics_before]. unfold MADT_HEADER. replace (44 <? _) with false by lia. reflexivity.
Qed.

(** ** Instances *)

Fixpoint put_bytes (m : mem) (p : Z) (l : list Z) : mem :=
  match l with
  | [] => m
  | b :: l' => store8 (put_bytes m (p + 1) l') p b
  end.

Lemma put_bytes_out m p l a : a < p \/ p + Z.of_nat (length l) <= a -> load8 (put_bytes m p l) a = load8 m a.
Proof.
  revert p. induction l as [|b l IH]; intros p Ha; [reflexivity|]. cbn [put_bytes]. cbn [length] in Ha.
  rewrite load8_store8_ne, IH by lia. reflexivity.
Qed.

Lemma put_bytes_in m p l i b : l !! i = Some b -> load8 (put_bytes m p l) (p + Z.of_nat i) = u8 b.
Proof.
  revert p i. induction l as [|c l IH]; intros p [|i] H; cbn in H; try discriminate; cbn [put_bytes].
  - injection H as ->. rewrite Z.add_0_r. apply load8_store8_eq.
  - rewrite load8_store8_ne by lia. replace (p + Z.of_nat (S i)) with (p + 1 + Z.of_nat i) by lia. apply IH, H.
Qed.

(** Bytes of the kernel's window above the allocator can be read. *)
Lemma window_readable p l : MM_HEAP_MAX <= p -> p + Z.of_nat (length l) <= KERNEL_VIRT + 0x400000 -> Forall (fun b => 0 <= b < 0x100) l ->
  exists s, readable s p l.
Proof.
  intros Hp Hl Hb. set (x := set_pg_mem (put_bytes (pg_mem ready_pg) p l) ready_pg).
  assert (Hx : kernel_ready x (MkPool 1 ∅ 0xC012C000)).
  { apply (ready_frame ready_pg); [exact ready_ready|reflexivity..|]. intros a Ha.
    change (pg_mem x) with (put_bytes (pg_mem ready_pg) p l). apply put_bytes_out. lia. }
  destruct (new_space_spec x _ Hx) as (pd & P & s & _ & Hus & Hcur & _ & _ & _ & _ & Hbytes & _).
  exists s. intros i b Hi. pose proof (lookup_lt_Some _ _ _ Hi). pose proof (proj1 (Forall_lookup _ _) Hb i b Hi) as Hr. cbn beta in Hr.
  split; [exact Hr|]. rewrite (vread8_kernel s pd P ∅ Hus Hcur) by (unfold MM_HEAP_MAX, KERNEL_VIRT in *; lia).
  f_equal. rewrite Hbytes by lia. change (pg_mem x) with (put_bytes (pg_mem ready_pg) p l).
  rewrite (put_bytes_in _ _ _ _ _ Hi). apply u8_small, Hr.
Qed.

Definition demo_rsdp : list Z := [82; 83; 68; 32; 80; 84; 82; 32; 0x05; 66; 79; 67; 72; 83; 32; 0; 0x40; 0xFE; 0x0F; 0].

Lemma acpi_checksum_zero_witness :
  byte_sum demo_rsdp mod 0x100 = 0 /\ exists s, acpi_checksum 0xC0310000 s = Ok 0 s.
Proof.
  assert (Hz : byte_sum demo_rsdp mod 0x100 = 0) by (vm_compute; reflexivity). split; [exact Hz|].
  destruct (window_readable 0xC0310000 demo_rsdp) as [s Hr]; [vm_compute; discriminate|vm_compute; discriminate|apply (bool_decide_unpack _); vm_compute; exact I|].
  destruct (acpi_checksum_zero s 0xC0310000 demo_rsdp Hr eq_refl) as (r & E & _ & Hiff). exists s. rewrite E. f_equal. apply Hiff, Hz.
Defined.

(** Four processors, one I/O controller and three interrupt overrides. *)
Definition demo_lapic (i : Z) : madt_entry := MkEnt 0 [i; i; 1; 0; 0; 0].
Definition demo_ioapic : madt_entry := MkEnt 1 [4; 0; 0; 0; 0xC0; 0xFE; 0; 0; 0; 0].
Definition demo_iso : madt_entry := MkEnt 2 [0; 0; 2; 0; 0; 0; 0; 0].
Definition demo_table : list madt_entry := [demo_lapic 0; demo_lapic 1; demo_lapic 2; demo_lapic 3; demo_ioapic; demo_iso; demo_iso; demo_iso].
Definition demo_head (len : Z) : list Z := [65; 80; 73; 67; len; 0; 0; 0] ++ replicate 36 0.

Lemma madt_counts_lapics_witness :
  exists s, acpi_parse_madt 100 0xC0310000 s = Ok 4 s.
Proof.
  destruct (window_readable 0xC0310000 (madt_bytes (demo_head 118) demo_table)) as [s Hr];
    [vm_compute; discriminate|vm_compute; discriminate|apply (bool_decide_unpack _); vm_compute; exact I|].
  exists s. rewrite (madt_counts_lapics s 0xC0310000 (demo_head 118) demo_table 100 Hr); try (vm_compute; reflexivity).
  - split; vm_compute; [discriminate|reflexivity].
  - apply (bool_decide_unpack _). vm_compute. exact I.
  - cbn. lia.
Defined.

Lemma madt_counts_none_witness :
  let es := [demo_lapic 0; demo_lapic 1; demo_lapic 2; demo_lapic 3; demo_ioapic] in
  exists s, readable s 0xC0310000 (madt_bytes (demo_head 88) es) /\ acpi_parse_madt 100 0xC0310000 s = Ok 0 s.
Proof.
  intros es. destruct (window_readable 0xC0310000 (madt_bytes (demo_head 88) es)) as [s Hr];
    [vm_compute; discriminate|vm_compute; discriminate|apply (bool_decide_unpack _); vm_compute; exact I|].
  exists s. split; [exact Hr|]. apply (madt_counts_none s 0xC0310000 (demo_head 88) es 100 Hr); try (vm_compute; reflexivity).
  - split; vm_compute; [discriminate|reflexivity].
  - apply (bool_decide_unpack _). vm_compute. exact I.
  - cbn. lia.
  - vm_compute. discriminate.
Defined.

(** ** The search for the root pointer *)

Definition is_magic (s : pg_state) (p : Z) (b : bool) : Prop :=
  exists lo hi, vread32 p s = Ok lo s /\ vread32 (p + 4) s = Ok hi s /\ b = (lo + 0x100000000 * hi =? RSDP_MAGIC).

Lemma rsdp_scan_spec s (f : Z -> bool) k : forall i,
  i + Z.of_nat k = 0x2000 -> 0 <= i ->
  (forall j, 0 <= j < 0x2000 -> is_magic s (0xC00E0000 + 16 * j) (f j)) ->
  rsdp_scan k (0xC00E0000 + 16 * i) s = Ok (match find_up k i f with Some j => 0xC00E0000 + 16 * j | None => 0xC0100000 end) s.
Proof.
  induction k as [|k IH]; intros i Hp H0 Hm; cbn [rsdp_scan find_up].
  - unfold ret. f_equal. lia.
  - change (P2V 0xFFFFF) with 0xC00FFFFF. replace (0xC00E0000 + 16 * i <? 0xC00FFFFF) with true by lia.
    destruct (Hm i ltac:(lia)) as (lo & hi & E1 & E2 & ->).
    rewrite (bind_Ok _ _ _ _ _ E1), (bind_Ok _ _ _ _ _ E2). destruct (_ =? RSDP_MAGIC); [reflexivity|].
    replace (0xC00E0000 + 16 * i + 16) with (0xC00E0000 + 16 * (i + 1)) by lia. apply IH; [lia|lia|exact Hm].
Qed.

(** The search ends at the first aligned position with the signature, and one
    past the area, at 0xC0100000, when there is none: the checksum is then taken
    of whatever lies there. *)
Theorem rsdp_search s f : (forall j, 0 <= j < 0x2000 -> is_magic s (0xC00E0000 + 16 * j) (f j)) ->
  (forall j, 0 <= j < 0x2000 -> f j = true -> (forall i, 0 <= i < j -> f i = false) ->
     rsdp_scan 0x2000 (P2V 0xE0000) s = Ok (0xC00E0000 + 16 * j) s) /\
  ((forall j, 0 <= j < 0x2000 -> f j = false) -> rsdp_scan 0x2000 (P2V 0xE0000) s = Ok 0xC0100000 s).
Proof.
  intros Hm. pose proof (rsdp_scan_spec s f 0x2000 0 ltac:(reflexivity) ltac:(lia) Hm) as E.
  replace (0xC00E0000 + 16 * 0) with (P2V 0xE0000) in E by reflexivity. split.
  - intros j Hj Hf Hlt. rewrite E. replace (find_up 0x2000 0 f) with (Some j); [reflexivity|].
    symmetry. apply find_up_Some. split; [lia|]. split; [exact Hf|]. intros i Hi. apply Hlt. lia.
  - intros Hno. rewrite E. replace (find_up 0x2000 0 f) with (@None Z); [reflexivity|].
    symmetry. apply find_up_None. intros i Hi. apply Hno. lia.
Qed.

(** An entry whose length byte is 0 stops the kernel: no fuel is enough. *)
Theorem madt_zero_length_hangs s madt len n fuel :
  vread32 (madt + h_length) s = Ok len s -> MADT_HEADER + madt < u32 (u32 (len - MADT_HEADER) + madt) ->
  0 <= madt + MADT_HEADER < 0x100000000 ->
  (exists t, vread8 (madt + MADT_HEADER) s = Ok t s) -> vread8 (madt + MADT_HEADER + 1) s = Ok 0 s ->
  madt_loop fuel madt (madt + MADT_HEADER) n s = Spin.
Proof.
  intros El Hlt Hm [t Et] E0. revert n. induction fuel as [|f IH]; intros n; cbn [madt_loop]; [reflexivity|].
  rewrite (bind_Ok _ _ _ _ _ El). replace (madt + MADT_HEADER <? _) with true by lia.
  rewrite (bind_Ok _ _ _ _ _ Et), (bind_Ok _ _ _ _ _ E0). change (s8 0) with 0. rewrite Z.add_0_r, u32_small by lia. apply IH.
Qed.
