(* ===== verification/Trap.v ===== *)
(** * Traps and system calls: kernel/arch/trap.c, kernel/syscall.c, k_page_fault

    The kernel as the interrupt handler sees it: [kernel] joins the states of
    the components.  Memory is one: it is in [k_hp] and the other components
    work on a view of it ([view_vga], [view_timer], [view_kbd]).  [k_regs] is
    the frame [regs_t] that trap_handler.s builds and returns through.  A call
    of [printf] has its effect on the heap ([Malloc.printf]) and is recorded in
    [k_log] with its format and argument words; that it also changes the screen
    is left out here, and what it shows is in Console. *)

From stdpp Require Import base numbers list gmap strings.
From Stdlib Require Import ZArith Lia.
From S2P Require Import Prelude Memory CString Mm Paging Mutex Malloc HeapPages Ext2 Ide Vga Devices Keyboard X86 Elf AddrSpace ElfLoad UserHeap Apic.
Open Scope Z_scope.

(** [regs_t] *)
Record regs_t := MkRegs {
  rg_ds : Z; rg_edi : Z; rg_esi : Z; rg_ebp : Z; rg_esp : Z; rg_ebx : Z; rg_edx : Z; rg_ecx : Z; rg_eax : Z;
  int_no : Z; err_code : Z; rg_eip : Z; rg_cs : Z;
}.
Definition set_eax (v : Z) (r : regs_t) : regs_t :=
  MkRegs (rg_ds r) (rg_edi r) (rg_esi r) (rg_ebp r) (rg_esp r) (rg_ebx r) (rg_edx r) (rg_ecx r) v (int_no r) (err_code r) (rg_eip r) (rg_cs r).

Record kernel := MkKernel {
  k_hp : heap_state;            (* memory, page allocator, paging, heap *)
  k_vga : vga_state;
  k_timer : timer_state;
  k_kbd : kbd_state;
  k_ide : ide_state;
  k_cli : cli_state;
  k_mmap : proc_mmap;           (* cp_mmap *)
  k_syms : Z * Z;               (* kernel_symbols, no_ksym *)
  k_up : bool;                  (* lapic_up *)
  k_mmio : list (Z * Z);
  k_outs : list (Z * Z);        (* bytes sent to the interrupt controllers *)
  k_regs : regs_t;
  cr2 : Z;
  k_log : list (string * list Z);
}.
Definition k_mem (k : kernel) : mem := hp_mem (k_hp k).
Definition set_k_hp (h : heap_state) (k : kernel) : kernel :=
  MkKernel h (k_vga k) (k_timer k) (k_kbd k) (k_ide k) (k_cli k) (k_mmap k) (k_syms k) (k_up k) (k_mmio k) (k_outs k) (k_regs k) (cr2 k) (k_log k).
Definition set_k_mem (m : mem) (k : kernel) : kernel := set_k_hp (set_hp_mem m (k_hp k)) k.
Definition set_k_vga (v : vga_state) (k : kernel) : kernel :=
  MkKernel (k_hp k) v (k_timer k) (k_kbd k) (k_ide k) (k_cli k) (k_mmap k) (k_syms k) (k_up k) (k_mmio k) (k_outs k) (k_regs k) (cr2 k) (k_log k).
Definition set_k_timer (t : timer_state) (k : kernel) : kernel :=
  MkKernel (k_hp k) (k_vga k) t (k_kbd k) (k_ide k) (k_cli k) (k_mmap k) (k_syms k) (k_up k) (k_mmio k) (k_outs k) (k_regs k) (cr2 k) (k_log k).
Definition set_k_kbd (s : kbd_state) (k : kernel) : kernel :=
  MkKernel (k_hp k) (k_vga k) (k_timer k) s (k_ide k) (k_cli k) (k_mmap k) (k_syms k) (k_up k) (k_mmio k) (k_outs k) (k_regs k) (cr2 k) (k_log k).
Definition set_k_ide (i : ide_state) (k : kernel) : kernel :=
  MkKernel (k_hp k) (k_vga k) (k_timer k) (k_kbd k) i (k_cli k) (k_mmap k) (k_syms k) (k_up k) (k_mmio k) (k_outs k) (k_regs k) (cr2 k) (k_log k).
Definition set_k_cli (c : cli_state) (k : kernel) : kernel :=
  MkKernel (k_hp k) (k_vga k) (k_timer k) (k_kbd k) (k_ide k) c (k_mmap k) (k_syms k) (k_up k) (k_mmio k) (k_outs k) (k_regs k) (cr2 k) (k_log k).
Definition set_k_mmap (p : proc_mmap) (k : kernel) : kernel :=
  MkKernel (k_hp k) (k_vga k) (k_timer k) (k_kbd k) (k_ide k) (k_cli k) p (k_syms k) (k_up k) (k_mmio k) (k_outs k) (k_regs k) (cr2 k) (k_log k).
Definition set_k_mmio (l : list (Z * Z)) (k : kernel) : kernel :=
  MkKernel (k_hp k) (k_vga k) (k_timer k) (k_kbd k) (k_ide k) (k_cli k) (k_mmap k) (k_syms k) (k_up k) l (k_outs k) (k_regs k) (cr2 k) (k_log k).
Definition k_outb (p v : Z) (k : kernel) : kernel :=
  MkKernel (k_hp k) (k_vga k) (k_timer k) (k_kbd k) (k_ide k) (k_cli k) (k_mmap k) (k_syms k) (k_up k) (k_mmio k) ((p, u8 v) :: k_outs k) (k_regs k) (cr2 k) (k_log k).
Definition set_k_eax (v : Z) (k : kernel) : kernel :=
  MkKernel (k_hp k) (k_vga k) (k_timer k) (k_kbd k) (k_ide k) (k_cli k) (k_mmap k) (k_syms k) (k_up k) (k_mmio k) (k_outs k) (set_eax v (k_regs k)) (cr2 k) (k_log k).
Definition log (f : string) (args : list Z) (k : kernel) : kernel :=
  MkKernel (k_hp k) (k_vga k) (k_timer k) (k_kbd k) (k_ide k) (k_cli k) (k_mmap k) (k_syms k) (k_up k) (k_mmio k) (k_outs k) (k_regs k) (cr2 k) ((f, args) :: k_log k).

(** ** Running a component's operation in the kernel *)

Definition on_hp {A : Type} (c : M heap_state A) : M kernel A := fun k =>
  match c (k_hp k) with
  | Ok a h => Ok a (set_k_hp h k)
  | Spin => Spin
  | Undef => Undef
  end.
Definition on_k_pg {A : Type} (c : M pg_state A) : M kernel A := on_hp (on_pg c).
(** [None]: the operation does not come to an end, or reads outside a table. *)
Definition view_vga (k : kernel) : vga_state := set_vmem (k_mem k) (k_vga k).
Definition put_vga (v : vga_state) (k : kernel) : kernel := set_k_vga v (set_k_mem (vmem v) k).
Definition on_vga (f : vga_state -> option vga_state) : M kernel unit := fun k =>
  match f (view_vga k) with Some v => Ok tt (put_vga v k) | None => Spin end.
Definition on_timer (f : timer_state -> option timer_state) : M kernel unit := fun k =>
  match f (MkTimer (ticks (k_timer k)) (timer_buf (k_timer k)) (view_vga k)) with
  | Some t => Ok tt (set_k_timer t (put_vga (Devices.screen t) k))
  | None => Spin
  end.
(** A scancode beyond the table is an out-of-bounds read. *)
Definition on_kbd (f : kbd_state -> option kbd_state) : M kernel unit := fun k =>
  match f (set_screen (view_vga k) (k_kbd k)) with
  | Some s => Ok tt (set_k_kbd s (put_vga (Keyboard.screen s) k))
  | None => Undef
  end.
Definition on_ide (c : M ide_state unit) : M kernel unit := fun k =>
  match c (k_ide k) with
  | Ok a i => Ok a (set_k_ide i k)
  | Spin => Spin
  | Undef => Undef
  end.
Definition on_proc {A : Type} (c : M proc_state A) : M kernel A := fun k =>
  match c (MkProc (hp_pg (k_hp k)) (k_mmap k)) with
  | Ok a p => Ok a (set_k_mmap (cp_mmap p) (set_k_hp (set_pg (pr_pg p) (k_hp k)) k))
  | Spin => Spin
  | Undef => Undef
  end.
Definition k_lapic_eoi (k : kernel) : kernel := set_k_mmio (mmio (lapic_eoi (MkApic (k_hp k) (k_mmio k) [] (k_up k)))) k.

Definition kprintf (f : string) (args : list Z) : M kernel unit := on_hp Malloc.printf ;;; modify (log f args).
(** [dprintf] formats in the same way and writes to the serial port. *)
Definition kdprintf (f : string) (args : list Z) : M kernel unit := kprintf f args.
Definition kvga_puts (s : string) : M kernel unit := modify (log s []).
Definition k_ksym_find (addr : Z) (k : kernel) : Z := ksym_find addr (MkKsym (k_mem k) (k_syms k).1 (k_syms k).2).

(** ** Page faults (kernel/mem/paging.c) *)

Definition PF_CS_USER : Z := 0x23.

(** The lines printed before the decision. *)
Definition fault_report : M kernel unit :=
  k <-- get ;;
  let r := k_regs k in
  kprintf "Page Fault(%d): cr2 %#x\n" [err_code r; cr2 k] ;;;
  k <-- get ;;
  kprintf "Faulting instruction:  %#x (%s)\n" [rg_eip r; if rg_cs r =? PF_CS_USER then 0 else k_ksym_find (rg_eip r) k] ;;;
  kprintf "Current stack pointer: %#x\n" [rg_esp r] ;;;
  (if negb (err_code r .& PF_PRESENT =? 0) then kvga_puts " \tPage Not Present\n" else ret tt) ;;;
  (if negb (err_code r .& PF_RW =? 0) then kvga_puts " \tPage Not Writeable\n" else ret tt) ;;;
  (if negb (err_code r .& PF_USER =? 0) then kvga_puts " \tPage Supervisor Mode\n" else ret tt).

(** The last instruction is [hlt] with interrupts off. *)
Definition k_page_fault : M kernel unit :=
  modify (fun k => set_k_cli (pushcli (k_cli k)) k) ;;;
  fault_report ;;;
  k <-- get ;;
  let brk := heap_brk (k_hp k) in
  if (brk <=? cr2 k) && (cr2 k <? u32 (brk + 0x1000)) then
    kvga_puts "Heap is out of memory\n" ;;;
    on_hp (Malloc.sbrk Malloc.printf 0x1000) ;;;
    modify (fun k => set_k_cli (popcli (k_cli k)) k)
  else fun _ => Spin.

(** ** System calls *)

(** The bytes of the string at a user address. *)
Fixpoint vbytes (k : nat) (p : Z) : M pg_state (list Z) :=
  match k with
  | O => ret []
  | S k' => c <-- vread8 p ;; l <-- vbytes k' (p + 1) ;; ret (c :: l)
  end.
Definition user_string (p : Z) : M pg_state (list Z) :=
  fuel <-- Prelude.gets (fun s => strfuel (pg_mem s)) ;;
  n <-- vstrlen fuel p 0 ;;
  vbytes (Z.to_nat n) p.

(** The name lies in the program's pages; its copy is put above the highest
    address of the kernel heap, where no block of the cache can be. *)
Definition NAME_COPY : Z := K_HEAP_MAX.

Section syscalls.
Context `{BC : BlockCache}.

Definition k_find_inode (name : list Z) (dir : Z) : M kernel Z :=
  k <-- get ;;
  let i := ext2_inode (k_mem k) 1 dir in
  let sz := u32 (BLOCK_SIZE * i_blocks (k_mem k) i) / 2 in
  buf <-- on_hp (Malloc.malloc sz) ;;
  k <-- get ;;
  match find_inode_in_dir (put_str (k_mem k) NAME_COPY name) NAME_COPY dir buf with
  | None => fun _ => Spin
  | Some r =>
      modify (fun k => set_k_mem (read_dir (k_mem k) i buf) k) ;;;
      on_hp (Malloc.free buf) ;;;
      ret r
  end.

Definition k_ext2_open (ino : Z) : M kernel Z :=
  k <-- get ;;
  if num_blocks (k_mem k) ino =? 0 then ret NULL
  else
    buf <-- on_hp (Malloc.malloc (u32 (BLOCK_SIZE * num_blocks (k_mem k) ino))) ;;
    modify (fun k => set_k_mem (ext2_open (k_mem k) ino buf).1 k) ;;;
    ret buf.

(** The fields of an inode in the order they are printed. *)
Definition inode_dump (ino : Z) : M kernel unit :=
  k <-- get ;;
  let w o := load32 (k_mem k) (ino + o) in
  let h o := load16 (k_mem k) (ino + o) in
  kprintf "Mode\t%x\t" [h 0] ;;; kprintf "UID\t%x\t" [h 2] ;;; kprintf "Size\t%d\n" [w 4] ;;;
  kprintf "Atime\t%x\t" [w 8] ;;; kprintf "Ctime\t%x\t" [w 12] ;;; kprintf "Mtime\t%x\n" [w 16] ;;;
  kprintf "Dtime\t%x\t" [w 20] ;;; kprintf "Group\t%x\t" [h 24] ;;; kprintf "#Links\t%d\n" [h 26] ;;;
  kprintf "Sector\t%d\t" [w 28] ;;; kprintf "Flags\t%x\n" [w 32] ;;; kprintf "Block1\t%d\n" [w 40].

(** [if (!fp)]: a name that is not found gives -1 and goes on. *)
Definition sys_open (filename : Z) : M kernel Z :=
  kprintf "SYS OPEN!: %s\n" [filename] ;;;
  name <-- on_k_pg (user_string filename) ;;
  fp <-- k_find_inode name 2 ;;
  if fp =? 0 then ret NULL
  else
    k <-- get ;;
    let ino := ext2_inode (k_mem k) 1 fp in
    k_ext2_open ino ;;;
    buf <-- k_ext2_open ino ;;
    inode_dump ino ;;;
    k <-- get ;;
    let dest := mm_brk (k_mmap k) in
    for_m (Z.to_nat (load32 (k_mem k) (ino + 4))) 0 (fun i => k <-- get ;; kprintf "%X" [char_at (k_mem k) (buf + i)]) ;;;
    kprintf "contents; %s\n" [buf] ;;;
    ret dest.

Definition syscall : M kernel unit :=
  k <-- get ;;
  let r := k_regs k in
  if rg_eax r =? 0 then
    kprintf "exit()\n" [] ;;;
    kprintf "kernel pd %x\n" [KERNEL_PAGE_DIRECTORY (hp_pg (k_hp k))] ;;;
    modify (fun k => set_k_cli (pushcli (k_cli k)) k) ;;;
    on_k_pg (modify (fun p => k_swap_pd (KERNEL_PAGE_DIRECTORY p) p)) ;;;
    fun _ => Spin
  else if rg_eax r =? 1 then kprintf "write(%s)\n" [rg_edx r]
  else if rg_eax r =? 2 then on_vga (fun v => Some (vga_putc (s8 (rg_edx r)) v))
  else if rg_eax r =? 8 then
    on_proc (sys_sbrk (rg_ebx r)) ;;;
    modify (fun k => set_k_eax (mm_brk (k_mmap k)) k)
  else if rg_eax r =? 0x10 then
    d <-- sys_open (rg_ebx r) ;;
    modify (set_k_eax d)
  else kprintf "syscall 0x80, eax 0x%x\n" [rg_eax r].

(** ** The handler *)

(** What the devices give to the handler: the keyboard's scancode, the disk's
    status and the sectors it has. *)
Record trap_in := MkIn { scancode : Z; ide_status : Z; ide_sector : list Z }.

Definition trap_body (i : trap_in) : M kernel unit :=
  k <-- get ;;
  let r := k_regs k in
  if int_no r =? 14 then k_page_fault
  else if int_no r =? IRQ0 + IRQ_TIMER then on_timer timer
  else if int_no r =? IRQ0 + IRQ_KBD then on_kbd (keyboard_handler (scancode i))
  else if int_no r =? IRQ0 + IRQ_IDE then on_ide (ide_handler (ide_status i) (ide_sector i))
  else if int_no r =? 0x80 then syscall
  else
    kprintf "Unknown Interrupt: %#x: EIP %#x (%s)\n" [int_no r; rg_eip r; k_ksym_find (rg_eip r) k] ;;;
    k <-- get ;;
    kdprintf "Unknown Interrupt: %#x: EIP %#x (%s)\n" [int_no r; rg_eip r; k_ksym_find (rg_eip r) k].

Definition trap_eoi (k : kernel) : kernel :=
  let k := if 40 <? int_no (k_regs k) then k_outb 0xA0 0x20 k else k in
  k_lapic_eoi (k_outb 0x20 0x20 k).

Definition trap (i : trap_in) : M kernel unit := trap_body i ;;; modify trap_eoi.
End syscalls.

(** ** What no handler changes *)

(** [c] leaves the controllers' trace and the number of the interrupt alone,
    and it does not change the registers but [eax]. *)
Definition same_frame (k k' : kernel) : Prop :=
  k_outs k' = k_outs k /\ k_mmio k' = k_mmio k /\ k_up k' = k_up k /\ set_eax 0 (k_regs k') = set_eax 0 (k_regs k).
Definition keeps {A : Type} (c : M kernel A) : Prop := forall k a k', c k = Ok a k' -> same_frame k k'.

Lemma same_frame_refl k : same_frame k k.
Proof. repeat split. Qed.

Lemma same_frame_trans k1 k2 k3 : same_frame k1 k2 -> same_frame k2 k3 -> same_frame k1 k3.
Proof. intros (A1 & A2 & A3 & A4) (B1 & B2 & B3 & B4). repeat split; congruence. Qed.

Lemma keeps_ret {A : Type} (a : A) : keeps (ret a).
Proof. intros k b k' [= _ <-]. apply same_frame_refl. Qed.

Lemma keeps_bind {A B : Type} (c : M kernel A) (f : A -> M kernel B) : keeps c -> (forall a, keeps (f a)) -> keeps (bind c f).
Proof.
  intros Hc Hf k b k' E. apply bind_Ok_inv in E as (a & k1 & E1 & E2). apply (same_frame_trans _ k1); [apply (Hc _ _ _ E1)|apply (Hf _ _ _ _ E2)].
Qed.

Lemma keeps_modify f : (forall k, same_frame k (f k)) -> keeps (modify f).
Proof. intros H k a k' [= _ <-]. apply H. Qed.

Lemma keeps_get : keeps get.
Proof. intros k a k' [= _ <-]. apply same_frame_refl. Qed.

Lemma keeps_spin {A : Type} : keeps (fun _ => @Spin kernel A).
Proof. intros k a k'. discriminate. Qed.

Lemma keeps_on_hp {A : Type} (c : M heap_state A) : keeps (on_hp c).
Proof. intros k a k'. unfold on_hp. destruct (c (k_hp k)); try discriminate. intros [= _ <-]. repeat split. Qed.

Lemma keeps_on_k_pg {A : Type} (c : M pg_state A) : keeps (on_k_pg c).
Proof. apply keeps_on_hp. Qed.

Lemma keeps_on_vga f : keeps (on_vga f).
Proof. intros k a k'. unfold on_vga. destruct (f (view_vga k)); try discriminate. intros [= _ <-]. repeat split. Qed.

Lemma keeps_on_timer f : keeps (on_timer f).
Proof. intros k a k'. unfold on_timer. destruct (f _); try discriminate. intros [= _ <-]. repeat split. Qed.

Lemma keeps_on_kbd f : keeps (on_kbd f).
Proof. intros k a k'. unfold on_kbd. destruct (f _); try discriminate. intros [= _ <-]. repeat split. Qed.

Lemma keeps_on_ide c : keeps (on_ide c).
Proof. intros k a k'. unfold on_ide. destruct (c _); try discriminate. intros [= _ <-]. repeat split. Qed.

Lemma keeps_on_proc {A : Type} (c : M proc_state A) : keeps (on_proc c).
Proof. intros k a k'. unfold on_proc. destruct (c _); try discriminate. intros [= _ <-]. repeat split. Qed.

Lemma keeps_for_m (f : Z -> M kernel unit) n i : (forall j, keeps (f j)) -> keeps (for_m n i f).
Proof.
  intros Hf. revert i. induction n as [|n IH]; intros i; [apply keeps_ret|]. apply keeps_bind; [apply Hf|intros _; apply IH].
Qed.

Create HintDb keeps.
#[export] Hint Resolve keeps_ret keeps_get keeps_spin keeps_on_hp keeps_on_k_pg keeps_on_vga keeps_on_timer keeps_on_kbd keeps_on_ide keeps_on_proc : keeps.

(** Follow the structure of a handler. *)
Ltac keeps_tac :=
  repeat first
    [ solve [auto with keeps]
    | apply keeps_bind; [|intros ?]
    | apply keeps_for_m; intros ?
    | apply keeps_modify; intros ?; repeat split
    | progress cbv zeta
    | match goal with |- keeps (if ?b then _ else _) => destruct b end ].

Lemma keeps_kprintf f args : keeps (kprintf f args).
Proof. unfold kprintf. keeps_tac. Qed.
#[export] Hint Resolve keeps_kprintf : keeps.

Lemma keeps_kvga_puts s : keeps (kvga_puts s).
Proof. unfold kvga_puts. keeps_tac. Qed.
#[export] Hint Resolve keeps_kvga_puts : keeps.

Lemma keeps_fault_report : keeps fault_report.
Proof. unfold fault_report. keeps_tac. Qed.

Lemma keeps_page_fault : keeps k_page_fault.
Proof. unfold k_page_fault. pose proof keeps_fault_report. keeps_tac. Qed.

Section frames.
Context `{BC : BlockCache}.

Lemma keeps_find_inode name dir : keeps (k_find_inode name dir).
Proof. unfold k_find_inode. keeps_tac. destruct (find_inode_in_dir _ _ _ _); keeps_tac. Qed.

Lemma keeps_ext2_open ino : keeps (k_ext2_open ino).
Proof. unfold k_ext2_open. keeps_tac. Qed.

Lemma keeps_inode_dump ino : keeps (inode_dump ino).
Proof. unfold inode_dump. keeps_tac. Qed.
#[local] Hint Resolve keeps_find_inode keeps_ext2_open keeps_inode_dump keeps_page_fault : keeps.

Lemma keeps_sys_open f : keeps (sys_open f).
Proof. unfold sys_open. keeps_tac. Qed.
#[local] Hint Resolve keeps_sys_open : keeps.

Lemma keeps_syscall : keeps syscall.
Proof. unfold syscall. keeps_tac. Qed.
#[local] Hint Resolve keeps_syscall : keeps.

Lemma keeps_trap_body i : keeps (trap_body i).
Proof. unfold trap_body, kdprintf. keeps_tac. Qed.
End frames.

(** What [trap] writes to the controllers.  Interrupt 40 is line 8, on the
    slave: it is not acknowledged there. *)
Lemma trap_frame `{BC : BlockCache} i k k' :
  trap i k = Ok tt k' ->
  k_outs k' = (0x20, 0x20) :: (if 40 <? int_no (k_regs k) then [(0xA0, 0x20)] else []) ++ k_outs k /\
  k_mmio k' = (if k_up k then [(LAPIC_BASE + LAPIC_EOI, 0)] else []) ++ k_mmio k /\
  set_eax 0 (k_regs k') = set_eax 0 (k_regs k).
Proof.
  intros E. apply bind_Ok_inv in E as ([] & k1 & E1 & E2). destruct (keeps_trap_body i k tt k1 E1) as (Ho & Hm & Hu & Hr).
  injection E2 as <-. assert (Hi : int_no (k_regs k1) = int_no (k_regs k)) by exact (f_equal int_no Hr).
  unfold trap_eoi. rewrite Hi. split; [|split].
  - destruct (40 <? int_no (k_regs k)); cbn; rewrite Ho; reflexivity.
  - destruct (40 <? int_no (k_regs k)); unfold k_lapic_eoi, lapic_eoi; cbn; rewrite Hu, Hm; destruct (k_up k); cbn; rewrite ?Hm; reflexivity.
  - destruct (40 <? int_no (k_regs k)); exact Hr.
Qed.

(** ** System call 8, from the program's side *)

Definition k_proc (k : kernel) : proc_state := MkProc (hp_pg (k_hp k)) (k_mmap k).

(** The kernel after a system call 8 that returned process state [p]. *)
Definition brk_done (p : proc_state) (k : kernel) : kernel :=
  trap_eoi (set_k_eax (brk p) (set_k_mmap (cp_mmap p) (set_k_hp (set_pg (pr_pg p) (k_hp k)) k))).

Lemma trap_brk `{BC : BlockCache} i k p :
  int_no (k_regs k) = 0x80 -> rg_eax (k_regs k) = 8 -> sys_sbrk (rg_ebx (k_regs k)) (k_proc k) = Ok tt p ->
  trap i k = Ok tt (brk_done p k).
Proof.
  intros Hi He Es. unfold trap, trap_body, bind, get. rewrite Hi. change (0x80 =? 14) with false.
  change (0x80 =? IRQ0 + IRQ_TIMER) with false. change (0x80 =? IRQ0 + IRQ_KBD) with false. change (0x80 =? IRQ0 + IRQ_IDE) with false.
  change (0x80 =? 0x80) with true. unfold syscall, bind, get. rewrite He. change (8 =? 0) with false. change (8 =? 1) with false.
  change (8 =? 2) with false. change (8 =? 8) with true. unfold on_proc. fold (k_proc k). rewrite Es. reflexivity.
Qed.

(** [k] after system call 8: the paging state [x], the break [b], the result in
    [eax], both controllers and the local one acknowledged. *)
Definition after_brk (x : pg_state) (b : Z) (k : kernel) : kernel :=
  MkKernel (set_pg x (k_hp k)) (k_vga k) (k_timer k) (k_kbd k) (k_ide k) (k_cli k)
    (MkMmap (mm_pd (k_mmap k)) (mm_base (k_mmap k)) b) (k_syms k) (k_up k)
    ((if k_up k then [(LAPIC_BASE + LAPIC_EOI, 0)] else []) ++ k_mmio k)
    ((0x20, 0x20) :: (0xA0, 0x20) :: k_outs k) (set_eax b (k_regs k)) (cr2 k) (k_log k).

Lemma brk_done_eq p k cnt : int_no (k_regs k) = 0x80 ->
  cp_mmap p = MkMmap (mm_pd (k_mmap k)) (mm_base (k_mmap k)) (brk (k_proc k) + 0x1000 * cnt) ->
  brk_done p k = after_brk (pr_pg p) (brk (k_proc k) + 0x1000 * cnt) k.
Proof.
  intros Hi Em. unfold brk_done, trap_eoi. assert (Eb : brk p = brk (k_proc k) + 0x1000 * cnt) by (unfold brk at 1; rewrite Em; reflexivity).
  rewrite Em, Eb. cbn [k_regs set_k_eax set_k_mmap set_k_hp int_no set_eax]. rewrite Hi. change (40 <? 0x80) with true.
  destruct k as [? ? ? ? ? ? ? ? [] ? ? ? ? ?]; reflexivity.
Qed.

(** C17: the break system call end to end.  A program that raises interrupt 0x80
    with 8 in [eax] and a size in [ebx] gets back in [eax] its break moved up by
    the size rounded to pages.  Each page in between has a frame of its own that
    was free, the processor translates the program's addresses into it, and all
    the other bytes of the program read as before.  The interrupt is
    acknowledged at both controllers and, when it is on, at the local one; the
    paging state, the break and [eax] apart, the kernel is the one before. *)
Theorem syscall_brk_grows `{BC : BlockCache} i k P Mp :
  int_no (k_regs k) = 0x80 -> rg_eax (k_regs k) = 8 ->
  let x := rg_ebx (k_regs k) in
  let old := brk (k_proc k) in
  let new := old + 0x1000 * brk_pages x in
  running (k_proc k) P Mp -> 0 <= x < 0x80000000 -> new <= KERNEL_VIRT -> budget (hp_pg (k_hp k)) P (brk_pages x) ->
  exists pg frame, trap i k = Ok tt (after_brk pg new k) /\
    (exists P' Mp', running (k_proc (after_brk pg new k)) P' Mp') /\
    (forall va, old <= va < new -> fresh_frame P (frame (va / 0x1000)) /\
       mmu (pg_mem pg) (mm_pd (k_mmap k)) va = Some (frame (va / 0x1000) + va mod 0x1000)) /\
    (forall va ua, old <= va < new -> old <= ua < new -> frame (va / 0x1000) = frame (ua / 0x1000) -> va / 0x1000 = ua / 0x1000) /\
    (forall va b, 0 <= va < old \/ new <= va < KERNEL_VIRT ->
       vread8 va (hp_pg (k_hp k)) = Ok b (hp_pg (k_hp k)) <-> vread8 va pg = Ok b pg).
Proof.
  intros Hi He x old new Hr Hx Hk Hb. destruct (sys_sbrk_spec x (k_proc k) P Mp (brk_pages x) Hx Hr Hk ltac:(lia) Hb) as (p & P' & Mp' & Es & G).
  destruct (grown_frames (k_proc k) p P P' Mp Mp' (brk_pages x) _ Hr G ltac:(unfold brk_pages; dlia) Hk) as (frame & Hf1 & Hf2 & Hf3).
  pose proof (brk_done_eq p k (brk_pages x) Hi (gr_map G)) as Ed. exists (pr_pg p), frame.
  split; [rewrite (trap_brk i k p Hi He Es), Ed; reflexivity|]. split; [|split; [|split; [exact Hf2|exact Hf3]]].
  - exists P', Mp'. replace (k_proc _) with p; [apply G|]. unfold k_proc, after_brk. cbn. rewrite <- (proc_eta p), (gr_map G). reflexivity.
  - intros va Hva. destruct (Hf1 va Hva) as [Hfr Hm]. split; [exact Hfr|]. rewrite (gr_map G) in Hm. exact Hm.
Qed.

(** ** Exit and page faults *)

Lemma kprintf_fields f args k k' : kprintf f args k = Ok tt k' -> k_cli k' = k_cli k /\ cr2 k' = cr2 k.
Proof.
  intros E. apply bind_Ok_inv in E as ([] & k1 & E1 & E2). injection E2 as <-. unfold on_hp in E1.
  destruct (Malloc.printf (k_hp k)); try discriminate. inversion E1; subst. split; reflexivity.
Qed.

Lemma puts_if_fields (b : bool) t k k' : (if b then kvga_puts t else ret tt) k = Ok tt k' -> k_cli k' = k_cli k /\ cr2 k' = cr2 k.
Proof. destruct b; intros [= <-]; split; reflexivity. Qed.

Lemma fault_report_fields k k' : fault_report k = Ok tt k' -> k_cli k' = k_cli k /\ cr2 k' = cr2 k.
Proof.
  unfold fault_report. rewrite (bind_Ok get _ k k k eq_refl). cbv zeta. intros E.
  apply bind_Ok_inv in E as ([] & k1 & E1 & E). apply kprintf_fields in E1 as [A1 B1]. rewrite (bind_Ok get _ k1 k1 k1 eq_refl) in E.
  apply bind_Ok_inv in E as ([] & k2 & E1 & E). apply kprintf_fields in E1 as [A2 B2].
  apply bind_Ok_inv in E as ([] & k3 & E1 & E). apply kprintf_fields in E1 as [A3 B3].
  apply bind_Ok_inv in E as ([] & k4 & E1 & E). apply puts_if_fields in E1 as [A4 B4].
  apply bind_Ok_inv in E as ([] & k5 & E1 & E). apply puts_if_fields in E1 as [A5 B5].
  apply puts_if_fields in E as [A6 B6]. split; congruence.
Qed.

(** The two handlers that give up.  A page fault whose address is not in
    the page at the top of the kernel heap never returns, nor does the system
    call 0. *)
Theorem trap_never_returns `{BC : BlockCache} i k k' :
  (int_no (k_regs k) = 14 /\
   forall k1, fault_report (set_k_cli (pushcli (k_cli k)) k) = Ok tt k1 ->
     ~ (heap_brk (k_hp k1) <= cr2 k < u32 (heap_brk (k_hp k1) + 0x1000))) \/
  (int_no (k_regs k) = 0x80 /\ rg_eax (k_regs k) = 0) ->
  trap i k <> Ok tt k'.
Proof.
  intros H E. apply bind_Ok_inv in E as (a & k2 & E1 & _). unfold trap_body in E1. rewrite (bind_Ok get _ k k k eq_refl) in E1.
  destruct H as [[Hi Hno]|[Hi He]]; rewrite Hi in E1.
  - change (k_page_fault k = Ok a k2) in E1. unfold k_page_fault in E1.
    rewrite bind_modify in E1. apply bind_Ok_inv in E1 as ([] & k1 & E1 & E2). rewrite (bind_Ok get _ k1 k1 k1 eq_refl) in E2.
    specialize (Hno k1 E1). apply fault_report_fields in E1 as [_ Ec]. cbn in Ec. rewrite Ec in E2. replace ((_ <=? _) && _) with false in E2 by lia. discriminate.
  - change (syscall k = Ok a k2) in E1. unfold syscall in E1. rewrite (bind_Ok get _ k k k eq_refl), He in E1.
    change (0 =? 0) with true in E1. cbv iota in E1. apply bind_Ok_inv in E1 as (? & ? & _ & E1). apply bind_Ok_inv in E1 as (? & ? & _ & E1).
    apply bind_Ok_inv in E1 as (? & ? & _ & E1). apply bind_Ok_inv in E1 as (? & ? & _ & E1). discriminate.
Qed.

(** ** Printing in a heap with a free block that fits *)

Section printing.
Context (supply : nat -> pg_state -> Prop) (tbl : Z) (HS : PageSupply tbl supply) (bl : list Malloc.block) (i : nat) (b : Malloc.block).
Hypothesis Hbf : best_fit 256 (256 * 3) 0 bl None = Some i.
Hypothesis Hi : bl !! i = Some b.

(** The heap invariant with [j] pages to spare. *)
Record heap_ready (j : nat) (h : heap_state) : Prop := {
  hr_tbl : BLOCKCHAIN_START h = tbl;
  hr_ok : heap_ok h bl;
  hr_lock : memlock h = 0;
  hr_supply : supply j (hp_pg h);
}.

(** [k'] differs from [k] in the bytes of the free block and in the log. *)
Record reported (j : nat) (k k' : kernel) : Prop := {
  rp_ready : heap_ready j (k_hp k');
  rp_top : K_HEAP_TOP (k_hp k') = K_HEAP_TOP (k_hp k);
  rp_cli : k_cli k' = k_cli k;
  rp_cr2 : cr2 k' = cr2 k;
  rp_bytes : forall a, K_HEAP_BOTTOM <= a -> a < block_addr bl i \/ block_addr bl i + b.2 <= a -> load8 (k_mem k') a = load8 (k_mem k) a;
}.

Lemma reported_refl j k : heap_ready j (k_hp k) -> reported j k k.
Proof using. intros H. split; auto. Qed.

Lemma reported_trans j k1 k2 k3 : reported j k1 k2 -> reported j k2 k3 -> reported j k1 k3.
Proof using.
  intros [A1 A2 A3 A4 A5] [B1 B2 B3 B4 B5]. split; try congruence. intros a H1 H2. rewrite B5, A5 by assumption. reflexivity.
Qed.

Lemma kprintf_reported j f args k : heap_ready j (k_hp k) ->
  exists k', kprintf f args k = Ok tt k' /\ reported j k k' /\ k_log k' = (f, args) :: k_log k.
Proof using HS Hbf Hi.
  intros [Ht Hok Hl Hs]. assert (HS' : PageSupply (BLOCKCHAIN_START (k_hp k)) supply) by (rewrite Ht; exact HS).
  destruct (printf_spec (k_hp k) bl i b supply j HS' Hok Hl Hbf Hi Hs) as (h & E & H1 & H2 & H3 & H4 & H5 & H6).
  exists (log f args (set_k_hp h k)). split.
  - unfold kprintf, bind, on_hp. rewrite E. reflexivity.
  - split; [|reflexivity]. split; try reflexivity; try assumption. split; try assumption. exact (eq_trans H5 Ht).
Qed.

Lemma puts_reported (c : bool) t j k : heap_ready j (k_hp k) ->
  exists k', (if c then kvga_puts t else ret tt) k = Ok tt k' /\ reported j k k'.
Proof using.
  intros H. destruct c; (eexists; split; [reflexivity|]); [|apply reported_refl; exact H]. split; try reflexivity. exact H.
Qed.

Lemma fault_report_reported j k : heap_ready j (k_hp k) -> exists k', fault_report k = Ok tt k' /\ reported j k k'.
Proof using HS Hbf Hi.
  intros Hr. unfold fault_report. rewrite (bind_Ok get _ k k k eq_refl). cbv zeta.
  destruct (kprintf_reported j "Page Fault(%d): cr2 %#x\n" [err_code (k_regs k); cr2 k] k Hr) as (k1 & E1 & R1 & _).
  rewrite (bind_Ok _ _ _ _ _ E1), (bind_Ok get _ k1 k1 k1 eq_refl).
  destruct (kprintf_reported j "Faulting instruction:  %#x (%s)\n"
    [rg_eip (k_regs k); if rg_cs (k_regs k) =? PF_CS_USER then 0 else k_ksym_find (rg_eip (k_regs k)) k1] k1 (rp_ready _ _ _ R1)) as (k2 & E2 & R2 & _).
  rewrite (bind_Ok _ _ _ _ _ E2).
  destruct (kprintf_reported j "Current stack pointer: %#x\n" [rg_esp (k_regs k)] k2 (rp_ready _ _ _ R2)) as (k3 & E3 & R3 & _).
  rewrite (bind_Ok _ _ _ _ _ E3).
  destruct (puts_reported (negb (err_code (k_regs k) .& PF_PRESENT =? 0)) " \tPage Not Present\n" j k3 (rp_ready _ _ _ R3)) as (k4 & E4 & R4).
  rewrite (bind_Ok _ _ _ _ _ E4).
  destruct (puts_reported (negb (err_code (k_regs k) .& PF_RW =? 0)) " \tPage Not Writeable\n" j k4 (rp_ready _ _ _ R4)) as (k5 & E5 & R5).
  rewrite (bind_Ok _ _ _ _ _ E5).
  destruct (puts_reported (negb (err_code (k_regs k) .& PF_USER =? 0)) " \tPage Supervisor Mode\n" j k5 (rp_ready _ _ _ R5)) as (k6 & E6 & R6).
  exists k6. split; [exact E6|].
  apply (reported_trans j k k1 k6 R1), (reported_trans j k1 k2 k6 R2), (reported_trans j k2 k3 k6 R3), (reported_trans j k3 k4 k6 R4), (reported_trans j k4 k5 k6 R5 R6).
Qed.
End printing.

(** The paging state [s] whose pool is [P], with [j] pages to spare and no table
    entry for [va]; nothing is taken from it while the fault is reported. *)
Definition untaken (tbl va pd : Z) (P : pool) (j k : nat) (s : pg_state) : Prop :=
  k = 0%nat /\ supply_inv tbl j j s P /\ k_virt_to_phys va s = 0 /\ CURRENT_PAGE_DIRECTORY s = pd.

Lemma untaken_frame tbl va pd P j k s m : untaken tbl va pd P j k s -> 0 <= va < 0x100000000 ->
  differs_in_heap tbl (pg_mem s) m -> untaken tbl va pd P j k (set_pg_mem m s).
Proof.
  intros (-> & Hs & Hv & Hd) Hva Hm. split; [reflexivity|]. split; [apply supply_inv_frame; assumption|].
  split; [|exact Hd]. rewrite (virt_to_phys_frame tbl j j s P) by assumption. exact Hv.
Qed.

Lemma untaken_supply tbl va pd P j : KERNEL_VIRT <= tbl -> tbl + 0x4000 <= K_HEAP_BOTTOM -> 0 <= va < 0x100000000 ->
  PageSupply tbl (untaken tbl va pd P j).
Proof.
  intros Ht1 Ht2 Hva. split.
  - intros k a s [Hk _]. discriminate.
  - intros k s q v Hs Hq. apply untaken_frame; [exact Hs|exact Hva|]. intros a Ha Hz.
    unfold stw. rewrite table_canon by (unfold KERNEL_VIRT, K_HEAP_BOTTOM in *; lia). apply load8_store32_ne. lia.
  - intros k s m Hs Hm. apply untaken_frame; [exact Hs|exact Hva|]. intros a Ha _. apply Hm. exact Ha.
Qed.

(** [sbrk(0x1000)] is one page at the top. *)
Lemma sbrk_one pf tbl j h P : supply_inv tbl (S j) (S j) (hp_pg h) P ->
  K_HEAP_BOTTOM <= K_HEAP_TOP h -> K_HEAP_TOP h + 0x1000 < K_HEAP_MAX -> K_HEAP_TOP h mod 0x1000 = 0 ->
  k_virt_to_phys (K_HEAP_TOP h) (hp_pg h) = 0 ->
  exists p x, Malloc.sbrk pf 0x1000 h = Ok (K_HEAP_TOP h + 0x1000) (set_top (K_HEAP_TOP h + 0x1000) (set_pg x h)) /\
    p ∉ used P /\ 0 <= p < 1024 /\ CURRENT_PAGE_DIRECTORY x = CURRENT_PAGE_DIRECTORY (hp_pg h) /\
    (forall off, 0 <= off < 0x1000 ->
       mmu (pg_mem x) (CURRENT_PAGE_DIRECTORY (hp_pg h)) (K_HEAP_TOP h + off) = Some (page_addr (region P) p + off)) /\
    (forall a, tbl <= a < tbl + 0x4000 \/ K_HEAP_BOTTOM <= a -> load8 (pg_mem x) a = load8 (pg_mem (hp_pg h)) a) /\
    kernel_supply tbl j x.
Proof.
  intros Hinv Hlo Hhi Hal E0.
  destruct (map_page_fresh tbl j (hp_pg h) P (K_HEAP_TOP h) Hinv ltac:(lia) Hal E0) as (p & x & E & H).
  exists p, x. split; [|exact H]. unfold Malloc.sbrk, bind, Prelude.gets. change (0x1000 =? 0) with false. cbv beta iota zeta.
  rewrite u32_small by (unfold K_HEAP_BOTTOM, K_HEAP_MAX in *; lia). replace (K_HEAP_MAX <=? 0x1000 + K_HEAP_TOP h) with false by lia.
  change (Z.to_nat (if 0x1000 <? 0x1000 then 0x1000 / 0x1000 else 1)) with 1%nat. cbn [Malloc.sbrk_loop].
  unfold bind, Prelude.gets, on_pg, modify, ret. cbv beta iota. rewrite E. cbn [K_HEAP_TOP set_pg set_top].
  rewrite u32_small by (unfold K_HEAP_BOTTOM, K_HEAP_MAX in *; lia). reflexivity.
Qed.

(** The way through the handler when the address is in the page at the top. *)
Lemma trap_fault_at_top `{BC : BlockCache} ti k k1 r h2 : int_no (k_regs k) = 14 ->
  fault_report (set_k_cli (pushcli (k_cli k)) k) = Ok tt k1 -> Malloc.sbrk Malloc.printf 0x1000 (k_hp k1) = Ok r h2 ->
  K_HEAP_TOP (k_hp k1) <= cr2 k1 < K_HEAP_TOP (k_hp k1) + 0x1000 /\ 0 <= K_HEAP_TOP (k_hp k1) < 0xFFFFF000 ->
  trap_body ti k = Ok tt (set_k_cli (popcli (k_cli k1)) (set_k_hp h2 (log "Heap is out of memory\n" [] k1))).
Proof.
  intros Hint Er Eh Hc. unfold trap_body. rewrite (bind_Ok get _ k k k eq_refl), Hint. change (14 =? 14) with true. cbv iota.
  unfold k_page_fault. rewrite bind_modify, (bind_Ok _ _ _ _ _ Er), (bind_Ok get _ k1 k1 k1 eq_refl). cbv zeta. unfold heap_brk.
  rewrite (u32_small (K_HEAP_TOP (k_hp k1) + 0x1000)) by lia.
  replace ((K_HEAP_TOP (k_hp k1) <=? cr2 k1) && (cr2 k1 <? K_HEAP_TOP (k_hp k1) + 0x1000)) with true by lia.
  unfold kvga_puts. rewrite bind_modify. set (k2 := log "Heap is out of memory\n" [] k1).
  assert (Eo : on_hp (Malloc.sbrk Malloc.printf 0x1000) k2 = Ok r (set_k_hp h2 k2))
    by (unfold on_hp; change (k_hp k2) with (k_hp k1); rewrite Eh; reflexivity).
  rewrite (bind_Ok _ _ _ _ _ Eo). reflexivity.
Qed.

(** C18: a fault at the top of the kernel heap is repaired.  With the heap
    invariant, a free block for the report and a page to spare, an interrupt 14
    for an address of the unmapped page at the top of the heap returns with the
    heap one page larger: the processor then translates every address of that
    page into a page of memory that was not in use.  Every block in use keeps
    its bytes, the nesting count is restored (if it was 0 the handler has also
    switched interrupts on), the registers but [eax] are those of the fault, and
    the interrupt is acknowledged. *)
Theorem page_fault_grows_heap `{BC : BlockCache} ti k bl i b P j :
  let h := k_hp k in
  int_no (k_regs k) = 14 -> heap_ok h bl -> memlock h = 0 ->
  best_fit 256 (256 * 3) 0 bl None = Some i -> bl !! i = Some b ->
  supply_inv (BLOCKCHAIN_START h) (S j) (S j) (hp_pg h) P -> k_virt_to_phys (K_HEAP_TOP h) (hp_pg h) = 0 ->
  K_HEAP_TOP h <= cr2 k < K_HEAP_TOP h + 0x1000 -> K_HEAP_TOP h + 0x1000 < K_HEAP_MAX ->
  exists k' p, trap ti k = Ok tt k' /\ K_HEAP_TOP (k_hp k') = K_HEAP_TOP h + 0x1000 /\ p ∉ used P /\ 0 <= p < 1024 /\
    (forall off, 0 <= off < 0x1000 ->
       mmu (k_mem k') (CURRENT_PAGE_DIRECTORY (hp_pg h)) (K_HEAP_TOP h + off) = Some (page_addr (region P) p + off)) /\
    CURRENT_PAGE_DIRECTORY (hp_pg (k_hp k')) = CURRENT_PAGE_DIRECTORY (hp_pg h) /\
    kernel_supply (BLOCKCHAIN_START h) j (hp_pg (k_hp k')) /\ heap_ok (k_hp k') bl /\ memlock (k_hp k') = 0 /\
    (forall q c a, bl !! q = Some (true, c) -> block_addr bl q <= a < block_addr bl q + c -> load8 (k_mem k') a = load8 (k_mem k) a) /\
    ncli (k_cli k') = ncli (k_cli k) /\ (ncli (k_cli k) = 0 -> IF (k_cli k') = true) /\
    set_eax 0 (k_regs k') = set_eax 0 (k_regs k) /\
    k_outs k' = (0x20, 0x20) :: k_outs k /\ k_mmio k' = (if k_up k then [(LAPIC_BASE + LAPIC_EOI, 0)] else []) ++ k_mmio k.
Proof.
  intros h Hint Hok Hl Hbf Hi Hs Hv Hc Hmx. set (k0 := set_k_cli (pushcli (k_cli k)) k).
  set (pd := CURRENT_PAGE_DIRECTORY (hp_pg h)). set (tbl := BLOCKCHAIN_START h) in *.
  pose proof (ok_top _ _ Hok) as [Hto Hal]. pose proof (ok_last _ _ Hok) as Hla. pose proof (sizes_nonneg bl (ok_sizes _ _ (ok_table _ _ Hok))) as Hsz.
  assert (Hbot : K_HEAP_BOTTOM <= K_HEAP_TOP h) by lia.
  assert (HS : PageSupply tbl (untaken tbl (K_HEAP_TOP h) pd P (S j))).
  { pose proof (si_heap _ _ _ _ _ Hs). pose proof (rel_lay _ _ (si_pool _ _ _ _ _ Hs)).
    apply untaken_supply; unfold KERNEL_VIRT, K_HEAP_BOTTOM, K_HEAP_MAX, MM_HEAP_MAX in *; lia. }
  assert (Hr : heap_ready (untaken tbl (K_HEAP_TOP h) pd P (S j)) tbl bl 0 (k_hp k0)).
  { split; try assumption; [reflexivity|]. split; [reflexivity|]. split; [exact Hs|]. split; [exact Hv|reflexivity]. }
  destruct (fault_report_reported _ tbl HS bl i b Hbf Hi 0 k0 Hr) as (k1 & Er & [[Ht1 Hok1 Hl1 (_ & Hs1 & Hv1 & Hd1)] Htop Hcli Hcr Hby]).
  change (K_HEAP_TOP (k_hp k0)) with (K_HEAP_TOP h) in Htop. change (cr2 k0) with (cr2 k) in Hcr.
  destruct (sbrk_one Malloc.printf tbl j (k_hp k1) P Hs1) as (p & x & Eh & Hu & Hp & Hcur & Hm & Hb' & Hsup); rewrite ?Htop; try assumption.
  set (k2 := log "Heap is out of memory\n" [] k1). rewrite Htop in Eh, Hm. rewrite Hd1 in Hcur, Hm.
  set (h2 := set_top (K_HEAP_TOP h + 0x1000) (set_pg x (k_hp k1))) in Eh.
  set (k3 := set_k_cli (popcli (k_cli k1)) (set_k_hp h2 k2)).
  assert (Eb : trap_body ti k = Ok tt k3).
  { apply (trap_fault_at_top ti k k1 (K_HEAP_TOP h + 0x1000)); try assumption. rewrite Htop, Hcr. unfold K_HEAP_BOTTOM, K_HEAP_MAX in *. lia. }
  assert (Et : trap ti k = Ok tt (trap_eoi k3)) by (unfold trap; rewrite (bind_Ok _ _ _ _ _ Eb); reflexivity).
  destruct (trap_frame ti k _ Et) as (Ho & Hmm & Hreg). rewrite Hint in Ho. change (40 <? 14) with false in Ho.
  assert (Ehp : k_hp (trap_eoi k3) = h2) by (unfold trap_eoi; destruct (40 <? int_no (k_regs k3)); reflexivity).
  assert (Ecl : k_cli (trap_eoi k3) = popcli (k_cli k1)) by (unfold trap_eoi; destruct (40 <? int_no (k_regs k3)); reflexivity).
  exists (trap_eoi k3), p. unfold k_mem. rewrite Ehp, Ecl. split; [exact Et|]. split; [reflexivity|].
  repeat (split; [assumption|]). split; [|split; [exact Hl1|split; [|split]]].
  - destruct Hok1 as [Htb Hla1 Htp]. split; [|exact Hla1|cbn; rewrite Htop in Htp; dlia].
    apply (table_ok_frame (k_hp k1)); try reflexivity; [exact Htb|]. intros q Hq. pose proof (ok_start _ _ Htb). unfold ldw. rewrite Ht1 in *.
    rewrite table_canon by lia. apply load32_ext. intros o Ho4. apply Hb'. lia.
  - intros q c a Hq Ha. destruct (best_fit_block _ _ _ Hbf) as (b' & Hi' & Hfree & _). assert (b' = b) as -> by congruence.
    assert (Hne : i <> q) by (intros ->; rewrite Hi in Hq; injection Hq as ->; discriminate).
    pose proof (blocks_disjoint bl i q b (true, c) (ok_sizes _ _ (ok_table _ _ Hok)) Hi Hq Hne) as Hd. unfold ranges_disjoint in Hd. cbn [snd] in Hd.
    destruct (block_in_heap h bl q (true, c) Hok Hq) as [Hq0 _].
    transitivity (load8 (k_mem k1) a); [apply Hb'; lia|]. apply (Hby a); lia.
  - rewrite Hcli. unfold k0, popcli, pushcli. cbn [ncli k_cli set_k_cli].
    destruct (Z.eqb_spec (ncli (k_cli k) + 1 - 1) 0); cbn [ncli IF]; lia.
  - split; [|auto]. rewrite Hcli. unfold k0, popcli, pushcli. cbn [ncli k_cli set_k_cli].
    destruct (Z.eqb_spec (ncli (k_cli k) + 1 - 1) 0); cbn [ncli IF]; intros; [reflexivity|lia].
Qed.

(** ** The user library's calls *)

(** The registers when [syscall_one] of libc/usr/glue.c raises the interrupt. *)
Definition syscall_one_regs (eax ebx : Z) (r : regs_t) : regs_t :=
  MkRegs (rg_ds r) (rg_edi r) (rg_esi r) (rg_ebp r) (rg_esp r) ebx (rg_edx r) (rg_ecx r) eax 0x80 (err_code r) (rg_eip r) (rg_cs r).
Definition with_regs (r : regs_t) (k : kernel) : kernel :=
  MkKernel (k_hp k) (k_vga k) (k_timer k) (k_kbd k) (k_ide k) (k_cli k) (k_mmap k) (k_syms k) (k_up k) (k_mmio k) (k_outs k) r (cr2 k) (k_log k).
(** [puts(s)] of the user library. *)
Definition user_puts `{BC : BlockCache} (i : trap_in) (s : Z) : M kernel unit := fun k => trap i (with_regs (syscall_one_regs 1 s (k_regs k)) k).

(** The user library's [puts] prints something else.  It passes the string
    in [ebx]; the system call prints the string at [edx].  In a kernel whose
    heap has a free block the call returns, and what it prints is the caller's
    [edx], whatever the argument was. *)
Theorem user_puts_prints_edx `{BC : BlockCache} supply i k s bl q b j :
  PageSupply (BLOCKCHAIN_START (k_hp k)) supply -> heap_ok (k_hp k) bl -> memlock (k_hp k) = 0 ->
  best_fit 256 (256 * 3) 0 bl None = Some q -> bl !! q = Some b -> supply j (hp_pg (k_hp k)) ->
  exists k', user_puts i s k = Ok tt k' /\ k_log k' = ("write(%s)\n", [rg_edx (k_regs k)]) :: k_log k.
Proof.
  intros HS Hok Hl Hbf Hq Hs. set (k0 := with_regs (syscall_one_regs 1 s (k_regs k)) k).
  assert (Hr : heap_ready supply (BLOCKCHAIN_START (k_hp k)) bl j (k_hp k0)) by (split; try assumption; reflexivity).
  destruct (kprintf_reported supply _ HS bl q b Hbf Hq j "write(%s)\n" [rg_edx (k_regs k)] k0 Hr) as (k1 & E & _ & Elog).
  exists (trap_eoi k1). split.
  - unfold user_puts. fold k0. unfold trap. assert (Eb : trap_body i k0 = Ok tt k1) by exact E. rewrite (bind_Ok _ _ _ _ _ Eb). reflexivity.
  - unfold trap_eoi. destruct (40 <? _); exact Elog.
Qed.

(** ** Instances *)

#[local] Existing Instance flat_cache.

(** A heap whose only block, of 256 bytes, is free, and a kernel with it. *)
Definition trap_heap : heap_state :=
  MkHeap (set_pg_mem (stw boot_mem 0xC0128000 0 256) boot_state) 0xC0128000 1 0xC0128000 0xC0301000 0xC0300100 0.
Definition demo_regs (n eax ebx : Z) : regs_t := MkRegs 0x23 0 0 0 0 ebx 0x5000 0 eax n 0 0x08048000 0x23.
Definition demo_kernel (h : heap_state) (mp : proc_mmap) (r : regs_t) (c : Z) : kernel :=
  MkKernel h (MkVga ∅ 0 0 7 []) (MkTimer 0 0xC0302000 (MkVga ∅ 0 0 7 [])) fresh_kbd (Ide.demo 0) (MkCli 0 false) mp (0, 0) true [] [] r c [].

Lemma trap_heap_ok : heap_ok trap_heap [(false, 256)].
Proof.
  assert (E : forall i, 0 <= i < 4096 -> ldw (hp_mem trap_heap) 0xC0128000 i = if i =? 0 then 256 else 0).
  { intros i Hi. change (hp_mem trap_heap) with (stw boot_mem 0xC0128000 0 256). rewrite table_store by (unfold KERNEL_VIRT; lia).
    destruct (i =? 0); [reflexivity|]. apply (ok_zero _ _ (ok_table _ _ boot_heap_ok)). cbn. lia. }
  split; [split|reflexivity|]; cbn [trap_heap BLOCKCHAIN_START BLOCKS_ALLOCATED K_LAST_ALLOC K_HEAP_TOP length];
    unfold KERNEL_VIRT, K_HEAP_BOTTOM, K_HEAP_MAX; try lia.
  - intros [|i] b [= <-]. apply (E 0). lia.
  - repeat constructor; reflexivity.
  - intros i Hi. rewrite E by lia. replace (i =? 0) with false by lia. reflexivity.
  - split; [lia|reflexivity].
Qed.

Lemma trap_heap_inv k : (k <= 100)%nat -> supply_inv 0xC0128000 k k (hp_pg trap_heap) (MkPool 1 ∅ 0xC012C000).
Proof.
  intros Hk. apply (supply_inv_frame _ _ _ boot_state).
  - destruct boot_supply as [H1 H2 H3 H4 H5 H6 H7 H8]. split; try assumption; cbn in *; lia.
  - intros a _ Ha. unfold stw. rewrite table_canon by (unfold KERNEL_VIRT; lia). apply load8_store32_ne. lia.
Qed.

Lemma trap_heap_supply k : (k <= 100)%nat -> kernel_supply 0xC0128000 k (hp_pg trap_heap).
Proof. intros Hk. eexists. apply trap_heap_inv, Hk. Qed.

Lemma page_fault_grows_heap_witness :
  let k := demo_kernel trap_heap (MkMmap 0 0 0) (demo_regs 14 0 0) 0xC0301234 in
  exists k' p, trap (MkIn 0 0 []) k = Ok tt k' /\ K_HEAP_TOP (k_hp k') = 0xC0302000 /\
    mmu (k_mem k') 0xC0110000 0xC0301234 = Some (page_addr 1 p + 0x234) /\ IF (k_cli k') = true.
Proof.
  cbv zeta. destruct (page_fault_grows_heap (MkIn 0 0 []) (demo_kernel trap_heap (MkMmap 0 0 0) (demo_regs 14 0 0) 0xC0301234)
    [(false, 256)] 0 (false, 256) (MkPool 1 ∅ 0xC012C000) 9 eq_refl trap_heap_ok) as (k' & p & E & Et & _ & _ & Hm & H);
    try reflexivity; [apply trap_heap_inv; lia|cbn; lia|].
  exists k', p. split; [exact E|]. split; [exact Et|]. split; [exact (Hm 0x234 ltac:(lia))|].
  destruct H as (_ & _ & _ & _ & _ & _ & Hif & _). apply Hif. reflexivity.
Defined.

Lemma user_puts_prints_edx_witness :
  let k := demo_kernel trap_heap (MkMmap 0 0 0) (demo_regs 0 0 0) 0 in
  exists k', user_puts (MkIn 0 0 []) 0x08049000 k = Ok tt k' /\ k_log k' = [("write(%s)\n", [0x5000])].
Proof.
  cbv zeta. apply (user_puts_prints_edx (kernel_supply 0xC0128000) (MkIn 0 0 []) (demo_kernel trap_heap (MkMmap 0 0 0) (demo_regs 0 0 0) 0) 0x08049000
    [(false, 256)] 0 (false, 256) 9 (kernel_page_supply _) trap_heap_ok); try reflexivity. apply trap_heap_supply. lia.
Defined.

Lemma trap_never_returns_witness :
  let k := demo_kernel trap_heap (MkMmap 0 0 0) (demo_regs 0x80 0 0) 0 in trap (MkIn 0 0 []) k <> Ok tt k.
Proof. cbv zeta. apply trap_never_returns. right. split; reflexivity. Defined.

Lemma syscall_brk_grows_witness :
  exists k pg f, trap (MkIn 0 0 []) k = Ok tt (after_brk pg 0x0804B000 k) /\
    mmu (pg_mem pg) (mm_pd (k_mmap k)) 0x0804A123 = Some (f + 0x123).
Proof.
  destruct new_process as (s & P & Hr & Em & [Hb1 Hb2]). assert (Hbrk : brk s = 0x08049000) by (unfold brk; rewrite Em; reflexivity).
  set (k := demo_kernel (set_pg (pr_pg s) trap_heap) (cp_mmap s) (demo_regs 0x80 8 0x1801) 0).
  assert (Ek : k_proc k = s) by (unfold k_proc; destruct s; reflexivity).
  destruct (syscall_brk_grows (MkIn 0 0 []) k P ∅ eq_refl eq_refl) as (pg & frame & E & _ & Hm & _); rewrite ?Ek;
    change (rg_ebx (k_regs k)) with 0x1801; change (brk_pages 0x1801) with 2; try (rewrite Hbrk; unfold KERNEL_VIRT); try lia.
  - exact Hr.
  - split; cbn; lia.
  - rewrite Ek, Hbrk in E, Hm. exists k, pg, (frame 0x804A). split; [exact E|]. apply (Hm 0x0804A123).
    change (rg_ebx (k_regs k)) with 0x1801. change (brk_pages 0x1801) with 2. lia.
Defined.
