(* ===== verification/UserLib.v ===== *)
(** * libc/usr: the C library of user programs

    One file per function.  Most are the same text as the kernel's library and
    are the same definition here; [strncmp] (and so [strcmp] and [strstr]),
    [itoa], [sitoa], [vsnprintf] and [fgetc] have definitions of their own.
    A block that [malloc] returned is an argument, as in the kernel's files. *)

From stdpp Require Import base numbers list gmap.
From Stdlib Require Import ZArith Lia.
From S2P Require Import Prelude Memory CString KStdlib Printf Stream.
Open Scope Z_scope.

(** ** libc/usr/string *)
Definition memchr := CString.memchr.
Definition memcmp := CString.memcmp.
Definition memcpy := CString.memcpy.
Definition memmove := CString.memmove.
Definition memrchr := CString.memrchr.
Definition memset := CString.memset.
Definition memsetw := CString.memsetw.
Definition strcat := CString.strcat.
Definition strchr := CString.strchr.
Definition strcpy := CString.strcpy.
Definition strdup := CString.strdup.
Definition strlen := CString.strlen.
Definition strncat := CString.strncat.
Definition strncpy := CString.strncpy.
Definition strpbrk := CString.strpbrk.
Definition strrev := CString.strrev.
Definition strspn := CString.strspn.
Definition strtok := CString.strtok.

(** The loop ends at the first difference or at the end of both strings. *)
Definition strncmp (m : mem) (s1 s2 n : Z) : Z :=
  match find_up (Z.to_nat n) 0
          (fun i => negb (load8 m (s1 + i) =? load8 m (s2 + i)) || (load8 m (s1 + i) =? 0)) with
  | Some i =>
      if negb (load8 m (s1 + i) =? load8 m (s2 + i))
      then if load8 m (s1 + i) <? load8 m (s2 + i) then -1 else 1
      else 0
  | None => 0
  end.
Definition strcmp (m : mem) (s1 s2 : Z) : Z := strncmp m s1 s2 (strlen m s1).

Fixpoint strstr_loop (fuel : nat) (m : mem) (s1 s2 : Z) : Z :=
  match fuel with
  | O => NULL
  | S f => if load8 m s1 =? 0 then NULL
           else if strncmp m (s1 + 1) s2 (strlen m s2) =? 0 then s1 + 1
           else strstr_loop f m (s1 + 1) s2
  end.
Definition strstr (m : mem) (s1 s2 : Z) : Z := strstr_loop (strfuel m) m s1 s2.

(** ** libc/usr/stdlib *)
Definition abs := KStdlib.abs.
Definition atoi := KStdlib.atoi.
Definition log10 := KStdlib.log10.
Definition pow := KStdlib.pow.

(** [while (num != 0 && len--)]; the last component is [len], -1 when digits are
    left. *)
Fixpoint itoa_digits (k : nat) (m : mem) (buffer i num base : Z) : mem * Z * Z :=
  if num =? 0 then (m, i, Z.of_nat k)
  else match k with
       | O => (m, i, -1)
       | S k' => itoa_digits k' (store8 m (buffer + i) (digit_char (u32 num mod base)))
                   buffer (i + 1) (u32 num / base) base
       end.
(** [None]: the padding loop starts with a negative [len] and runs away. *)
Definition itoa (m : mem) (num buffer base : Z) : option (mem * Z) :=
  let len := if base =? 2 then 32 else 8 in
  if (num =? 0) && (base =? 2) then
    Some (store8 (for_up (Z.to_nat len) 0 (fun i m => store8 m (buffer + i) 48) m) (buffer + len) 0, buffer)
  else
    let '(m1, i, len) := itoa_digits (Z.to_nat len) m buffer 0 num base in
    if base =? 10 then Some (strrev (store8 m1 (buffer + i) 0) buffer)
    else if len <? 0 then None
    else
      let m2 := for_up (Z.to_nat len) i (fun j m => store8 m (buffer + j) 48) m1 in
      Some (strrev (store8 m2 (buffer + (i + len)) 0) buffer).

(** The digits, least significant first, then the sign, then reversed. *)
Definition sitoa (m : mem) (num buffer base : Z) : mem * Z :=
  if (num =? 0) || (base =? 0) then (store8 (store8 m buffer 48) (buffer + 1) 0, buffer)
  else
    let negative := num <? 0 in
    let num := if negative then s32 (abs num) else num in
    let '(m1, i) := sitoa_digits 8 m buffer 0 num base in
    let '(m2, i) := if negative then (store8 m1 (buffer + i) 45, i + 1) else (m1, i) in
    strrev (store8 m2 (buffer + i) 0) buffer.

(** ** libc/usr/stdio *)
Definition ltoa := Printf.ltoa.

Definition hex_prefix (str size : Z) (s : fmt) : fmt :=
  if has_flag PREFIX s && (n s + 2 <? size) then put str 120 (put str 48 s) else s.

(** The inner switch: no [%X], and [sitoa] writes the sign itself. *)
Fixpoint next_format (fuel : nat) (str size buf : Z) (s : fmt) : option fmt :=
  match fuel with
  | O => None
  | S f =>
      let c := char_at (fm s) (format s) in
      if c =? 37 then Some (set_fm (store8 (store8 (fm s) buf 37) (buf + 1) 0) s)
      else if c =? 35 then next_format f str size buf (next_char (add_flag PREFIX s))
      else if c =? 43 then next_format f str size buf (next_char (add_flag ALWAYS_SIGN s))
      else if c =? 120 then
        hex_prefix str size <$> conv_num (itoa (fm s) (load32 (fm s) (ap s)) buf 16) (take_arg 4 s)
      else if c =? 100 then
        let d := arg_int s in
        let s1 := take_arg 4 s in
        let s2 := if has_flag ALWAYS_SIGN s1 && (n s1 + 1 <? size) then put str (if 0 <? d then 43 else 45) s1 else s1 in
        Some (set_fm (fst (sitoa (fm s2) d buf 10)) s2)
      else if c =? 105 then
        let d := arg_int s in
        let s1 := take_arg 4 s in
        let s2 := if (n s1 + 1 <? size) && (d <? 0) then put str 45 s1 else s1 in
        Some (set_fm (fst (sitoa (fm s2) d buf 10)) s2)
      else if c =? 117 then conv_num (itoa (fm s) (load32 (fm s) (ap s)) buf 10) (take_arg 4 s)
      else if c =? 108 then
        let d := load32 (fm s) (ap s) + 0x100000000 * load32 (fm s) (ap s + 4) in
        Some (set_fm (ltoa (fm s) d buf 16) (add_flag LONG (take_arg 8 s)))
      else if c =? 111 then
        (fun s' => if has_flag PREFIX s' && (n s' + 2 <? size) then put str 48 s' else s') <$>
          conv_num (itoa (fm s) (load32 (fm s) (ap s)) buf 8) (take_arg 4 s)
      else if c =? 98 then conv_num (itoa (fm s) (load32 (fm s) (ap s)) buf 2) (take_arg 4 s)
      else if c =? 115 then
        Some (set_fm (fst (strcpy (fm s) buf (load32 (fm s) (ap s)))) (add_flag NOTNUM (take_arg 4 s)))
      else if c =? 99 then
        Some (set_fm (store8 (store8 (fm s) buf (load8 (fm s) (ap s))) (buf + 1) 0) (add_flag NOTNUM (take_arg 4 s)))
      else if c =? 119 then Some (set_fm (store8 (fm s) buf 32) (add_flag PAD s))
      else next_format f str size buf
             (pad_digits (strfuel (fm s)) (MkFmt (fm s) (format s) (n s) 0 (flags s) (ap s)))
  end.

(** The two output loops. *)
Fixpoint pad_out (k : nat) (str size buf i : Z) (s : fmt) : fmt :=
  match k with
  | O => s
  | S k' =>
      if (i <? pad s - strlen (fm s) buf) && (i + n s <? size)
      then pad_out k' str size buf (i + 1) (put str (if has_flag NOTNUM s then 32 else 48) s)
      else s
  end.
Fixpoint copy_out (k : nat) (str size buf i : Z) (s : fmt) : fmt :=
  match k with
  | O => s
  | S k' =>
      if (i <? strlen (fm s) buf) && (i + n s <? size)
      then copy_out k' str size buf (i + 1) (put str (load8 (fm s) (buf + i)) s)
      else s
  end.
Definition directive (str size buf : Z) (s : fmt) : option fmt :=
  match next_format (S (S (Z.to_nat (strlen (fm s) (format s))))) str size buf (next_char s) with
  | None => None
  | Some s1 =>
      let s2 := if has_flag PAD s1 && (strlen (fm s1) buf <? pad s1)
                then pad_out (Z.to_nat size) str size buf 0 s1 else s1 in
      let s3 := copy_out (Z.to_nat size) str size buf 0 s2 in
      Some (set_fm (memset (fm s3) buf 0 (strlen (fm s3) buf)) s3)
  end.

Fixpoint vsnprintf_loop (fuel : nat) (str size buf : Z) (s : fmt) : option fmt :=
  let c := char_at (fm s) (format s) in
  if (c =? 0) || (size <=? n s) then Some s
  else match fuel with
       | O => None
       | S f =>
           match (if c =? 37 then directive str size buf s
                  else Some (let s1 := put str c s in MkFmt (fm s1) (format s1) (n s1) (pad s1) 0 (ap s1))) with
           | None => None
           | Some s' => vsnprintf_loop f str size buf (next_char s')
           end
       end.
Definition vsnprintf (m : mem) (str size fmtp args buf : Z) : option (mem * Z) :=
  let m1 := memset (memset m str 0 size) buf 0 size in
  match vsnprintf_loop (strfuel m1) str size buf (MkFmt m1 fmtp 0 0 0 args) with
  | Some s => Some (fm s, n s)
  | None => None
  end.

(** The streams are the kernel's, without [k_stream_read_until]; [fgetc] does
    not test the offset. *)
Definition k_new_stream := Stream.k_new_stream.
Definition k_stream_write := Stream.k_stream_write.
Definition k_stream_read := Stream.k_stream_read.
Definition fgetc (m : mem) (s : STREAM) : Z := char_at m (data s + offset s - 1).
Definition k_stream_seek := Stream.k_stream_seek.
Definition k_stream_tell := Stream.k_stream_tell.
Definition fputc := Stream.fputc.
Definition fputs := Stream.fputs.
Definition fseek := Stream.fseek.
Definition ftell := Stream.ftell.
Definition fflush := Stream.fflush.

(** ** Comparison *)

Lemma no_nul_before m p i : 0 <= i < CString.strlen m p -> load8 m (p + i) <> 0.
Proof. intros Hi. destruct (strlen_str_len m p) as (_ & _ & H). apply H. exact Hi. Qed.

(** Without a NUL in the first [n] bytes of one string, the early end plays no
    part: the result is the sign of the kernel's. *)
Lemma strncmp_sgn m p1 p2 n :
  (forall i, 0 <= i < n -> load8 m (p1 + i) = 0 -> load8 m (p2 + i) <> 0) ->
  strncmp m p1 p2 n = Z.sgn (CString.strncmp m p1 p2 n).
Proof.
  intros Hn. unfold strncmp, CString.strncmp.
  rewrite (find_up_ext _ _ _ (fun i => negb (load8 m (p1 + i) =? load8 m (p2 + i)))).
  2:{ intros j Hj. specialize (Hn j ltac:(lia)).
      destruct (Z.eqb_spec (load8 m (p1 + j)) (load8 m (p2 + j))) as [E|E]; [|reflexivity]. cbn [negb orb]. lia. }
  destruct (find_up _ _ _) as [i|] eqn:E; [|reflexivity]. apply find_up_Some in E as (_ & Hp & _). rewrite Hp.
  apply negb_true_iff, Z.eqb_neq in Hp. destruct (Z.ltb_spec (load8 m (p1 + i)) (load8 m (p2 + i))); lia.
Qed.

Lemma strstr_loop_agrees fuel m p1 p2 : strstr_loop fuel m p1 p2 = CString.strstr_loop fuel m p1 p2.
Proof.
  revert p1. induction fuel as [|f IH]; intros p1; [reflexivity|]. cbn [strstr_loop CString.strstr_loop].
  rewrite strncmp_sgn, IH by (intros i Hi _; apply no_nul_before; exact Hi). unfold strlen.
  destruct (load8 m p1 =? 0); [reflexivity|].
  destruct (Z.eqb_spec (CString.strncmp m (p1 + 1) p2 (CString.strlen m p2)) 0) as [-> |H]; [reflexivity|].
  replace (Z.sgn _ =? 0) with false by lia. reflexivity.
Qed.

(** The user library's comparison agrees with the kernel's although its
    loop is different: [strcmp] returns the sign of what the kernel's returns,
    and [strstr] returns the same pointer, for every memory and all pointers. *)
Theorem user_compare_agrees m p1 p2 :
  strcmp m p1 p2 = Z.sgn (CString.strcmp m p1 p2) /\ strstr m p1 p2 = CString.strstr m p1 p2.
Proof.
  split; [|apply strstr_loop_agrees]. unfold strcmp, CString.strcmp. apply strncmp_sgn.
  intros i Hi H. exfalso. exact (no_nul_before _ _ _ Hi H).
Qed.

(** ** Signed decimal numbers *)

(** On a non-negative number the digit loop is the one of [itoa]. *)
Lemma sitoa_digits_itoa k : forall m buffer i num base,
  0 < base -> 0 <= num < 0x100000000 ->
  sitoa_digits k m buffer i num base = fst (KStdlib.itoa_digits k m buffer i num base).
Proof.
  induction k as [|k IH]; intros m buffer i num base Hb Hn; cbn [sitoa_digits KStdlib.itoa_digits]; destruct (num =? 0); try reflexivity.
  rewrite u32_small by assumption. rewrite Z.rem_mod_nonneg, Z.quot_div_nonneg by lia. apply IH; [assumption|].
  split; [apply Z.div_pos; lia|]. pose proof (Z.div_le_upper_bound num base num). nia.
Qed.

(** The decimal text of a number. *)
Definition dec_text (num : Z) : list Z :=
  (if num <? 0 then [45] else []) ++ reverse (digits_le 8 (Z.abs num) 10).

Lemma sitoa_dec m num buffer :
  0 < Z.abs num < 10 ^ 8 ->
  exists m', sitoa m num buffer 10 = (m', buffer) /\ cstr m' buffer (dec_text num) /\
    same_outside buffer (buffer + Z.of_nat (length (dec_text num)) + 1) m m'.
Proof.
  intros Hn. unfold sitoa. replace (num =? 0) with false by lia. cbn [orb Z.eqb].
  assert (Ea : (if num <? 0 then s32 (abs num) else num) = Z.abs num).
  { unfold abs, KStdlib.abs. destruct (Z.ltb_spec num 0); [|lia]. rewrite u32_small, s32_small by lia. lia. }
  rewrite Ea, sitoa_digits_itoa by lia.
  destruct (itoa_digits_spec 8 m buffer 0 (Z.abs num) 10) as (m1 & len & E & _ & Hb & Ho); [lia..|]. rewrite E. clear E.
  set (l := digits_le 8 (Z.abs num) 10) in *. rewrite Z.add_0_r in Hb, Ho. rewrite ?Z.add_0_l. cbn [fst].
  pose proof (digits_le_length 8 (Z.abs num) 10) as Hlen. fold l in Hlen.
  assert (Hl : Forall (fun c => 0 < c < 0x100) l) by (apply digits_le_nonnul; lia).
  assert (Hne : l <> []) by (intros H; apply digits_le_nil in H; lia).
  set (t := l ++ (if num <? 0 then [45] else [])).
  assert (Ht : exists m2, (if num <? 0 then (store8 m1 (buffer + Z.of_nat (length l)) 45, Z.of_nat (length l) + 1)
                           else (m1, Z.of_nat (length l))) = (m2, Z.of_nat (length t)) /\
    cstr (store8 m2 (buffer + Z.of_nat (length t)) 0) buffer t /\ same_outside buffer (buffer + Z.of_nat (length t)) m m2).
  { assert (Hl1 : forall m2, (forall i, 0 <= i < Z.of_nat (length l) -> load8 m2 (buffer + i) = load8 m1 (buffer + i)) ->
      bytes_at m2 buffer (length l) = l) by (intros m2 H; rewrite <- Hb at 2; apply bytes_at_eq; exact H).
    unfold t. destruct (num <? 0).
    - rewrite length_app. cbn [length]. eexists. split; [f_equal; lia|]. split.
      + apply cstr_of_bytes.
        * rewrite length_app, bytes_at_app. f_equal; [apply Hl1; intros i Hi; rewrite !load8_store8_ne by lia; reflexivity|].
          cbn. rewrite Z.add_0_r, load8_store8_ne, load8_store8_eq by lia. reflexivity.
        * apply Forall_app. split; [assumption|]. repeat constructor; lia.
        * rewrite length_app. apply load8_store8_eq.
      + intros a Ha. rewrite load8_store8_ne by lia. apply Ho. lia.
    - rewrite app_nil_r. eexists. split; [reflexivity|]. split; [|intros a Ha; apply Ho; lia].
      apply cstr_of_bytes; [apply Hl1; intros i Hi; apply load8_store8_ne; lia|assumption|apply load8_store8_eq]. }
  destruct Ht as (m2 & -> & Hc & Ho2). unfold strrev. pose proof (strrev_cstr _ _ _ Hc) as Hr.
  destruct (CString.strrev _ _) as [m3 r]. destruct Hr as (-> & Hc3 & Ho3); [unfold t; intros H; apply app_eq_nil in H as [H _]; contradiction|].
  assert (Et : dec_text num = reverse t) by (unfold dec_text, t; fold l; rewrite reverse_app; destruct (num <? 0); reflexivity).
  exists m3. rewrite Et. split; [reflexivity|]. split; [exact Hc3|]. rewrite length_reverse.
  intros a Ha. rewrite Ho3, load8_store8_ne, Ho2 by lia. reflexivity.
Qed.

Lemma dec_text_length num : (length (dec_text num) <= 9)%nat.
Proof.
  unfold dec_text. rewrite length_app, length_reverse. pose proof (digits_le_length 8 (Z.abs num) 10). destruct (num <? 0); cbn [length]; lia.
Qed.

Lemma atoi_dec m p num : 0 < Z.abs num < 10 ^ 8 -> cstr m p (dec_text num) -> atoi m p = num.
Proof.
  intros Hn Hc. unfold dec_text in Hc. set (s := reverse (digits_le 8 (Z.abs num) 10)) in *.
  assert (Hd : Forall (fun c => isdigit c = true) s) by (apply Forall_reverse, digits_le_isdigit; lia).
  assert (Hv : digits_val 10 s = Z.abs num) by (apply digits_le_val; lia).
  destruct (Z.ltb_spec num 0).
  - pose proof (cstr_app_lookup m p [45] s 0 45 Hc eq_refl) as H0. cbn in H0. rewrite Z.add_0_r in H0.
    pose proof (cstr_suffix m p [45] s Hc) as Hs. cbn in Hs.
    unfold atoi, KStdlib.atoi. rewrite (strlen_cstr _ _ _ Hc), Nat2Z.id. unfold char_at at 1. rewrite H0.
    change (s8 45 =? 45) with true. cbn [app length for_up]. unfold atoi_step at 2. unfold char_at. rewrite Z.add_0_r, H0.
    change (isdigit (s8 45)) with false. cbv iota. rewrite (atoi_loop m p s (0 + 1) 0).
    + fold (digits_val 10 s). rewrite Hv. lia.
    + intros i Hi. rewrite (cstr_lookup m (p + 1) s i Hs Hi). do 2 f_equal. lia.
    + assumption.
    + lia.
    + fold (digits_val 10 s). lia.
  - unfold atoi. rewrite (atoi_digits m p s); [lia|assumption|assumption|lia].
Qed.

(** C37: Signed printing and reading.  For every number of up to eight digits,
    negative or not, [sitoa] writes a NUL-terminated decimal text with its sign
    into at most ten bytes, and [atoi] reads the number back. *)
Theorem user_sitoa_atoi_roundtrip m num buffer :
  0 < Z.abs num < 10 ^ 8 ->
  exists m', sitoa m num buffer 10 = (m', buffer) /\ cstr m' buffer (dec_text num) /\ atoi m' buffer = num /\
    same_outside buffer (buffer + 10) m m'.
Proof.
  intros Hn. destruct (sitoa_dec m num buffer Hn) as (m' & E & Hc & Ho).
  exists m'. split; [assumption|]. split; [assumption|]. split; [apply atoi_dec; assumption|].
  pose proof (dec_text_length num). eapply same_outside_weaken; [| |exact Ho]; lia.
Qed.

Lemma user_sitoa_atoi_roundtrip_witness :
  exists m', sitoa ∅ (-1234567) 0x2000 10 = (m', 0x2000) /\ cstr m' 0x2000 (45 :: [49; 50; 51; 52; 53; 54; 55]) /\
    atoi m' 0x2000 = -1234567 /\ same_outside 0x2000 0x200A ∅ m'.
Proof. apply (user_sitoa_atoi_roundtrip ∅ (-1234567) 0x2000). lia. Defined.

(** ** Formatted output *)

(** The text of a signed number. *)
Definition dec_render (d : Z) : list Z := if d =? 0 then [48] else dec_text d.

(** A format made of ordinary characters, [%s], [%x] and [%d]. *)
Inductive upiece := UPlain (p : piece) | UDec (d : Z).
Definition upiece_text (p : upiece) : list Z := match p with UPlain p => piece_text p | UDec _ => [37; 100] end.
Definition upiece_args (p : upiece) : list Z := match p with UPlain p => piece_args p | UDec d => [u32 d] end.
Definition urender (p : upiece) : list Z := match p with UPlain p => render p | UDec d => dec_render d end.

Lemma dec_render_chars d : Z.abs d < 10 ^ 8 -> Forall (fun c => 0 < c < 0x100) (dec_render d).
Proof.
  intros Hd. unfold dec_render. destruct (d =? 0); [repeat constructor; lia|]. unfold dec_text. apply Forall_app.
  split; [destruct (d <? 0); repeat constructor; lia|]. apply Forall_reverse, digits_le_nonnul; lia.
Qed.

Section Render.
Context (str size buf : Z) (m0 : mem).
Context (Hsize : 0 < size <= 0x10000).
Context (Hdisj : str + size <= buf \/ buf + size <= str).

Definition upiece_ok (p : upiece) : Prop :=
  match p with UPlain p => piece_ok str size buf m0 p | UDec d => Z.abs d < 10 ^ 8 end.

Definition ustep (s : fmt) : option fmt :=
  let c := char_at (fm s) (format s) in
  next_char <$> (if c =? 37 then directive str size buf s
   else Some (let s1 := put str c s in MkFmt (fm s1) (format s1) (n s1) (pad s1) 0 (ap s1))).

Lemma user_directive_finish s : directive str size buf s =
  finish str size buf <$> next_format (S (S (Z.to_nat (strlen (fm s) (format s))))) str size buf (next_char s).
Proof using. unfold directive. destruct (next_format _ _ _ _ _); reflexivity. Qed.

(** On [%s] and [%x] the two libraries have the same text. *)
Lemma directive_plain s c : char_at (fm s) (format s + 1) = c -> c = 115 \/ c = 120 ->
  directive str size buf s = Printf.directive str size buf s.
Proof using.
  intros Hc H. rewrite directive_finish, user_directive_finish. unfold strlen.
  set (k := Z.to_nat _). cbn [next_format Printf.next_format next_char fm format].
  rewrite Hc. destruct H as [-> | ->]; cbn [Z.eqb Pos.eqb]; reflexivity.
Qed.

(** [%d] leaves the number, its sign included, in the scratch block. *)
Lemma next_format_dec s k out d :
  inv str size buf m0 (fm s) out -> char_at (fm s) (format s) = 100 -> load32 (fm s) (ap s) = u32 d -> Z.abs d < 10 ^ 8 ->
  has_flag ALWAYS_SIGN s = false -> Z.of_nat (length (dec_render d)) < size ->
  exists m1, next_format (S k) str size buf s = Some (MkFmt m1 (format s) (n s) (pad s) (flags s) (ap s + 4)) /\
    scratch size buf (fm s) m1 (dec_render d).
Proof using.
  intros Hinv Hc Hv Hd Hp Hsz. cbn [next_format]. rewrite Hc. cbn [Z.eqb Pos.eqb].
  assert (Ea : arg_int s = d) by (unfold arg_int; rewrite Hv; unfold s32, u32; dlia). rewrite Ea.
  change (has_flag ALWAYS_SIGN (take_arg 4 s)) with (has_flag ALWAYS_SIGN s). rewrite Hp. cbn [andb].
  change (fm (take_arg 4 s)) with (fm s).
  assert (Hs : exists m1, sitoa (fm s) d buf 10 = (m1, buf) /\ cstr m1 buf (dec_render d) /\
    same_outside buf (buf + Z.of_nat (length (dec_render d)) + 1) (fm s) m1).
  { unfold dec_render. destruct (Z.eqb_spec d 0) as [->|Hne]; [|apply sitoa_dec; lia].
    eexists. split; [reflexivity|]. split.
    - apply cstr_of_bytes; [|repeat constructor; lia|apply load8_store8_eq]. cbn.
      rewrite Z.add_0_r, load8_store8_ne, load8_store8_eq by lia. reflexivity.
    - intros a Ha. cbn in Ha. rewrite !load8_store8_ne by lia. reflexivity. }
  destruct Hs as (m1 & E & Hw & Hf). rewrite E. exists m1. split; [reflexivity|]. split; [exact Hw|].
  split; [|eapply same_outside_weaken; [| |exact Hf]; lia].
  intros a Ha. destruct (Z.eq_dec a (buf + Z.of_nat (length (dec_render d)))) as [->|]; [apply Hw|].
  rewrite Hf by lia. apply (i_buf _ _ _ _ _ _ Hinv). lia.
Qed.

Lemma ustep_plain s out p text args : between str size buf m0 s out (piece_text p ++ text) (piece_args p ++ args) ->
  piece_ok str size buf m0 p -> ustep s = step str size buf s.
Proof using.
  intros Hb Hp. unfold ustep, step. destruct (char_at (fm s) (format s) =? 37) eqn:H37; [|reflexivity].
  enough (E : directive str size buf s = Printf.directive str size buf s) by (rewrite E; reflexivity).
  destruct p as [c|a w|v]; cbn [piece_text app] in Hb.
  - pose proof (cstr_char _ _ _ _ _ _ _ _ 0 c Hb eq_refl) as H. rewrite Z.add_0_r in H. rewrite H in H37. cbn in Hp.
    apply Z.eqb_eq in H37. unfold s8 in H37. exfalso. dlia.
  - apply (directive_plain s 115); [|lia]. apply (cstr_char _ _ _ _ _ _ _ _ 1 115 Hb eq_refl).
  - apply (directive_plain s 120); [|lia]. apply (cstr_char _ _ _ _ _ _ _ _ 1 120 Hb eq_refl).
Qed.

Lemma ustep_dec s out d text args :
  between str size buf m0 s out ([37; 100] ++ text) ([u32 d] ++ args) -> Z.abs d < 10 ^ 8 ->
  2 * (Z.of_nat (length out) + Z.of_nat (length (dec_render d))) < size ->
  exists s', ustep s = Some s' /\ between str size buf m0 s' (out ++ dec_render d) text args.
Proof using Hsize Hdisj.
  intros Hb Hd Hroom. pose proof Hb as [Hinv Hn Hfl Ht Hcl Ha].
  pose proof (cstr_suffix m0 (format s) [37; 100] text Ht) as Ht'. cbn [length] in Ht'.
  assert (Hcl' : clear_of str size buf (format s + 2) (Z.of_nat (length text) + 1)).
  { apply (clear_of_suffix _ _ _ _ 2) in Hcl; [|lia]. rewrite length_app in Hcl. cbn [length] in Hcl.
    replace (Z.of_nat (length text) + 1) with (Z.of_nat (2 + length text) + 1 - 2) by lia. exact Hcl. }
  pose proof (cstr_char _ _ _ _ _ _ _ _ 0 37 Hb eq_refl) as Hc0. rewrite Z.add_0_r in Hc0.
  pose proof (cstr_char _ _ _ _ _ _ _ _ 1 100 Hb eq_refl) as Hc1. change (s8 100) with 100 in Hc1.
  unfold ustep. rewrite Hc0. change (s8 37 =? 37) with true. cbv iota. rewrite user_directive_finish.
  destruct Ha as (Ha & Hac & Ha').
  destruct (next_format_dec (next_char s) (S (Z.to_nat (strlen (fm s) (format s)))) out d) as (m1 & E & Hs); try assumption.
  { cbn [next_char fm ap]. rewrite (inv_load32 _ _ _ _ _ _ _ Hinv Hac). assumption. }
  { unfold has_flag. cbn [next_char flags]. destruct Hfl as [-> | ->]; reflexivity. } { lia. }
  rewrite E. cbn [fmap option_fmap option_map next_char format n pad flags ap fm] in *.
  destruct (finish_spec str size buf m0 Hsize Hdisj (fm s) out (MkFmt m1 (format s + 1) (n s) (pad s) (flags s) (ap s + 4)) (dec_render d))
    as (m' & E' & Hi'); [assumption|exact Hs|unfold has_flag; cbn [flags]; destruct Hfl as [-> | ->]; reflexivity|exact Hn|lia|].
  rewrite E'. eexists. split; [reflexivity|].
  split; cbn [next_char fm format n pad flags ap]; auto; rewrite <- Z.add_assoc; assumption.
Qed.

Lemma user_loop_renders ps : forall fuel s out,
  between str size buf m0 s out (concat (upiece_text <$> ps)) (concat (upiece_args <$> ps)) -> Forall upiece_ok ps ->
  (length ps <= fuel)%nat -> 2 * (Z.of_nat (length out) + Z.of_nat (length (concat (urender <$> ps)))) < size ->
  exists s', vsnprintf_loop fuel str size buf s = Some s' /\ inv str size buf m0 (fm s') (out ++ concat (urender <$> ps)) /\
    n s' = Z.of_nat (length (out ++ concat (urender <$> ps))).
Proof using Hsize Hdisj.
  induction ps as [|p ps IH]; intros fuel s out Hb Hok Hf Hroom.
  - exists s. cbn [concat fmap list_fmap]. rewrite app_nil_r. destruct Hb as [Hi Hn _ Ht Hc _]. cbn in Ht.
    assert (E : char_at (fm s) (format s) = 0).
    { pose proof (inv_cstr _ _ _ _ _ _ _ _ Hi Ht Hc) as [_ (_ & Hz & _)]. cbn in Hz. rewrite Z.add_0_r in Hz. unfold char_at.
      rewrite Hz. reflexivity. }
    split; [destruct fuel; cbn [vsnprintf_loop]; rewrite E; reflexivity|]. auto.
  - destruct fuel as [|f]; [cbn in Hf; lia|]. cbn [fmap list_fmap concat length] in *. apply Forall_cons in Hok as [Hp Hok].
    rewrite length_app in Hroom.
    assert (Hst : exists s1, ustep s = Some s1 /\ between str size buf m0 s1 (out ++ urender p) (concat (upiece_text <$> ps)) (concat (upiece_args <$> ps))).
    { destruct p as [p|d]; [|apply ustep_dec; [exact Hb|exact Hp|cbn in Hroom |- *; lia]].
      rewrite (ustep_plain s out p _ _ Hb Hp). apply (between_step str size buf m0 Hsize Hdisj); [exact Hb|exact Hp|cbn in Hroom |- *; lia]. }
    destruct Hst as (s1 & E & Hb1).
    destruct (IH f s1 (out ++ urender p) Hb1 Hok) as (s' & E' & Hi & Hn); [lia|rewrite length_app; lia|].
    exists s'. rewrite app_assoc. split; [|auto].
    cbn [vsnprintf_loop]. assert (Hc : (char_at (fm s) (format s) =? 0) = false).
    { pose proof (cstr_char _ _ _ _ _ _ _ _ 0 (default 0 (head (upiece_text p))) Hb) as Hc. rewrite Z.add_0_r in Hc.
      destruct p as [[c| |]|]; cbn in Hc, Hp; rewrite (Hc eq_refl); [|reflexivity..]. unfold s8. dlia. }
    rewrite Hc. replace (size <=? n s) with false by (destruct Hb as [_ -> _ _ _ _]; lia). cbn [orb].
    unfold ustep in E. destruct (if _ =? 37 then _ else _) as [s2|]; [|discriminate]. injection E as <-. exact E'.
Qed.
End Render.

Lemma upiece_text_length ps : (length ps <= length (concat (upiece_text <$> ps)))%nat.
Proof.
  induction ps as [|p ps IH]; [reflexivity|]. cbn [fmap list_fmap concat length]. rewrite length_app.
  destruct p as [[]|]; cbn [upiece_text piece_text length]; lia.
Qed.

(** C31: the user library's [vsnprintf] on a format of ordinary characters,
    [%s], [%x] and [%d], with numbers of up to eight digits for [%d], prints
    the characters, the strings, eight hexadecimal digits and the signed decimal
    number in order.  The output buffer holds that text, terminated, the
    returned length is the text's, and memory outside the output and scratch
    buffers is unchanged.  The text must fill less than half of the buffer. *)
Theorem user_vsnprintf_renders m str size fmtp args buf ps :
  0 < size <= 0x10000 -> str + size <= buf \/ buf + size <= str ->
  cstr m fmtp (concat (upiece_text <$> ps)) ->
  clear_of str size buf fmtp (Z.of_nat (length (concat (upiece_text <$> ps))) + 1) ->
  args_at str size buf m args (concat (upiece_args <$> ps)) ->
  Forall (upiece_ok str size buf m) ps ->
  let text := concat (urender <$> ps) in
  2 * Z.of_nat (length text) < size ->
  exists m', vsnprintf m str size fmtp args buf = Some (m', Z.of_nat (length text)) /\ cstr m' str text /\
    (forall a, outside str size buf a -> load8 m' a = load8 m a).
Proof.
  intros Hsz Hd Ht Hcl Ha Hok text Hroom. unfold vsnprintf, memset.
  pose proof (cleared_inv str size buf m) as Hi. set (m1 := CString.memset _ buf 0 size) in *.
  destruct (user_loop_renders str size buf m Hsz Hd ps (strfuel m1) (MkFmt m1 fmtp 0 0 0 args) []) as (s' & E & Hi' & Hn).
  { split; auto. }
  { assumption. }
  { pose proof (inv_cstr _ _ _ _ _ _ _ _ Hi Ht Hcl) as Hc. apply cstr_fuel in Hc. pose proof (upiece_text_length ps). lia. }
  { cbn [length]. exact Hroom. }
  rewrite E. cbn [app] in *. fold text in Hi', Hn. exists (fm s'). rewrite Hn. split; [reflexivity|].
  split; [|apply (i_out _ _ _ _ _ _ Hi')]. apply (inv_holds str size buf m _ text Hi'); [|lia].
  unfold text. clear -Hok. induction Hok as [|p ps Hp _ IH]; [constructor|]. cbn [fmap list_fmap concat]. apply Forall_app.
  split; [|auto]. destruct p as [p|d]; [apply (render_chars _ _ _ _ p Hp)|apply dec_render_chars, Hp].
Qed.

(** An instance: "%s=%d", with the number -12. *)
Definition udemo_fmt : mem :=
  store32 (store32 (put_str (put_str ∅ 0x1000 [37; 115; 61; 37; 100]) 0x2000 [111; 107]) 0x3000 0x2000) 0x3004 0xFFFFFFF4.
Definition udemo_pieces : list upiece := [UPlain (PStr 0x2000 [111; 107]); UPlain (PChar 61); UDec (-12)].

Lemma user_vsnprintf_renders_witness :
  exists m', vsnprintf udemo_fmt 0x8000 0x100 0x1000 0x3000 0x9000 = Some (m', 6) /\
    cstr m' 0x8000 [111; 107; 61; 45; 49; 50] /\
    (forall a, outside 0x8000 0x100 0x9000 a -> load8 m' a = load8 udemo_fmt a).
Proof.
  assert (Hc : forall a len, a + len <= 0x8000 -> clear_of 0x8000 0x100 0x9000 a len) by (intros a len H i Hi; split; lia).
  apply (user_vsnprintf_renders udemo_fmt 0x8000 0x100 0x1000 0x3000 0x9000 udemo_pieces); [lia|lia| | | | |].
  - apply is_cstr_sound. vm_compute. reflexivity.
  - apply Hc. vm_compute. discriminate.
  - cbn [udemo_pieces fmap list_fmap upiece_args piece_args concat app args_at].
    repeat (split; [vm_compute; reflexivity|split; [apply Hc; lia|]]). exact I.
  - repeat (apply Forall_cons_2; [cbn; try lia; auto|]); [|apply Forall_nil_2].
    split; [apply is_cstr_sound; vm_compute; reflexivity|apply Hc; cbn; lia].
  - vm_compute. reflexivity.
Defined.

(** [%i] writes the minus sign of a negative number, and [sitoa] writes it
    again: [-5] is printed as "--5", and as "-5" by [%d]. *)
Definition demo_neg (conv : Z) : mem := store32 (put_str ∅ 0x1000 [37; conv]) 0x3000 (-5).
Lemma user_percent_i_doubles_sign :
  (fun r => bytes_at (fst r) 0x8000 4) <$> vsnprintf (demo_neg 105) 0x8000 0x100 0x1000 0x3000 0x9000 = Some [45; 45; 53; 0] /\
  (fun r => bytes_at (fst r) 0x8000 4) <$> vsnprintf (demo_neg 100) 0x8000 0x100 0x1000 0x3000 0x9000 = Some [45; 53; 0; 0] /\
  (fun r => bytes_at (fst r) 0x8000 4) <$> Printf.vsnprintf (demo_neg 105) 0x8000 0x100 0x1000 0x3000 0x9000 = Some [45; 53; 0; 0].
Proof. split; [|split]; vm_compute; reflexivity. Qed.
