(* ===== verification/Ext2Touch.v ===== *)
(** * kernel/fs/ext2_debug.c: creating a file

    [ext2_touch] writes a new file: it allocates an inode and blocks, writes
    the data, the inode, an entry in the root directory and the counters of
    the superblock and the block group.  The model works on the buffer cache
    of [Ext2] as the code does, in place.

    [scratch k] is the block the [k]-th bitmap copy of the call gets from
    [malloc], [i] the block [malloc(sizeof(inode))] returns, and [clock k] the
    [k]-th value [time()] returns.  [sizeof(dirent)] is 263: the name is an
    array of 255 bytes inside the structure. *)

From stdpp Require Import base numbers list gmap.
From Stdlib Require Import ZArith Lia.
From S2P Require Import Prelude Memory CString Mm Ext2 Elf.
Open Scope Z_scope.

Definition DIRENT_SIZE : Z := 263.
(** [(sizeof(dirent) + name_len + 4) & ~0x3] *)
Definition entry_calc (name_len : Z) : Z := (DIRENT_SIZE + name_len + 4) .& Z.lnot 3.

(** [x--] on a counter in memory. *)
Definition dec32 (a : Z) (m : mem) : mem := store32 m a (load32 m a - 1).
Definition dec16 (a : Z) (m : mem) : mem := store16 m a (load16 m a - 1).
Definition on_mem (f : mem -> mem) : M fs_state unit := modify (fun st => set_fs_mem (f (fs_mem st)) st).

(** Where the search for the end of the directory stops. *)
Inductive room := Room (m : mem) (d : Z) | Full.

(** [do ... while (sum < 1024)] over the entries of the block. *)
Fixpoint find_room (fuel : nat) (m : mem) (d sum new_entry_len : Z) : option room :=
  match fuel with
  | O => None
  | S f =>
      let calc := entry_calc (d_name_len m d) in
      let sum := sum + d_rec_len m d in
      if negb (d_rec_len m d =? calc) && (sum =? 1024) then
        let sum := sum - d_rec_len m d in
        if 1024 <? sum + new_entry_len then Some Full
        else
          let m := store16 m (d + 4) calc in
          Some (Room m (d + d_rec_len m d))
      else
        let d := d + d_rec_len m d in
        if sum <? 1024 then find_room f m d sum new_entry_len else Some (Room m d)
  end.

(** [for (int q = 0; q < strlen(name); q++) d->name[q] = name[q];] *)
Fixpoint copy_dname (fuel : nat) (m : mem) (d name q : Z) : mem :=
  match fuel with
  | O => m
  | S f => if q <? strlen m name then copy_dname f (store8 m (d_name d + q) (load8 m (name + q))) d name (q + 1) else m
  end.

Section touch.
Context `{BC : BlockCache} (scratch clock : Z -> Z).

Definition init_inode (i n : Z) (m : mem) : mem :=
  let m := store16 m i 0x81C0 in
  let m := store32 m (i + 4) n in
  let m := store32 m (i + 8) (clock 0) in
  let m := store32 m (i + 12) (clock 1) in
  let m := store32 m (i + 16) (clock 2) in
  let m := store32 m (i + 20) 0 in
  store16 m (i + 26) 1.

(** The three cases that record block number [q] of the file; the results are
    [block_num] and [indirect] afterwards. *)
Definition link_block (i q block_num indirect : Z) : M fs_state (Z * Z) :=
  if q <? 12 then
    on_mem (fun m => store32 m (i + 40 + 4 * q) block_num) ;;;
    ret (block_num, indirect)
  else if q =? 12 then
    let indirect := block_num in
    on_mem (fun m => store32 m (i + 40 + 4 * q) indirect) ;;;
    block_num <-- ext2_alloc_block (scratch (2 * q + 2)) ;;
    modify (ext2_write_indirect indirect block_num 0) ;;;
    ret (block_num, indirect)
  else if q <? BLOCK_SIZE / 4 + 12 then
    modify (ext2_write_indirect indirect block_num (q - 12)) ;;;
    ret (block_num, indirect)
  else ret (block_num, indirect).

(** One round of the loop that writes the data; [c] bytes from position [q]. *)
Definition write_block (s bg i data q c indirect : Z) : M fs_state Z :=
  block_num <-- ext2_alloc_block (scratch (2 * q + 1)) ;;
  l <-- link_block i q block_num indirect ;;
  on_mem (fun m => store32 m (i + 28) (load32 m (i + 28) + 2)) ;;;
  on_mem (fun m => memset m (blk 1 l.1) 0 BLOCK_SIZE) ;;;
  on_mem (fun m => memcpy m (blk 1 l.1) (u32 (data + q * BLOCK_SIZE)) (u32 c)) ;;;
  modify (buffer_write 1 l.1) ;;;
  on_mem (dec32 (s + 12)) ;;;
  on_mem (dec16 (bg + 12)) ;;;
  ret l.2.

(** [while (sz)] *)
Fixpoint write_loop (fuel : nat) (s bg i data sz q indirect : Z) : M fs_state Z :=
  if sz =? 0 then ret indirect
  else match fuel with
       | O => fun _ => Spin
       | S f =>
           let c := if BLOCK_SIZE <=? sz then BLOCK_SIZE else sz in
           indirect <-- write_block s bg i data q c indirect ;;
           write_loop f s bg i data (sz - c) (q + 1) indirect
       end.

(** The data and the inode's block list. *)
Definition write_data (s bg i data n : Z) : M fs_state unit :=
  on_mem (init_inode i n) ;;;
  indirect <-- write_loop (S (S (Z.to_nat (s32 n / BLOCK_SIZE)))) s bg i data (s32 n) 0 0 ;;
  modify (fun st => ext2_write_indirect indirect 0 (load32 (fs_mem st) (i + 28) / 2) st) ;;;
  on_mem (fun m => store32 m (i + 28) (load32 m (i + 28) + 2)).

(** The inode goes to its place in the table; the result is the descriptor of
    its block group. *)
Definition write_inode (s bg i inode_num : Z) : M fs_state Z := fun st =>
  let m := fs_mem st in
  let ipg := sb_inodes_per_group m s in
  let block_group := u32 (inode_num - 1) / ipg in
  let index := u32 (inode_num - 1) mod ipg in
  let block := u32 (index * INODE_SIZE) / BLOCK_SIZE in
  let offset := (index mod (BLOCK_SIZE / INODE_SIZE)) * INODE_SIZE in
  let bg := bg + BGD_SIZE * block_group in
  let nb := bg_inode_table m bg + block in
  Ok bg (buffer_write 1 nb (set_fs_mem (memcpy m (blk 1 nb + offset) i INODE_SIZE) st)).

(** The new entry at the end of the root directory; [false] when there is no
    room for it. *)
Definition write_entry (name inode_num : Z) : M fs_state bool := fun st =>
  let m := fs_mem st in
  let rootdir := ext2_inode m 1 2 in
  let rb := i_block m rootdir 0 in
  let data := blk 1 rb in
  let new_entry_len := entry_calc (strlen m name) in
  match find_room 1025 m data 0 new_entry_len with
  | None => Spin
  | Some Full => Ok false st
  | Some (Room m d) =>
      let m := store16 m (d + 4) (BLOCK_SIZE - (d - data)) in
      let m := store32 m d inode_num in
      let m := store8 m (d + 7) 1 in
      let m := store8 m (d + 6) (strlen m name) in
      let m := copy_dname (strfuel m) m d name 0 in
      Ok true (buffer_write 1 rb (set_fs_mem m st))
  end.

Definition ext2_touch (name data n i : Z) : M fs_state Z :=
  m <-- gets fs_mem ;;
  let s := ext2_superblock m 1 in
  let bg := ext2_blockdesc 1 in
  inode_num <-- ext2_alloc_inode (scratch 0) ;;
  write_data s bg i data n ;;;
  bg <-- write_inode s bg i inode_num ;;
  ok <-- write_entry name inode_num ;;
  if negb ok then ret NULL
  else
    on_mem (dec32 (s + 16)) ;;;
    on_mem (fun m => store32 m (s + 48) (clock 3)) ;;;
    modify (fun st => snd (ext2_superblock_rw 1 s st)) ;;;
    on_mem (dec16 (bg + 14)) ;;;
    modify (fun st => snd (ext2_blockdesc_rw 1 bg st)) ;;;
    ret inode_num.
End touch.

(** ** Places in memory *)

Definition in_rng (p len a : Z) : Prop := p <= a < p + len.
Definition in_blk `{BC : BlockCache} (n a : Z) : Prop := in_rng (blk 1 n) BLOCK_SIZE a.

Lemma in_blk_inj `{BC : BlockCache} n k a : in_blk n a -> in_blk k a -> n = k.
Proof.
  unfold in_blk, in_rng. intros H1 H2. destruct (Z.eq_dec n k) as [|Hne]; [assumption|].
  pose proof (blk_disjoint 1 n k Hne). lia.
Qed.

Lemma load8_store16_ne m a v b : ~ in_rng a 2 b -> load8 (store16 m a v) b = load8 m b.
Proof. unfold in_rng. intros. unfold store16. rewrite !load8_store8_ne by lia. reflexivity. Qed.
Lemma load8_store32_off m a v b : ~ in_rng a 4 b -> load8 (store32 m a v) b = load8 m b.
Proof. unfold in_rng. intros. apply load8_store32_ne. lia. Qed.
Lemma load8_memset_off m s c n b : ~ in_rng s n b -> load8 (memset m s c n) b = load8 m b.
Proof. unfold in_rng. intros. apply (memset_same_outside m s c n). lia. Qed.
Lemma load8_memcpy_off m d s n b : ~ in_rng d n b -> load8 (memcpy m d s n) b = load8 m b.
Proof. unfold in_rng. intros. apply (memcpy_same_outside m d s n). lia. Qed.

(** Memory read at four, or two, consecutive places. *)
Lemma load32_same m1 m2 a : (forall x, in_rng a 4 x -> load8 m2 x = load8 m1 x) -> load32 m2 a = load32 m1 a.
Proof. intros H. apply load32_ext. intros i Hi. apply H. unfold in_rng. lia. Qed.
Lemma load16_same m1 m2 a : (forall x, in_rng a 2 x -> load8 m2 x = load8 m1 x) -> load16 m2 a = load16 m1 a.
Proof. intros H. unfold load16. rewrite !H by (unfold in_rng; lia). reflexivity. Qed.
Lemma bit_used_same m1 m2 b r :
  0 <= r < 8192 -> (forall x, in_rng b 1024 x -> load8 m2 x = load8 m1 x) -> bit_used m2 b r = bit_used m1 b r.
Proof. intros Hr H. apply bit_used_copy; [|assumption]. intros x Hx. apply H. unfold in_rng. lia. Qed.

(** Ranges without a common address are one before the other. *)
Lemma rng_sep p l q k :
  0 < l -> 0 < k -> (forall a, in_rng p l a -> in_rng q k a -> False) -> p + l <= q \/ q + k <= p.
Proof.
  unfold in_rng. intros Hl Hk H. destruct (Z.le_gt_cases (p + l) q); [lia|]. destruct (Z.le_gt_cases (q + k) p); [lia|].
  exfalso. apply (H (Z.max p q)); lia.
Qed.

(** The areas the call works on besides the cached blocks: the bitmap copies,
    the new inode, the name [w] and the data. *)
Inductive site := Blk (n : Z) | Scr | Ino | Name | Data.

Section sites.
Context `{BC : BlockCache} (scratch : Z -> Z) (i name data len n : Z).

Definition at_site (s : site) (a : Z) : Prop :=
  match s with
  | Blk b => in_blk b a
  | Scr => exists t, in_rng (scratch t) BLOCK_SIZE a
  | Ino => in_rng i INODE_SIZE a
  | Name => in_rng name (len + 1) a
  | Data => in_rng data n a
  end.

(** The areas [malloc] handed out are apart from each other and from the
    cached blocks. *)
Definition areas_apart : Prop := forall s1 s2 a, at_site s1 a -> at_site s2 a -> s1 = s2.
End sites.

Section write_block.
Context `{BC : BlockCache} (scratch : Z -> Z) (i name data len n : Z).
Hypothesis Hap : areas_apart scratch i name data len n.
Local Notation at_site := (at_site scratch i name data len n).

Lemma not_at s1 s2 a : at_site s1 a -> s1 <> s2 -> ~ at_site s2 a.
Proof using Hap. intros H1 Hne H2. apply Hne. exact (Hap _ _ _ H1 H2). Qed.

Lemma scr_at t a : in_rng (scratch t) BLOCK_SIZE a -> at_site Scr a.
Proof. intros H. exists t. exact H. Qed.

(** Addresses [write_block] does not write. *)
Record kept_by (bb r q a : Z) : Prop := {
  kb_bb : ~ at_site (Blk bb) a;
  kb_new : ~ at_site (Blk (r + 1)) a;
  kb_scr : ~ at_site Scr a;
  kb_cnt : ~ in_rng (i + 28) 4 a;
  kb_ptr : ~ in_rng (i + 40 + 4 * q) 4 a;
  kb_sb : ~ in_rng (blk 1 1 + 12) 4 a;
  kb_bg : ~ in_rng (blk 1 2 + 12) 2 a;
}.

Record block_written (bb r q c : Z) (st st' : fs_state) : Prop := {
  bw_bits : forall x, 0 <= x < 8192 -> bit_used (fs_mem st') (blk 1 bb) x = (x =? r) || bit_used (fs_mem st) (blk 1 bb) x;
  bw_cnt : load32 (fs_mem st') (i + 28) = u32 (load32 (fs_mem st) (i + 28) + 2);
  bw_ptr : load32 (fs_mem st') (i + 40 + 4 * q) = r + 1;
  bw_data : forall x, 0 <= x < 1024 -> load8 (fs_mem st') (blk 1 (r + 1) + x) =
    if x <? c then load8 (fs_mem st) (data + q * 1024 + x) else 0;
  bw_kept : forall a, kept_by bb r q a -> load8 (fs_mem st') a = load8 (fs_mem st) a;
}.

Lemma write_block_ok st bb r q c ind :
  bg_block_bitmap (fs_mem st) (blk 1 2) = bb -> 0 <= r < 8192 ->
  bit_used (fs_mem st) (blk 1 bb) r = false -> (forall j, 0 <= j < r -> bit_used (fs_mem st) (blk 1 bb) j = true) ->
  bb <> 1 -> bb <> 2 -> bb <> r + 1 -> r + 1 <> 1 -> r + 1 <> 2 ->
  0 <= q < 12 -> 0 < c <= 1024 -> q * 1024 + c <= n -> 0 <= data -> data + n < 0x100000000 ->
  exists st', write_block scratch (blk 1 1) (blk 1 2) i data q c ind st = Ok ind st' /\ block_written bb r q c st st'.
Proof.
  intros Hbb Hr Hf Hl N1 N2 N3 N4 N5 Hq Hc Hn Hd1 Hd2. unfold write_block.
  destruct (alloc_bit_spec st bb (scratch (2 * q + 1)) r) as (st1 & E1 & _ & Hbits & Hfr1);
    [|assumption|assumption|assumption|].
  { apply rng_sep; [reflexivity..|]. intros a Ha Hb. exact (not_at (Blk bb) Scr a Hb ltac:(discriminate) (scr_at _ _ Ha)). }
  assert (Ea : ext2_alloc_block (scratch (2 * q + 1)) st = Ok (r + 1) st1)
    by (unfold ext2_alloc_block; change (ext2_blockdesc 1) with (blk 1 2); rewrite Hbb; exact E1).
  rewrite (bind_Ok _ _ _ _ _ Ea). unfold link_block. replace (q <? 12) with true by lia.
  unfold on_mem, bind, modify, ret. cbn [fst snd fs_mem set_fs_mem buffer_write].
  rewrite (u32_small (data + _)), (u32_small c) by (unfold BLOCK_SIZE; lia).
  eexists. split; [reflexivity|]. cbn [fs_mem set_fs_mem buffer_write].
  set (m1 := fs_mem st1) in *. set (m2 := store32 m1 _ _). set (m3 := store32 m2 _ _).
  set (m4 := memset m3 _ _ _). set (m5 := memcpy m4 _ _ _).
  assert (H75 : forall a, ~ in_rng (blk 1 1 + 12) 4 a -> ~ in_rng (blk 1 2 + 12) 2 a ->
    load8 (dec16 (blk 1 2 + 12) (dec32 (blk 1 1 + 12) m5)) a = load8 m5 a).
  { intros a Ha Hb. unfold dec16, dec32. rewrite load8_store16_ne, load8_store32_off by assumption. reflexivity. }
  set (m7 := dec16 _ _) in *.
  assert (H53 : forall a, ~ in_blk (r + 1) a -> load8 m5 a = load8 m3 a).
  { intros a Ha. unfold m5, m4. rewrite load8_memcpy_off by (unfold in_blk, in_rng, BLOCK_SIZE in *; lia).
    apply load8_memset_off. exact Ha. }
  assert (Hcnt : forall b a, b <> 1 -> b <> 2 -> in_blk b a -> ~ in_rng (blk 1 1 + 12) 4 a /\ ~ in_rng (blk 1 2 + 12) 2 a).
  { intros b a Hb1 Hb2 Ha. split; intros H; [apply Hb1|apply Hb2]; apply (in_blk_inj _ _ a Ha); unfold in_blk, in_rng, BLOCK_SIZE in *; lia. }
  assert (Hino : forall a, in_rng i INODE_SIZE a -> load8 m7 a = load8 m3 a).
  { intros a Ha. assert (Hno : forall b, ~ in_blk b a) by (intros b; apply (not_at Ino (Blk b) a Ha); discriminate).
    pose proof (Hno 1) as X1. pose proof (Hno 2) as X2.
    rewrite H75 by (unfold in_blk, in_rng, BLOCK_SIZE in *; lia). apply H53, Hno. }
  assert (Hout : forall a, in_rng i INODE_SIZE a -> load8 m1 a = load8 (fs_mem st) a).
  { intros a Ha. pose proof (not_at Ino (Blk bb) a Ha ltac:(discriminate)) as X1.
    pose proof (not_at Ino Scr a Ha ltac:(discriminate)) as X2.
    assert (X3 : ~ in_rng (scratch (2 * q + 1)) BLOCK_SIZE a) by (intros H; exact (X2 (scr_at _ _ H))).
    cbn in X1. unfold in_blk, in_rng in *. apply Hfr1; lia. }
  split.
  - intros x Hx. rewrite <- Hbits by assumption. apply bit_used_same; [assumption|]. intros a Ha.
    change (in_blk bb a) in Ha. destruct (Hcnt bb a N1 N2 Ha) as [X1 X2]. rewrite H75 by assumption.
    rewrite H53 by (intros H; apply N3; exact (in_blk_inj _ _ a Ha H)).
    pose proof (not_at (Blk bb) Ino a Ha ltac:(discriminate)) as X3. cbn in X3. unfold in_rng, INODE_SIZE in X3.
    unfold m3, m2. rewrite !load8_store32_off by (unfold in_rng; lia). reflexivity.
  - rewrite (load32_same m3) by (intros x Hx; apply Hino; unfold in_rng, INODE_SIZE in *; lia). unfold m3.
    rewrite load32_store32_eq. do 2 f_equal. rewrite (load32_same m1).
    + apply load32_same. intros x Hx. apply Hout. unfold in_rng, INODE_SIZE in *. lia.
    + intros x Hx. apply load8_store32_off. unfold in_rng in *. lia.
  - rewrite (load32_same m3) by (intros x Hx; apply Hino; unfold in_rng, INODE_SIZE in *; lia). unfold m3.
    rewrite load32_store32_ne by lia. unfold m2. rewrite load32_store32_eq. apply u32_small. lia.
  - intros x Hx. assert (Hb : in_blk (r + 1) (blk 1 (r + 1) + x)) by (unfold in_blk, in_rng, BLOCK_SIZE; lia).
    destruct (Hcnt (r + 1) _ N4 N5 Hb) as [X1 X2]. rewrite H75 by assumption. unfold m5, BLOCK_SIZE.
    assert (Hsrc : forall y, 0 <= y < c -> at_site Data (data + q * 1024 + y)) by (intros y Hy; cbn; unfold in_rng; lia).
    rewrite load8_memcpy.
    2:{ destruct (rng_sep (blk 1 (r + 1)) 1024 (data + q * 1024) c) as [|H]; [lia|lia| |left; lia|right; lia].
        intros a Ha Ha'. refine (not_at (Blk (r + 1)) Data a Ha ltac:(discriminate) _). cbn. unfold in_rng in *. lia. }
    replace (blk 1 (r + 1) <=? blk 1 (r + 1) + x) with true by lia. cbn [andb].
    replace (blk 1 (r + 1) + x <? blk 1 (r + 1) + c) with (x <? c) by lia.
    destruct (Z.ltb_spec x c).
    + replace (blk 1 (r + 1) + x - blk 1 (r + 1)) with x by lia. specialize (Hsrc x ltac:(lia)).
      pose proof (not_at Data (Blk (r + 1)) _ Hsrc ltac:(discriminate)) as Y1.
      pose proof (not_at Data Ino _ Hsrc ltac:(discriminate)) as Y2.
      pose proof (not_at Data (Blk bb) _ Hsrc ltac:(discriminate)) as Y3.
      assert (Y4 : ~ in_rng (scratch (2 * q + 1)) BLOCK_SIZE (data + q * 1024 + x))
        by (intros H'; exact (not_at Data Scr _ Hsrc ltac:(discriminate) (scr_at _ _ H'))).
      unfold m4. rewrite load8_memset_off by exact Y1. cbn in Y2, Y3. unfold in_blk, in_rng, INODE_SIZE in *.
      unfold m3, m2. rewrite !load8_store32_off by (unfold in_rng; lia). apply Hfr1; lia.
    + unfold m4. rewrite load8_memset. unfold BLOCK_SIZE. replace (blk 1 (r + 1) <=? blk 1 (r + 1) + x) with true by lia.
      replace (blk 1 (r + 1) + x <? blk 1 (r + 1) + 1024) with true by lia. reflexivity.
  - intros a [K1 K2 K3 K4 K5 K6 K7]. rewrite H75, H53 by assumption. unfold m3, m2.
    rewrite !load8_store32_off by assumption.
    assert (K8 : ~ in_rng (scratch (2 * q + 1)) BLOCK_SIZE a) by (intros H; exact (K3 (scr_at _ _ H))).
    cbn in K1. unfold in_blk, in_rng in *. apply Hfr1; lia.
Qed.

(** The blocks the file gets: the first free bits of the bitmap in order. *)
Record free_blocks (m : mem) (bb k : Z) (fr : Z -> Z) : Prop := {
  fb_range : forall j, 0 <= j < k -> 0 <= fr j < 8192;
  fb_free : forall j, 0 <= j < k -> bit_used m (blk 1 bb) (fr j) = false;
  fb_inc : forall j j', 0 <= j < j' -> j' < k -> fr j < fr j';
  fb_first : forall j x, 0 <= j < k -> 0 <= x < fr j ->
    bit_used m (blk 1 bb) x = true \/ exists j', 0 <= j' < j /\ x = fr j';
}.

Context (m0 : mem) (bb k : Z) (fr : Z -> Z).
Hypothesis Hfb : free_blocks m0 bb k fr.
Hypothesis Hbb : bg_block_bitmap m0 (blk 1 2) = bb.
Hypothesis Hbb1 : bb <> 1 /\ bb <> 2.
Hypothesis Hmeta : forall j, 0 <= j < k -> fr j + 1 <> 1 /\ fr j + 1 <> 2 /\ fr j + 1 <> bb.
Hypothesis Hk : k = (n + 1023) / 1024.
Hypothesis Hn : 0 <= n <= 11 * 1024.
Hypothesis Hdata : 0 <= data /\ data + n < 0x100000000.

(** Addresses that keep their value while the first [q] blocks are written. *)
Record untouched (q a : Z) : Prop := {
  un_bb : ~ at_site (Blk bb) a;
  un_scr : ~ at_site Scr a;
  un_new : forall j, 0 <= j < q -> ~ at_site (Blk (fr j + 1)) a;
  un_cnt : ~ in_rng (i + 28) 4 a;
  un_ptr : ~ in_rng (i + 40) (4 * q) a;
  un_sb : ~ in_rng (blk 1 1 + 12) 4 a;
  un_bg : ~ in_rng (blk 1 2 + 12) 2 a;
}.

Record written_upto (q : Z) (st : fs_state) : Prop := {
  wu_bits : forall x, 0 <= x < 8192 -> bit_used (fs_mem st) (blk 1 bb) x = true <->
    bit_used m0 (blk 1 bb) x = true \/ exists j, 0 <= j < q /\ x = fr j;
  wu_cnt : load32 (fs_mem st) (i + 28) = 2 * q;
  wu_ptr : forall j, 0 <= j < q -> load32 (fs_mem st) (i + 40 + 4 * j) = fr j + 1;
  wu_data : forall j x, 0 <= j < q -> 0 <= x < 1024 -> load8 (fs_mem st) (blk 1 (fr j + 1) + x) =
    if 1024 * j + x <? n then load8 m0 (data + (1024 * j + x)) else 0;
  wu_kept : forall a, untouched q a -> load8 (fs_mem st) a = load8 m0 a;
}.

(** Places of blocks other than those written. *)
Lemma untouched_blk q b a : 0 <= q <= k -> in_blk b a -> b <> bb -> (forall j, 0 <= j < q -> b <> fr j + 1) ->
  ~ in_rng (blk 1 1 + 12) 4 a -> ~ in_rng (blk 1 2 + 12) 2 a -> untouched q a.
Proof using All.
  intros Hq Ha Hb Hj H1 H2. pose proof (not_at (Blk b) Ino a Ha ltac:(discriminate)) as Hi. cbn in Hi. unfold in_rng, INODE_SIZE in Hi.
  assert (k <= 11) by (subst k; dlia).
  split; try assumption; try (unfold in_rng; lia).
  - apply (not_at (Blk b)); [assumption|congruence].
  - apply (not_at (Blk b)); [assumption|discriminate].
  - intros j Hj'. apply (not_at (Blk b)); [assumption|]. intros [= E]. exact (Hj j Hj' E).
Qed.

Lemma untouched_data q a : 0 <= q <= k -> in_rng data n a -> untouched q a.
Proof using All.
  intros Hq Ha. change (at_site Data a) in Ha.
  pose proof (not_at Data Ino a Ha ltac:(discriminate)) as Hi. cbn in Hi. unfold in_rng, INODE_SIZE in Hi.
  pose proof (not_at Data (Blk 1) a Ha ltac:(discriminate)) as H1. pose proof (not_at Data (Blk 2) a Ha ltac:(discriminate)) as H2.
  cbn in H1, H2. unfold in_blk, in_rng, BLOCK_SIZE in H1, H2.
  assert (k <= 11) by (subst k; dlia).
  split; try (unfold in_rng; lia); try (intros j Hj); apply (not_at Data); assumption || discriminate.
Qed.

Lemma write_block_step q st : written_upto q st -> 0 <= q < k ->
  exists st', write_block scratch (blk 1 1) (blk 1 2) i data q (Z.min 1024 (n - 1024 * q)) 0 st = Ok 0 st' /\
    written_upto (q + 1) st'.
Proof using All.
  intros [Wb Wc Wp Wd Wk] Hq. assert (Hk11 : k <= 11) by (subst k; dlia). assert (Hqn : 1024 * q < n) by (subst k; dlia).
  destruct (Hmeta q Hq) as (M1 & M2 & M3). pose proof (fb_range _ _ _ _ Hfb q Hq) as Hr.
  assert (Hnew : forall j, 0 <= j < q -> fr j < fr q) by (intros j Hj; apply (fb_inc _ _ _ _ Hfb); lia).
  destruct (write_block_ok st bb (fr q) q (Z.min 1024 (n - 1024 * q)) 0) as (st' & E & [Bb Bc Bp Bd Bk]);
    try lia; try tauto.
  { unfold bg_block_bitmap. rewrite <- Hbb. apply load32_same. intros x Hx. apply Wk.
    apply (untouched_blk q 2); try lia; unfold in_blk, in_rng, BLOCK_SIZE in *; try lia.
    - intros j Hj. destruct (Hmeta j ltac:(lia)) as (_ & X & _). congruence.
    - intros H. assert (1 = 2) by (apply (in_blk_inj _ _ x); unfold in_blk, in_rng, BLOCK_SIZE; lia). lia. }
  { destruct (bit_used (fs_mem st) (blk 1 bb) (fr q)) eqn:Eb; [|reflexivity]. apply Wb in Eb; [|assumption].
    rewrite (fb_free _ _ _ _ Hfb) in Eb by assumption. destruct Eb as [|(j & Hj & Ej)]; [discriminate|].
    specialize (Hnew j Hj). lia. }
  { intros x Hx. apply Wb; [lia|]. apply (fb_first _ _ _ _ Hfb q x Hq Hx). }
  exists st'. split; [exact E|].
  assert (Kino : forall a, in_rng i INODE_SIZE a -> ~ in_rng (i + 28) 4 a -> ~ in_rng (i + 40 + 4 * q) 4 a ->
    load8 (fs_mem st') a = load8 (fs_mem st) a).
  { intros a Ha H1 H2. assert (Hno : forall s, s <> Ino -> ~ at_site s a) by (intros s Hs; apply (not_at Ino); [exact Ha|congruence]).
    pose proof (Hno (Blk 1) ltac:(discriminate)) as X1. pose proof (Hno (Blk 2) ltac:(discriminate)) as X2.
    cbn in X1, X2. unfold in_blk, in_rng, BLOCK_SIZE in X1, X2.
    apply Bk. split; try (apply Hno; discriminate); try assumption; unfold in_rng; lia. }
  split.
  - intros x Hx. rewrite Bb by assumption. rewrite orb_true_iff, Z.eqb_eq, Wb by assumption. split.
    + intros [-> |[|(j & Hj & ->)]]; [right; exists q; lia|left; assumption|right; exists j; lia].
    + intros [|(j & Hj & ->)]; [tauto|]. destruct (Z.eq_dec j q) as [-> |]; [tauto|]. right. right. exists j. lia.
  - rewrite Bc, Wc. rewrite u32_small; lia.
  - intros j Hj. destruct (Z.eq_dec j q) as [-> |]; [exact Bp|]. rewrite <- (Wp j) by lia.
    apply load32_same. intros x Hx. apply Kino; unfold in_rng, INODE_SIZE in *; lia.
  - intros j x Hj Hx. destruct (Z.eq_dec j q) as [-> |Hne].
    + rewrite Bd by assumption. replace (x <? Z.min 1024 (n - 1024 * q)) with (1024 * q + x <? n) by lia.
      destruct (Z.ltb_spec (1024 * q + x) n); [|reflexivity].
      replace (data + q * 1024 + x) with (data + (1024 * q + x)) by lia. apply Wk. apply untouched_data; [lia|]. unfold in_rng. lia.
    + rewrite <- (Wd j x) by lia. specialize (Hnew j ltac:(lia)). destruct (Hmeta j ltac:(lia)) as (X1 & X2 & X3).
      assert (Ha : in_blk (fr j + 1) (blk 1 (fr j + 1) + x)) by (unfold in_blk, in_rng, BLOCK_SIZE; lia).
      assert (Hno : forall s, s <> Blk (fr j + 1) -> ~ at_site s (blk 1 (fr j + 1) + x))
        by (intros s Hs; apply (not_at (Blk (fr j + 1))); [exact Ha|congruence]).
      pose proof (Hno (Blk 1) ltac:(congruence)) as Y1. pose proof (Hno (Blk 2) ltac:(congruence)) as Y2.
      pose proof (Hno Ino ltac:(congruence)) as Y3. cbn in Y1, Y2, Y3. unfold in_blk, in_rng, BLOCK_SIZE, INODE_SIZE in Y1, Y2, Y3.
      apply Bk. split; [apply (Hno (Blk bb)); congruence|apply (Hno (Blk (fr q + 1))); intros [= E']; lia|
        apply (Hno Scr); discriminate|unfold in_rng; lia..].
  - intros a [U1 U2 U3 U4 U5 U6 U7]. rewrite Bk; [apply Wk|].
    + split; try assumption; [intros j Hj; apply U3; lia|unfold in_rng in *; lia].
    + split; try assumption; [apply U3; lia|unfold in_rng in *; lia].
Qed.

Lemma write_loop_ok fuel : forall q st,
  written_upto q st -> 0 <= q <= k -> k - q < Z.of_nat fuel ->
  exists st', write_loop scratch fuel (blk 1 1) (blk 1 2) i data (Z.max 0 (n - 1024 * q)) q 0 st = Ok 0 st' /\ written_upto k st'.
Proof using All.
  induction fuel as [|f IH]; intros q st W Hq Hf; [lia|]. cbn [write_loop].
  destruct (Z.eq_dec q k) as [-> |].
  - replace (Z.max 0 (n - 1024 * k)) with 0 by (subst k; dlia). exists st. split; [reflexivity|assumption].
  - assert (Hqn : 1024 * q < n) by (subst k; dlia). rewrite Z.max_r by lia. replace (n - 1024 * q =? 0) with false by lia.
    assert (Ec : (if BLOCK_SIZE <=? n - 1024 * q then BLOCK_SIZE else n - 1024 * q) = Z.min 1024 (n - 1024 * q))
      by (unfold BLOCK_SIZE; bsimp). rewrite Ec.
    destruct (write_block_step q st W ltac:(lia)) as (st1 & E1 & W1). rewrite (bind_Ok _ _ _ _ _ E1).
    destruct (IH (q + 1) st1 W1 ltac:(lia) ltac:(lia)) as (st2 & E2 & W2). exists st2. split; [|assumption].
    rewrite <- E2. f_equal. lia.
Qed.
End write_block.

(** ** The data of the file *)

Lemma init_inode_kept clock i n m a : ~ in_rng i 28 a -> load8 (init_inode clock i n m) a = load8 m a.
Proof.
  unfold in_rng. intros Ha. unfold init_inode.
  rewrite load8_store16_ne, !load8_store32_off, load8_store16_ne by (unfold in_rng; lia). reflexivity.
Qed.
Lemma init_inode_size clock i n m : load32 (init_inode clock i n m) (i + 4) = u32 n.
Proof.
  unfold init_inode. rewrite (load32_same (store32 (store16 m i 0x81C0) (i + 4) n)); [apply load32_store32_eq|].
  intros x Hx. unfold in_rng in Hx. rewrite load8_store16_ne, !(load8_store32_off (store32 _ _ _)) by (unfold in_rng; lia).
  reflexivity.
Qed.

Section write_data.
Context `{BC : BlockCache} (scratch clock : Z -> Z) (i name data len n : Z).
Hypothesis Hap : areas_apart scratch i name data len n.
Local Notation at_site := (at_site scratch i name data len n).
Context (bb k : Z) (fr : Z -> Z) (st : fs_state).
Local Notation m0 := (fs_mem st).
Hypothesis Hfb : free_blocks m0 bb k fr.
Hypothesis Hbb : bg_block_bitmap m0 (blk 1 2) = bb.
Hypothesis Hbb1 : bb <> 0 /\ bb <> 1 /\ bb <> 2.
Hypothesis Hmeta : forall j, 0 <= j < k -> fr j + 1 <> 1 /\ fr j + 1 <> 2 /\ fr j + 1 <> bb.
Hypothesis Hk : k = (n + 1023) / 1024.
Hypothesis Hn : 0 <= n <= 11 * 1024.
Hypothesis Hdata : 0 <= data /\ data + n < 0x100000000.
Hypothesis Hcnt : load32 m0 (i + 28) = 0.
Hypothesis Hend : load32 m0 (i + 40 + 4 * k) = 0.

(** What writing the data leaves: the inode lists the blocks, the blocks hold
    the data padded with zeros, and only the listed places changed. *)
Record file_written (st' : fs_state) : Prop := {
  fw_cnt : load32 (fs_mem st') (i + 28) = 2 * k + 2;
  fw_size : load32 (fs_mem st') (i + 4) = n;
  fw_ptr : forall j, 0 <= j < k -> load32 (fs_mem st') (i + 40 + 4 * j) = fr j + 1;
  fw_end : load32 (fs_mem st') (i + 40 + 4 * k) = 0;
  fw_data : forall j x, 0 <= j < k -> 0 <= x < 1024 -> load8 (fs_mem st') (blk 1 (fr j + 1) + x) =
    if 1024 * j + x <? n then load8 m0 (data + (1024 * j + x)) else 0;
  fw_kept : forall a, ~ at_site Ino a -> ~ at_site (Blk 0) a -> ~ at_site (Blk bb) a -> ~ at_site Scr a ->
    (forall j, 0 <= j < k -> ~ at_site (Blk (fr j + 1)) a) ->
    ~ in_rng (blk 1 1 + 12) 4 a -> ~ in_rng (blk 1 2 + 12) 2 a -> load8 (fs_mem st') a = load8 m0 a;
}.

Local Notation m1 := (init_inode clock i n m0).
Local Notation untouched := (untouched scratch i name data len n bb fr).
Local Notation written_upto := (written_upto scratch i name data len n m1 bb fr).

Lemma init_blk b a : in_blk b a -> load8 m1 a = load8 m0 a.
Proof using All.
  intros Ha. apply init_inode_kept. pose proof (not_at _ _ _ _ _ _ Hap (Blk b) Ino a Ha ltac:(discriminate)) as H. cbn in H.
  unfold in_rng, INODE_SIZE in *. lia.
Qed.
Lemma init_bit x : 0 <= x < 8192 -> bit_used m1 (blk 1 bb) x = bit_used m0 (blk 1 bb) x.
Proof using All. intros Hx. apply bit_used_same; [assumption|]. intros a Ha. apply (init_blk bb). exact Ha. Qed.

Lemma init_free : free_blocks m1 bb k fr.
Proof using All.
  destruct Hfb as [F1 F2 F3 F4]. split; try assumption.
  - intros j Hj. rewrite init_bit; auto.
  - intros j x Hj Hx. rewrite init_bit by (specialize (F1 j Hj); lia). apply F4; assumption.
Qed.

Lemma init_written : written_upto 0 (set_fs_mem m1 st).
Proof using All.
  split; cbn [fs_mem set_fs_mem]; try (intros; lia).
  - intros x Hx. split; [tauto|]. intros [|(j & Hj & _)]; [assumption|lia].
  - transitivity (load32 m0 (i + 28)); [|exact Hcnt].
    apply load32_same. intros x Hx. apply init_inode_kept. unfold in_rng in *. lia.
Qed.

(** The inode's cells outside the count and the first [k] pointers. *)
Lemma untouched_ino a : in_rng i INODE_SIZE a -> ~ in_rng (i + 28) 4 a -> ~ in_rng (i + 40) (4 * k) a -> untouched k a.
Proof using All.
  intros Ha H1 H2. assert (Hno : forall s, s <> Ino -> ~ at_site s a)
    by (intros s Hs; apply (not_at _ _ _ _ _ _ Hap Ino); [exact Ha|congruence]).
  pose proof (Hno (Blk 1) ltac:(discriminate)) as X1. pose proof (Hno (Blk 2) ltac:(discriminate)) as X2.
  cbn in X1, X2. unfold in_blk, in_rng, BLOCK_SIZE in X1, X2.
  split; try (apply Hno; discriminate); try assumption; try (unfold in_rng; lia). intros j Hj. apply Hno. discriminate.
Qed.

Lemma write_data_ok :
  exists st', write_data scratch clock (blk 1 1) (blk 1 2) i data n st = Ok tt st' /\ file_written st'.
Proof using All.
  assert (Hk11 : 0 <= k <= 11) by (subst k; dlia).
  destruct (write_loop_ok scratch i name data len n Hap m1 bb k fr init_free) with
    (fuel := S (S (Z.to_nat (s32 n / BLOCK_SIZE)))) (q := 0) (st := set_fs_mem m1 st) as (st2 & E2 & [_ Wc Wp Wd Wk]);
    try assumption; try tauto; try lia.
  { unfold bg_block_bitmap. rewrite <- Hbb. apply load32_same. intros x Hx. apply (init_blk 2). unfold in_blk, in_rng, BLOCK_SIZE in *. lia. }
  { apply init_written. }
  { rewrite s32_small by lia. unfold BLOCK_SIZE. subst k. dlia. }
  assert (En : Z.max 0 (n - 1024 * 0) = s32 n) by (rewrite s32_small; lia). rewrite En in E2.
  unfold write_data, on_mem. rewrite bind_modify. rewrite (bind_Ok _ _ _ _ _ E2).
  unfold bind, modify. cbn [fs_mem set_fs_mem ext2_write_indirect buffer_write]. rewrite Wc.
  replace (2 * k / 2) with k by dlia. eexists. split; [reflexivity|].
  set (m2 := fs_mem st2) in *. set (m3 := store32 m2 (blk 1 0 + k * 4) 0).
  assert (H3 : forall a, ~ in_blk 0 a -> load8 m3 a = load8 m2 a).
  { intros a Ha. apply load8_store32_off. unfold in_blk, in_rng, BLOCK_SIZE in *. lia. }
  assert (Hino : forall a, in_rng i INODE_SIZE a -> load8 m3 a = load8 m2 a).
  { intros a Ha. apply H3. apply (not_at _ _ _ _ _ _ Hap Ino (Blk 0)); [exact Ha|discriminate]. }
  assert (Hw : forall a, in_rng i INODE_SIZE a -> ~ in_rng (i + 28) 4 a ->
    load8 (store32 m3 (i + 28) (load32 m3 (i + 28) + 2)) a = load8 m2 a).
  { intros a Ha Hb. rewrite load8_store32_off by assumption. apply Hino. assumption. }
  split; cbn [fs_mem set_fs_mem].
  - rewrite load32_store32_eq. rewrite (load32_same m2); [|intros x Hx; apply Hino; unfold in_rng, INODE_SIZE in *; lia].
    rewrite Wc. rewrite u32_small; lia.
  - rewrite (load32_same m2) by (intros x Hx; apply Hw; unfold in_rng, INODE_SIZE in *; lia).
    rewrite (load32_same m1); [rewrite init_inode_size; apply u32_small; lia|].
    intros x Hx. apply Wk, untouched_ino; unfold in_rng, INODE_SIZE in *; lia.
  - intros j Hj. rewrite (load32_same m2) by (intros x Hx; apply Hw; unfold in_rng, INODE_SIZE in *; lia). apply Wp. lia.
  - rewrite (load32_same m2) by (intros x Hx; apply Hw; unfold in_rng, INODE_SIZE in *; lia). rewrite <- Hend.
    rewrite (load32_same m1); [apply load32_same; intros x Hx; apply init_inode_kept; unfold in_rng in *; lia|].
    intros x Hx. apply Wk, untouched_ino; unfold in_rng, INODE_SIZE in *; lia.
  - intros j x Hj Hx. pose proof (fb_range _ _ _ _ Hfb j Hj).
    assert (Ha : in_blk (fr j + 1) (blk 1 (fr j + 1) + x)) by (unfold in_blk, in_rng, BLOCK_SIZE; lia).
    pose proof (not_at _ _ _ _ _ _ Hap (Blk (fr j + 1)) Ino _ Ha ltac:(discriminate)) as X. cbn in X. unfold in_rng, INODE_SIZE in X.
    rewrite load8_store32_off by (unfold in_rng; lia). rewrite H3 by (intros H'; pose proof (in_blk_inj _ _ _ Ha H'); lia).
    rewrite Wd by lia. destruct (Z.ltb_spec (1024 * j + x) n); [|reflexivity]. apply init_inode_kept.
    assert (Hd : at_site Data (data + (1024 * j + x))) by (cbn; unfold in_rng; lia).
    pose proof (not_at _ _ _ _ _ _ Hap Data Ino _ Hd ltac:(discriminate)) as Y. cbn in Y. unfold in_rng, INODE_SIZE in *. lia.
  - intros a U1 U2 U3 U4 U5 U6 U7. cbn in U1. unfold in_rng, INODE_SIZE in U1.
    rewrite load8_store32_off by (unfold in_rng; lia). rewrite H3 by assumption. rewrite Wk.
    + apply init_inode_kept. unfold in_rng. lia.
    + split; try assumption; unfold in_rng; lia.
Qed.
End write_data.

(** ** The directory entry *)

Lemma entry_calc_bounds x : 0 <= x -> 264 + x <= entry_calc x <= 267 + x.
Proof.
  intros Hx. unfold entry_calc, DIRENT_SIZE. change (Z.lnot 3) with (Z.lnot (Z.ones 2)).
  rewrite <- Z.ldiff_land, Z.ldiff_ones_r by lia. rewrite Z.shiftl_mul_pow2, Z.shiftr_div_pow2 by lia. change (2 ^ 2) with 4. dlia.
Qed.

Lemma total_len_app l1 l2 : total_len (l1 ++ l2) = total_len l1 + total_len l2.
Proof. induction l1 as [|e l1 IH]; cbn [app total_len]; [reflexivity|]. rewrite IH. lia. Qed.

Lemma dir_rep_app m l1 : forall d l2, dir_rep m d (l1 ++ l2) <-> dir_rep m d l1 /\ dir_rep m (d + total_len l1) l2.
Proof.
  induction l1 as [|e l1 IH]; intros d l2; cbn [app dir_rep total_len]; [rewrite Z.add_0_r; tauto|].
  rewrite IH, Z.add_assoc. tauto.
Qed.

Lemma dir_rep_frame m m' l d :
  dir_rep m d l -> Forall entry_fits l -> (forall a, in_rng d (total_len l) a -> load8 m' a = load8 m a) -> dir_rep m' d l.
Proof. intros Hd Hf Hm. apply (dir_rep_move m m' l d d Hd Hf). intros x Hx. apply Hm. unfold in_rng. lia. Qed.

Lemma dir_rep_len_range m d e l : dir_rep m d (e :: l) -> 0 <= Z.of_nat (length (e_name e)) < 256.
Proof. intros (_ & _ & _ & H & _). rewrite <- H. apply load8_range. Qed.

(** The search stops at the last entry, cut down to its computed length. *)
Lemma find_room_spec m last l : forall fuel d sum new_len,
  dir_rep m d (l ++ [last]) -> sum + total_len (l ++ [last]) = 1024 -> Forall entry_fits l -> 8 <= e_rec_len last ->
  e_rec_len last <> entry_calc (Z.of_nat (length (e_name last))) -> sum + total_len l + new_len <= 1024 ->
  (length l < fuel)%nat ->
  let calc := entry_calc (Z.of_nat (length (e_name last))) in
  find_room fuel m d sum new_len =
    Some (Room (store16 m (d + total_len l + 4) calc) (d + total_len l + calc)).
Proof.
  induction l as [|e l IH]; intros fuel d sum new_len Hd Hs Hf Hp Hc Hr Hfu calc; (destruct fuel as [|f]; [cbn in Hfu; lia|]).
  - pose proof (dir_rep_len_range _ _ _ _ Hd) as Hlen. pose proof (entry_calc_bounds (Z.of_nat (length (e_name last))) ltac:(lia)).
    cbn [app dir_rep total_len] in Hd, Hs, Hr. destruct Hd as (_ & D2 & _ & D4 & _).
    cbn [find_room total_len]. rewrite D2, D4. fold calc. replace (e_rec_len last =? calc) with false by (unfold calc; lia).
    replace (sum + e_rec_len last =? 1024) with true by lia. cbn [negb andb].
    replace (1024 <? sum + e_rec_len last - e_rec_len last + new_len) with false by lia. rewrite !Z.add_0_r.
    unfold d_rec_len. rewrite load16_store16_eq, u16_small by (unfold calc; lia). reflexivity.
  - apply Forall_cons in Hf as [He Hf]. unfold entry_fits in He. cbn [app dir_rep total_len] in Hd, Hs, Hr |- *.
    destruct Hd as (_ & D2 & _ & _ & _ & _ & D7). rewrite total_len_app in Hs. cbn [total_len] in Hs.
    pose proof (total_len_fits l Hf).
    cbn [find_room]. rewrite D2. replace (sum + e_rec_len e =? 1024) with false by lia. rewrite andb_false_r.
    replace (sum + e_rec_len e <? 1024) with true by lia.
    rewrite (IH f (d + e_rec_len e) (sum + e_rec_len e) new_len); try assumption.
    + fold calc. rewrite !Z.add_assoc. reflexivity.
    + rewrite total_len_app. cbn [total_len]. lia.
    + lia.
    + cbn in Hfu. lia.
Qed.

Lemma copy_dname_eq fuel : forall m d name q, copy_dname fuel m d name q = copy_name fuel m (d_name d) name q.
Proof.
  induction fuel as [|f IH]; intros m d name q; [reflexivity|]. cbn [copy_dname copy_name]. rewrite IH. reflexivity.
Qed.

Section write_entry.
Context `{BC : BlockCache} (name inode_num rb : Z) (w : list Z) (l : list entry) (last : entry) (st : fs_state).
Local Notation m := (fs_mem st).
Local Notation calc := (entry_calc (Z.of_nat (length (e_name last)))).
Local Notation off := (total_len l + calc).
Hypothesis Hrb : i_block m (ext2_inode m 1 2) 0 = rb.
Hypothesis Hdir : dir_rep m (blk 1 rb) (l ++ [last]).
Hypothesis Hfill : total_len (l ++ [last]) = 1024.
Hypothesis Hfits : Forall entry_fits (l ++ [last]).
Hypothesis Hlast : e_rec_len last <> calc.
Hypothesis Hname : cstr m name w.
Hypothesis Hw : Z.of_nat (length w) < 256.
Hypothesis Haway : forall a, in_rng name (Z.of_nat (length w) + 1) a -> ~ in_blk rb a.
Hypothesis Hnum : 0 <= inode_num < 0x100000000.
Hypothesis Hroom : total_len l + entry_calc (Z.of_nat (length w)) <= 1024.
Hypothesis Hroom2 : off + 8 + Z.of_nat (length w) <= 1024.

(** The directory afterwards. *)
Definition new_entries : list entry :=
  l ++ [MkEntry (e_inode last) calc (e_name last); MkEntry inode_num (1024 - off) w].

Lemma l_fits : Forall entry_fits l /\ entry_fits last.
Proof using All. apply Forall_app in Hfits as [H1 H2]. split; [assumption|]. apply Forall_cons in H2 as [? _]. assumption. Qed.

Lemma calc_bounds : 264 <= calc < 0x10000 /\ 8 + Z.of_nat (length (e_name last)) <= calc.
Proof using All.
  apply dir_rep_app in Hdir as [_ H]. pose proof (dir_rep_len_range _ _ _ _ H).
  pose proof (entry_calc_bounds (Z.of_nat (length (e_name last))) ltac:(lia)). lia.
Qed.

Lemma dir_length : (length l < 1025)%nat.
Proof using All.
  clear -Hfits Hfill. rewrite total_len_app in Hfill. apply Forall_app in Hfits as [Hl He]. apply Forall_cons in He as [He _].
  unfold entry_fits in He. cbn [total_len] in Hfill. assert (Z.of_nat (length l) <= total_len l); [|lia].
  clear -Hl. induction Hl as [|e l He _ IH]; cbn [length total_len]; [lia|]. unfold entry_fits in He. lia.
Qed.

Lemma write_entry_ok :
  exists st', write_entry name inode_num st = Ok true st' /\ dir_rep (fs_mem st') (blk 1 rb) new_entries /\
    total_len new_entries = 1024 /\ Forall entry_fits new_entries /\
    forall a, ~ in_blk rb a -> load8 (fs_mem st') a = load8 m a.
Proof using All.
  destruct l_fits as [Hl He]. destruct calc_bounds as [Hc1 Hc2]. pose proof (total_len_fits l Hl) as Hl0.
  unfold write_entry. rewrite Hrb, (strlen_cstr _ _ _ Hname).
  rewrite (find_room_spec m last l 1025 (blk 1 rb) 0) by (try assumption; try (unfold entry_fits in He; lia); apply dir_length).
  set (d0 := blk 1 rb) in *. set (c := calc) in *. set (nd := d0 + total_len l + c).
  set (mA := store16 m _ c). set (mB := store16 mA _ _). set (mC := store32 mB _ _). set (mD := store8 mC _ _).
  assert (HD : forall a, ~ in_rng (d0 + total_len l + 4) 2 a -> ~ in_rng nd 8 a -> load8 mD a = load8 m a).
  { intros a H1 H2. unfold in_rng in H2. unfold mD, mC, mB, mA. rewrite load8_store8_ne, load8_store32_off by (unfold in_rng; lia).
    rewrite !load8_store16_ne by (assumption || unfold in_rng; lia). reflexivity. }
  assert (Hin : forall a, d0 <= a < d0 + 1024 -> in_blk rb a) by (intros a Ha; unfold in_blk, in_rng, BLOCK_SIZE; fold d0; lia).
  assert (Hn : forall j, 0 <= j <= Z.of_nat (length w) -> ~ (d0 <= name + j < d0 + 1024)).
  { intros j Hj H. apply (Haway (name + j)); [unfold in_rng; lia|]. apply Hin. assumption. }
  assert (HnD : cstr mD name w).
  { apply (cstr_frame m); [assumption|]. intros j Hj. specialize (Hn j Hj). apply HD; unfold in_rng, nd; lia. }
  rewrite (strlen_cstr _ _ _ HnD). set (mE := store8 mD (nd + 6) _).
  assert (HnE : cstr mE name w).
  { apply (cstr_frame mD); [assumption|]. intros j Hj. specialize (Hn j Hj). apply load8_store8_ne. unfold nd. lia. }
  rewrite copy_dname_eq. destruct (copy_name_copies mE (d_name nd) name w HnE) as [Hcp Hfr].
  { destruct (Z.lt_ge_cases (name + Z.of_nat (length w)) (d_name nd)); [lia|].
    destruct (Z.le_gt_cases (d_name nd + Z.of_nat (length w)) name); [left; assumption|exfalso].
    unfold d_name in *. apply (Hn (Z.max 0 (nd + 8 - name))); [lia|unfold nd; lia]. }
  set (mF := copy_name _ _ _ _ _) in *. eexists. split; [reflexivity|]. cbn [fs_mem buffer_write set_fs_mem].
  assert (HF : forall a, ~ in_rng (nd + 8) (Z.of_nat (length w)) a -> a <> nd + 6 -> load8 mF a = load8 mD a).
  { intros a H1 H2. unfold in_rng in H1. rewrite Hfr by (unfold d_name; lia). apply load8_store8_ne. assumption. }
  apply dir_rep_app in Hdir as [Dl De]. fold d0 in Dl, De. destruct De as (D1 & D2 & D3 & D4 & D5 & D6 & _).
  assert (HlF : forall a, d0 <= a < nd -> ~ in_rng (d0 + total_len l + 4) 2 a -> load8 mF a = load8 m a).
  { intros a Ha H1. rewrite HF by (unfold in_rng; lia). apply HD; [assumption|unfold in_rng; lia]. }
  split; [|split; [|split]].
  - unfold new_entries. fold c. apply dir_rep_app. fold d0. split.
    { apply (dir_rep_frame m); [assumption|assumption|]. intros a Ha. unfold in_rng in Ha.
      apply HlF; unfold nd, in_rng; lia. }
    cbn [dir_rep e_inode e_rec_len e_name]. replace (d0 + total_len l + c) with nd by reflexivity.
    repeat apply conj; try assumption; try lia; try exact I; try (apply cstr_no_nul with (1 := HnD)).
    + rewrite <- D1. apply load32_same. intros x Hx. unfold in_rng in Hx. apply HlF; unfold nd, in_rng; lia.
    + unfold d_rec_len. rewrite (load16_same mD) by (intros x Hx; unfold in_rng in Hx; apply HF; unfold nd, in_rng; lia).
      rewrite (load16_same mA) by (intros x Hx; unfold in_rng in Hx; unfold mD, mC, mB;
        rewrite load8_store8_ne, load8_store32_off, load8_store16_ne by (unfold nd, in_rng; lia); reflexivity).
      unfold mA. rewrite load16_store16_eq. apply u16_small. lia.
    + rewrite <- D4. apply HlF; unfold nd, in_rng; lia.
    + rewrite <- D5 at 2. apply bytes_at_eq. intros x Hx. unfold d_name. apply HlF; unfold nd, in_rng; lia.
    + unfold d_inode. rewrite (load32_same mC).
      * unfold mC. rewrite load32_store32_eq. apply u32_small. assumption.
      * intros x Hx. unfold in_rng in Hx. rewrite HF by (unfold in_rng; lia). apply load8_store8_ne. lia.
    + unfold d_rec_len. rewrite (load16_same mB).
      * unfold mB. rewrite load16_store16_eq. unfold BLOCK_SIZE, nd. rewrite u16_small; lia.
      * intros x Hx. unfold in_rng in Hx. rewrite HF by (unfold in_rng; lia). unfold mD, mC.
        rewrite load8_store8_ne, load8_store32_off by (unfold in_rng; lia). reflexivity.
    + unfold d_name_len. rewrite Hfr by (unfold d_name; lia). unfold mE. rewrite load8_store8_eq. apply u8_small. lia.
  - unfold new_entries. rewrite total_len_app. cbn [total_len e_rec_len]. fold c. lia.
  - unfold new_entries. fold c. apply Forall_app. split; [assumption|]. repeat constructor; unfold entry_fits; cbn [e_name e_rec_len]; lia.
  - intros a Ha. assert (~ (d0 <= a < d0 + 1024)) by (intros H; apply Ha, Hin, H).
    rewrite HF by (unfold nd, in_rng; lia). apply HD; unfold nd, in_rng; lia.
Qed.
End write_entry.

(** ** Reading up to the first empty block pointer *)

(** A pointer that is 0 ends the loop early. *)
Lemma open_loop_stop `{BC : BlockCache} ino buf k : forall m i bn ind,
  0 <= i -> i + Z.of_nat k < 12 -> i_block m ino (i + Z.of_nat k) = 0 ->
  ino + INODE_SIZE <= buf + i * BLOCK_SIZE \/ buf + (i + Z.of_nat k) * BLOCK_SIZE <= ino ->
  open_loop (S k) m ino buf i bn ind = open_loop k m ino buf i bn ind.
Proof.
  induction k as [|k IH]; intros m i bn ind Hi Hk Hz Hs.
  - rewrite Z.add_0_r in *. cbn [open_loop]. replace (i <? 12) with true by lia. rewrite Hz. reflexivity.
  - cbn [open_loop]. replace (i <? 12) with true by lia. destruct (i_block m ino i =? 0); [reflexivity|].
    set (m1 := memcpy m _ _ _). change (open_loop (S k) m1 ino buf (i + 1) (i_block m ino i) ind = open_loop k m1 ino buf (i + 1) (i_block m ino i) ind).
    unfold BLOCK_SIZE, INODE_SIZE in *. apply IH; [lia|lia| |lia].
    rewrite <- Hz. replace (i + 1 + Z.of_nat k) with (i + Z.of_nat (S k)) by lia. unfold i_block. apply load32_same.
    intros x Hx. apply load8_memcpy_off. unfold in_rng in *. lia.
Qed.

(** A file of [k] direct blocks whose next pointer is 0. *)
Lemma open_direct `{BC : BlockCache} m ino buf k :
  0 <= k < 12 -> num_blocks m ino = k + 1 -> ino <> 0 -> i_block m ino k = 0 ->
  (forall j, 0 <= j < k -> i_block m ino j <> 0) ->
  (forall a, in_rng buf ((k + 1) * BLOCK_SIZE) a -> (forall b, ~ in_blk b a) /\ ~ in_rng ino INODE_SIZE a) ->
  exists m', ext2_open m ino buf = (m', buf) /\
    forall j x, 0 <= j < k -> 0 <= x < 1024 -> load8 m' (buf + (1024 * j + x)) = load8 m (blk 1 (i_block m ino j) + x).
Proof.
  intros Hk Hnb Hi Hz Hnz Hsep. unfold ext2_open. rewrite Hnb. replace (ino =? 0) with false by lia. replace (k + 1 =? 0) with false by lia.
  assert (Hs1 : buf + (k + 1) * BLOCK_SIZE <= ino \/ ino + INODE_SIZE <= buf).
  { apply rng_sep; [unfold BLOCK_SIZE; lia|reflexivity|]. intros a H1 H2. exact (proj2 (Hsep a H1) H2). }
  assert (Hs2 : forall b, buf + (k + 1) * BLOCK_SIZE <= blk 1 b \/ blk 1 b + BLOCK_SIZE <= buf).
  { intros b. apply rng_sep; [unfold BLOCK_SIZE; lia|reflexivity|]. intros a H1 H2. exact (proj1 (Hsep a H1) b H2). }
  replace (Z.to_nat (k + 1)) with (S (Z.to_nat k)) by lia. unfold BLOCK_SIZE, INODE_SIZE in *.
  rewrite open_loop_stop by (unfold BLOCK_SIZE, INODE_SIZE; rewrite ?Z2Nat.id, ?Z.add_0_l by lia; lia || assumption).
  eexists. split; [reflexivity|].
  assert (Eo : forall j, 0 <= j < k -> opened_block m ino j = i_block m ino j)
    by (intros j Hj; unfold opened_block; replace (j <? 12) with true by lia; reflexivity).
  clear Hsep.
  destruct (open_loop_spec m ino buf k ltac:(lia)) with (k := Z.to_nat k) (m' := m) (i := 0) (bn := 0) (ind := 0) as [_ Hc];
    unfold Ext2.apart, BLOCK_SIZE, INODE_SIZE in *; try lia.
  - intros j Hj. rewrite Eo by assumption. specialize (Hs2 (i_block m ino j)). lia.
  - intros j Hj. rewrite Eo by assumption. auto.
  - apply same_outside_refl.
  - intros j x Hj Hx. pose proof (Hc j Hj) as E. apply bytes_at_eq with (i := x) in E; [|lia].
    rewrite Eo in E by assumption. replace (buf + (1024 * j + x)) with (buf + j * 1024 + x) by lia. exact E.
Qed.

(** ** The whole call *)

(** A disk with room: the superblock and the first block group with its
    bitmaps, inode table and root directory in blocks marked as used, inode
    [ri + 1] the first free one, and [fr] the free blocks. *)
Record disk `{BC : BlockCache} (m : mem) (bb ib it rb ri k : Z) (fr : Z -> Z) : Prop := {
  dk_magic : sb_magic m (blk 1 1) = EXT2_MAGIC;
  dk_ipg : 1 < ri < sb_inodes_per_group m (blk 1 1);
  dk_bb : bg_block_bitmap m (blk 1 2) = bb;
  dk_ib : bg_inode_bitmap m (blk 1 2) = ib;
  dk_it : bg_inode_table m (blk 1 2) = it;
  dk_root : i_block m (blk 1 it + INODE_SIZE) 0 = rb;
  dk_root_len : i_blocks m (blk 1 it + INODE_SIZE) = 2;
  dk_ri : 0 <= ri < 8192;
  dk_ri_free : bit_used m (blk 1 ib) ri = false;
  dk_ri_first : forall j, 0 <= j < ri -> bit_used m (blk 1 ib) j = true;
  dk_free : free_blocks m bb k fr;
  dk_distinct : NoDup [0; 1; 2; bb; ib; rb];
  dk_table : it ∉ [0; 1; 2; bb; ib; rb] /\ it + ri / 8 ∉ [0; 1; 2; bb; ib; rb];
  dk_used : forall b, b ∈ [1; 2; bb; ib; rb; it; it + ri / 8] -> bit_used m (blk 1 bb) (b - 1) = true;
}.

Section inode_place.
Context `{BC : BlockCache} (m : mem) (it ri : Z).
Hypothesis Hmagic : sb_magic m (blk 1 1) = EXT2_MAGIC.
Hypothesis Hipg : 1 < ri < sb_inodes_per_group m (blk 1 1).
Hypothesis Hit : bg_inode_table m (blk 1 2) = it.
Hypothesis Hri : ri < 8192.

(** Inodes of the first group are at their index in the table. *)
Lemma group0_inode x : 0 <= x <= ri -> ext2_inode m 1 (x + 1) = blk 1 (it + x / 8) + x mod 8 * INODE_SIZE.
Proof using All.
  intros Hx. rewrite ext2_inode_eq by (assumption || change EXT2_SUPER with 1; lia).
  unfold inode_block, inode_offset, inode_group. change EXT2_SUPER with 1.
  replace (x + 1 - 1) with x by lia. rewrite Z.div_small, Z.mod_small by lia. rewrite Z.mul_0_r, Z.add_0_r. change (1 + 1) with 2.
  rewrite Hit. reflexivity.
Qed.

Lemma root_inode : ext2_inode m 1 2 = blk 1 it + INODE_SIZE.
Proof using All. pose proof (group0_inode 1 ltac:(lia)) as E. change (1 / 8) with 0 in E. rewrite Z.add_0_r in E. exact E. Qed.

Lemma write_inode_ok st i : fs_mem st = m ->
  exists st', write_inode (blk 1 1) (blk 1 2) i (ri + 1) st = Ok (blk 1 2) st' /\
    fs_mem st' = memcpy m (blk 1 (it + ri / 8) + ri mod 8 * INODE_SIZE) i INODE_SIZE.
Proof using All.
  intros <-. unfold write_inode, INODE_SIZE, BLOCK_SIZE, BGD_SIZE.
  replace (ri + 1 - 1) with ri by lia. rewrite (u32_small ri) by lia. rewrite Z.div_small, Z.mod_small by lia.
  rewrite (u32_small (ri * 128)) by lia. rewrite Z.mul_0_r, Z.add_0_r, Hit. change (1024 / 128) with 8.
  replace (ri * 128 / 1024) with (ri / 8) by dlia. eexists. split; reflexivity.
Qed.
End inode_place.

Lemma load8_memcpy_self m d n b : load8 (memcpy m d d n) b = load8 m b.
Proof.
  rewrite load8_memcpy by lia. destruct ((d <=? b) && (b <? d + n)); [f_equal; lia|reflexivity].
Qed.

(** The counters written at the end. *)
Lemma superblock_rw_self `{BC : BlockCache} st a :
  sb_magic (fs_mem st) (blk 1 1) = EXT2_MAGIC ->
  load8 (fs_mem (ext2_superblock_rw 1 (blk 1 1) st).2) a = load8 (fs_mem st) a.
Proof.
  intros H. unfold ext2_superblock_rw. change (1 =? 0) with false. cbv iota. rewrite H, Z.eqb_refl. cbn [negb].
  change EXT2_SUPER with 1. destruct (negb _); cbn [snd fs_mem buffer_write set_fs_mem]; apply load8_memcpy_self.
Qed.
Lemma blockdesc_rw_self `{BC : BlockCache} st a : load8 (fs_mem (ext2_blockdesc_rw 1 (blk 1 2) st).2) a = load8 (fs_mem st) a.
Proof.
  unfold ext2_blockdesc_rw. change (1 =? 0) with false. cbv iota. change (EXT2_SUPER + 1) with 2.
  pose proof (blk_pos 1 2). unfold NULL. replace (blk 1 2 =? 0) with false by lia.
  cbn [snd fs_mem buffer_write set_fs_mem]. apply load8_memcpy_self.
Qed.

(** The cells that locate inodes and the root directory. *)
Definition meta_addr `{BC : BlockCache} (it a : Z) : Prop :=
  in_rng (blk 1 1 + 40) 4 a \/ in_rng (blk 1 1 + 56) 2 a \/ in_rng (blk 1 2) 12 a \/ in_rng (blk 1 it + INODE_SIZE) INODE_SIZE a.

Record same_meta `{BC : BlockCache} (it : Z) (m m' : mem) : Prop := {
  sm_magic : sb_magic m' (blk 1 1) = sb_magic m (blk 1 1);
  sm_ipg : sb_inodes_per_group m' (blk 1 1) = sb_inodes_per_group m (blk 1 1);
  sm_bb : bg_block_bitmap m' (blk 1 2) = bg_block_bitmap m (blk 1 2);
  sm_it : bg_inode_table m' (blk 1 2) = bg_inode_table m (blk 1 2);
  sm_root : i_block m' (blk 1 it + INODE_SIZE) 0 = i_block m (blk 1 it + INODE_SIZE) 0;
  sm_len : i_blocks m' (blk 1 it + INODE_SIZE) = i_blocks m (blk 1 it + INODE_SIZE);
}.

Lemma meta_kept `{BC : BlockCache} it m m' : (forall a, meta_addr it a -> load8 m' a = load8 m a) -> same_meta it m m'.
Proof.
  unfold meta_addr, in_rng, INODE_SIZE. intros H.
  split; unfold sb_magic, sb_inodes_per_group, bg_block_bitmap, bg_inode_table, i_block, i_blocks;
    first [apply load32_same|apply load16_same]; intros x Hx; unfold in_rng, INODE_SIZE in Hx; apply H; lia.
Qed.

Section touched.
Context `{BC : BlockCache} (scratch clock : Z -> Z) (i name data n : Z) (w : list Z) (l : list entry) (last : entry).
Context (bb ib it rb ri k : Z) (fr : Z -> Z) (st : fs_state).
Local Notation m := (fs_mem st).
Local Notation len := (Z.of_nat (length w)).
Local Notation at_site := (at_site scratch i name data len n).
Local Notation calc := (entry_calc (Z.of_nat (length (e_name last)))).
Local Notation tb := (it + ri / 8).
Local Notation slot := (blk 1 tb + ri mod 8 * INODE_SIZE).

(** What the caller provides: the areas are apart, the name and the data are
    in memory, and the block for the inode is cleared. *)
Record call_ok : Prop := {
  co_apart : areas_apart scratch i name data len n;
  co_name : cstr m name w;
  co_len : len < 256;
  co_n : 0 <= n <= 11 * 1024;
  co_k : k = (n + 1023) / 1024;
  co_data : 0 <= data /\ data + n < 0x100000000;
  co_cnt : load32 m (i + 28) = 0;
  co_end : load32 m (i + 40 + 4 * k) = 0;
}.

(** The root directory is one block of entries whose last record has room. *)
Record root_ok : Prop := {
  ro_dir : dir_rep m (blk 1 rb) (l ++ [last]);
  ro_fill : total_len (l ++ [last]) = 1024;
  ro_fits : Forall entry_fits (l ++ [last]);
  ro_last : e_rec_len last <> calc;
  ro_room : total_len l + entry_calc len <= 1024;
  ro_room2 : total_len l + calc + 8 + len <= 1024;
}.

Hypothesis Hdk : disk m bb ib it rb ri k fr.
Hypothesis Hco : call_ok.
Hypothesis Hro : root_ok.

Lemma k_range : 0 <= k <= 11.
Proof using All. destruct Hco as [_ _ _ Hn -> _ _ _]. clear -Hn. dlia. Qed.

(** The blocks the file gets are none of the disk's own. *)
Lemma fr_meta j b : 0 <= j < k -> b ∈ [0; 1; 2; bb; ib; rb; it; tb] -> fr j + 1 <> b.
Proof using All.
  intros Hj Hb E. apply elem_of_cons in Hb as [-> |Hb]; [pose proof (fb_range _ _ _ _ (dk_free _ _ _ _ _ _ _ _ Hdk) j Hj); lia|].
  apply (dk_used _ _ _ _ _ _ _ _ Hdk) in Hb. rewrite <- E in Hb. replace (fr j + 1 - 1) with (fr j) in Hb by lia.
  rewrite (fb_free _ _ _ _ (dk_free _ _ _ _ _ _ _ _ Hdk)) in Hb by assumption. discriminate.
Qed.

Lemma meta_distinct :
  (bb <> 0 /\ bb <> 1 /\ bb <> 2) /\ (ib <> 0 /\ ib <> 1 /\ ib <> 2 /\ ib <> bb) /\
  (rb <> 0 /\ rb <> 1 /\ rb <> 2 /\ rb <> bb /\ rb <> ib) /\
  (it <> 0 /\ it <> 1 /\ it <> 2 /\ it <> bb /\ it <> ib /\ it <> rb) /\
  (tb <> 0 /\ tb <> 1 /\ tb <> 2 /\ tb <> bb /\ tb <> ib /\ tb <> rb).
Proof using All.
  pose proof (dk_distinct _ _ _ _ _ _ _ _ Hdk) as H. pose proof (dk_table _ _ _ _ _ _ _ _ Hdk) as H2. clear -H H2.
  rewrite !NoDup_cons in H. repeat rewrite not_elem_of_cons in H. repeat rewrite not_elem_of_cons in H2.
  intuition congruence.
Qed.

Lemma site_not s1 s2 a : at_site s1 a -> s1 <> s2 -> ~ at_site s2 a.
Proof using Hco. apply not_at. apply Hco. Qed.

(** The inode and the data are written; [ino] is where the inode is. *)
Record file_at (ino : Z) (m' : mem) : Prop := {
  fa_cnt : load32 m' (ino + 28) = 2 * k + 2;
  fa_size : load32 m' (ino + 4) = n;
  fa_ptr : forall j, 0 <= j < k -> load32 m' (ino + 40 + 4 * j) = fr j + 1;
  fa_end : load32 m' (ino + 40 + 4 * k) = 0;
  fa_data : forall j x, 0 <= j < k -> 0 <= x < 1024 -> load8 m' (blk 1 (fr j + 1) + x) =
    if 1024 * j + x <? n then load8 m (data + (1024 * j + x)) else 0;
}.

(** Blocks the data phase does not write. *)
Definition other_block (b : Z) : Prop := b <> 0 /\ b <> bb /\ b <> ib /\ forall j, 0 <= j < k -> b <> fr j + 1.

Lemma alloc_inode_step : exists st1, ext2_alloc_inode (scratch 0) st = Ok (ri + 1) st1 /\
  forall a, ~ in_blk ib a -> ~ at_site Scr a -> load8 (fs_mem st1) a = load8 m a.
Proof using All.
  destruct (alloc_bit_spec st ib (scratch 0) ri) as (st1 & E & _ & _ & Hf).
  { apply rng_sep; [reflexivity..|]. intros a Ha Hb.
    refine (site_not (Blk ib) Scr a Hb ltac:(discriminate) _). exists 0. exact Ha. }
  { apply Hdk. } { apply Hdk. } { apply Hdk. }
  exists st1. split.
  - unfold ext2_alloc_inode. change (ext2_blockdesc 1) with (blk 1 2). rewrite (dk_ib _ _ _ _ _ _ _ _ Hdk). exact E.
  - intros a H1 H2. assert (~ in_rng (scratch 0) BLOCK_SIZE a) by (intros H; apply H2; exists 0; exact H).
    unfold in_blk, in_rng in *. apply Hf; lia.
Qed.

Lemma data_step : exists st1 st2,
  ext2_alloc_inode (scratch 0) st = Ok (ri + 1) st1 /\ write_data scratch clock (blk 1 1) (blk 1 2) i data n st1 = Ok tt st2 /\
  file_at i (fs_mem st2) /\
  (forall a, in_rng name (len + 1) a -> load8 (fs_mem st2) a = load8 m a) /\
  forall b a, other_block b -> in_blk b a -> ~ in_rng (blk 1 1 + 12) 4 a -> ~ in_rng (blk 1 2 + 12) 2 a ->
    load8 (fs_mem st2) a = load8 m a.
Proof using All.
  destruct alloc_inode_step as (st1 & E1 & F1). pose proof k_range as Hk11.
  assert (Nbb : bb <> 0 /\ bb <> 1 /\ bb <> 2) by apply meta_distinct.
  assert (Nib : bb <> ib /\ 2 <> ib) by (pose proof meta_distinct; split; intros E; intuition congruence).
  assert (Hblk : forall b a, b <> ib -> in_blk b a -> load8 (fs_mem st1) a = load8 m a).
  { intros b a Hb Ha. apply F1; [intros H; exact (Hb (in_blk_inj _ _ _ Ha H))|]. exact (site_not (Blk b) Scr a Ha ltac:(discriminate)). }
  assert (Hsite : forall s a, s = Ino \/ s = Name \/ s = Data -> at_site s a -> load8 (fs_mem st1) a = load8 m a).
  { intros s a Hs Ha. apply F1; [exact (site_not s (Blk ib) a Ha ltac:(destruct_or! Hs; subst; discriminate))|].
    exact (site_not s Scr a Ha ltac:(destruct_or! Hs; subst; discriminate)). }
  assert (Hbit : forall x, 0 <= x < 8192 -> bit_used (fs_mem st1) (blk 1 bb) x = bit_used m (blk 1 bb) x).
  { intros x Hx. apply bit_used_same; [assumption|]. intros a Ha. apply (Hblk bb); [apply Nib|exact Ha]. }
  assert (Hino : forall o, 0 <= o -> o + 4 <= INODE_SIZE -> load32 (fs_mem st1) (i + o) = load32 m (i + o)).
  { intros o Ho1 Ho2. apply load32_same. intros x Hx. apply (Hsite Ino); [tauto|]. cbn. unfold in_rng in *. lia. }
  destruct (write_data_ok scratch clock i name data len n) with (bb := bb) (k := k) (fr := fr) (st := st1)
    as (st2 & E2 & [Dc Ds Dp De Dd Dk]); try apply Hco.
  { destruct (dk_free _ _ _ _ _ _ _ _ Hdk) as [G1 G2 G3 G4]. split; try assumption.
    - intros j Hj. rewrite Hbit; auto.
    - intros j x Hj Hx. rewrite Hbit by (specialize (G1 j Hj); lia). auto. }
  { rewrite <- (dk_bb _ _ _ _ _ _ _ _ Hdk). apply load32_same. intros x Hx. apply (Hblk 2); [apply Nib|].
    unfold in_blk, in_rng, BLOCK_SIZE in *. lia. }
  { exact Nbb. }
  { intros j Hj. repeat split; apply fr_meta; try assumption; rewrite !elem_of_cons; tauto. }
  { rewrite Hino by (unfold INODE_SIZE; lia). apply Hco. }
  { rewrite <- Z.add_assoc, Hino, Z.add_assoc by (unfold INODE_SIZE; lia). apply Hco. }
  exists st1, st2. split; [exact E1|]. split; [exact E2|]. split; [|split].
  - split; try assumption. intros j x Hj Hx. rewrite Dd by assumption. destruct (Z.ltb_spec (1024 * j + x) n); [|reflexivity].
    apply (Hsite Data); [tauto|]. cbn. unfold in_rng. lia.
  - intros a Ha. change (at_site Name a) in Ha. rewrite Dk; [apply (Hsite Name); [tauto|assumption]|..];
      try (intros j Hj); try (apply (site_not Name); [assumption|discriminate]).
    + intros H. apply (site_not Name (Blk 1) a Ha ltac:(discriminate)). cbn. unfold in_blk, in_rng, BLOCK_SIZE in *. lia.
    + intros H. apply (site_not Name (Blk 2) a Ha ltac:(discriminate)). cbn. unfold in_blk, in_rng, BLOCK_SIZE in *. lia.
  - intros b a (Hb0 & Hb1 & Hb2 & Hb3) Ha H1 H2. assert (Hs : forall s, s <> Blk b -> ~ at_site s a)
      by (intros s Hs; apply (site_not (Blk b)); [exact Ha|congruence]).
    rewrite Dk; [exact (Hblk b a Hb2 Ha)|apply (Hs Ino); discriminate|apply (Hs (Blk 0)); congruence|
      apply (Hs (Blk bb)); congruence|apply (Hs Scr); discriminate| |exact H1|exact H2].
    intros j Hj. apply (Hs (Blk (fr j + 1))). intros [= E]. exact (Hb3 j Hj (eq_sym E)).
Qed.

Lemma other_meta b : b ∈ [1; 2; rb; it; tb] -> other_block b.
Proof using All.
  intros Hb. pose proof meta_distinct as N.
  assert (Hj : forall j, 0 <= j < k -> b <> fr j + 1).
  { intros j Hj E. apply (fr_meta j b Hj); [|congruence]. clear -Hb. rewrite !elem_of_cons in *. tauto. }
  unfold other_block. clear -Hb N Hj. rewrite !elem_of_cons, elem_of_nil in Hb.
  destruct_or! Hb; subst b; intuition congruence.
Qed.

(** Addresses of a block beside the two with counters. *)
Lemma no_counter b a : in_blk b a -> b <> 1 -> b <> 2 -> ~ in_blk 1 a /\ ~ in_blk 2 a.
Proof using. intros Ha H1 H2. split; intros H; [apply H1|apply H2]; exact (in_blk_inj _ _ _ Ha H). Qed.

Lemma slot_in a : in_rng slot INODE_SIZE a -> in_blk tb a.
Proof using.
  intros H. pose proof (Z.mod_pos_bound ri 8 eq_refl). unfold in_blk, in_rng, INODE_SIZE, BLOCK_SIZE in *. lia.
Qed.

Lemma meta_slot a : meta_addr it a -> ~ in_rng slot INODE_SIZE a.
Proof using All.
  intros Hm Hs. pose proof (slot_in a Hs) as Ht.
  assert (tb <> 1 /\ tb <> 2) as [Nt1 Nt2] by (split; apply meta_distinct). pose proof (dk_ipg _ _ _ _ _ _ _ _ Hdk) as Hri.
  destruct Hm as [H|[H|[H|H]]].
  - apply Nt1, (in_blk_inj _ _ a Ht). unfold in_blk, in_rng, BLOCK_SIZE in *. lia.
  - apply Nt1, (in_blk_inj _ _ a Ht). unfold in_blk, in_rng, BLOCK_SIZE in *. lia.
  - apply Nt2, (in_blk_inj _ _ a Ht). unfold in_blk, in_rng, BLOCK_SIZE in *. lia.
  - assert (E : tb = it) by (apply (in_blk_inj _ _ a Ht); unfold in_blk, in_rng, INODE_SIZE, BLOCK_SIZE in *; lia).
    rewrite E in Hs. unfold in_rng, INODE_SIZE in *. clear -E Hri H Hs. dlia.
Qed.

Lemma meta_in a : meta_addr it a -> exists b, b ∈ [1; 2; it] /\ in_blk b a /\
  ~ in_rng (blk 1 1 + 12) 8 a /\ ~ in_rng (blk 1 1 + 48) 4 a /\ ~ in_rng (blk 1 2 + 12) 4 a.
Proof using All.
  intros H. assert (it <> 1 /\ it <> 2) as [N1 N2] by (split; apply meta_distinct).
  assert (Hc : forall b, in_blk b a -> (b <> 1 -> ~ in_blk 1 a) /\ (b <> 2 -> ~ in_blk 2 a))
    by (intros b Ha; split; intros Hb H'; exact (Hb (in_blk_inj _ _ _ Ha H'))).
  assert (Hb : exists b, b ∈ [1; 2; it] /\ in_blk b a /\ (b = 1 /\ (in_rng (blk 1 1 + 40) 4 a \/ in_rng (blk 1 1 + 56) 2 a) \/
    b = 2 /\ in_rng (blk 1 2) 12 a \/ b = it)).
  { destruct H as [H|[H|[H|H]]]; [exists 1|exists 1|exists 2|exists it]; (split; [rewrite !elem_of_cons; tauto|]);
      (split; [unfold in_blk, in_rng, INODE_SIZE, BLOCK_SIZE in *; lia|tauto]). }
  destruct Hb as (b & Hb & Ha & Hr). exists b. split; [assumption|]. split; [assumption|].
  destruct (Hc b Ha) as [C1 C2]. clear H Hb Hc Hro Hco Hdk. destruct Hr as [[-> Hr]|[[-> Hr]| ->]].
  - specialize (C2 ltac:(lia)). unfold in_blk, in_rng, BLOCK_SIZE in *. lia.
  - specialize (C1 ltac:(lia)). unfold in_blk, in_rng, BLOCK_SIZE in *. lia.
  - specialize (C1 N1). specialize (C2 N2). unfold in_blk, in_rng, BLOCK_SIZE in *. lia.
Qed.

Lemma slot_file m2 : file_at i m2 -> file_at slot (memcpy m2 slot i INODE_SIZE).
Proof using All.
  intros [Fc Fs Fp Fe Fd]. pose proof k_range as Hk11.
  assert (Hsep : slot <= i \/ i + INODE_SIZE <= slot).
  { destruct (rng_sep slot INODE_SIZE i INODE_SIZE) as [|]; [reflexivity|reflexivity| |unfold INODE_SIZE in *; lia|lia].
    intros a Ha Hb. exact (site_not Ino (Blk tb) a Hb ltac:(discriminate) (slot_in a Ha)). }
  assert (Hcp : forall o, 0 <= o -> o + 4 <= INODE_SIZE -> load32 (memcpy m2 slot i INODE_SIZE) (slot + o) = load32 m2 (i + o)).
  { intros o Ho1 Ho2. apply load32_at. intros x Hx. rewrite load8_memcpy by assumption.
    replace ((slot <=? slot + o + x) && (slot + o + x <? slot + INODE_SIZE)) with true by lia. f_equal. lia. }
  split; try (rewrite Hcp by (unfold INODE_SIZE; lia); assumption).
  - intros j Hj. rewrite <- Z.add_assoc, Hcp, Z.add_assoc by (unfold INODE_SIZE; lia). auto.
  - rewrite <- Z.add_assoc, Hcp, Z.add_assoc by (unfold INODE_SIZE; lia). assumption.
  - intros j x Hj Hx. rewrite <- Fd by assumption. apply load8_memcpy_off. intros H. apply slot_in in H.
    apply (fr_meta j tb Hj); [rewrite !elem_of_cons; tauto|]. refine (in_blk_inj _ _ _ _ H). unfold in_blk, in_rng, BLOCK_SIZE. lia.
Qed.

Lemma counters_ok st4 : sb_magic (fs_mem st4) (blk 1 1) = EXT2_MAGIC ->
  exists st5,
    (on_mem (dec32 (blk 1 1 + 16)) ;;; on_mem (fun m => store32 m (blk 1 1 + 48) (clock 3)) ;;;
     modify (fun st => snd (ext2_superblock_rw 1 (blk 1 1) st)) ;;; on_mem (dec16 (blk 1 2 + 14)) ;;;
     modify (fun st => snd (ext2_blockdesc_rw 1 (blk 1 2) st)) ;;; ret (ri + 1)) st4 = Ok (ri + 1) st5 /\
    forall a, ~ in_rng (blk 1 1 + 16) 4 a -> ~ in_rng (blk 1 1 + 48) 4 a -> ~ in_rng (blk 1 2 + 14) 2 a ->
      load8 (fs_mem st5) a = load8 (fs_mem st4) a.
Proof using.
  intros Hm. eexists. split; [reflexivity|]. intros a H1 H2 H3. cbn beta.
  rewrite blockdesc_rw_self. unfold on_mem. cbn [fs_mem set_fs_mem]. unfold dec16. rewrite load8_store16_ne by assumption.
  rewrite superblock_rw_self; cbn [fs_mem set_fs_mem]; unfold dec32.
  - rewrite !load8_store32_off by assumption. reflexivity.
  - unfold sb_magic. rewrite <- Hm. apply load16_same. intros x Hx. unfold in_rng in Hx.
    rewrite !load8_store32_off by (unfold in_rng; lia). reflexivity.
Qed.

(** The state the call ends in. *)
Record touched (m' : mem) : Prop := {
  to_meta : same_meta it m m';
  to_file : file_at slot m';
  to_dir : dir_rep m' (blk 1 rb) (new_entries (ri + 1) w l last);
  to_total : total_len (new_entries (ri + 1) w l last) = 1024;
  to_fits : Forall entry_fits (new_entries (ri + 1) w l last);
  to_name : cstr m' name w;
}.

(** The directory block is still the caller's when the entry is written. *)
Lemma entry_step m3 st3 : fs_mem st3 = m3 -> same_meta it m m3 ->
  (forall a, in_blk rb a -> load8 m3 a = load8 m a) -> (forall a, in_rng name (len + 1) a -> load8 m3 a = load8 m a) ->
  exists st4, write_entry name (ri + 1) st3 = Ok true st4 /\ dir_rep (fs_mem st4) (blk 1 rb) (new_entries (ri + 1) w l last) /\
    total_len (new_entries (ri + 1) w l last) = 1024 /\ Forall entry_fits (new_entries (ri + 1) w l last) /\
    forall a, ~ in_blk rb a -> load8 (fs_mem st4) a = load8 m3 a.
Proof using All.
  intros <- Sm Hr Hn. apply write_entry_ok; try apply Hro.
  - rewrite (root_inode (fs_mem st3) it ri).
    + rewrite (sm_root _ _ _ Sm). apply Hdk.
    + rewrite (sm_magic _ _ _ Sm). apply Hdk.
    + rewrite (sm_ipg _ _ _ Sm). apply Hdk.
    + rewrite (sm_it _ _ _ Sm). apply Hdk.
    + apply Hdk.
  - apply (dir_rep_frame m); [apply Hro|apply Hro|]. intros a Ha. apply Hr. rewrite (ro_fill Hro) in Ha. exact Ha.
  - apply (cstr_frame m); [apply Hco|]. intros j Hj. apply Hn. unfold in_rng. lia.
  - apply Hco.
  - intros a Ha. exact (site_not Name (Blk rb) a Ha ltac:(discriminate)).
  - pose proof (dk_ri _ _ _ _ _ _ _ _ Hdk). lia.
Qed.

Lemma file_at_frame m3 m5 : file_at slot m3 ->
  (forall b a, b = tb \/ (exists j, 0 <= j < k /\ b = fr j + 1) -> in_blk b a -> load8 m5 a = load8 m3 a) -> file_at slot m5.
Proof using All.
  intros [Fc Fs Fp Fe Fd] H. pose proof k_range as Hk11.
  assert (Hs : forall o, 0 <= o -> o + 4 <= INODE_SIZE -> load32 m5 (slot + o) = load32 m3 (slot + o)).
  { intros o Ho1 Ho2. apply load32_same. intros x Hx. apply (H tb); [tauto|]. apply slot_in. unfold in_rng in *. lia. }
  split; try (rewrite Hs by (unfold INODE_SIZE; lia); assumption).
  - intros j Hj. rewrite <- Z.add_assoc, Hs, Z.add_assoc by (unfold INODE_SIZE; lia). auto.
  - rewrite <- Z.add_assoc, Hs, Z.add_assoc by (unfold INODE_SIZE; lia). assumption.
  - intros j x Hj Hx. rewrite <- Fd by assumption. apply (H (fr j + 1)); [right; exists j; tauto|].
    unfold in_blk, in_rng, BLOCK_SIZE. lia.
Qed.

Lemma ext2_touch_ok : exists st', ext2_touch scratch clock name data n i st = Ok (ri + 1) st' /\ touched (fs_mem st').
Proof using All.
  destruct data_step as (st1 & st2 & E1 & E2 & F2 & Kn & Kb).
  assert (Hmagic : ext2_superblock m 1 = blk 1 1).
  { unfold ext2_superblock. change (1 =? 0) with false. change EXT2_SUPER with 1. cbv iota.
    rewrite (dk_magic _ _ _ _ _ _ _ _ Hdk), Z.eqb_refl. reflexivity. }
  unfold ext2_touch. unfold bind at 1. unfold gets. rewrite Hmagic. change (ext2_blockdesc 1) with (blk 1 2).
  rewrite (bind_Ok _ _ _ _ _ E1), (bind_Ok _ _ _ _ _ E2).
  assert (K2 : forall a, meta_addr it a -> load8 (fs_mem st2) a = load8 m a).
  { intros a Ha. destruct (meta_in a Ha) as (b & Hb & Hin & C1 & _ & C2). apply (Kb b); [|assumption| |].
    - apply other_meta. clear -Hb. rewrite !elem_of_cons in *. tauto.
    - clear -C1. unfold in_rng in *. lia.
    - clear -C2. unfold in_rng in *. lia. }
  pose proof (meta_kept _ _ _ K2) as S2.
  destruct (write_inode_ok (fs_mem st2) it ri) with (st := st2) (i := i) as (st3 & E3 & M3).
  { rewrite (sm_magic _ _ _ S2). apply Hdk. }
  { rewrite (sm_ipg _ _ _ S2). apply Hdk. }
  { rewrite (sm_it _ _ _ S2). apply Hdk. }
  { apply Hdk. }
  { reflexivity. }
  rewrite (bind_Ok _ _ _ _ _ E3).
  assert (F3 : file_at slot (fs_mem st3)) by (rewrite M3; apply slot_file; exact F2).
  assert (K3 : forall a, ~ in_rng slot INODE_SIZE a -> load8 (fs_mem st3) a = load8 (fs_mem st2) a)
    by (intros a Ha; rewrite M3; apply load8_memcpy_off; exact Ha).
  clear M3. remember (fs_mem st3) as m3 eqn:Em3.
  assert (K3b : forall b a, b <> tb -> in_blk b a -> load8 m3 a = load8 (fs_mem st2) a).
  { intros b a Hb Ha. apply K3. intros Hs. apply Hb. exact (in_blk_inj _ _ _ Ha (slot_in a Hs)). }
  assert (K3m : forall a, meta_addr it a -> load8 m3 a = load8 m a)
    by (intros a Ha; rewrite K3 by (apply meta_slot; exact Ha); apply K2; exact Ha).
  assert (K3n : forall a, in_rng name (len + 1) a -> load8 m3 a = load8 m a).
  { intros a Ha. rewrite K3; [apply Kn; exact Ha|]. intros Hs.
    exact (site_not Name (Blk tb) a Ha ltac:(discriminate) (slot_in a Hs)). }
  assert (rb <> 1 /\ rb <> 2 /\ tb <> rb /\ tb <> 1 /\ tb <> 2 /\ it <> rb) as (R1 & R2 & R3 & R4 & R5 & R6)
    by (repeat split; apply meta_distinct).
  destruct (entry_step m3 st3 (eq_sym Em3)) as (st4 & E4 & D4 & T4 & Fi4 & K4).
  { apply meta_kept. exact K3m. }
  { intros a Ha. rewrite (K3b rb) by (assumption || congruence). destruct (no_counter rb a Ha R1 R2) as [X1 X2].
    apply (Kb rb); [apply other_meta; rewrite !elem_of_cons; tauto|assumption| |]; intros H;
      [apply X1|apply X2]; unfold in_blk, in_rng, BLOCK_SIZE in *; lia. }
  { exact K3n. }
  rewrite (bind_Ok _ _ _ _ _ E4). cbn [negb].
  assert (K4m : forall a, meta_addr it a -> load8 (fs_mem st4) a = load8 m a).
  { intros a Ha. rewrite <- K3m by assumption. apply K4. destruct (meta_in a Ha) as (b & Hb & Hin & _).
    intros Hr. pose proof (in_blk_inj _ _ _ Hin Hr) as ->. clear -Hb R1 R2 R6. rewrite !elem_of_cons, elem_of_nil in Hb.
    intuition congruence. }
  destruct (counters_ok st4) as (st5 & E5 & K5).
  { rewrite (sm_magic _ _ _ (meta_kept _ _ _ K4m)). apply Hdk. }
  exists st5. split; [exact E5|].
  assert (K5b : forall b a, b <> 1 -> b <> 2 -> in_blk b a -> load8 (fs_mem st5) a = load8 (fs_mem st4) a).
  { intros b a H1 H2 Ha. destruct (no_counter b a Ha H1 H2) as [X1 X2]. clear -K5 X1 X2.
    apply K5; intros H; [apply X1|apply X1|apply X2]; unfold in_blk, in_rng, BLOCK_SIZE in *; lia. }
  split.
  - apply meta_kept. intros a Ha. rewrite <- K4m by assumption. destruct (meta_in a Ha) as (_ & _ & _ & C1 & C2 & C3).
    clear -K5 C1 C2 C3. apply K5; unfold in_rng in *; lia.
  - apply (file_at_frame m3); [exact F3|]. intros b a Hb Ha.
    assert (Nb : b <> 1 /\ b <> 2 /\ b <> rb).
    { destruct Hb as [-> |(j & Hj & ->)]; [auto|].
      repeat split; apply fr_meta; try assumption; rewrite !elem_of_cons; tauto. }
    rewrite (K5b b) by tauto. apply K4. intros Hr. apply Nb. exact (in_blk_inj _ _ _ Ha Hr).
  - apply (dir_rep_frame (fs_mem st4)); [exact D4|exact Fi4|]. intros a Ha. rewrite T4 in Ha. apply (K5b rb); assumption.
  - exact T4.
  - exact Fi4.
  - apply (cstr_frame m); [apply Hco|]. intros j Hj. assert (Ha : in_rng name (len + 1) (name + j)) by (unfold in_rng; lia).
    assert (Hno : forall b, ~ in_blk b (name + j)) by (intros b; exact (site_not Name (Blk b) _ Ha ltac:(discriminate))).
    rewrite <- K3n by assumption. rewrite <- K4 by apply Hno. pose proof (Hno 1) as X1. pose proof (Hno 2) as X2.
    clear -K5 X1 X2. apply K5; unfold in_blk, in_rng, BLOCK_SIZE in *; lia.
Qed.

(** A block the caller reads into. *)
Context (buf : Z).
Hypothesis Hbuf : forall a, in_rng buf ((k + 1) * BLOCK_SIZE) a -> (forall b, ~ in_blk b a) /\ ~ in_rng name (len + 1) a.

(** No entry shadows the new name: lookup compares prefixes. *)
Hypothesis Hnew : Forall (fun e => ~ e_name e `prefix_of` w) (l ++ [last]).

Lemma lookup_new : dir_lookup w (new_entries (ri + 1) w l last) = ri + 1.
Proof using Hnew.
  unfold new_entries. generalize (1024 - (total_len l + calc)). intros r. clear -Hnew. induction l as [|e l' IH]; cbn [app dir_lookup] in *; apply Forall_cons in Hnew as [He Hl].
  - rewrite (bool_decide_eq_false_2 _ He). rewrite bool_decide_eq_true_2; [reflexivity|]. exists []. cbn. rewrite app_nil_r. reflexivity.
  - rewrite (bool_decide_eq_false_2 _ He). apply IH. exact Hl.
Qed.

Section after.
Context (m' : mem).
Hypothesis Hto : touched m'.

Lemma after_meta : sb_magic m' (blk 1 1) = EXT2_MAGIC /\ 1 < ri < sb_inodes_per_group m' (blk 1 1) /\ bg_inode_table m' (blk 1 2) = it.
Proof using All.
  destruct (to_meta _ Hto) as [S1 S2 _ S3 _ _]. rewrite S1, S2, S3. split; [apply Hdk|]. split; apply Hdk.
Qed.

Lemma after_lookup : find_inode_in_dir m' name 2 buf = Some (ri + 1).
Proof using All.
  destruct after_meta as (A1 & A2 & A3). pose proof (proj2 (dk_ri _ _ _ _ _ _ _ _ Hdk)) as A4. pose proof k_range as Hk11.
  unfold find_inode_in_dir. change (2 =? 0) with false. cbv iota. rewrite (root_inode m' it ri A1 A2 A3 A4).
  pose proof (to_meta _ Hto) as S. rewrite (sm_len _ _ _ S), (dk_root_len _ _ _ _ _ _ _ _ Hdk).
  change (1024 * 2 / 2) with 1024. set (m1 := read_dir m' _ buf).
  assert (Hm1 : forall a, load8 m1 a = if (buf <=? a) && (a <? buf + 1024) then load8 m' (blk 1 rb + (a - buf)) else load8 m' a).
  { assert (Hb : forall b x, in_blk b x -> ~ in_rng buf 1024 x).
    { intros b x Hx H. apply (proj1 (Hbuf x ltac:(unfold in_rng, BLOCK_SIZE in *; lia)) b Hx). }
    assert (Hsep : buf + 1024 <= blk 1 rb \/ blk 1 rb + 1024 <= buf).
    { apply rng_sep; [lia..|]. intros x H1 H2. exact (Hb rb x H2 H1). }
    intros a. unfold m1, read_dir. rewrite (sm_len _ _ _ S), (dk_root_len _ _ _ _ _ _ _ _ Hdk).
    change (BLOCK_SIZE * 2 / 2) with 1024. change (Z.to_nat (2 / 2)) with 1%nat. cbn [for_up]. rewrite Z.mul_0_l, Z.add_0_r.
    set (mz := memset m' buf 0 1024).
    assert (Ez : forall x, ~ in_rng buf 1024 x -> load8 mz x = load8 m' x) by (intros x Hx; apply load8_memset_off; exact Hx).
    assert (Er : i_block mz (blk 1 it + INODE_SIZE) 0 = rb).
    { rewrite <- (dk_root _ _ _ _ _ _ _ _ Hdk), <- (sm_root _ _ _ S). apply load32_same. intros x Hx. apply Ez, (Hb it).
      unfold in_blk, in_rng, INODE_SIZE, BLOCK_SIZE in *. lia. }
    rewrite Er. unfold BLOCK_SIZE. rewrite load8_memcpy by lia.
    destruct (Z.leb_spec buf a), (Z.ltb_spec a (buf + 1024)); cbn [andb]; apply Ez; unfold in_rng; lia. }
  rewrite (dir_loop_spec m1 name w (new_entries (ri + 1) w l last)); [f_equal; apply lookup_new| | | | |].
  - apply (cstr_frame m'); [apply Hto|]. intros j Hj. rewrite Hm1.
    replace ((buf <=? name + j) && (name + j <? buf + 1024)) with false; [reflexivity|]. symmetry. apply not_true_is_false.
    intros H. apply (proj2 (Hbuf (name + j) ltac:(unfold in_rng, BLOCK_SIZE; lia))). unfold in_rng. lia.
  - apply (dir_rep_move m' m1 _ (blk 1 rb) buf); [apply Hto|apply Hto|]. rewrite (to_total _ Hto). intros x Hx. rewrite Hm1.
    replace ((buf <=? buf + x) && (buf + x <? buf + 1024)) with true by lia. f_equal. lia.
  - unfold new_entries. intros H. apply app_eq_nil in H as [_ H]. discriminate.
  - rewrite (to_total _ Hto). reflexivity.
  - rewrite (to_total _ Hto). lia.
Qed.

Lemma after_open : let ino := ext2_inode m' 1 (ri + 1) in
  load32 m' (ino + 4) = n /\
  exists m2, ext2_open m' ino buf = (m2, buf) /\ bytes_at m2 buf (Z.to_nat n) = bytes_at m data (Z.to_nat n).
Proof using All.
  destruct after_meta as (A1 & A2 & A3). pose proof (dk_ri _ _ _ _ _ _ _ _ Hdk) as A4. pose proof k_range as Hk11.
  pose proof (dk_ipg _ _ _ _ _ _ _ _ Hdk) as A5. cbv zeta. rewrite (group0_inode m' it ri A1 A2 A3 (proj2 A4) ri) by lia.
  pose proof (to_file _ Hto) as [Fc Fs Fp Fe Fd]. split; [exact Fs|].
  destruct (open_direct m' slot buf k) as (m2 & E & Hd).
  - lia.
  - unfold num_blocks, i_blocks. rewrite Fc. change (BLOCK_SIZE / SECTOR_SIZE) with 2. clear. dlia.
  - pose proof (blk_pos 1 tb). pose proof (Z.mod_pos_bound ri 8 eq_refl). unfold INODE_SIZE. lia.
  - exact Fe.
  - intros j Hj. unfold i_block. rewrite Fp by assumption. apply fr_meta; [assumption|]. rewrite !elem_of_cons. tauto.
  - intros a Ha. destruct (Hbuf a Ha) as [H _]. split; [exact H|]. intros Hs. apply (H tb), slot_in, Hs.
  - exists m2. split; [exact E|]. apply bytes_at_eq. intros y Hy.
    pose proof (co_n Hco) as Hn. pose proof (co_k Hco) as Hk. rewrite Z2Nat.id in Hy by lia.
    assert (Hyd : 0 <= y / 1024 < k) by (rewrite Hk; clear -Hy; dlia).
    pose proof (Z.mod_pos_bound y 1024 eq_refl) as Hm.
    assert (Ey : y = 1024 * (y / 1024) + y mod 1024) by (apply Z.div_mod; lia).
    rewrite Ey at 1. rewrite (Hd (y / 1024) (y mod 1024) Hyd Hm). unfold i_block. rewrite Fp, Fd by assumption.
    rewrite <- Ey. replace (y <? n) with true by lia. reflexivity.
Qed.
End after.
End touched.

(** C9: creating a file and finding it again.  On a disk with a free inode
    and enough free blocks, a root directory whose last record has room, and a
    cleared inode block, [ext2_touch] of up to 11 blocks of data returns the
    first free inode number.  Afterwards the root directory holds the old
    entries and the new one, looking the name up returns that inode, its size
    is the size of the data, and reading it gives the data back. *)
Theorem ext2_touch_roundtrip `{BC : BlockCache} scratch clock i name data n w l last bb ib it rb ri k fr buf st :
  disk (fs_mem st) bb ib it rb ri k fr ->
  call_ok scratch i name data n w k st -> root_ok w l last rb st ->
  (forall a, in_rng buf ((k + 1) * BLOCK_SIZE) a ->
     (forall b, ~ in_blk b a) /\ ~ in_rng name (Z.of_nat (length w) + 1) a) ->
  Forall (fun e => ~ e_name e `prefix_of` w) (l ++ [last]) ->
  exists st', ext2_touch scratch clock name data n i st = Ok (ri + 1) st' /\
    dir_rep (fs_mem st') (blk 1 rb) (new_entries (ri + 1) w l last) /\
    find_inode_in_dir (fs_mem st') name 2 buf = Some (ri + 1) /\
    let ino := ext2_inode (fs_mem st') 1 (ri + 1) in
    load32 (fs_mem st') (ino + 4) = n /\
    exists m2, ext2_open (fs_mem st') ino buf = (m2, buf) /\
      bytes_at m2 buf (Z.to_nat n) = bytes_at (fs_mem st) data (Z.to_nat n).
Proof.
  intros Hdk Hco Hro Hbuf Hnew.
  destruct (ext2_touch_ok scratch clock i name data n w l last bb ib it rb ri k fr st Hdk Hco Hro) as (st' & E & Hto).
  exists st'. split; [exact E|]. split; [apply Hto|]. split.
  - exact (after_lookup scratch clock i name data n w l last bb ib it rb ri k fr st Hdk Hco Hro buf Hbuf Hnew _ Hto).
  - exact (after_open scratch clock i name data n w l last bb ib it rb ri k fr st Hdk Hco Hro buf Hbuf Hnew _ Hto).
Qed.

(** ** A concrete disk *)

#[local] Existing Instance flat_cache.

(** Bitmaps in blocks 3 and 4 with 16 blocks and 11 inodes used, the inode
    table from block 5 on, the root directory in block 14 with the entry "a". *)
Definition demo_disk : mem :=
  let m := store16 (store32 ∅ (0x100800 + 40) 64) (0x100800 + 56) EXT2_MAGIC in
  let m := store32 (store32 (store32 m 0x101000 3) 0x101004 4) 0x101008 5 in
  let m := store32 (store32 m 0x101800 0xFFFF) 0x102000 0x7FF in
  let m := store32 (store32 m (0x102880 + 28) 2) (0x102880 + 40) 14 in
  let m := store16 (store32 m 0x107000 11) 0x107004 1024 in
  let m := put_str (store8 (store8 m 0x107006 1) 0x107008 97) 0x60000 [98; 99] in
  put_str m 0x61000 (replicate 1030 65).

Lemma all_below (p : Z -> bool) n : find_up n 0 (fun x => negb (p x)) = None -> forall x, 0 <= x < Z.of_nat n -> p x = true.
Proof. intros H x Hx. apply negb_false_iff. exact (proj1 (find_up_None _ _ _) H x Hx). Qed.

(** Numbers not in a list of numerals. *)
Ltac not_in := repeat (apply not_elem_of_cons; split; [discriminate|]); apply not_elem_of_nil.

Lemma demo_disk_ok : disk demo_disk 3 4 5 14 11 2 (fun j => 16 + j).
Proof.
  split.
  - vm_compute. reflexivity.
  - assert (E : sb_inodes_per_group demo_disk (blk 1 1) = 64) by (vm_compute; reflexivity). rewrite E. lia.
  - vm_compute. reflexivity.
  - vm_compute. reflexivity.
  - vm_compute. reflexivity.
  - vm_compute. reflexivity.
  - vm_compute. reflexivity.
  - lia.
  - vm_compute. reflexivity.
  - apply (all_below (bit_used demo_disk (blk 1 4)) 11). vm_compute. reflexivity.
  - split; [lia| |lia|].
    + intros j Hj. assert (j = 0 \/ j = 1) as [-> | ->] by lia; vm_compute; reflexivity.
    + intros j x Hj Hx. destruct (Z.lt_ge_cases x 16).
      * left. apply (all_below (bit_used demo_disk (blk 1 3)) 16); [vm_compute; reflexivity|lia].
      * right. exists (x - 16). lia.
  - repeat (apply NoDup_cons; split; [not_in|]). apply NoDup_nil_2.
  - split; not_in.
  - apply Forall_forall. repeat (apply Forall_cons; split; [vm_compute; reflexivity|]). apply Forall_nil_2.
Qed.

Lemma demo_areas : areas_apart (fun _ => 0x70000) 0x62000 0x60000 0x61000 2 1030.
Proof.
  assert (Hs : forall s a, at_site (fun _ => 0x70000) 0x62000 0x60000 0x61000 2 1030 s a ->
    match s with Blk _ => 0x100000 <= a | Scr => 0x70000 <= a < 0x80000 | Ino => 0x62000 <= a < 0x70000
               | Name => 0x60000 <= a < 0x61000 | Data => 0x61000 <= a < 0x62000 end).
  { intros [b| | | |] a H; cbn [at_site] in H; [|destruct H as [_ H]|..]; unfold in_blk, in_rng, BLOCK_SIZE, INODE_SIZE, blk in H;
      cbn in H; lia. }
  intros s1 s2 a H1 H2. pose proof (Hs _ _ H1) as K1. pose proof (Hs _ _ H2) as K2. clear Hs.
  destruct s1 as [b1| | | |], s2 as [b2| | | |]; try reflexivity; try lia. f_equal. exact (in_blk_inj _ _ _ H1 H2).
Qed.

Lemma ext2_touch_roundtrip_witness :
  exists st', ext2_touch (fun _ => 0x70000) (fun _ => 77) 0x60000 0x61000 1030 0x62000 (MkFs demo_disk []) = Ok 12 st' /\
    dir_rep (fs_mem st') (blk 1 14) [MkEntry 11 268 [97]; MkEntry 12 756 [98; 99]] /\
    find_inode_in_dir (fs_mem st') 0x60000 2 0x80000 = Some 12 /\
    let ino := ext2_inode (fs_mem st') 1 12 in
    load32 (fs_mem st') (ino + 4) = 1030 /\
    exists m2, ext2_open (fs_mem st') ino 0x80000 = (m2, 0x80000) /\
      bytes_at m2 0x80000 (Z.to_nat 1030) = bytes_at demo_disk 0x61000 (Z.to_nat 1030).
Proof.
  apply (ext2_touch_roundtrip (fun _ => 0x70000) (fun _ => 77) 0x62000 0x60000 0x61000 1030 [98; 99] [] (MkEntry 11 1024 [97])
    3 4 5 14 11 2 (fun j => 16 + j) 0x80000 (MkFs demo_disk [])).
  - exact demo_disk_ok.
  - split; [exact demo_areas|apply is_cstr_sound; vm_compute; reflexivity|reflexivity|lia|reflexivity|lia|
      vm_compute; reflexivity|vm_compute; reflexivity].
  - split; [vm_compute; repeat split; try reflexivity; set_solver|reflexivity|repeat constructor; unfold entry_fits; cbn; lia|
      vm_compute; discriminate|vm_compute; discriminate|vm_compute; discriminate].
  - intros a Ha. unfold in_rng, BLOCK_SIZE in Ha. split; [|unfold in_rng; cbn; lia].
    intros b. unfold in_blk, in_rng, blk. cbn. lia.
  - repeat constructor. intros [t Ht]. discriminate.
Defined.
