(* ===== verification/Boot.v ===== *)
(** * kernel/kernel.c: bringing up memory

    The page tables of start.s and the first calls of [kernel_initialize]:
    [k_mm_init], [k_heap_init] and [k_paging_init], in that order.  The heap is
    set up while [CURRENT_PAGE_DIRECTORY] is still NULL, so its first [sbrk]
    maps pages through a directory at physical address 0.  [null_supply] is a
    second instance of [PageSupply] for that phase. *)

From stdpp Require Import base numbers list gmap.
From Stdlib Require Import ZArith Lia.
From S2P Require Import Prelude Memory CString Mm Paging Malloc HeapPages.
Open Scope Z_scope.

(** ** The code *)

(** start.s: both the first directory slot and the one of [KERNEL_VIRT] get
    [_init_pt], whose entries map the first 4 MB; addresses are physical. *)
Definition start_tables (pd pt : Z) (m : mem) : mem :=
  let m1 := stw m (pd - KERNEL_VIRT) 0 ((pt - KERNEL_VIRT) .| 3) in
  let m2 := stw m1 (pd - KERNEL_VIRT) (KERNEL_VIRT .>> 22) ((pt - KERNEL_VIRT) .| 3) in
  for_up 1024 0 (fun i m => stw m (pt - KERNEL_VIRT) i ((i * 0x1000) .| 3)) m2.

(** The globals before the first instruction of the kernel. *)
Definition power_on (m : mem) : heap_state := MkHeap (MkPg (MkMm m 0 0 0) 0 0 0) 0 0 0 0 0 0.

Definition on_mm {A : Type} (c : M mm_state A) : M pg_state A := fun s =>
  match c (pg_mm s) with
  | Ok a x => Ok a (set_mm x s)
  | Spin => Spin
  | Undef => Undef
  end.

(** The memory part of [kernel_initialize]. *)
Definition boot_memory (kernel_end init_pd : Z) : M heap_state unit :=
  on_pg (on_mm (k_mm_init kernel_end)) ;;;
  k_heap_init ;;;
  on_pg (modify (k_paging_init init_pd)).

(** ** Paging through the NULL directory *)

(** Words of the directory at address 0. *)
Lemma null_word m i : 0 <= i < 1024 -> ldw m 0 i = ldw m KERNEL_VIRT i.
Proof.
  intros Hi. unfold ldw. rewrite (word_window KERNEL_VIRT) by ((split; [unfold KERNEL_VIRT; lia|reflexivity]) || assumption).
  unfold canon, KERNEL_VIRT. replace ((0 <=? 0 + 4 * i) && (0 + 4 * i <? 0x400000)) with true by lia. f_equal. lia.
Qed.

Lemma null_store m i v : 0 <= i < 1024 -> stw m 0 i v = stw m KERNEL_VIRT i v.
Proof.
  intros Hi. unfold stw. rewrite (word_window KERNEL_VIRT) by ((split; [unfold KERNEL_VIRT; lia|reflexivity]) || assumption).
  unfold canon, KERNEL_VIRT. replace ((0 <=? 0 + 4 * i) && (0 + 4 * i <? 0x400000)) with true by lia. f_equal. lia.
Qed.

Lemma null_window : in_window KERNEL_VIRT.
Proof. split; [unfold KERNEL_VIRT; lia|reflexivity]. Qed.

(** A slot of the kernel half: empty, or a table taken from the bump allocator. *)
Definition null_slot (lo hi e : Z) : Prop :=
  e = 0 \/ exists q, e = q - KERNEL_VIRT + 3 /\ lo <= q < hi /\ q mod 0x1000 = 0.

(** [k] pages are free and the bump allocator has room for [h] tables; [b] is the
    directory bitmap and [m0] the memory at power-on, kept below the bitmap. *)
Record null_inv (m0 : mem) (b tbl : Z) (k h : nat) (s : pg_state) (P : pool) : Prop := {
  ni_pool : pool_rel (pg_mm s) P;
  ni_region : region P < 1024;
  ni_used : forall i, i ∈ used P -> 0 <= i < 1024;
  ni_free : (size (used P) + k <= 1024)%nat;
  ni_dir : CURRENT_PAGE_DIRECTORY s = 0;
  ni_bitmap : MM_CURRENT_PD (pg_mm s) = b /\ KERNEL_VIRT + 0x1000 <= b /\ MM_CURRENT_PT (pg_mm s) + 128 <= tbl;
  ni_heap : tbl + 0x4000 <= MM_HEAP (pg_mm s) /\ MM_HEAP (pg_mm s) + 0x4000 * Z.of_nat h + 0x4000 < MM_HEAP_MAX;
  ni_slots : forall i, 768 <= i < 1024 -> null_slot (tbl + 0x4000) (MM_HEAP (pg_mm s)) (ldw (pg_mem s) 0 i);
  ni_low : forall a, KERNEL_VIRT + 0x1000 <= a < b -> load8 (pg_mem s) a = load8 m0 a;
}.
Definition null_supply_at (m0 : mem) (b tbl : Z) (k h : nat) (s : pg_state) : Prop :=
  exists P, null_inv m0 b tbl k h s P.
Definition null_supply (m0 : mem) (b tbl : Z) (k : nat) (s : pg_state) : Prop :=
  exists P, null_inv m0 b tbl k k s P.

Lemma null_weaken m0 b tbl k h s P : null_inv m0 b tbl (S k) (S h) s P -> null_inv m0 b tbl k h s P.
Proof. intros []. split; try assumption; lia. Qed.

Lemma null_slot_mono lo hi hi' e : hi <= hi' -> null_slot lo hi e -> null_slot lo hi' e.
Proof. intros H [->|(q & -> & Hq & Ha)]; [left; reflexivity|right; exists q]. repeat split; (assumption || lia). Qed.

(** Bytes above page 0 outside the zone do not matter. *)
Lemma null_frame m0 b tbl k h s P m : null_inv m0 b tbl k h s P ->
  (forall a, a < K_HEAP_BOTTOM -> a < tbl \/ tbl + 0x4000 <= a -> load8 m a = load8 (pg_mem s) a) ->
  null_inv m0 b tbl k h (set_pg_mem m s) P.
Proof.
  intros [H1 H2 H3 H4 H5 H6 H7 H8 H9] Hm. pose proof (rel_lay _ _ H1) as Hlay.
  unfold K_HEAP_BOTTOM, MM_HEAP_MAX, KERNEL_VIRT in *. split; try assumption.
  - assert (HR : pool_rel (set_mem m (pg_mm s)) (MkPool (region P) (used P) (MM_HEAP (pg_mm s)))).
    { apply (pool_rel_frame (pg_mm s) (set_mem m (pg_mm s)) P); try reflexivity; try assumption; [|apply H1].
      intros a Ha. apply Hm; lia. }
    rewrite <- (rel_heap_pool _ _ H1) in HR. exact HR.
  - intros i Hi. specialize (H8 i Hi). rewrite null_word in H8 |- * by lia.
    rewrite (ldw_frame (pg_mem s)); [exact H8|exact null_window|lia|].
    intros a Ha. unfold KERNEL_VIRT in Ha. apply Hm; lia.
  - intros a Ha. rewrite <- H9 by assumption. apply Hm; lia.
Qed.

Lemma heap_pdi va : K_HEAP_BOTTOM <= va < K_HEAP_MAX -> 768 <= va / 0x400000 < 1024.
Proof. unfold K_HEAP_BOTTOM, K_HEAP_MAX. dlia. Qed.

Section null_map.
Context (m0 : mem) (b tbl : Z) (k h : nat) (s : pg_state) (P : pool) (phys va : Z).
Hypothesis Hinv : null_inv m0 b tbl k (S h) s P.
Hypothesis Hva : K_HEAP_BOTTOM <= va < K_HEAP_MAX.

Let slot := ldw (pg_mem s) 0 (va / 0x400000).
Let pt := if slot =? 0 then MM_HEAP (pg_mm s) else P2V (frame_of slot).
Let heap' := if slot =? 0 then MM_HEAP (pg_mm s) + 0x4000 else MM_HEAP (pg_mm s).

Lemma null_table : in_window pt /\ tbl + 0x4000 <= pt < heap' /\ (frame_of slot =? 0) = (slot =? 0).
Proof using All.
  destruct Hinv as [H1 H2 H3 H4 H5 H6 H7 H8 _]. pose proof (rel_lay _ _ H1) as Hlay.
  destruct (rel_ok _ _ H1) as [_ Hal]. pose proof (H8 _ (heap_pdi va Hva)) as Hs. fold slot in Hs.
  unfold pt, heap', MM_HEAP_MAX, KERNEL_VIRT in *. destruct Hs as [->|(q & -> & Hq & Ha)].
  - cbn [Z.eqb]. split; [unfold in_window, KERNEL_VIRT; lia|]. split; [lia|reflexivity].
  - unfold KERNEL_VIRT in *. replace (q - 0xC0000000 + 3 =? 0) with false by lia.
    rewrite frame_of_eq by lia. replace (q - 0xC0000000 + 3 - (q - 0xC0000000 + 3) mod 0x400) with (q - 0xC0000000) by dlia.
    rewrite P2V_low by lia. unfold KERNEL_VIRT. replace (q - 0xC0000000 + 0xC0000000) with q by lia.
    split; [unfold in_window, KERNEL_VIRT; lia|]. split; [lia|]. lia.
Qed.

(** What [k_paging_map] stores. *)
Lemma null_map_state :
  k_paging_map phys va 0x3 s =
    set_mm (MkMm (stw (stw (pg_mem s) pt ((va / 0x1000) mod 1024) (phys .| 3)) KERNEL_VIRT (va / 0x400000)
                   (pt - KERNEL_VIRT + 3))
             (MM_CURRENT_PD (pg_mm s)) (MM_CURRENT_PT (pg_mm s)) heap') s.
Proof using All.
  destruct null_table as (Hw & Hr & Hf). pose proof (heap_pdi va Hva) as Hi.
  destruct Hinv as [H1 H2 H3 H4 H5 H6 H7 H8 _].
  unfold k_paging_map, _paging_map. rewrite H5, pd_index_eq, pt_index_eq. fold slot. rewrite Hf.
  assert (Hpt : V2P pt .| 3 = pt - KERNEL_VIRT + 3).
  { rewrite V2P_window by assumption. destruct Hw as [Hw1 Hw2]. apply or_flags; [lia|]. unfold KERNEL_VIRT in *. dlia. }
  unfold pt, heap' in *. destruct (slot =? 0); cbn [negb].
  - destruct (mm_alloc_cases 0x1000 (pg_mm s) (rel_ok _ _ H1) ltac:(lia)) as [[? _]|[_ ->]]; [lia|].
    cbv zeta. rewrite null_store, Hpt by lia. reflexivity.
  - cbv zeta. rewrite null_store, Hpt by lia. destruct s as [[] ? ? ?]. reflexivity.
Qed.

(** The two stores touch the NULL directory and a table above the block table. *)
Lemma null_map_bytes a :
  KERNEL_VIRT + 0x1000 <= a < tbl + 0x4000 \/ K_HEAP_BOTTOM <= a ->
  load8 (pg_mem (k_paging_map phys va 0x3 s)) a = load8 (pg_mem s) a.
Proof using All.
  intros Ha. rewrite null_map_state. destruct null_table as ([Hw Hwa] & Hr & _). pose proof (heap_pdi va Hva) as Hi.
  destruct Hinv as [H1 _ _ _ _ H6 H7 _ _]. destruct (rel_ok _ _ H1) as [_ Hal]. cbn.
  assert (heap' <= MM_HEAP (pg_mm s) + 0x4000 /\ heap' mod 0x1000 = 0) as [Hh Hha]
    by (unfold heap'; destruct (slot =? 0); dlia).
  unfold K_HEAP_BOTTOM, MM_HEAP_MAX in *.
  rewrite stw_other; [|exact null_window|lia|unfold KERNEL_VIRT in *; lia].
  apply stw_other; [split; assumption|apply pt_index_range|unfold KERNEL_VIRT in *; dlia].
Qed.

Lemma null_map_inv : null_supply_at m0 b tbl k h (k_paging_map phys va 0x3 s).
Proof using All.
  pose proof null_map_bytes as Hby. pose proof null_map_state as E. destruct null_table as ([Hw Hwa] & Hr & _).
  pose proof (heap_pdi va Hva) as Hi. destruct Hinv as [H1 H2 H3 H4 H5 H6 H7 H8 H9].
  destruct (rel_ok _ _ H1) as [Hok1 Hal]. pose proof (rel_lay _ _ H1) as Hlay.
  assert (heap' <= MM_HEAP (pg_mm s) + 0x4000 /\ MM_HEAP (pg_mm s) <= heap' /\ heap' mod 0x1000 = 0) as (Hh & Hge & Hha)
    by (unfold heap'; destruct (slot =? 0); dlia).
  exists (MkPool (region P) (used P) heap').
  set (s' := k_paging_map phys va 0x3 s) in *. unfold MM_HEAP_MAX in *.
  assert (Emm : MM_CURRENT_PD (pg_mm s') = MM_CURRENT_PD (pg_mm s) /\ MM_CURRENT_PT (pg_mm s') = MM_CURRENT_PT (pg_mm s) /\
    MM_HEAP (pg_mm s') = heap' /\ CURRENT_PAGE_DIRECTORY s' = 0) by (rewrite E; cbn; auto).
  destruct Emm as (Ed & Et & Eh & Ec). clearbody heap'.
  split; rewrite ?Ed, ?Et, ?Eh, ?Ec; cbn [region used heap]; try assumption; try lia; try reflexivity.
  - rewrite <- Eh. apply (pool_rel_frame (pg_mm s) (pg_mm s') P H1 Ed Et).
    + intros a Ha. apply Hby. unfold KERNEL_VIRT in *. lia.
    + lia.
    + split; rewrite Eh; unfold MM_HEAP_MAX; [lia|assumption].
  - unfold MM_HEAP_MAX. lia.
  - intros i Hi'. rewrite E. cbn [pg_mem set_mm pg_mm mm_mem]. rewrite null_word by lia.
    rewrite ldw_stw by (exact null_window || lia). rewrite Z.eqb_refl. cbn [andb].
    destruct (Z.eqb_spec i (va / 0x400000)) as [->|Hne].
    + right. exists pt. rewrite u32_small by (unfold KERNEL_VIRT in *; lia). repeat split; (assumption || lia).
    + rewrite ldw_stw by (exact null_window || (split; assumption) || apply pt_index_range || lia).
      replace (KERNEL_VIRT =? pt) with false by (unfold KERNEL_VIRT in *; lia). cbn [andb].
      rewrite <- null_word by lia. apply (null_slot_mono _ _ _ _ Hge), H8. assumption.
  - intros a Ha. rewrite Hby by (unfold KERNEL_VIRT in *; lia). apply H9. assumption.
Qed.
End null_map.

(** Taking a page from the allocator. *)
Lemma null_page m0 b tbl k h s P :
  null_inv m0 b tbl (S k) h s P ->
  exists p, k_page_alloc (pg_mm s) = Ok (Some (page_addr (region P) p))
              (set_mem (mm_bitmap_set_bit (pg_mem s) (MM_CURRENT_PT (pg_mm s)) p) (pg_mm s)) /\ 0 <= p < 1024 /\
    null_inv m0 b tbl k h (set_pg_mem (mm_bitmap_set_bit (pg_mem s) (MM_CURRENT_PT (pg_mm s)) p) s)
      (MkPool (region P) ({[p]} ∪ used P) (heap P)).
Proof.
  intros [H1 H2 H3 H4 H5 H6 H7 H8 H9]. destruct (pool_has_page P H3 ltac:(lia)) as (p & Hp & Hpr & Hpu).
  destruct (k_page_alloc_page _ P p H1 H2 Hp Hpr) as [Ea HR]. exists p.
  pose proof (rel_lay _ _ H1) as Hlay. split; [exact Ea|]. split; [assumption|].
  set (m1 := mm_bitmap_set_bit _ _ _).
  assert (Hm : forall a, a < MM_CURRENT_PT (pg_mm s) \/ MM_CURRENT_PT (pg_mm s) + 128 <= a ->
    load8 m1 a = load8 (pg_mem s) a) by (intros a Ha; apply set_bit_bytes; assumption).
  split; cbn [region used heap]; try assumption.
  - intros i Hi. apply elem_of_union in Hi as [Hi|Hi]; [apply elem_of_singleton in Hi; lia|auto].
  - rewrite size_union, size_singleton; [lia|]. apply disjoint_singleton_l. assumption.
  - intros i Hi. specialize (H8 i Hi). rewrite null_word in H8 |- * by lia. change (pg_mem (set_pg_mem m1 s)) with m1.
    rewrite (ldw_frame (pg_mem s)); [exact H8|exact null_window|lia|].
    intros a Ha. apply Hm. unfold KERNEL_VIRT in *. lia.
  - intros a Ha. rewrite <- H9 by assumption. apply Hm. lia.
Qed.

(** Before [k_paging_init] the heap gets its pages through the directory at
    address 0. *)
#[export] Instance null_page_supply m0 b tbl : PageSupply tbl (null_supply m0 b tbl).
Proof.
  split.
  - intros k va s [P Hinv] Hva Hal. unfold map_page.
    destruct (Z.eqb_spec (k_virt_to_phys va s) 0) as [_|_].
    2:{ exists s. split; [reflexivity|]. split; [|auto]. exists P. apply null_weaken. assumption. }
    pose proof Hinv as [H1 _ _ _ _ H6 H7 _ _]. pose proof (rel_lay _ _ H1) as Hlay.
    destruct (null_page _ _ _ _ _ s P Hinv) as (p & Ea & Hp & Hinv1). rewrite Ea.
    set (s1 := set_pg_mem _ s) in *. unfold bind, use, ret, modify. change (set_mm _ s) with s1.
    eexists. split; [reflexivity|]. split.
    + exact (null_map_inv m0 b tbl k k s1 _ (page_addr (region P) p) va Hinv1 Hva).
    + intros a Ha. rewrite (null_map_bytes m0 b tbl k k s1 _ (page_addr (region P) p) va Hinv1 Hva).
      * apply set_bit_bytes; [assumption|]. unfold K_HEAP_BOTTOM, MM_HEAP_MAX in *. lia.
      * unfold K_HEAP_BOTTOM, KERNEL_VIRT in *. lia.
  - intros k s i v [P Hs] Hi. exists P. apply (null_frame _ _ _ _ _ s P _ Hs). intros a Ha Hz.
    destruct Hs as [H1 _ _ _ _ H6 H7 _ _]. pose proof (rel_lay _ _ H1) as Hlay. unfold MM_HEAP_MAX in *.
    unfold stw. rewrite table_canon by (unfold KERNEL_VIRT in *; lia). apply load8_store32_ne. lia.
  - intros k s m [P Hs] Hm. exists P. apply (null_frame _ _ _ _ _ s P _ Hs). intros a Ha _. apply Hm. exact Ha.
Qed.

(** ** The boot sequence *)

(** The address [k_mm_init] starts its allocations at. *)
Definition heap_base (h : Z) : Z := h + 0x1000 - (h + 0x1000) mod 0x1000.

Lemma heap_base_spec h : h < heap_base h <= h + 0x1000 /\ heap_base h mod 0x1000 = 0.
Proof. unfold heap_base. split; dlia. Qed.

(** Conversion compares calls of these by their arguments first. *)
#[local] Strategy 100 [mm_page_alloc_rec mm_page_alloc memset mm_bitmap_set_bit store32 find_up].

(** The state after [k_mm_init]: two bitmaps at the base, everything else as
    before. *)
Lemma k_mm_init_state h s :
  0 <= h < 0xC02F0000 ->
  exists m', k_mm_init h s =
    Ok (Some 0x400000) (MkMm m' (heap_base h) (heap_base h + 0x4000) (heap_base h + 0x8000)) /\
  pool_rel (MkMm m' (heap_base h) (heap_base h + 0x4000) (heap_base h + 0x8000))
    (MkPool 1 {[0]} (heap_base h + 0x8000)) /\
  same_outside (heap_base h) (heap_base h + 0x4080) (mm_mem s) m'.
Proof.
  intros Hh. unfold k_mm_init. rewrite (u32_small (h + 0x1000)) by lia.
  change 0xFFF with (Z.ones 12). rewrite land_not_ones by lia. change (2 ^ 12) with 0x1000. fold (heap_base h).
  pose proof (heap_base_spec h) as [Ha1 Ha2]. generalize dependent (heap_base h). intros a Ha1 Ha2.
  assert (Ha0 : 0x1000 <= a) by dlia.
  destruct (bitmap_init_at (set_heap a s)) as (-> & Hok & _);
    [split; unfold MM_HEAP_MAX; simpl; lia | unfold MM_HEAP_MAX; simpl; lia |].
  destruct (bitmap_init_at (set_PD a (MkMm (memset (mm_mem s) a 0 128) (MM_CURRENT_PD s) (MM_CURRENT_PT s) (a + 0x4000))))
    as (E2 & _ & _); [exact Hok | unfold MM_HEAP_MAX; simpl; lia |].
  cbn [mm_mem MM_CURRENT_PD MM_CURRENT_PT MM_HEAP set_heap set_PD set_PT set_mem] in *. rewrite E2.
  cbn [mm_mem MM_CURRENT_PD MM_CURRENT_PT MM_HEAP set_heap set_PD set_PT set_mem].
  pose proof (fresh_bitmaps_rel (mm_mem s) a ltac:(lia) Ha2) as HR.
  replace (a + 0x4000 + 0x4000) with (a + 0x8000) by lia.
  replace ({[0]} : gset Z) with ({[0]} ∪ ∅ : gset Z) by set_solver.
  destruct (k_page_alloc_page _ _ 0 HR ltac:(simpl; lia) (pool_free_page_empty _ _) ltac:(lia)) as [Ea HR'].
  unfold k_page_alloc in Ea. cbn [MM_CURRENT_PD MM_CURRENT_PT] in Ea.
  cbn [set_mem mm_mem MM_CURRENT_PD MM_CURRENT_PT MM_HEAP region] in *. eexists. split; [exact Ea|].
  split; [exact HR'|]. intros c Hc.
  rewrite !set_bit_bytes by lia. rewrite !load8_memset by lia. bsimp; reflexivity.
Qed.

(** The image the loader leaves in memory: the directory is zero and the table
    lies beside it in front of [kernel_end]; RAM after the image, and the bytes
    of page 0 that serve as slots of the NULL directory, are zero. *)
Record boot_image (m : mem) (kernel_end pd pt : Z) (pages : nat) : Prop := {
  im_pd : in_window pd /\ KERNEL_VIRT + 0x1000 <= pd /\ pd + 0x1000 <= kernel_end;
  im_pt : in_window pt /\ KERNEL_VIRT + 0x1000 <= pt /\ pt + 0x1000 <= kernel_end;
  im_sep : pd <> pt;
  im_dir : forall i, 0 <= i < 1024 -> ldw m pd i = 0;
  im_low : forall a, KERNEL_VIRT + 0xC00 <= a < KERNEL_VIRT + 0x1000 -> load8 m a = 0;
  im_clear : forall a, kernel_end <= a < K_HEAP_BOTTOM -> load8 m a = 0;
  im_room : kernel_end + 0x1000 + 0xC000 + 0x4000 * Z.of_nat (16 + pages) + 0x4000 < MM_HEAP_MAX /\ (17 + pages <= 1024)%nat;
}.

(** Words of a window page are reached through the low window too. *)
Lemma low_word m p i v : in_window p -> 0 <= i < 1024 -> stw m (p - KERNEL_VIRT) i v = stw m p i v.
Proof.
  intros Hp Hi. unfold stw. rewrite (word_window p) by assumption. destruct Hp as [Hp Ha].
  unfold canon, KERNEL_VIRT in *. replace ((0 <=? p - 0xC0000000 + 4 * i) && (p - 0xC0000000 + 4 * i <? 0x400000)) with true by lia.
  f_equal. lia.
Qed.

Section tables.
Context (m : mem) (pd pt : Z).
Hypothesis Hpd : in_window pd.
Hypothesis Hpt : in_window pt.
Hypothesis Hne : pd <> pt.

Let m2 := stw (stw m pd 0 (pt - KERNEL_VIRT + 3)) pd 768 (pt - KERNEL_VIRT + 3).

Lemma start_tables_eq : start_tables pd pt m = for_up 1024 0 (fun i m => stw m pt i (i * 0x1000 + 3)) m2.
Proof using All.
  unfold start_tables. change (KERNEL_VIRT .>> 22) with 768.
  rewrite !(low_word _ pd), (or_flags 3) by (assumption || lia || (destruct Hpt; unfold KERNEL_VIRT in *; dlia)).
  apply for_up_ext. intros j t Hj. rewrite low_word, or_flags by (assumption || lia || dlia). reflexivity.
Qed.

Lemma fill_table n : (n <= 1024)%nat ->
  let m' := for_up n 0 (fun i m => stw m pt i (i * 0x1000 + 3)) m2 in
  (forall i, 0 <= i < Z.of_nat n -> ldw m' pt i = i * 0x1000 + 3) /\
  (forall a, a < pt \/ pt + 0x1000 <= a -> load8 m' a = load8 m2 a).
Proof using All.
  induction n as [|n IH]; intros Hn.
  - split; [intros; lia|reflexivity].
  - destruct (IH ltac:(lia)) as [IH1 IH2]. cbv zeta. rewrite for_up_snoc. rewrite Z.add_0_l. split.
    + intros i Hi. rewrite ldw_stw, Z.eqb_refl by (assumption || lia). cbn [andb].
      destruct (Z.eqb_spec i (Z.of_nat n)) as [->|]; [apply u32_small; lia|]. apply IH1. lia.
    + intros a Ha. rewrite stw_other by (assumption || lia). apply IH2. assumption.
Qed.

Lemma start_entries i : 0 <= i < 1024 -> ldw (start_tables pd pt m) pt i = i * 0x1000 + 3.
Proof using All. intros Hi. rewrite start_tables_eq. apply (fill_table 1024); lia. Qed.

Lemma start_other a :
  a < pd \/ pd + 0x1000 <= a -> a < pt \/ pt + 0x1000 <= a -> load8 (start_tables pd pt m) a = load8 m a.
Proof using All.
  intros H1 H2. rewrite start_tables_eq, (proj2 (fill_table 1024 ltac:(lia))) by assumption.
  unfold m2. rewrite !stw_other by (assumption || lia). reflexivity.
Qed.

Lemma start_slots i : (forall i, 0 <= i < 1024 -> ldw m pd i = 0) -> 0 <= i < 1024 ->
  ldw (start_tables pd pt m) pd i = if (i =? 0) || (i =? 768) then pt - KERNEL_VIRT + 3 else 0.
Proof using All.
  intros H0 Hi. rewrite start_tables_eq.
  rewrite (ldw_frame m2); [|assumption|assumption|].
  - unfold m2. rewrite !ldw_stw, Z.eqb_refl by (assumption || lia). cbn [andb].
    assert (Hs : u32 (pt - KERNEL_VIRT + 3) = pt - KERNEL_VIRT + 3)
      by (apply u32_small; destruct Hpt; unfold KERNEL_VIRT in *; lia).
    rewrite Hs. destruct (Z.eqb_spec i 768); [rewrite orb_true_r; reflexivity|].
    destruct (Z.eqb_spec i 0); [reflexivity|]. apply H0. assumption.
  - intros a Ha. apply (fill_table 1024); [lia|]. destruct Hpd, Hpt. dlia.
Qed.
End tables.

Section boot.
Context (m : mem) (e pd pt : Z) (j : nat).
Hypothesis Him : boot_image m e pd pt j.

Let m1 := start_tables pd pt m.
Let a := heap_base e.
Let tbl := a + 0x8000.

Lemma boot_sizes : e < a <= e + 0x1000 /\ a mod 0x1000 = 0 /\ 0xC0002000 <= e < 0xC02AF000 /\
  a + 0xC000 + 0x4000 * Z.of_nat (16 + j) + 0x4000 < MM_HEAP_MAX.
Proof using All.
  destruct (heap_base_spec e) as [H1 H2]. fold a in H1, H2. destruct Him as [Hd _ _ _ _ _ [Hr _]].
  unfold MM_HEAP_MAX, KERNEL_VIRT in *. lia.
Qed.

Lemma start_clear c : e <= c < K_HEAP_BOTTOM -> load8 m1 c = 0.
Proof using All.
  intros Hc. destruct Him as [Hd Ht Hs _ _ Hcl _]. unfold m1.
  rewrite start_other by (apply Hd || apply Ht || assumption || lia). apply Hcl. assumption.
Qed.

Lemma start_null i : 768 <= i < 1024 -> ldw m1 KERNEL_VIRT i = 0.
Proof using All.
  intros Hi. destruct Him as [Hd Ht Hs _ Hlow _ _]. unfold ldw. rewrite word_window by (exact null_window || lia).
  unfold load32. rewrite !(start_other m pd pt) by (apply Hd || apply Ht || assumption || lia).
  rewrite !Hlow by (unfold KERNEL_VIRT; lia). reflexivity.
Qed.

(** The state in which [k_heap_init] calls [sbrk]. *)
Definition sbrk_state (m' : mem) : heap_state :=
  MkHeap (MkPg (MkMm (memset m' tbl 0 0x1000) a (a + 0x4000) (a + 0xC000)) 0 0 0) tbl 0 tbl K_HEAP_BOTTOM K_HEAP_BOTTOM 0.

Lemma heap_init_runs :
  exists m', same_outside a (a + 0x4080) m1 m' /\
    pool_rel (MkMm m' a (a + 0x4000) (a + 0x8000)) (MkPool 1 {[0]} (a + 0x8000)) /\
    boot_memory e pd (power_on m1) =
      bind (sbrk printf 0x10000) (fun _ => on_pg (modify (k_paging_init pd))) (sbrk_state m').
Proof using All.
  pose proof boot_sizes as (Ha & Hal & He & Hr). unfold MM_HEAP_MAX in Hr.
  destruct (k_mm_init_state e (MkMm m1 0 0 0) ltac:(lia)) as (m' & E & HR & Hso). fold a in E, HR, Hso.
  exists m'. split; [exact Hso|]. split; [exact HR|].
  unfold boot_memory, bind at 1. unfold on_pg at 1, on_mm. cbn [power_on hp_pg pg_mm]. rewrite E.
  unfold k_heap_init, bind at 1. cbn [hp_pg pg_mm set_pg set_mm power_on].
  change (MAX_BLOCKS * 4) with 0x1000.
  destruct (mm_alloc_cases 0x1000 _ (rel_ok _ _ HR) ltac:(lia)) as [[Hx _]|[_ ->]];
    [cbn in Hx; unfold MM_HEAP_MAX in Hx; lia|].
  cbn [MM_HEAP mm_mem set_heap BLOCKS_ALLOCATED memlock]. fold tbl.
  assert (Hc : canon tbl = tbl).
  { unfold canon, tbl. replace (a + 0x8000 <? 0x400000) with false by lia. rewrite andb_false_r. reflexivity. }
  rewrite Hc. replace (tbl + mm_alloc_size 0x1000) with (a + 0xC000)
    by (unfold tbl; change (mm_alloc_size 0x1000) with 0x4000; lia).
  set (s1 := MkHeap _ tbl _ tbl _ _ _). change s1 with (sbrk_state m').
  unfold bind. destruct (sbrk printf 0x10000 (sbrk_state m')); reflexivity.
Qed.

Lemma boot_null m' :
  same_outside a (a + 0x4080) m1 m' ->
  pool_rel (MkMm m' a (a + 0x4000) (a + 0x8000)) (MkPool 1 {[0]} (a + 0x8000)) ->
  null_supply m1 a tbl (16 + j) (hp_pg (sbrk_state m')).
Proof using All.
  intros Hso HR. pose proof boot_sizes as (Ha & Hal & He & Hr). destruct Him as [_ _ _ _ _ _ [_ Hj]].
  unfold MM_HEAP_MAX in Hr. exists (MkPool 1 {[0]} (a + 0xC000)).
  assert (Hm : forall c, c < tbl \/ tbl + 0x1000 <= c -> load8 (memset m' tbl 0 0x1000) c = load8 m' c)
    by (intros c Hc; apply memset_same_outside; lia).
  split; cbn [sbrk_state hp_pg pg_mm pg_mem region used heap MM_CURRENT_PD MM_CURRENT_PT MM_HEAP mm_mem CURRENT_PAGE_DIRECTORY];
    unfold tbl, KERNEL_VIRT, MM_HEAP_MAX in *; try lia; try reflexivity.
  - apply (pool_rel_frame _ (MkMm (memset m' (a + 0x8000) 0 0x1000) a (a + 0x4000) (a + 0xC000)) _ HR); try reflexivity; cbn.
    + intros c Hc. apply Hm. lia.
    + lia.
    + split; unfold MM_HEAP_MAX; cbn; [lia|dlia].
  - intros i Hi. apply elem_of_singleton in Hi. lia.
  - rewrite size_singleton. lia.
  - intros i Hi. left. rewrite null_word by lia. transitivity (ldw m1 KERNEL_VIRT i); [|apply start_null; assumption].
    apply ldw_frame; [exact null_window|lia|]. unfold KERNEL_VIRT. intros c Hc. etransitivity; [apply Hm; lia|]. apply Hso. lia.
  - intros c Hc. etransitivity; [apply Hm; lia|]. apply Hso. lia.
Qed.

(** The block table is clear before and after [sbrk]. *)
Lemma boot_table m' (t : heap_state) :
  same_outside a (a + 0x4080) m1 m' ->
  (forall c, tbl <= c < tbl + 0x4000 \/ K_HEAP_BOTTOM <= c -> load8 (hp_mem t) c = load8 (hp_mem (sbrk_state m')) c) ->
  forall i, 0 <= i < 4096 -> ldw (hp_mem t) tbl i = 0.
Proof using All.
  intros Hso Ht i Hi. pose proof boot_sizes as (Ha & Hal & He & Hr). unfold MM_HEAP_MAX in Hr.
  assert (Hz : forall c, tbl <= c < tbl + 0x4000 -> load8 (hp_mem t) c = 0).
  { intros c Hc. rewrite Ht by lia. change (hp_mem (sbrk_state m')) with (memset m' tbl 0 0x1000).
    rewrite load8_memset by lia. destruct ((tbl <=? c) && (c <? tbl + 0x1000)); [reflexivity|].
    rewrite Hso by (unfold tbl in *; lia). apply start_clear. unfold tbl, K_HEAP_BOTTOM in *. lia. }
  unfold ldw. rewrite table_canon by (unfold tbl, KERNEL_VIRT; lia). unfold load32. rewrite !Hz by lia. reflexivity.
Qed.

(** The directory of start.s in a memory that agrees below the bitmaps. *)
Lemma boot_dir m' : (forall c, KERNEL_VIRT + 0x1000 <= c < a -> load8 m' c = load8 m1 c) ->
  (forall i, 0 <= i < 1024 -> ldw m' pd i = if (i =? 0) || (i =? 768) then pt - KERNEL_VIRT + 3 else 0) /\
  (forall i, 0 <= i < 1024 -> ldw m' pt i = i * 0x1000 + 3).
Proof using All.
  intros Hm. pose proof boot_sizes as (Ha & _). destruct Him as [(Hd & Hd1 & Hd2) (Ht & Ht1 & Ht2) Hs H0 _ _ _].
  split; intros i Hi.
  - rewrite (ldw_frame m1); [apply start_slots; assumption|assumption|assumption|]. intros c Hc. apply Hm. lia.
  - rewrite (ldw_frame m1); [apply start_entries; assumption|assumption|assumption|]. intros c Hc. apply Hm. lia.
Qed.

Lemma boot_dir_wf m' : (forall c, KERNEL_VIRT + 0x1000 <= c < a -> load8 m' c = load8 m1 c) -> pd_wf m' pd.
Proof using All.
  intros Hm. destruct (boot_dir m' Hm) as [Hd _]. destruct Him as [(Hw & Hd1 & Hd2) ([Ht Hta] & Ht1 & Ht2) Hs _ _ _ _].
  unfold KERNEL_VIRT in *. split; [assumption| |]; intros i Hi; rewrite Hd by assumption.
  - destruct ((i =? 0) || (i =? 768)); [|congruence]. intros _. split; [dlia|lia].
  - destruct ((i =? 0) || (i =? 768)).
    + unfold page_base. replace (pt - 0xC0000000 + 3 - (pt - 0xC0000000 + 3) mod 0x1000) with (pt - 0xC0000000) by dlia.
      rewrite P2V_low by lia. unfold KERNEL_VIRT. lia.
    + change (P2V (page_base 0)) with 0xC0000000. lia.
Qed.

(** The pages that are left serve the kernel's directory. *)
Lemma boot_kernel_supply s :
  null_supply m1 a tbl j s -> kernel_supply tbl j (k_paging_init pd s).
Proof using All.
  intros [P [H1 H2 H3 H4 H5 H6 H7 H8 H9]]. pose proof (rel_lay _ _ H1) as Hlay. pose proof boot_sizes as (Ha & Hal & _).
  destruct (boot_dir _ H9) as [Hd _]. pose proof (boot_dir_wf _ H9) as Hwf.
  destruct Him as [(Hw & Hd1 & Hd2) ([Ht Hta] & Ht1 & Ht2) Hs _ _ _ _].
  exists P. split; cbn [k_paging_init k_swap_pd pg_mm CURRENT_PAGE_DIRECTORY]; try assumption; try lia.
  - unfold outside_zone. lia.
  - change (pg_mem (k_swap_pd pd (MkPg (pg_mm s) pd pd (cr3 s)))) with (pg_mem s).
    intros i Hi. rewrite Hd by assumption. destruct ((i =? 0) || (i =? 768)); [|congruence]. intros _.
    unfold page_base, KERNEL_VIRT in *. replace (pt - 0xC0000000 + 3 - (pt - 0xC0000000 + 3) mod 0x1000) with (pt - 0xC0000000) by dlia.
    rewrite P2V_low by lia. unfold KERNEL_VIRT, outside_zone. lia.
Qed.

(** The kernel window is mapped one to one. *)
Lemma boot_window m' va :
  (forall c, KERNEL_VIRT + 0x1000 <= c < a -> load8 m' c = load8 m1 c) ->
  KERNEL_VIRT <= va < KERNEL_VIRT + 0x400000 -> mmu m' pd va = Some (va - KERNEL_VIRT).
Proof using All.
  intros Hm Hva. destruct (boot_dir m' Hm) as [Hd Ht']. destruct Him as [_ ([Ht Hta] & Ht1 & _) _ _ _ _ _].
  unfold mmu, KERNEL_VIRT in *. rewrite Hd by dlia. replace (va / 0x400000) with 768 by dlia.
  change ((768 =? 0) || (768 =? 768)) with true. cbv iota.
  unfold page_base. replace (pt - 0xC0000000 + 3 - (pt - 0xC0000000 + 3) mod 0x1000) with (pt - 0xC0000000) by dlia.
  rewrite P2V_low by lia. unfold KERNEL_VIRT. replace (pt - 0xC0000000 + 0xC0000000) with pt by lia.
  rewrite present_flags by dlia. change (present 3) with true. cbn iota.
  rewrite Ht' by (apply Z.mod_pos_bound; lia). rewrite present_flags by dlia. change (present 3) with true. cbn iota.
  f_equal. dlia.
Qed.

Lemma boot_runs :
  exists s', boot_memory e pd (power_on m1) = Ok tt s' /\ heap_ok s' [] /\ memlock s' = 0 /\
    K_HEAP_TOP s' = K_HEAP_BOTTOM + 0x10000 /\ BLOCKCHAIN_START s' = tbl /\
    kernel_supply tbl j (hp_pg s') /\ CURRENT_PAGE_DIRECTORY (hp_pg s') = pd /\ cr3 (hp_pg s') = pd - KERNEL_VIRT /\
    MM_CURRENT_PD (pg_mm (hp_pg s')) = a /\
    (forall c, KERNEL_VIRT + 0x1000 <= c < a -> load8 (hp_mem s') c = load8 m1 c).
Proof using All.
  pose proof boot_sizes as (Ha & Hal & He & Hr). unfold MM_HEAP_MAX in Hr.
  destruct heap_init_runs as (m' & Hso & HR & ->). pose proof (boot_null m' Hso HR) as Hn.
  destruct (sbrk_spec tbl (null_supply m1 a tbl) printf 0x10000 j (sbrk_state m')) as (s1 & Es & [Eg Hg] & Hj);
    [lia|reflexivity|exact Hn|reflexivity|reflexivity|].
  unfold bind. rewrite Es. unfold on_pg, modify. eexists. split; [reflexivity|].
  pose proof (boot_table m' s1 Hso Hg) as Htab. pose proof (boot_kernel_supply (hp_pg s1) Hj) as Hk.
  destruct Hj as [P Hinv]. pose proof (ni_low _ _ _ _ _ _ _ Hinv) as Hlow. destruct (ni_bitmap _ _ _ _ _ _ _ Hinv) as [Hbm _].
  assert (Hm : hp_mem (set_pg (k_paging_init pd (hp_pg s1)) s1) = hp_mem s1) by reflexivity.
  assert (Hcr : V2P pd = pd - KERNEL_VIRT) by (apply V2P_window, Him).
  rewrite Hm. rewrite Eg. cbn [set_pg set_top sbrk_state memlock K_HEAP_TOP BLOCKCHAIN_START hp_pg].
  split; [|repeat (split; [reflexivity || assumption || (rewrite Eg in Hbm; exact Hbm)|]); exact Hlow].
  split; [split| |]; cbn; unfold KERNEL_VIRT, K_HEAP_BOTTOM, K_HEAP_MAX, tbl in *; try reflexivity; try lia.
  - intros i b Hi. rewrite lookup_nil in Hi. discriminate.
  - constructor.
  - intros i Hi. apply Htab. lia.
  - split; [split; vm_compute; discriminate|reflexivity].
Qed.
End boot.

(** C7: bringing up memory.  From the loaded image, the calls of
    [kernel_initialize] up to [k_paging_init] return, and the kernel is ready
    to allocate: the heap is empty with 64 KB ready, its lock is free, [pages]
    more pages can be mapped behind it through the kernel's directory (what
    [malloc] asks of paging), the directory is loaded, and the processor
    translates the whole kernel window, the first heap pages included, to the
    physical addresses [KERNEL_VIRT] below. *)
Theorem boot_memory_ready m kernel_end pd pt pages :
  boot_image m kernel_end pd pt pages ->
  exists s', boot_memory kernel_end pd (power_on (start_tables pd pt m)) = Ok tt s' /\
    heap_ok s' [] /\ memlock s' = 0 /\ K_HEAP_TOP s' = K_HEAP_BOTTOM + 0x10000 /\
    kernel_supply (BLOCKCHAIN_START s') pages (hp_pg s') /\
    CURRENT_PAGE_DIRECTORY (hp_pg s') = pd /\ cr3 (hp_pg s') = pd - KERNEL_VIRT /\
    forall va, KERNEL_VIRT <= va < KERNEL_VIRT + 0x400000 -> mmu (hp_mem s') pd va = Some (va - KERNEL_VIRT).
Proof.
  intros Him. destruct (boot_runs m kernel_end pd pt pages Him) as (s' & E & Hok & Hlk & Htop & Hst & Hk & Hd & Hc & _ & Hlow).
  exists s'. rewrite Hst. repeat (split; [assumption|]).
  intros va Hva. apply (boot_window m kernel_end pd pt pages Him _ _ Hlow Hva).
Qed.

(** A small image: the tables at 1 MB, the kernel ends at 0xC0120000. *)
Lemma demo_image pages : (pages <= 900)%nat -> Z.of_nat pages <= 80 ->
  boot_image ∅ 0xC0120000 0xC0111000 0xC0110000 pages.
Proof.
  intros Hp Hz. assert (H0 : forall c, load8 (∅ : mem) c = 0) by (intros c; unfold load8; rewrite lookup_empty; reflexivity).
  split; unfold in_window, KERNEL_VIRT, MM_HEAP_MAX.
  - split; [split; [lia|reflexivity]|lia].
  - split; [split; [lia|reflexivity]|lia].
  - lia.
  - intros i Hi. unfold ldw, load32. rewrite !H0. reflexivity.
  - intros c Hc. apply H0.
  - intros c Hc. apply H0.
  - lia.
Qed.

Lemma boot_memory_ready_witness :
  exists s', boot_memory 0xC0120000 0xC0111000 (power_on (start_tables 0xC0111000 0xC0110000 ∅)) = Ok tt s' /\
    heap_ok s' [] /\ memlock s' = 0 /\ K_HEAP_TOP s' = K_HEAP_BOTTOM + 0x10000 /\
    kernel_supply (BLOCKCHAIN_START s') 64 (hp_pg s') /\
    CURRENT_PAGE_DIRECTORY (hp_pg s') = 0xC0111000 /\ cr3 (hp_pg s') = 0x111000 /\
    forall va, KERNEL_VIRT <= va < KERNEL_VIRT + 0x400000 -> mmu (hp_mem s') 0xC0111000 va = Some (va - KERNEL_VIRT).
Proof. apply (boot_memory_ready ∅ 0xC0120000 0xC0111000 0xC0110000 64), demo_image; lia. Defined.

(** The first allocation after boot.  For up to 64 KB, [malloc] returns the
    bottom of the heap without needing another page; the block is in the table,
    the lock is free again and the supply of pages is untouched. *)
Theorem boot_first_malloc m kernel_end pd pt pages n :
  boot_image m kernel_end pd pt pages -> 0 < n <= 0x10000 ->
  exists s', (boot_memory kernel_end pd ;;; malloc n) (power_on (start_tables pd pt m)) = Ok K_HEAP_BOTTOM s' /\
    heap_ok s' [(true, n)] /\ memlock s' = 0 /\ kernel_supply (heap_base kernel_end + 0x8000) pages (hp_pg s').
Proof.
  intros Him Hn. destruct (boot_runs m kernel_end pd pt pages Him) as (s1 & E & Hok & Hlk & Htop & Hst & Hk & _).
  assert (Hex : excess s1 n <= 0) by (unfold excess; rewrite (ok_last _ _ Hok), Htop; cbn; lia).
  unfold bind. rewrite E. rewrite <- Hst in Hk |- *.
  pose proof (malloc_refines_alloc s1 [] n _ pages (kernel_page_supply _) Hok Hlk ltac:(lia)) as H.
  unfold malloc_pages in H. replace (0 <? excess s1 n) with false in H by lia.
  destruct (H Hk Hk ltac:(lia)) as (s' & Em & Hok' & Hlk' & Hj & _). exists s'. auto.
Qed.

Lemma boot_first_malloc_witness :
  exists s', (boot_memory 0xC0120000 0xC0111000 ;;; malloc 0x1800)
      (power_on (start_tables 0xC0111000 0xC0110000 ∅)) = Ok 0xC0300000 s' /\
    heap_ok s' [(true, 0x1800)] /\ memlock s' = 0 /\ kernel_supply 0xC0129000 64 (hp_pg s').
Proof. apply (boot_first_malloc ∅ 0xC0120000 0xC0111000 0xC0110000 64 0x1800); [apply demo_image|]; lia. Defined.

(** The heap is initialised before the page directory is set: the table for the
    first 16 heap pages is entered in slot 768 of a directory at address 0, and
    its 16 frames from 0x401000 on stay in use, while the kernel's directory
    still maps the heap to the frames of the boot table. *)
Example boot_maps_through_null :
  match boot_memory 0xC0120000 0xC0111000 (power_on (start_tables 0xC0111000 0xC0110000 ∅)) with
  | Ok _ s => Some (ldw (hp_mem s) 0 768, ldw (hp_mem s) 0xC012D000 768, ldw (hp_mem s) 0xC012D000 783,
                    mm_first_free (hp_mem s) (MM_CURRENT_PT (pg_mm (hp_pg s))), k_virt_to_phys 0xC0300000 (hp_pg s))
  | _ => None
  end = Some (0x12D003, 0x401003, 0x410003, 17, 0x300003).
Proof. vm_compute. reflexivity. Qed.
