(* ===== verification/Start.v ===== *)
(** * kernel/kernel.c: kernel_initialize up to the buffer cache

    The first half of [kernel_initialize] as one run over the whole kernel: the
    serial port, memory, the keyboard, the timer, the screen, the disk and the
    buffer cache, in the order of the source, each with the blocks it takes from
    the kernel heap.  [start_state] adds to [kernel] the interrupt controllers,
    the serial port and KERNEL_END.  The run is the one in which no interrupt
    arrives.  As in Trap, a printed line has its effect on the heap and is
    recorded; the status of [init_message] is the first recorded argument. *)

From stdpp Require Import base numbers list gmap strings.
From Stdlib Require Import ZArith Lia.
From S2P Require Import Prelude Memory CString Mm Paging Mutex Malloc HeapPages Boot Ide Vga Devices Keyboard Apic Trap.
Open Scope Z_scope.

Record start_state := MkStart { st_k : kernel; st_pic : pic_state; st_uart : list (Z * Z); KERNEL_END : Z }.
Definition set_st_k (k : kernel) (s : start_state) : start_state := MkStart k (st_pic s) (st_uart s) (KERNEL_END s).
Definition on_k {A : Type} (c : M kernel A) : M start_state A := fun s =>
  match c (st_k s) with
  | Ok a k => Ok a (set_st_k k s)
  | Spin => Spin
  | Undef => Undef
  end.
Definition st_pic_enable (irq : Z) : M start_state unit :=
  modify (fun s => MkStart (st_k s) (pic_enable irq (st_pic s)) (st_uart s) (KERNEL_END s)).
Definition st_uart_init : M start_state unit :=
  modify (fun s => MkStart (st_k s) (st_pic s) (st_uart s ++ uart_init) (KERNEL_END s)).
Definition st_malloc (n : Z) : M start_state Z := on_k (on_hp (malloc n)).
Definition st_init_message (status : Z) (f : string) : M start_state unit := on_k (kprintf f [status]).

(** kernel/drivers/keyboard.c *)
Definition st_keyboard_install : M start_state unit :=
  b <-- st_malloc 0x400 ;;
  l <-- st_malloc 0x100 ;;
  on_k (modify (fun k => set_k_kbd (keyboard_install b l (k_kbd k)) k)) ;;;
  st_pic_enable IRQ_KBD.

(** kernel/drivers/timer.c *)
Definition st_timer_init : M start_state unit :=
  t <-- st_malloc 8 ;;
  on_k (on_timer (fun s => Some (timer_init t s))) ;;;
  st_pic_enable IRQ_TIMER.

Definition st_sti : M start_state unit := on_k (modify (fun k => set_k_cli (MkCli (ncli (k_cli k)) true) k)).
Definition st_vga_init : M start_state unit := on_k (on_vga (fun v => Some (vga_init v))).

(** kernel/drivers/ide.c; [rs] are the status bytes [ide_wait] reads and [ds]
    those of the search for a second disk. *)
Definition st_ide_init (rs ds : list Z) : M start_state unit :=
  on_k (on_ide acquire_ide) ;;;
  st_pic_enable IRQ_IDE ;;;
  (match ide_wait_loop rs with Some _ => ret tt | None => fun _ => Spin end) ;;;
  on_k (on_ide (modify (outb (IDE_IO .| 0x6) (1 .<< 4)))) ;;;
  on_k (on_ide (modify (fun s => if existsb (fun r => negb (r =? 0)) (take 1000 ds)
    then MkIde (bufs s) (cache_list s) (cache_lock s) (idequeue s) (idelock s) 1 (ports s) else s))) ;;;
  st <-- get ;;
  st_init_message (IDE_STATUS (k_ide (st_k st))) "IDE driver ready, and disk found\n" ;;;
  on_k (on_ide (modify (set_idelock 0))).
(** [old] is what the memory of the new block holds, read as buffers. *)
Definition st_buffer_init (old : Z -> Ide.buffer) : M start_state unit :=
  p <-- st_malloc (BUFFER_SIZE * MAX_OP_BLOCKS) ;;
  on_k (on_ide (modify (buffer_init p old))).

Definition kernel_initialize (kernel_end init_pd : Z) (rs ds : list Z) (old : Z -> Ide.buffer) : M start_state unit :=
  modify (fun s => MkStart (st_k s) (st_pic s) (st_uart s) kernel_end) ;;;
  st_uart_init ;;;
  on_k (on_hp (boot_memory kernel_end init_pd)) ;;;
  on_k (kdprintf "Early kernel start success\n" []) ;;;
  st_keyboard_install ;;;
  st_timer_init ;;;
  st_sti ;;;
  st_vga_init ;;;
  st_init_message 1 "xiphos kernel locked and loaded!\n" ;;;
  st_ide_init rs ds ;;;
  st_buffer_init old.

(** ** The heap during the run *)

Lemma translate_same b s p s' : memlock s <> 0 -> translate (printf_nested 2) b s = Ok p s' -> s' = s.
Proof.
  intros Hl. unfold translate, bind. rewrite printf_waits by assumption. repeat (case_match; try discriminate); congruence.
Qed.

(** A request that fits below the top neither moves the table nor the top. *)
Lemma malloc_inside n s p s' :
  malloc n s = Ok p s' -> u32 (K_LAST_ALLOC s + n) < K_HEAP_TOP s ->
  BLOCKCHAIN_START s' = BLOCKCHAIN_START s /\ K_HEAP_TOP s' = K_HEAP_TOP s.
Proof.
  intros E Hin. unfold malloc, malloc_with in E. destruct (n =? 0); [injection E as _ <-; auto|].
  apply bind_Ok_inv in E as (? & s1 & E1 & E). unfold acquire in E1. destruct (memlock s =? 0); [|discriminate].
  injection E1 as _ <-. apply bind_Ok_inv in E as (o & s2 & E2 & E). injection E2 as <- <-.
  apply bind_Ok_inv in E as (b & s3 & E3 & E). destruct (find_best_free n (set_lock 1 s)) as [b'|]; [|discriminate].
  injection E3 as -> <-. destruct (negb (b =? NULL)).
  - apply bind_Ok_inv in E as (? & s4 & E4 & E). injection E4 as _ <-.
    apply bind_Ok_inv in E as (q & s5 & E5 & E). apply translate_same in E5 as ->; [|discriminate].
    injection E as _ <-. auto.
  - apply bind_Ok_inv in E as (r & s4 & E4 & E). unfold blockchain_add in E4.
    destruct (MAX_BLOCKS <? BLOCKS_ALLOCATED (set_lock 1 s)); injection E4 as <- <-; cbn [Z.eqb] in E.
    + injection E as _ <-. auto.
    + unfold bind, get, gets, modify, release, ret in E.
      cbn [K_HEAP_TOP K_LAST_ALLOC set_lock assign set_hp_mem set_pg] in E.
      replace (K_HEAP_TOP s <=? u32 (K_LAST_ALLOC s + n)) with false in E by lia. injection E as _ <-. auto.
Qed.

Section run.
Context (tbl pd bm : Z) (j : nat).
Hypothesis Htbl : screen_end <= bm <= tbl /\ tbl + 0x4000 <= K_HEAP_BOTTOM /\ screen_end <= pd.

(** The pages in supply, the directory, the place of the bitmaps and what the
    screen holds. *)
Definition dev_pages (scr : Z -> Z) (s : pg_state) : Prop :=
  kernel_supply tbl j s /\ CURRENT_PAGE_DIRECTORY s = pd /\ MM_CURRENT_PD (pg_mm s) = bm /\
  forall c, VGA_MEMORY <= c < screen_end -> load8 (pg_mem s) c = scr c.
(** No page is taken during the run. *)
Definition no_pages (scr : Z -> Z) (k : nat) (s : pg_state) : Prop := k = 0%nat /\ dev_pages scr s.

#[local] Instance no_pages_supply scr : PageSupply tbl (no_pages scr).
Proof using Htbl.
  split.
  - intros k va s [Hk _]. discriminate.
  - intros k s i v [-> (H1 & H2 & H3 & H4)] Hi. split; [reflexivity|].
    split; [apply supply_table; assumption|split; [assumption|split; [assumption|]]].
    intros c Hc. rewrite <- H4 by assumption. change (pg_mem (set_pg_mem ?m s)) with m. unfold stw.
    rewrite table_canon by (unfold screen_end, VGA_MEMORY, KERNEL_VIRT in *; lia). apply load8_store32_ne. lia.
  - intros k s m [-> (H1 & H2 & H3 & H4)] Hm. split; [reflexivity|].
    split; [apply supply_bytes; assumption|split; [assumption|split; [assumption|]]].
    intros c Hc. rewrite <- H4 by assumption. apply Hm. lia.
Qed.

(** The heap holds the blocks [bl] within its first 64 KB. *)
Record dev_heap (scr : Z -> Z) (bl : list Malloc.block) (h : heap_state) : Prop := {
  dh_tbl : BLOCKCHAIN_START h = tbl;
  dh_ok : heap_ok h bl;
  dh_lock : memlock h = 0;
  dh_pages : dev_pages scr (hp_pg h);
  dh_top : K_HEAP_TOP h = K_HEAP_BOTTOM + 0x10000;
}.

Lemma dev_bytes scr bl h m : dev_heap scr bl h -> (forall a, a < K_HEAP_BOTTOM -> load8 m a = load8 (hp_mem h) a) ->
  dev_heap scr bl (set_hp_mem m h).
Proof using Htbl.
  intros [H1 H2 H3 H4 H5] Hm. split; try assumption; [apply heap_ok_bytes; assumption|].
  apply (supply_bytes (tbl := tbl) (supply := no_pages scr) 0 (hp_pg h) m); [split; [reflexivity|exact H4]|exact Hm].
Qed.

(** Writing to the screen, which lies below the bitmaps and the directory. *)
Lemma dev_screen scr bl h m : dev_heap scr bl h ->
  same_outside VGA_MEMORY screen_end (hp_mem h) m -> dev_heap (load8 m) bl (set_hp_mem m h).
Proof using Htbl.
  intros [H1 H2 H3 (H4 & H5 & H6 & _) H7] Hm. split; try assumption.
  - destruct H2 as [Hok Hl Htop]. split; [|exact Hl|exact Htop]. pose proof (ok_start _ _ Hok) as Hst.
    apply (table_ok_frame h); try reflexivity; [exact Hok|]. intros i Hi. unfold ldw. rewrite H1 in *.
    rewrite table_canon by lia. apply load32_ext. intros o Ho. apply Hm. lia.
  - split; [|split; [assumption|split; [assumption|reflexivity]]].
    apply supply_frame_at; [exact H4| |]; intros c Hc; apply Hm; lia.
Qed.

Lemma dev_malloc scr bl h n i bl' :
  dev_heap scr bl h -> heap_alloc n bl = Some (i, bl') -> 0 < n -> sizes bl + n < 0x10000 ->
  exists h', malloc n h = Ok (block_addr bl' i) h' /\ dev_heap scr bl' h' /\ heap_bytes_same h h'.
Proof using Htbl.
  intros [H1 H2 H3 H4 H7] Ha Hn Hs.
  assert (HS : PageSupply (BLOCKCHAIN_START h) (no_pages scr)) by (rewrite H1; apply no_pages_supply).
  pose proof (sizes_nonneg bl (ok_sizes _ _ (ok_table _ _ H2))). pose proof (ok_last _ _ H2) as Hl.
  assert (Hex : excess h n < 0) by (unfold excess; rewrite H7, Hl; lia).
  pose proof (malloc_refines_alloc h bl n (no_pages scr) 0 HS H2 H3 ltac:(lia)) as Hm.
  unfold malloc_pages in Hm. replace (0 <? excess h n) with false in Hm by lia. rewrite Ha in Hm.
  destruct Hm as (h' & E & Hok & Hlk & [_ Hq] & Hb); [split; [reflexivity|exact H4]..|lia|].
  destruct (malloc_inside n h _ _ E) as [Et Etop].
  { unfold K_HEAP_BOTTOM in *. rewrite u32_small by lia. lia. }
  exists h'. split; [exact E|]. split; [|exact Hb]. split; try assumption; congruence.
Qed.

(** One printed line: a block of 256 bytes comes and goes. *)
Lemma dev_printf scr bl h i bl' sz :
  dev_heap scr bl h -> heap_alloc 256 bl = Some (i, bl') -> bl' !! i = Some (true, sz) ->
  256 <= sz -> sizes bl + 256 < 0x10000 ->
  exists h', printf h = Ok tt h' /\ dev_heap scr (<[i := (false, sz)]> bl') h' /\
    forall a, K_HEAP_BOTTOM <= a -> a < block_addr bl' i \/ block_addr bl' i + sz <= a -> load8 (hp_mem h') a = load8 (hp_mem h) a.
Proof using Htbl.
  intros Hh Ha Hi Hsz Hs. destruct (dev_malloc scr bl h 256 i bl' Hh Ha ltac:(lia) Hs) as (h1 & E1 & Hh1 & Hb1).
  destruct (block_in_heap h1 bl' i (true, sz) (dh_ok _ _ _ Hh1) Hi) as [Hb0 _].
  pose proof (lookup_lt_Some _ _ _ Hi) as Hlt. pose proof (ok_table _ _ (dh_ok _ _ _ Hh1)) as Ht.
  pose proof (ok_max _ _ Ht). pose proof (ok_start _ _ Ht) as Hst.
  assert (Hcan : canon (block_addr bl' i) = block_addr bl' i).
  { unfold canon, K_HEAP_BOTTOM in *. replace (block_addr bl' i <? 0x400000) with false by lia. rewrite andb_false_r. reflexivity. }
  set (m2 := memset (hp_mem h1) (block_addr bl' i) 0 256).
  assert (Hh2 : dev_heap scr bl' (set_hp_mem m2 h1)).
  { apply dev_bytes; [exact Hh1|]. intros a Ha'. unfold m2. rewrite load8_memset.
    replace (block_addr bl' i <=? a) with false by lia. reflexivity. }
  set (h2 := set_hp_mem m2 h1) in *.
  pose proof (free_eq h2 bl' i (true, sz) 0 (dh_ok _ _ _ Hh2) (dh_lock _ _ _ Hh2) Hi ltac:(cbn; lia)) as E3.
  rewrite Z.add_0_r in E3. cbn [snd] in E3. set (h3 := set_lock 0 _) in E3. exists h3.
  split; [unfold printf, printf_with; rewrite (bind_Ok _ _ _ _ _ E1), bind_modify, Hcan; fold m2 h2; rewrite (bind_Ok _ _ _ _ _ E3); reflexivity|].
  destruct Hh2 as [D1 D2 D3 D4 D5]. split.
  - split; [exact D1|exact (assign_ok h2 bl' i (true, sz) false D2 Hi)|reflexivity| |exact D5].
    unfold h3, assign. rewrite stw_shift.
    change (BLOCKCHAIN_START h2) with (BLOCKCHAIN_START h1). rewrite (dh_tbl _ _ _ Hh1).
    apply (supply_table (tbl := tbl) (supply := no_pages scr) 0 (hp_pg h2)); [split; [reflexivity|exact D4]|lia].
  - intros a Ha1 Ha2. transitivity (load8 (hp_mem h2) a); [apply (assign_heap_bytes (set_lock 1 h2)); cbn in *; lia|].
    rewrite <- (Hb1 a Ha1). change (hp_mem h2) with m2. unfold m2. rewrite load8_memset.
    replace ((block_addr bl' i <=? a) && (a <? block_addr bl' i + 256)) with false by lia. reflexivity.
Qed.
End run.

(** ** The screen and the buffers *)

Lemma load8_clear s b : load8 (vmem (vga_clear s)) b =
  if (VGA_MEMORY <=? b) && (b <? VGA_MEMORY + 4000)
  then if Z.even (b - VGA_MEMORY) then 0 else u8 (CURRENT_ATTRIB s) else load8 (vmem s) b.
Proof.
  unfold vga_clear. cbn [set_xy set_vmem vmem].
  pose proof (for_up_inv (fun i m => forall b, load8 m b =
    if (VGA_MEMORY <=? b) && (b <? VGA_MEMORY + 2 * i)
    then if Z.even (b - VGA_MEMORY) then 0 else u8 (CURRENT_ATTRIB s) else load8 (vmem s) b) 2000 0
    (fun i m => store8 (store8 m (VGA_MEMORY + 2 * i) 0) (VGA_MEMORY + 2 * i + 1) (CURRENT_ATTRIB s)) (vmem s)) as L.
  cbn beta in L. change (0 + Z.of_nat 2000) with 2000 in L. apply L; clear L b.
  - intros b. replace (b <? VGA_MEMORY + 2 * 0) with (negb (VGA_MEMORY <=? b)) by lia. rewrite andb_negb_r. reflexivity.
  - intros i m Hi IH b. rewrite !load8_store8, IH.
    destruct (Z.eqb_spec b (VGA_MEMORY + 2 * i + 1)) as [->|]; [|destruct (Z.eqb_spec b (VGA_MEMORY + 2 * i)) as [->|]].
    + replace (VGA_MEMORY + 2 * i + 1 - VGA_MEMORY) with (1 + 2 * i) by lia. rewrite Z.even_add_mul_2.
      replace ((VGA_MEMORY <=? _) && _) with true by lia. reflexivity.
    + replace (VGA_MEMORY + 2 * i - VGA_MEMORY) with (0 + 2 * i) by lia. rewrite Z.even_add_mul_2.
      replace ((VGA_MEMORY <=? _) && _) with true by lia. reflexivity.
    + replace (b <? VGA_MEMORY + 2 * (i + 1)) with (b <? VGA_MEMORY + 2 * i) by lia. reflexivity.
Qed.

(** The buffers of the cache, in order. *)
Definition cache_chain (p : Z) : list Z := (fun i : nat => p + Z.of_nat i * BUFFER_SIZE) <$> seq 0 16.

Lemma buffer_init_bufs p old s i : 0 <= i < MAX_OP_BLOCKS ->
  at_buf (buffer_init p old s) (p + i * BUFFER_SIZE) =
    (let b := p + i * BUFFER_SIZE in
     MkBuf (flags (old b)) 0xFFFFFFFF (Ide.block (old b)) (if i =? MAX_OP_BLOCKS - 1 then NULL else b + BUFFER_SIZE)
       (q (old b)) (Ide.data (old b))).
Proof.
  intros Hi.
  set (link := fun (nx : Z -> Z) (k : Z) (t : ide_state) =>
    MkIde (<[p + k * BUFFER_SIZE := (let b := p + k * BUFFER_SIZE in
      MkBuf (flags (old b)) 0xFFFFFFFF (Ide.block (old b)) (nx b) (q (old b)) (Ide.data (old b)))]> (bufs t))
      (cache_list t) (cache_lock t) (idequeue t) (idelock t) (IDE_STATUS t) (ports t)).
  change (buffer_init p old s) with (link (fun _ => NULL) (MAX_OP_BLOCKS - 1)
    (for_up (Z.to_nat (MAX_OP_BLOCKS - 1)) 0 (link (fun b => b + BUFFER_SIZE)) (set_list p s))).
  assert (Hl : forall nx k t x, bufs (link nx k t) !! x = if decide (p + k * BUFFER_SIZE = x) then
    Some (let b := p + k * BUFFER_SIZE in MkBuf (flags (old b)) 0xFFFFFFFF (Ide.block (old b)) (nx b) (q (old b)) (Ide.data (old b)))
    else bufs t !! x) by (intros nx k t x; apply lookup_insert).
  pose proof (for_up_inv (fun k t => forall i, 0 <= i < k -> bufs t !! (p + i * BUFFER_SIZE) =
    Some (let b := p + i * BUFFER_SIZE in
      MkBuf (flags (old b)) 0xFFFFFFFF (Ide.block (old b)) (b + BUFFER_SIZE) (q (old b)) (Ide.data (old b))))
    (Z.to_nat (MAX_OP_BLOCKS - 1)) 0 (link (fun b => b + BUFFER_SIZE)) (set_list p s)) as L. cbn beta in L.
  change (0 + Z.of_nat (Z.to_nat (MAX_OP_BLOCKS - 1))) with 15 in L.
  unfold at_buf. rewrite Hl. unfold MAX_OP_BLOCKS, BUFFER_SIZE in *. case_decide as E.
  - assert (i = 15) as -> by lia. reflexivity.
  - rewrite L; [|lia| |lia].
    + replace (i =? 16 - 1) with false by lia. reflexivity.
    + intros k t Hk IH x Hx. rewrite Hl. case_decide as E'; [assert (x = k) as -> by lia; reflexivity|apply IH; lia].
Qed.

Lemma buffer_init_chain p old s : 0 < p -> chain (fun b => next (at_buf (buffer_init p old s) b)) p (cache_chain p).
Proof.
  intros Hp. unfold cache_chain, BUFFER_SIZE. split.
  - cbn. lia.
  - intros i b Hi. apply list_lookup_fmap_Some_1 in Hi as (k & -> & Hk). apply lookup_seq in Hk as [-> Hk].
    cbn [Nat.add]. rewrite buffer_init_bufs by (unfold MAX_OP_BLOCKS; lia). cbn [next]. unfold MAX_OP_BLOCKS, BUFFER_SIZE.
    rewrite list_lookup_fmap. destruct (Z.eqb_spec (Z.of_nat i) (16 - 1)).
    + replace (seq 0 16 !! S i) with (@None nat) by (symmetry; apply lookup_ge_None_2; rewrite length_seq; lia). reflexivity.
    + rewrite lookup_seq_lt by lia. cbn. lia.
  - apply NoDup_fmap; [intros x y E; lia|apply NoDup_seq].
  - apply Forall_fmap, Forall_forall. intros x _. cbn. lia.
Qed.

(** ** The stages *)

Lemma st_malloc_Ok n s p h : malloc n (k_hp (st_k s)) = Ok p h -> st_malloc n s = Ok p (set_st_k (set_k_hp h (st_k s)) s).
Proof. intros E. unfold st_malloc, on_k, on_hp. rewrite E. reflexivity. Qed.

Lemma st_print_Ok f args s h : printf (k_hp (st_k s)) = Ok tt h ->
  on_k (kprintf f args) s = Ok tt (set_st_k (log f args (set_k_hp h (st_k s))) s).
Proof. intros E. unfold on_k, kprintf, on_hp, bind. rewrite E. reflexivity. Qed.

Section stages.
Context (tbl pd bm : Z) (j : nat).
Hypothesis Htbl : screen_end <= bm <= tbl /\ tbl + 0x4000 <= K_HEAP_BOTTOM /\ screen_end <= pd.
Notation dev := (dev_heap tbl pd bm j).

Definition heap1 : list Malloc.block := [(false, 256)].
Definition heap2 : list Malloc.block := [(true, 256); (true, 0x400)].
Definition heap3 : list Malloc.block := [(true, 256); (true, 0x400); (true, 8)].
Definition heap4 : list Malloc.block := [(true, 256); (true, 0x400); (true, 8); (false, 256)].
Definition heap5 : list Malloc.block := heap4 ++ [(true, BUFFER_SIZE * MAX_OP_BLOCKS)].

(** A heap whose bytes differ from [h]'s only in the block at 0x508. *)
Definition but_scratch (h h' : heap_state) : Prop :=
  forall a, K_HEAP_BOTTOM <= a < K_HEAP_BOTTOM + 0x508 -> load8 (hp_mem h') a = load8 (hp_mem h) a.

Lemma stage_early scr s : dev scr [] (k_hp (st_k s)) ->
  exists h, on_k (kdprintf "Early kernel start success\n" []) s =
      Ok tt (set_st_k (log "Early kernel start success\n" [] (set_k_hp h (st_k s))) s) /\ dev scr heap1 h.
Proof using Htbl.
  intros Hh. destruct (dev_printf tbl pd bm j Htbl scr [] _ 0 [(true, 256)] 256 Hh) as (h & E & Hh1 & _); [reflexivity..|lia|cbn; lia|].
  exists h. split; [apply st_print_Ok; exact E|exact Hh1].
Qed.

(** The line buffer gets the block that the first message freed. *)
Lemma stage_keyboard scr s : dev scr heap1 (k_hp (st_k s)) ->
  exists h, st_keyboard_install s = Ok tt (MkStart
      (set_k_kbd (keyboard_install (K_HEAP_BOTTOM + 0x100) K_HEAP_BOTTOM (k_kbd (st_k s))) (set_k_hp h (st_k s)))
      (pic_enable IRQ_KBD (st_pic s)) (st_uart s) (KERNEL_END s)) /\ dev scr heap2 h.
Proof using Htbl.
  intros Hh. destruct (dev_malloc tbl pd bm j Htbl scr heap1 _ 0x400 1 (heap1 ++ [(true, 0x400)]) Hh) as (h1 & E1 & Hh1 & _);
    [reflexivity|lia|cbn; lia|].
  destruct (dev_malloc tbl pd bm j Htbl scr _ h1 0x100 0 heap2 Hh1) as (h2 & E2 & Hh2 & _); [reflexivity|lia|cbn; lia|].
  exists h2. split; [|exact Hh2]. unfold st_keyboard_install.
  rewrite (bind_Ok _ _ _ _ _ (st_malloc_Ok _ _ _ _ E1)).
  rewrite (bind_Ok _ _ _ _ _ (st_malloc_Ok 0x100 (set_st_k (set_k_hp h1 (st_k s)) s) _ h2 E2)). reflexivity.
Qed.

Lemma stage_timer scr s : dev scr heap2 (k_hp (st_k s)) ->
  exists k, st_timer_init s = Ok tt (MkStart k (pic_enable IRQ_TIMER (st_pic s)) (st_uart s) (KERNEL_END s)) /\
    dev scr heap3 (k_hp k) /\ k_kbd k = k_kbd (st_k s) /\ k_ide k = k_ide (st_k s) /\ k_cli k = k_cli (st_k s) /\
    k_log k = k_log (st_k s) /\ ticks (k_timer k) = 0 /\ timer_buf (k_timer k) = K_HEAP_BOTTOM + 0x500 /\
    bytes_at (k_mem k) (K_HEAP_BOTTOM + 0x500) 8 = replicate 8 0.
Proof using Htbl.
  intros Hh. destruct (dev_malloc tbl pd bm j Htbl scr heap2 _ 8 2 heap3 Hh) as (h1 & E1 & Hh1 & _); [reflexivity|lia|cbn; lia|].
  assert (Hh2 : dev scr heap3 (set_hp_mem (memset (hp_mem h1) (K_HEAP_BOTTOM + 0x500) 0 8) h1)).
  { apply dev_bytes; [exact Htbl|exact Hh1|]. intros a Ha. rewrite load8_memset.
    replace (K_HEAP_BOTTOM + 0x500 <=? a) with false by lia. reflexivity. }
  eexists. unfold st_timer_init. rewrite (bind_Ok _ _ _ _ _ (st_malloc_Ok _ _ _ _ E1)).
  split; [reflexivity|]. split; [exact Hh2|]. repeat (split; [reflexivity|]).
  apply list_eq_same_length with 8%nat; [reflexivity|apply bytes_at_length|].
  intros i x y Hi. rewrite bytes_at_lookup, lookup_replicate by lia. intros [= <-] [-> _].
  change (k_mem _) with (memset (hp_mem h1) (K_HEAP_BOTTOM + 0x500) 0 8). rewrite load8_memset. bsimp; reflexivity.
Qed.

(** The screen: 80 by 25 blanks in white on black, the cursor in the corner. *)
Definition blank (c : Z) : Z := if Z.even (c - VGA_MEMORY) then 0 else 0x0F.

Lemma stage_screen scr bl s : dev scr bl (k_hp (st_k s)) ->
  exists k scr', st_vga_init s = Ok tt (set_st_k k s) /\ dev scr' bl (k_hp k) /\
    (forall c, VGA_MEMORY <= c < VGA_MEMORY + 4000 -> scr' c = blank c) /\
    CURRENT_X (k_vga k) = 0 /\ CURRENT_Y (k_vga k) = 0 /\ CURRENT_ATTRIB (k_vga k) = 0x0F /\
    k_kbd k = k_kbd (st_k s) /\ k_timer k = k_timer (st_k s) /\ k_ide k = k_ide (st_k s) /\ k_cli k = k_cli (st_k s) /\
    k_log k = k_log (st_k s) /\ but_scratch (k_hp (st_k s)) (k_hp k).
Proof using Htbl.
  intros Hh. set (v := vga_init (view_vga (st_k s))).
  assert (Hm : forall b, load8 (vmem v) b = if (VGA_MEMORY <=? b) && (b <? VGA_MEMORY + 4000) then blank b else load8 (k_mem (st_k s)) b).
  { intros b. unfold v, vga_init. rewrite load8_clear. reflexivity. }
  exists (put_vga v (st_k s)), (load8 (vmem v)). split; [reflexivity|]. split.
  { apply (dev_screen tbl pd bm j Htbl scr); [exact Hh|]. intros b Hb. rewrite Hm. unfold screen_end in Hb.
    replace ((VGA_MEMORY <=? b) && (b <? VGA_MEMORY + 4000)) with false by lia. reflexivity. }
  split; [intros c Hc; rewrite Hm; replace ((VGA_MEMORY <=? c) && (c <? VGA_MEMORY + 4000)) with true by lia; reflexivity|].
  repeat (split; [reflexivity|]). intros a Ha. change (hp_mem (k_hp (put_vga v (st_k s)))) with (vmem v).
  rewrite Hm. unfold K_HEAP_BOTTOM, VGA_MEMORY in *. replace ((0xC00B8000 <=? a) && _) with false by lia. reflexivity.
Qed.

Lemma stage_message scr f s : dev scr heap3 (k_hp (st_k s)) ->
  exists h, st_init_message 1 f s = Ok tt (set_st_k (log f [1] (set_k_hp h (st_k s))) s) /\ dev scr heap4 h /\
    but_scratch (k_hp (st_k s)) h.
Proof using Htbl.
  intros Hh. destruct (dev_printf tbl pd bm j Htbl scr heap3 _ 3 (heap3 ++ [(true, 256)]) 256 Hh) as (h & E & Hh1 & Hb);
    [reflexivity..|lia|cbn; lia|].
  exists h. split; [apply st_print_Ok; exact E|]. split; [exact Hh1|]. intros a Ha. apply Hb; [lia|left].
  change (block_addr (heap3 ++ [(true, 256)]) 3) with (K_HEAP_BOTTOM + 0x508). lia.
Qed.

Definition disk_found (ds : list Z) : bool := existsb (fun r => negb (r =? 0)) (take 1000 ds).

Lemma stage_ide scr rs ds r s : dev scr heap4 (k_hp (st_k s)) -> ide_wait_loop rs = Some r -> idelock (k_ide (st_k s)) = 0 ->
  exists k, st_ide_init rs ds s = Ok tt (MkStart k (pic_enable IRQ_IDE (st_pic s)) (st_uart s) (KERNEL_END s)) /\
    dev scr heap4 (k_hp k) /\ but_scratch (k_hp (st_k s)) (k_hp k) /\
    k_kbd k = k_kbd (st_k s) /\ k_timer k = k_timer (st_k s) /\ k_cli k = k_cli (st_k s) /\
    k_log k = ("IDE driver ready, and disk found\n"%string, [IDE_STATUS (k_ide k)]) :: k_log (st_k s) /\
    idelock (k_ide k) = 0 /\ IDE_STATUS (k_ide k) = (if disk_found ds then 1 else IDE_STATUS (k_ide (st_k s))).
Proof using Htbl.
  intros Hh Hr Hl. destruct (dev_printf tbl pd bm j Htbl scr heap4 _ 3 (heap3 ++ [(true, 256)]) 256 Hh) as (h & E & Hh1 & Hb);
    [reflexivity..|lia|cbn; lia|].
  unfold st_ide_init, bind at 1. unfold on_k at 1, on_ide at 1, acquire_ide. rewrite Hl. cbn [Z.eqb].
  unfold bind at 1. unfold st_pic_enable, modify at 1. unfold bind at 1. rewrite Hr. unfold ret at 1.
  unfold bind at 1. unfold on_k at 1, on_ide at 1, modify at 1. unfold bind at 1. unfold on_k at 1, on_ide at 1, modify at 1.
  unfold bind at 1, get. unfold bind at 1. unfold st_init_message. rewrite (st_print_Ok _ _ _ h) by exact E.
  eexists. split; [reflexivity|]. split; [exact Hh1|]. split.
  { intros a Ha. apply Hb; [lia|left]. change (block_addr (heap3 ++ [(true, 256)]) 3) with (K_HEAP_BOTTOM + 0x508). lia. }
  repeat (split; [reflexivity|]). cbn. fold (disk_found ds). destruct (disk_found ds); reflexivity.
Qed.

Lemma stage_buffers scr old s : dev scr heap4 (k_hp (st_k s)) ->
  exists h, st_buffer_init old s =
      Ok tt (set_st_k (set_k_ide (buffer_init (K_HEAP_BOTTOM + 0x608) old (k_ide (st_k s))) (set_k_hp h (st_k s))) s) /\
    dev scr heap5 h /\ heap_bytes_same (k_hp (st_k s)) h.
Proof using Htbl.
  intros Hh. destruct (dev_malloc tbl pd bm j Htbl scr heap4 _ (BUFFER_SIZE * MAX_OP_BLOCKS) 4 heap5 Hh) as (h & E & Hh1 & Hb);
    [reflexivity|reflexivity..|].
  exists h. split; [|split; assumption]. unfold st_buffer_init. rewrite (bind_Ok _ _ _ _ _ (st_malloc_Ok _ _ _ _ E)). reflexivity.
Qed.
End stages.

(** ** The whole run *)

(** The machine before [kernel_initialize]: the image with the tables of
    start.s in memory, no lock taken. *)
Definition powered (m : mem) (pd pt : Z) (s : start_state) : Prop :=
  k_hp (st_k s) = power_on (start_tables pd pt m) /\ idelock (k_ide (st_k s)) = 0 /\ 0 <= irqmask (st_pic s) < 0x10000.

(** What the run leaves: the blocks of the drivers in one heap, the directory
    and the pages behind it, the printed lines (the last one first), the
    interrupt lines and the cache. *)
Record devices_up (pd : Z) (pages : nat) (ds : list Z) (old : Z -> Ide.buffer) (s s' : start_state) : Prop := {
  du_heap : heap_ok (k_hp (st_k s')) heap5 /\ memlock (k_hp (st_k s')) = 0;
  du_pages : kernel_supply (BLOCKCHAIN_START (k_hp (st_k s'))) pages (hp_pg (k_hp (st_k s')));
  du_dir : CURRENT_PAGE_DIRECTORY (hp_pg (k_hp (st_k s'))) = pd;
  du_kbd : linebuffer (k_kbd (st_k s')) = block_addr heap5 0 /\ Keyboard.buffer (k_kbd (st_k s')) = block_addr heap5 1;
  du_timer : timer_buf (k_timer (st_k s')) = block_addr heap5 2 /\ ticks (k_timer (st_k s')) = 0 /\
    bytes_at (k_mem (st_k s')) (block_addr heap5 2) 8 = replicate 8 0;
  du_log : k_log (st_k s') =
    [("IDE driver ready, and disk found\n"%string, [IDE_STATUS (k_ide (st_k s'))]);
     ("xiphos kernel locked and loaded!\n"%string, [1]); ("Early kernel start success\n"%string, [])] ++ k_log (st_k s);
  du_if : IF (k_cli (st_k s')) = true;
  du_irq : forall i, 0 <= i < 16 -> Z.testbit (irqmask (st_pic s')) i =
    if (i =? IRQ_TIMER) || (i =? IRQ_KBD) || (i =? IRQ_IDE) then false else Z.testbit (irqmask (st_pic s)) i;
  du_disk : idelock (k_ide (st_k s')) = 0 /\
    IDE_STATUS (k_ide (st_k s')) = (if disk_found ds then 1 else IDE_STATUS (k_ide (st_k s)));
  du_cache : cache_list (k_ide (st_k s')) = block_addr heap5 4 /\
    chain (fun b => next (at_buf (k_ide (st_k s')) b)) (cache_list (k_ide (st_k s'))) (cache_chain (block_addr heap5 4)) /\
    (forall b, b ∈ cache_chain (block_addr heap5 4) -> Ide.dev (at_buf (k_ide (st_k s')) b) = 0xFFFFFFFF);
}.

Lemma three_lines s i : 0 <= irqmask s < 0x10000 -> 0 <= i < 16 ->
  Z.testbit (irqmask (pic_enable IRQ_IDE (pic_enable IRQ_TIMER (pic_enable IRQ_KBD s)))) i =
    if (i =? IRQ_TIMER) || (i =? IRQ_KBD) || (i =? IRQ_IDE) then false else Z.testbit (irqmask s) i.
Proof.
  intros Hs Hi.
  assert (H : forall irq t, 0 <= irq < 16 -> 0 <= irqmask t < 0x10000 -> 0 <= irqmask (pic_enable irq t) < 0x10000 /\
    Z.testbit (irqmask (pic_enable irq t)) i = if i =? irq then false else Z.testbit (irqmask t) i).
  { intros irq t Hq Ht. split; [apply u16_range|]. apply (pic_enable_unmasks irq t Hq Ht). exact Hi. }
  destruct (H IRQ_KBD s ltac:(unfold IRQ_KBD; lia) Hs) as [R1 E1].
  destruct (H IRQ_TIMER _ ltac:(unfold IRQ_TIMER; lia) R1) as [R2 E2].
  destruct (H IRQ_IDE _ ltac:(unfold IRQ_IDE; lia) R2) as [_ E3]. rewrite E3, E2, E1. clear.
  unfold IRQ_IDE, IRQ_TIMER, IRQ_KBD. destruct (i =? 14), (i =? 0), (i =? 1); reflexivity.
Qed.

(** Memory after [boot_memory], as the stages need it. *)
Lemma boot_dev m kernel_end pd pt pages : boot_image m kernel_end pd pt pages -> screen_end <= pd ->
  let bm := heap_base kernel_end in
  let tbl := bm + 0x8000 in
  (screen_end <= bm <= tbl /\ tbl + 0x4000 <= K_HEAP_BOTTOM /\ screen_end <= pd) /\
  exists h, boot_memory kernel_end pd (power_on (start_tables pd pt m)) = Ok tt h /\
    dev_heap tbl pd bm pages (load8 (hp_mem h)) [] h.
Proof.
  intros Him Hpd bm tbl.
  destruct (boot_runs m kernel_end pd pt pages Him) as (h & E & Hok & Hlock & Htop & Hst & Hsup & Hdir & _ & Hbm & _). split.
  - pose proof (boot_sizes m kernel_end pd pt pages Him) as (Ha & _ & _ & Hb). destruct (im_pd _ _ _ _ _ Him) as (_ & _ & Hd).
    fold bm in Ha, Hb. unfold tbl, MM_HEAP_MAX, K_HEAP_BOTTOM in *. lia.
  - exists h. split; [exact E|]. split; try assumption; repeat split; assumption.
Qed.

(** C8: Starting the kernel.  From the loaded image, with the page directory above
    the screen and a disk that becomes ready, [kernel_initialize] gets through
    the device initialisations: the keyboard's, the timer's and the cache's
    blocks lie in the first 64 KB of the heap, disjoint as the heap invariant
    says; the timer's buffer is zero; the three messages are printed in order,
    the last with the status of the disk; interrupts are on and
    exactly the timer, the keyboard and the disk have been unmasked; the sixteen
    buffers form the cache list and belong to no device; all [pages] pages are
    still there for [malloc]. *)
Theorem kernel_devices_up m kernel_end pd pt pages rs r ds old s :
  boot_image m kernel_end pd pt pages -> screen_end <= pd -> powered m pd pt s -> ide_wait_loop rs = Some r ->
  exists s', kernel_initialize kernel_end pd rs ds old s = Ok tt s' /\ devices_up pd pages ds old s s'.
Proof.
  intros Him Hpd (Hhp & Hlk & Hmask) Hr.
  destruct (boot_dev m kernel_end pd pt pages Him Hpd) as (Htbl & h0 & E0 & Hh0).
  set (bm := heap_base kernel_end) in *. set (tbl := bm + 0x8000) in *.
  unfold kernel_initialize. rewrite bind_modify. unfold st_uart_init. rewrite bind_modify.
  rewrite (bind_Ok _ _ _ tt (set_st_k (set_k_hp h0 (st_k s)) (MkStart (st_k s) (st_pic s) (st_uart s ++ uart_init) kernel_end)))
    by (unfold on_k, on_hp; cbn [st_k]; rewrite Hhp, E0; reflexivity).
  set (s1 := set_st_k _ _). destruct (stage_early _ _ _ _ Htbl _ s1 Hh0) as (h1 & E1 & Hh1). rewrite (bind_Ok _ _ _ _ _ E1). clear E1.
  set (s2 := set_st_k _ s1). destruct (stage_keyboard _ _ _ _ Htbl _ s2 Hh1) as (h2 & E2 & Hh2). rewrite (bind_Ok _ _ _ _ _ E2). clear E2.
  set (s3 := MkStart _ _ _ _). destruct (stage_timer _ _ _ _ Htbl _ s3 Hh2) as (k3 & E3 & Hh3 & K3 & I3 & C3 & O3 & T3 & B3 & Z3).
  rewrite (bind_Ok _ _ _ _ _ E3). clear E3. set (s4 := MkStart k3 _ _ _).
  unfold st_sti. rewrite (bind_Ok _ _ _ tt (set_st_k (set_k_cli (MkCli (ncli (k_cli k3)) true) k3) s4)) by reflexivity.
  set (s5 := set_st_k _ s4). destruct (stage_screen _ _ _ _ Htbl _ heap3 s5 Hh3) as
    (k5 & scr & E5 & Hh5 & _ & _ & _ & _ & K5 & T5 & I5 & C5 & O5 & F5). rewrite (bind_Ok _ _ _ _ _ E5). clear E5.
  destruct (stage_message _ _ _ _ Htbl scr "xiphos kernel locked and loaded!\n" (set_st_k k5 s5) Hh5) as (h6 & E6 & Hh6 & F6).
  rewrite (bind_Ok _ _ _ _ _ E6). clear E6. set (s6 := set_st_k (log _ _ _) _).
  destruct (stage_ide _ _ _ _ Htbl scr rs ds r s6 Hh6 Hr) as (k7 & E7 & Hh7 & F7 & K7 & T7 & C7 & O7 & L7 & D7).
  { change (k_ide (st_k s6)) with (k_ide k5). rewrite I5. change (k_ide (st_k s5)) with (k_ide k3). rewrite I3. exact Hlk. }
  rewrite (bind_Ok _ _ _ _ _ E7). clear E7. set (s7 := MkStart k7 _ _ _).
  destruct (stage_buffers _ _ _ _ Htbl scr old s7 Hh7) as (h8 & E8 & [G1 G2 G3 (G4 & G5 & G6 & G7) G8] & F8). rewrite E8. clear E8.
  eexists. split; [reflexivity|].
  assert (Hkbd : k_kbd k7 = keyboard_install (K_HEAP_BOTTOM + 0x100) K_HEAP_BOTTOM (k_kbd (st_k s)))
    by (rewrite K7; change (k_kbd (st_k s6)) with (k_kbd k5); rewrite K5; change (k_kbd (st_k s5)) with (k_kbd k3); rewrite K3; reflexivity).
  assert (Htim : k_timer k7 = k_timer k3) by (rewrite T7; change (k_timer (st_k s6)) with (k_timer k5); rewrite T5; reflexivity).
  assert (Hide : IDE_STATUS (k_ide k5) = IDE_STATUS (k_ide (st_k s))) by (rewrite I5; change (k_ide (st_k s5)) with (k_ide k3); rewrite I3; reflexivity).
  unfold s7. split; cbn [st_k set_st_k set_k_ide set_k_hp k_hp k_kbd k_timer k_cli k_ide k_log st_pic].
  - split; assumption.
  - rewrite G1. exact G4.
  - exact G5.
  - rewrite Hkbd. split; reflexivity.
  - rewrite Htim. split; [exact B3|]. split; [exact T3|]. change (block_addr heap5 2) with (K_HEAP_BOTTOM + 0x500).
    rewrite <- Z3. apply bytes_at_eq. intros i Hi.
    etransitivity; [apply F8; lia|]. etransitivity; [apply F7; lia|]. etransitivity; [apply F6; lia|]. apply F5; lia.
  - rewrite O7. change (k_log (st_k s6)) with (("xiphos kernel locked and loaded!\n"%string, [1]) :: k_log k5). rewrite O5.
    change (k_log (st_k s5)) with (k_log k3). rewrite O3. reflexivity.
  - rewrite C7. change (k_cli (st_k s6)) with (k_cli k5). rewrite C5. reflexivity.
  - intros i Hi. apply (three_lines (st_pic s) i Hmask Hi).
  - split; [exact L7|]. change (IDE_STATUS (k_ide k7) = if disk_found ds then 1 else IDE_STATUS (k_ide (st_k s))).
    rewrite D7. change (k_ide (st_k s6)) with (k_ide k5). rewrite Hide. reflexivity.
  - split; [reflexivity|]. split; [apply buffer_init_chain; reflexivity|]. intros b Hb. apply list_elem_of_fmap in Hb as (i & -> & Hi).
    apply elem_of_seq in Hi. change (block_addr heap5 4) with (K_HEAP_BOTTOM + 0x608). rewrite buffer_init_bufs by (unfold MAX_OP_BLOCKS; lia). reflexivity.
Qed.

(** The demonstration image with every component in its initial state. *)
Definition start_kernel : kernel :=
  let v := MkVga ∅ 0 0 0 [] in
  MkKernel (power_on (start_tables 0xC0111000 0xC0110000 ∅)) v (MkTimer 0 0 v) (MkKbd v 0 0 0 0 [])
    (MkIde ∅ 0 0 0 0 0 []) (MkCli 0 false) (ElfLoad.MkMmap 0 0 0) (0, 0) false [] [] (MkRegs 0 0 0 0 0 0 0 0 0 0 0 0 0) 0 [].
Definition demo_start : start_state := MkStart start_kernel pic_boot [] 0.

Lemma kernel_devices_up_witness :
  exists s', kernel_initialize 0xC0120000 0xC0111000 [0x80; 0x40] [0; 0x50] (fun _ => zero_buf) demo_start = Ok tt s' /\
    devices_up 0xC0111000 64 [0; 0x50] (fun _ => zero_buf) demo_start s'.
Proof.
  apply (kernel_devices_up ∅ 0xC0120000 0xC0111000 0xC0110000 64 [0x80; 0x40] 0x40 [0; 0x50] (fun _ => zero_buf) demo_start).
  - apply demo_image; lia.
  - unfold screen_end, VGA_MEMORY. lia.
  - split; [reflexivity|]. split; [reflexivity|]. split; vm_compute; [discriminate|reflexivity].
  - reflexivity.
Defined.
