(* ===== verification/Path.v ===== *)
(** * kernel/kernel.c: resolving a path

    [pathize] splits a path with [strtok] and looks each name up in the
    directory found so far, from the root directory (inode 2) on.  The string
    library and the file system meet in one memory: [strtok] writes into the
    path, every lookup copies a directory into a block that [malloc] returned. *)

From stdpp Require Import base numbers list gmap.
From Stdlib Require Import ZArith Lia.
From S2P Require Import Prelude Memory CString Mm Ext2.
Open Scope Z_scope.

Definition ROOT_INODE : Z := 2.

Section pathize.
Context `{BC : BlockCache}.

(** Memory after a call of [find_inode_in_dir]: the copy stays behind in the
    freed block. *)
Definition lookup_mem (m : mem) (dir buf : Z) : mem :=
  if dir =? 0 then m else read_dir m (ext2_inode m 1 dir) buf.

(** The [while] loop; [bufs k] is the block of the [k]-th lookup. *)
Fixpoint pathize_loop (fuel : nat) (m : mem) (ptr pch parent delim : Z) (bufs : nat -> Z) : option (mem * Z) :=
  match fuel with
  | O => None
  | S f =>
      if pch =? NULL then Some (m, parent)
      else
        match find_inode_in_dir m pch parent (bufs O) with
        | None => None
        | Some r =>
            let m1 := lookup_mem m parent (bufs O) in
            let '(m2, ptr2, pch2) := strtok m1 ptr NULL delim in
            pathize_loop f m2 ptr2 pch2 r delim (fun k => bufs (S k))
        end
  end.
(** [ptr] is the static variable of [strtok], [delim] the literal. *)
Definition pathize (m : mem) (ptr path delim : Z) (bufs : nat -> Z) : option (mem * Z) :=
  let '(m1, ptr1, pch) := strtok m ptr path delim in
  pathize_loop (S (strfuel m)) m1 ptr1 pch ROOT_INODE delim bufs.

(** [open]: [bufs] for the lookups, [fbuf] for the contents; the inode number it
    prints is left out. *)
Definition open (m : mem) (ptr path delim : Z) (bufs : nat -> Z) (fbuf : Z) : option (mem * Z) :=
  match pathize m ptr path delim bufs with
  | None => None
  | Some (m1, ino) =>
      if ino =? -1 then Some (m1, NULL)
      else Some (ext2_open m1 (ext2_inode m1 1 ino) fbuf)
  end.

(** ** The specification: a tree of directories *)

Fixpoint resolve (dirs : Z -> list entry) (d : Z) (ws : list (list Z)) : Z :=
  match ws with
  | [] => d
  | w :: ws' => resolve dirs (dir_lookup w (dirs d)) ws'
  end.
(** The directories a resolution reads. *)
Fixpoint visited (dirs : Z -> list entry) (d : Z) (ws : list (list Z)) : list Z :=
  match ws with
  | [] => []
  | w :: ws' => d :: visited dirs (dir_lookup w (dirs d)) ws'
  end.

(** ** What a lookup reads *)

Definition same_blocks (m m' : mem) : Prop :=
  forall n o, 0 <= o < BLOCK_SIZE -> load8 m' (blk 1 n + o) = load8 m (blk 1 n + o).
(** No block of the cache meets the range. *)
Definition no_block (lo hi : Z) : Prop := forall n, blk 1 n + BLOCK_SIZE <= lo \/ hi <= blk 1 n.

Lemma same_blocks_outside lo hi m m' : no_block lo hi -> same_outside lo hi m m' -> same_blocks m m'.
Proof using. intros Hn Hs n o Ho. apply Hs. destruct (Hn n); lia. Qed.

Lemma same_blocks_trans m1 m2 m3 : same_blocks m1 m2 -> same_blocks m2 m3 -> same_blocks m1 m3.
Proof using. intros H1 H2 n o Ho. rewrite H2, H1 by assumption. reflexivity. Qed.

Lemma block_load32 m m' n o : same_blocks m m' -> 0 <= o <= BLOCK_SIZE - 4 ->
  load32 m' (blk 1 n + o) = load32 m (blk 1 n + o).
Proof using.
  intros H Ho. apply load32_ext. intros k Hk. replace (blk 1 n + o + k) with (blk 1 n + (o + k)) by lia. apply H. lia.
Qed.

(** The disk has a file system whose group descriptors up to the one of
    inode [d] lie in one block. *)
Record fs_ok (m : mem) (d : Z) : Prop := {
  fs_magic : sb_magic m (blk 1 EXT2_SUPER) = EXT2_MAGIC;
  fs_per : 0 < sb_inodes_per_group m (blk 1 EXT2_SUPER);
  fs_group : u32 (d - 1) / sb_inodes_per_group m (blk 1 EXT2_SUPER) < 32;
}.

Lemma superblock_at m d : fs_ok m d -> ext2_superblock m 1 = blk 1 EXT2_SUPER.
Proof using. intros [H _ _]. unfold ext2_superblock. rewrite H. reflexivity. Qed.

Lemma fs_ok_same m m' d : same_blocks m m' -> fs_ok m d -> fs_ok m' d.
Proof using.
  intros Hb [H1 H2 H3].
  assert (E : sb_inodes_per_group m' (blk 1 EXT2_SUPER) = sb_inodes_per_group m (blk 1 EXT2_SUPER))
    by (apply block_load32; [assumption|unfold BLOCK_SIZE; lia]).
  split; rewrite ?E; try assumption. rewrite <- H1. unfold sb_magic, load16. rewrite Hb by (unfold BLOCK_SIZE; lia).
  f_equal. f_equal. replace (blk 1 EXT2_SUPER + 56 + 1) with (blk 1 EXT2_SUPER + 57) by lia.
  apply Hb. unfold BLOCK_SIZE; lia.
Qed.

(** An inode lies inside a block. *)
Lemma inode_in_block m d : fs_ok m d ->
  exists n o, ext2_inode m 1 d = blk 1 n + o /\ 0 <= o <= BLOCK_SIZE - INODE_SIZE.
Proof using.
  intros Hf. unfold ext2_inode. rewrite (superblock_at m d Hf). eexists _, _. split; [reflexivity|].
  change (BLOCK_SIZE / INODE_SIZE) with 8. unfold BLOCK_SIZE, INODE_SIZE.
  pose proof (Z.mod_pos_bound (u32 (d - 1) mod sb_inodes_per_group m (blk 1 EXT2_SUPER)) 8). lia.
Qed.

Lemma inode_same m m' d : same_blocks m m' -> fs_ok m d -> ext2_inode m' 1 d = ext2_inode m 1 d.
Proof using.
  intros Hb Hf. pose proof (fs_ok_same m m' d Hb Hf) as Hf'. unfold ext2_inode.
  rewrite (superblock_at m d Hf), (superblock_at m' d Hf').
  assert (E : sb_inodes_per_group m' (blk 1 EXT2_SUPER) = sb_inodes_per_group m (blk 1 EXT2_SUPER))
    by (apply block_load32; [assumption|unfold BLOCK_SIZE; lia]).
  rewrite E. destruct Hf as [_ Hp Hg]. pose proof (u32_range (d - 1)).
  assert (Eg : forall g, 0 <= g < 32 -> bg_inode_table m' (ext2_blockdesc 1 + BGD_SIZE * g) = bg_inode_table m (ext2_blockdesc 1 + BGD_SIZE * g)).
  { intros g Hg'. unfold bg_inode_table. change (ext2_blockdesc 1) with (blk 1 (EXT2_SUPER + 1)).
    rewrite <- !Z.add_assoc. apply block_load32; [assumption|unfold BGD_SIZE, BLOCK_SIZE; lia]. }
  rewrite Eg; [reflexivity|]. split; [apply Z.div_pos; lia|assumption].
Qed.

(** *** The copy of a directory *)

(** Byte [k] of the directory with inode at [i]. *)
Definition dir_byte (m : mem) (i k : Z) : Z := load8 m (blk 1 (i_block m i (k / BLOCK_SIZE)) + k mod BLOCK_SIZE).
Definition dir_size (m : mem) (i : Z) : Z := 1024 * i_blocks m i / 2.

Section copy.
Context (m : mem) (n o buf : Z).
Let i := blk 1 n + o.
Hypothesis Ho : 0 <= o <= BLOCK_SIZE - INODE_SIZE.
Hypothesis Hdirect : i_blocks m i / 2 <= 12.
Hypothesis Hbuf : no_block buf (buf + dir_size m i).

Lemma inode_word_same m' k : same_blocks m m' -> 0 <= k <= 14 -> i_block m' i k = i_block m i k.
Proof using Ho.
  intros Hb Hk. unfold i_block, i. rewrite <- !Z.add_assoc. apply block_load32; [assumption|].
  unfold BLOCK_SIZE, INODE_SIZE in *. lia.
Qed.

(** The copy: its bytes, and nothing else changes. *)
Lemma read_dir_bytes :
  same_outside buf (buf + dir_size m i) m (read_dir m i buf) /\
  forall k, 0 <= k < i_blocks m i / 2 * BLOCK_SIZE -> load8 (read_dir m i buf) (buf + k) = dir_byte m i k.
Proof using All.
  pose proof (load32_range m (i + 28)) as Hr. fold (i_blocks m i) in Hr. set (c := i_blocks m i / 2) in *.
  assert (Hc : 0 <= c /\ c * BLOCK_SIZE <= dir_size m i) by (unfold c, dir_size, BLOCK_SIZE in *; dlia).
  unfold read_dir. change (i_blocks m i / 2) with c.
  set (f := fun q t => memcpy t (buf + q * BLOCK_SIZE) (blk 1 (i_block t i q)) BLOCK_SIZE).
  pose proof (for_up_inv (fun q t => same_outside buf (buf + dir_size m i) m t /\
    forall k, 0 <= k < q * BLOCK_SIZE -> load8 t (buf + k) = dir_byte m i k) (Z.to_nat c) 0 f
    (memset m buf 0 (BLOCK_SIZE * i_blocks m i / 2))) as L.
  cbn beta in L. rewrite Z2Nat.id, Z.add_0_l in L by lia. apply L.
  - split; [|unfold BLOCK_SIZE; lia]. change (BLOCK_SIZE * i_blocks m i / 2) with (dir_size m i). apply memset_same_outside.
  - intros q t Hq [Hso Hby].
    assert (Hb : same_blocks m t) by (apply (same_blocks_outside _ _ _ _ Hbuf Hso)).
    unfold f. rewrite (inode_word_same t q Hb ltac:(lia)). set (b := i_block m i q).
    assert (Hap : blk 1 b + BLOCK_SIZE <= buf + q * BLOCK_SIZE \/ buf + q * BLOCK_SIZE + BLOCK_SIZE <= blk 1 b)
      by (destruct (Hbuf b); unfold BLOCK_SIZE in *; lia).
    assert (Hcp : forall a, load8 (memcpy t (buf + q * BLOCK_SIZE) (blk 1 b) BLOCK_SIZE) a =
      if (buf + q * BLOCK_SIZE <=? a) && (a <? buf + q * BLOCK_SIZE + BLOCK_SIZE)
      then load8 t (blk 1 b + (a - (buf + q * BLOCK_SIZE))) else load8 t a)
      by (intros a; apply load8_memcpy; unfold BLOCK_SIZE in *; lia).
    clear Hap. unfold BLOCK_SIZE in *. split.
    + intros a Ha. rewrite Hcp. replace ((buf + q * 1024 <=? a) && (a <? buf + q * 1024 + 1024)) with false by lia.
      apply Hso. assumption.
    + intros k Hk. rewrite Hcp. destruct (Z.lt_ge_cases k (q * 1024)) as [Hlt|Hge].
      * replace ((buf + q * 1024 <=? buf + k) && (buf + k <? buf + q * 1024 + 1024)) with false by lia. apply Hby. lia.
      * replace ((buf + q * 1024 <=? buf + k) && (buf + k <? buf + q * 1024 + 1024)) with true by lia.
        unfold dir_byte, BLOCK_SIZE. replace (k / 1024) with q by dlia. replace (k mod 1024) with (k - q * 1024) by dlia.
        replace (buf + k - (buf + q * 1024)) with (k - q * 1024) by lia. apply Hb. unfold BLOCK_SIZE. lia.
Qed.
End copy.

(** The blocks of inode [d] hold the entries [l] and nothing else. *)
Record dir_holds (m : mem) (d : Z) (l : list entry) : Prop := {
  dh_nz : d <> 0;
  dh_fs : fs_ok m d;
  dh_direct : i_blocks m (ext2_inode m 1 d) / 2 <= 12;
  dh_size : dir_size m (ext2_inode m 1 d) = total_len l /\ i_blocks m (ext2_inode m 1 d) / 2 * BLOCK_SIZE = total_len l;
  dh_some : l <> [];
  dh_fits : Forall entry_fits l;
  dh_rep : exists mb b, dir_rep mb b l /\
    forall k, 0 <= k < total_len l -> load8 mb (b + k) = dir_byte m (ext2_inode m 1 d) k;
}.

Lemma dir_holds_same m m' d l : same_blocks m m' -> dir_holds m d l -> dir_holds m' d l.
Proof using.
  intros Hb [H1 H2 H3 H4 H5 H6 (mb & b & H7 & H8)].
  destruct (inode_in_block m d H2) as (n & o & Ei & Ho). pose proof (inode_same m m' d Hb H2) as E.
  assert (Ek : i_blocks m' (ext2_inode m 1 d) = i_blocks m (ext2_inode m 1 d)).
  { unfold i_blocks. rewrite Ei, <- !Z.add_assoc. apply block_load32; [assumption|]. unfold BLOCK_SIZE, INODE_SIZE in *. lia. }
  split; rewrite ?E; unfold dir_size in *; rewrite ?Ek; try assumption.
  - apply (fs_ok_same m); assumption.
  - exists mb, b. split; [assumption|]. intros k Hk. rewrite H8 by assumption. unfold dir_byte. rewrite Ei.
    rewrite (inode_word_same m n o Ho m' _ Hb) by (unfold BLOCK_SIZE in *; dlia).
    symmetry. apply Hb. apply Z.mod_pos_bound. unfold BLOCK_SIZE. lia.
Qed.

(** One lookup. *)
Lemma find_inode_holds m name d buf w l :
  dir_holds m d l -> no_block buf (buf + total_len l) -> cstr m name w ->
  name + Z.of_nat (length w) < buf \/ buf + total_len l <= name ->
  find_inode_in_dir m name d buf = Some (dir_lookup w l) /\
  same_outside buf (buf + total_len l) m (lookup_mem m d buf).
Proof using.
  intros [H1 H2 H3 [H4 H4'] H5 H6 (mb & b & H7 & H8)] Hbuf Hw Hap.
  destruct (inode_in_block m d H2) as (n & o & Ei & Ho). rewrite <- H4 in Hbuf.
  rewrite Ei in Hbuf, H3. destruct (read_dir_bytes m n o buf Ho H3 Hbuf) as [Hso Hby]. rewrite <- Ei in Hso, Hby.
  rewrite H4 in Hso. rewrite H4' in Hby. unfold find_inode_in_dir, lookup_mem. replace (d =? 0) with false by lia.
  split; [|exact Hso]. pose proof (total_len_pos _ _ _ H7 H5) as Hpos.
  apply (dir_loop_spec _ name w l); [| |assumption|exact (eq_sym H4)|unfold dir_size in H4; lia].
  - apply (cstr_frame m _ _ _ Hw). intros k Hk. apply Hso. lia.
  - apply (dir_rep_move mb _ l b); [assumption|assumption|]. intros k Hk. rewrite Hby, H8 by lia. reflexivity.
Qed.

Section walk.
Context (m0 : mem) (dirs : Z -> list entry) (delim plo phi lo hi : Z).
Hypothesis Hpath : no_block plo phi.
Hypothesis Hzone : no_block lo hi.
Hypothesis Hapart : phi <= lo \/ hi <= plo.
Hypothesis Hdelim : 0 < delim /\ (delim + 1 < plo \/ phi <= delim) /\ (delim + 1 < lo \/ hi <= delim).
Hypothesis Hplo : 0 < plo /\ phi <= 0x100000000.

(** Only the path and the heap blocks change. *)
Definition walk_frame (m m' : mem) : Prop :=
  forall a, a < plo \/ phi <= a -> a < lo \/ hi <= a -> load8 m' a = load8 m a.

Lemma walk_frame_blocks m m' : walk_frame m m' -> same_blocks m m'.
Proof using Hpath Hzone. intros H n o Ho. apply H; [destruct (Hpath n)|destruct (Hzone n)]; lia. Qed.

Lemma walk_frame_trans m1 m2 m3 : walk_frame m1 m2 -> walk_frame m2 m3 -> walk_frame m1 m3.
Proof using. intros H1 H2 a Ha Hb. rewrite H2, H1 by assumption. reflexivity. Qed.

Definition walk_ready (bufs : nat -> Z) (d : Z) (ws : list (list Z)) : Prop :=
  forall x, x ∈ visited dirs d ws -> dir_holds m0 x (dirs x) /\ forall k, lo <= bufs k /\ bufs k + total_len (dirs x) <= hi.

Lemma zone_buf buf len : lo <= buf -> buf + len <= hi -> no_block buf (buf + len).
Proof using Hzone. intros H1 H2 n. destruct (Hzone n); lia. Qed.

(** A lookup inside the loop. *)
Lemma walk_step m p w bufs d ws :
  same_blocks m0 m -> cstr m p w -> plo <= p -> p + Z.of_nat (length w) < phi -> walk_ready bufs d (w :: ws) ->
  find_inode_in_dir m p d (bufs O) = Some (dir_lookup w (dirs d)) /\
  same_outside lo hi m (lookup_mem m d (bufs O)) /\ walk_ready (fun k => bufs (S k)) (dir_lookup w (dirs d)) ws.
Proof using All.
  intros Hb Hw H1 H2 Hr. destruct (Hr d) as [Hd Hbuf]; [simpl; apply list_elem_of_here|].
  destruct (Hbuf O) as [Hlo Hhi]. pose proof (dir_holds_same m0 m d _ Hb Hd) as Hd'.
  destruct (find_inode_holds m p d (bufs O) w (dirs d) Hd' (zone_buf _ _ Hlo Hhi) Hw ltac:(lia)) as [E Hso].
  split; [exact E|]. split; [intros a Ha; apply Hso; lia|].
  intros x Hx. destruct (Hr x) as [Hx1 Hx2]; [simpl; apply list_elem_of_further; assumption|]. split; [assumption|]. intros k. apply Hx2.
Qed.

Lemma pathize_loop_spec ws : forall w lead fuel m q p parent bufs,
  same_blocks m0 m -> cstr m p (lead ++ join 47 (w :: ws)) -> cstr m delim [47] ->
  Forall (fun c => c ∈ [47]) lead -> Forall (is_word [47]) (w :: ws) ->
  plo <= p -> p + Z.of_nat (length (lead ++ join 47 (w :: ws))) < phi ->
  walk_ready bufs parent (w :: ws) -> (length ws + 2 <= fuel)%nat ->
  exists m', (let '(m1, ptr1, pch) := strtok m q p delim in pathize_loop fuel m1 ptr1 pch parent delim bufs) =
      Some (m', resolve dirs parent (w :: ws)) /\ walk_frame m m'.
Proof using All.
  induction ws as [|w2 ws IH]; intros w lead fuel m q p parent bufs Hb Hs Hd Hlead Hws Hp1 Hp2 Hr Hf;
    apply Forall_cons in Hws as [[Hne Hw] Hws]; destruct fuel as [|[|f]]; try lia.
  - pose proof (strtok_token m q p delim lead w [] [47]) as L. rewrite app_nil_r in L. cbn [join] in Hs, Hp2.
    rewrite L; [|assumption|assumption|lia|lia|lia|assumption|assumption|assumption|discriminate]. clear L.
    pose proof (cstr_suffix _ _ _ _ Hs) as Hw'. set (r := p + Z.of_nat (length lead)) in *.
    rewrite length_app in Hp2.
    destruct (walk_step m r w bufs parent [] Hb Hw' ltac:(lia) ltac:(lia) Hr) as (E & Hso & _).
    cbn [pathize_loop]. unfold NULL. replace (r =? 0) with false by lia. rewrite E.
    change (strtok (lookup_mem m parent (bufs O)) 0 0 delim) with (lookup_mem m parent (bufs O), 0, 0).
    cbn [Z.eqb]. eexists. split; [reflexivity|]. intros a _ Ha. apply Hso. exact Ha.
  - set (rest := join 47 (w2 :: ws)) in *. change (join 47 (w :: w2 :: ws)) with (w ++ 47 :: rest) in *.
    rewrite (strtok_token m q p delim lead w (47 :: rest) [47]);
      [|assumption|assumption|lia|lia|lia|assumption|assumption|assumption|intros c [= <-]; apply list_elem_of_here].
    pose proof (cstr_suffix _ _ _ _ Hs) as Hw'. set (r := p + Z.of_nat (length lead)) in *.
    rewrite !length_app in Hp2. cbn [length] in Hp2.
    set (m1 := store8 m (r + Z.of_nat (length w)) 0). set (p1 := r + Z.of_nat (length w) + 1).
    assert (Hm1 : walk_frame m m1) by (intros a Ha _; apply load8_store8_ne; lia).
    assert (Hb1 : same_blocks m0 m1) by (apply (same_blocks_trans _ m); [assumption|apply walk_frame_blocks; assumption]).
    assert (Hd1 : cstr m1 delim [47]) by (apply (cstr_frame _ _ _ _ Hd); intros k Hk; apply load8_store8_ne; simpl in Hk; lia).
    pose proof (cstr_cut _ _ _ _ Hw') as Hc. fold m1 in Hc. pose proof (cstr_rest _ _ _ _ _ Hw') as Hrest. fold m1 p1 in Hrest.
    destruct (walk_step m1 r w bufs parent (w2 :: ws) Hb1 Hc ltac:(lia) ltac:(lia) Hr) as (E & Hso & Hr').
    set (m2 := lookup_mem m1 parent (bufs O)) in *.
    destruct (IH w2 [] (S f) m2 NULL p1 (dir_lookup w (dirs parent)) (fun k => bufs (S k))) as (m' & E' & Hfr).
    + intros n o Ho. rewrite Hso by (destruct (Hzone n); lia). apply Hb1. assumption.
    + apply (cstr_frame _ _ _ _ Hrest). intros k Hk. cbn [app] in Hk. fold rest in Hk. apply Hso. unfold p1. lia.
    + apply (cstr_frame _ _ _ _ Hd1). intros k Hk. simpl in Hk. apply Hso. lia.
    + constructor.
    + assumption.
    + unfold p1. lia.
    + cbn [app]. fold rest. unfold p1. lia.
    + assumption.
    + cbn [length] in Hf. lia.
    + exists m'. split.
      * cbn [pathize_loop]. unfold NULL at 1. replace (r =? 0) with false by lia. rewrite E. fold m2.
        rewrite strtok_resume by (unfold NULL, p1; lia). exact E'.
      * apply (walk_frame_trans _ m1); [assumption|]. apply (walk_frame_trans _ m2); [|assumption].
        intros a _ Ha. apply Hso. exact Ha.
Qed.
End walk.
End pathize.

(** ** Resolving a path *)

(** The path and the literal in memory, apart from the cache's blocks and from
    the heap range [[lo, hi)] the lookups use. *)
Record path_env `{BC : BlockCache} (m : mem) (path delim : Z) (str : list Z) (lo hi : Z) : Prop := {
  pe_str : cstr m path str;
  pe_delim : cstr m delim [47];
  pe_path : 0 < path /\ path + Z.of_nat (length str) < 0x100000000 /\ no_block path (path + Z.of_nat (length str) + 1);
  pe_zone : no_block lo hi;
  pe_apart : path + Z.of_nat (length str) + 1 <= lo \/ hi <= path;
  pe_lit : 0 < delim /\ (delim + 1 < path \/ path + Z.of_nat (length str) + 1 <= delim) /\ (delim + 1 < lo \/ hi <= delim);
}.

Lemma join_length c ws : Forall (fun w : list Z => w <> []) ws -> (length ws <= length (join c ws))%nat.
Proof.
  induction 1 as [|w ws Hw Hws IH]; [simpl; lia|]. destruct w; [congruence|].
  destruct ws; [simpl; lia|]. change (join c ((z :: w) :: l :: ws)) with ((z :: w) ++ c :: join c (l :: ws)).
  rewrite length_app. cbn [length] in *. lia.
Qed.

Lemma pathize_walks `{BC : BlockCache} m ptr path delim bufs dirs lo hi lead ws :
  path_env m path delim (lead ++ join 47 ws) lo hi ->
  ws <> [] -> Forall (is_word [47]) ws -> Forall (fun c => c ∈ [47]) lead ->
  walk_ready m dirs lo hi bufs ROOT_INODE ws ->
  exists m', pathize m ptr path delim bufs = Some (m', resolve dirs ROOT_INODE ws) /\
    walk_frame path (path + Z.of_nat (length (lead ++ join 47 ws)) + 1) lo hi m m'.
Proof.
  intros [H1 H2 (H3 & H3' & H3'') H4 H5 H6] Hne Hws Hlead Hr. destruct ws as [|w ws]; [congruence|].
  assert (Hl : (length (w :: ws) <= length (join 47 (w :: ws)))%nat)
    by (apply join_length; eapply Forall_impl; [exact Hws|]; intros x [Hx _]; exact Hx).
  pose proof (cstr_fuel _ _ _ H1) as Hf. rewrite length_app in Hf. cbn [length] in Hl.
  unfold pathize. apply (pathize_loop_spec m dirs delim path (path + Z.of_nat (length (lead ++ join 47 (w :: ws))) + 1) lo hi
    H3'' H4 H5 H6 ltac:(lia) ws w lead (S (strfuel m)) m ptr path ROOT_INODE bufs); try assumption; try lia.
  intros n o Ho. reflexivity.
Qed.

(** C15: resolving a path.  On "/w1/w2/.../wn" (any number of leading slashes),
    when every directory on the way is a well-formed ext2 directory, [pathize]
    returns, and its value is the inode found by looking the names up one after
    the other from the root (-1 when the last one is missing); only the bytes
    of the path and of the heap blocks change, so every block of the disk keeps
    its contents. *)
Theorem pathize_resolves `{BC : BlockCache} m ptr path delim bufs dirs lo hi lead ws :
  path_env m path delim (lead ++ join 47 ws) lo hi ->
  ws <> [] -> Forall (is_word [47]) ws -> Forall (fun c => c ∈ [47]) lead ->
  walk_ready m dirs lo hi bufs ROOT_INODE ws ->
  exists m', pathize m ptr path delim bufs = Some (m', resolve dirs ROOT_INODE ws) /\
    walk_frame path (path + Z.of_nat (length (lead ++ join 47 ws)) + 1) lo hi m m' /\ same_blocks m m'.
Proof.
  intros He Hne Hws Hlead Hr.
  destruct (pathize_walks m ptr path delim bufs dirs lo hi lead ws He Hne Hws Hlead Hr) as (m' & E & Hf).
  exists m'. split; [exact E|]. split; [exact Hf|]. destruct He as [_ _ (_ & _ & Hp) Hz _ _].
  apply (walk_frame_blocks path (path + Z.of_nat (length (lead ++ join 47 ws)) + 1) lo hi Hp Hz _ _ Hf).
Qed.

(** [open]: NULL when the path does not resolve, and otherwise the contents of
    the inode the path names, read from the blocks as they were. *)
Theorem open_resolves `{BC : BlockCache} m ptr path delim bufs fbuf dirs lo hi lead ws :
  let ino := resolve dirs ROOT_INODE ws in
  path_env m path delim (lead ++ join 47 ws) lo hi ->
  ws <> [] -> Forall (is_word [47]) ws -> Forall (fun c => c ∈ [47]) lead ->
  walk_ready m dirs lo hi bufs ROOT_INODE ws -> fs_ok m ino ->
  exists m', same_blocks m m' /\ open m ptr path delim bufs fbuf =
    if ino =? -1 then Some (m', NULL) else Some (ext2_open m' (ext2_inode m 1 ino) fbuf).
Proof.
  intros ino He Hne Hws Hlead Hr Hfs.
  destruct (pathize_walks m ptr path delim bufs dirs lo hi lead ws He Hne Hws Hlead Hr) as (m' & E & Hf).
  exists m'. destruct He as [_ _ (_ & _ & Hp) Hz _ _].
  pose proof (walk_frame_blocks path (path + Z.of_nat (length (lead ++ join 47 ws)) + 1) lo hi Hp Hz _ _ Hf) as Hb.
  split; [exact Hb|]. unfold open. rewrite E. fold ino. rewrite (inode_same m m' ino Hb Hfs). reflexivity.
Qed.

(** ** A two-level tree *)

#[local] Existing Instance flat_cache.

(** The root holds the directory "a" (inode 3), which holds "b" (inode 11). *)
Definition demo_tree : mem :=
  let m := store32 demo_fs 0x104800 3 in
  let m := store32 (store32 m (0x102900 + 28) 2) (0x102900 + 40) 10 in
  let m := store16 (store32 m 0x105000 11) 0x105004 1024 in
  store8 (store8 m 0x105006 1) 0x105008 98.
Definition demo_dirs (d : Z) : list entry :=
  if d =? 2 then [MkEntry 3 1024 [97]] else [MkEntry 11 1024 [98]].
(** "/a/b" and the literal "/". *)
Definition demo_path (path : list Z) : mem := put_str (put_str demo_tree 0x60000 path) 0x68000 [47].

Lemma flat_apart lo hi : hi <= 0x100000 -> no_block lo hi.
Proof. intros H n. right. cbn. lia. Qed.

Lemma demo_dir_holds m d x b e : m = demo_path [47; 97; 47; 98] ->
  d <> 0 -> fs_ok m d -> i_blocks m (ext2_inode m 1 d) = 2 -> i_block m (ext2_inode m 1 d) 0 = x -> blk 1 x = b ->
  e_rec_len e = 1024 -> entry_fits e -> dir_rep m b [e] -> dir_holds m d [e].
Proof.
  intros -> Hd Hf Hb Hx <- He Hfit Hrep. split; unfold dir_size; rewrite ?Hb; cbn [total_len]; rewrite ?He; try assumption.
  - discriminate.
  - split; reflexivity.
  - discriminate.
  - constructor; [assumption|constructor].
  - eexists _, _. split; [exact Hrep|]. intros k Hk. unfold dir_byte, BLOCK_SIZE.
    replace (k / 1024) with 0 by dlia. replace (k mod 1024) with k by dlia. rewrite Hx. reflexivity.
Qed.

Lemma demo_fs_ok d : 1 <= d <= 8 -> fs_ok (demo_path [47; 97; 47; 98]) d.
Proof.
  intros Hd. assert (E : sb_inodes_per_group (demo_path [47; 97; 47; 98]) (blk 1 EXT2_SUPER) = 8) by (vm_compute; reflexivity).
  split; [vm_compute; reflexivity|rewrite E; lia|rewrite E, u32_small by lia; dlia].
Qed.

Lemma demo_walk : walk_ready (demo_path [47; 97; 47; 98]) demo_dirs 0x70000 0x80000 (fun _ => 0x70000) 2 [[97]; [98]].
Proof.
  intros x Hx. change (visited demo_dirs 2 [[97]; [98]]) with [2; 3] in Hx.
  apply list_elem_of_In in Hx as [<-|[<-|[]]]; (split; [|intros k; vm_compute; split; discriminate]).
  - apply (demo_dir_holds _ 2 9 0x104800); try reflexivity; try lia; [apply demo_fs_ok; lia|vm_compute; discriminate|].
    vm_compute. repeat split; try reflexivity. set_solver.
  - apply (demo_dir_holds _ 3 10 0x105000); try reflexivity; try lia; [apply demo_fs_ok; lia|vm_compute; discriminate|].
    vm_compute. repeat split; try reflexivity. set_solver.
Qed.

Lemma pathize_resolves_witness :
  exists m', pathize (demo_path [47; 97; 47; 98]) 0 0x60000 0x68000 (fun _ => 0x70000) = Some (m', 11) /\
    walk_frame 0x60000 0x60005 0x70000 0x80000 (demo_path [47; 97; 47; 98]) m' /\
    same_blocks (demo_path [47; 97; 47; 98]) m'.
Proof.
  apply (pathize_resolves (demo_path [47; 97; 47; 98]) 0 0x60000 0x68000 (fun _ => 0x70000) demo_dirs 0x70000 0x80000
           [47] [[97]; [98]]).
  - split.
    + apply is_cstr_sound. vm_compute. reflexivity.
    + apply is_cstr_sound. vm_compute. reflexivity.
    + split; [lia|]. split; [simpl; lia|]. apply flat_apart. simpl. lia.
    + apply flat_apart. lia.
    + simpl. lia.
    + simpl. lia.
  - discriminate.
  - repeat constructor; try discriminate; set_solver.
  - repeat constructor; set_solver.
  - exact demo_walk.
Defined.

(** A trailing slash makes [strtok] return an empty name, which no directory
    has: "a/" does not resolve although "a" does. *)
Example pathize_trailing_slash :
  snd <$> pathize (demo_path [97; 47]) 0 0x60000 0x68000 (fun _ => 0x70000) = Some (-1) /\
  snd <$> pathize (demo_path [97]) 0 0x60000 0x68000 (fun _ => 0x70000) = Some 3.
Proof. split; vm_compute; reflexivity. Qed.
