(* ===== verification/Listings.v ===== *)
(** * The functions that list what the kernel holds

    [print_regs] (kernel/arch/x86.c), [walk_pagedir] (kernel/mem/paging.c),
    [blockinfo] and [traverse_blockchain] (kernel/mem/malloc.c), [ls] and
    [lsroot] (kernel/fs/ext2.c), [bg_dump] and [sb_dump] (kernel/fs/ext2_debug.c),
    [buffer_dump] and [buffer_traverse] (kernel/drivers/ide.c), [mm_debug]
    (kernel/mem/mm.c) and [vga_test] (kernel/drivers/vga.c).

    A call of [printf] is a [line]: its format and its arguments, an address for
    a string.  Each call also takes a block of the kernel heap and gives it back;
    [traverse_blockchain], which reads that heap while it prints, is modelled
    with this effect, the others read memory that it does not touch. *)

From stdpp Require Import base numbers list gmap strings.
From Stdlib Require Import ZArith Lia.
From S2P Require Import Prelude Memory CString Mm Paging Malloc HeapPages Boot Ext2 Ide Vga Trap.
Open Scope Z_scope.

Definition line : Type := string * list Z.

(** ** Registers *)

(** The frame [regs_t] at [r], in the order it is printed. *)
Definition print_regs (m : mem) (r : Z) : list line :=
  [("Register dump\n"%string, []);
   ("gs: 0x%x\n"%string, [load32 m r]); ("fs: 0x%x\n"%string, [load32 m (r + 4)]);
   ("es: 0x%x\n"%string, [load32 m (r + 8)]); ("ds: 0x%x\n"%string, [load32 m (r + 12)]);
   ("edi: 0x%x\n"%string, [load32 m (r + 16)]); ("esi: 0x%x\n"%string, [load32 m (r + 20)]);
   ("ebp: 0x%x\n"%string, [load32 m (r + 24)]); ("esp: 0x%x\n"%string, [load32 m (r + 28)]);
   ("ebx: 0x%x\n"%string, [load32 m (r + 32)]); ("edx: 0x%x\n"%string, [load32 m (r + 36)]);
   ("ecx: 0x%x\n"%string, [load32 m (r + 40)]); ("eax: 0x%x\n"%string, [load32 m (r + 44)]);
   ("eip: 0x%x\n"%string, [load32 m (r + 56)]); ("cs: 0x%x\n"%string, [load32 m (r + 60)]);
   ("flags: 0x%x\n"%string, [load32 m (r + 64)]); ("esp3: 0x%x\n"%string, [load32 m (r + 68)]);
   ("ss3: 0x%x\n"%string, [load32 m (r + 72)])].

(** ** Page directories *)

Definition walk_table (m : mem) (pt i : Z) : list line :=
  omap (fun q : Z => if negb (frame_of (ldw m pt q) =? 0)
                     then Some ("%x -> %x\n"%string, [ldw m pt q; u32 (u32 (i .<< 22) + (q .<< 12))]) else None) (seqZ 0 1024).
(** The tables are reached at their physical addresses. *)
Definition walk_pagedir (m : mem) (pd : Z) : list line :=
  mjoin ((fun i : Z => if negb (frame_of (ldw m pd i) =? 0) then walk_table m (frame_of (ldw m pd i)) i else []) <$> seqZ 0 1024) ++
  [("pd @ 0x%x\n"%string, [pd])].

(** ** The heap *)

Definition lprintf (f : string) (args : list Z) : M (heap_state * list line) unit := fun '(s, l) =>
  match printf s with
  | Ok _ s' => Ok tt (s', l ++ [(f, args)])
  | Spin => Spin
  | Undef => Undef
  end.
Definition on_heap {A : Type} (c : M heap_state A) : M (heap_state * list line) A := fun '(s, l) =>
  match c s with
  | Ok a s' => Ok a (s', l)
  | Spin => Spin
  | Undef => Undef
  end.

Definition blockinfo (block : Z) : M (heap_state * list line) unit :=
  if block =? NULL then ret tt
  else
    block_value <-- on_heap (gets (deref block)) ;;
    let used := block_used block_value in
    let size := block_size block_value in
    start <-- on_heap (gets BLOCKCHAIN_START) ;;
    let i := u32 (block - start) / 4 in
    link <-- on_heap (translate printf block) ;;
    lprintf "Block (%d) 0x%x | Used: %d | Size: %d | Link 0x%x\n" [i; block; used; size; link].

(** [for (i = 0; i < BLOCKS_ALLOCATED; i++)]; the table has at most 1025 words. *)
Fixpoint traverse_loop (fuel : nat) (i block total_size : Z) : M (heap_state * list line) unit :=
  match fuel with
  | O => fun _ => Spin
  | S f =>
      n <-- on_heap (gets BLOCKS_ALLOCATED) ;;
      if i <? n then
        block_value <-- on_heap (gets (deref block)) ;;
        let used := block_used block_value in
        let size := block_size block_value in
        link <-- on_heap (translate printf block) ;;
        lprintf "Block (%d) 0x%x\tUsed: %d\tSize: %d\tLink 0x%x\n" [i; block; used; size; link] ;;;
        traverse_loop f (i + 1) (block + 4) (u32 (total_size + size))
      else ret tt
  end.
Definition traverse_blockchain : M (heap_state * list line) unit :=
  start <-- on_heap (gets BLOCKCHAIN_START) ;;
  traverse_loop 1027 0 start 0 ;;;
  s <-- on_heap get ;;
  lprintf "%d bytes allocated across %d blocks\n" [u32 (K_LAST_ALLOC s - K_HEAP_BOTTOM); BLOCKS_ALLOCATED s] ;;;
  s <-- on_heap get ;;
  lprintf "%x HEAP_BRK, %x LAST_ALLOC\n" [K_HEAP_TOP s; K_LAST_ALLOC s].

(** ** Directories and the file system *)

(** [do ... while (d->inode)] *)
Fixpoint ls (fuel : nat) (m : mem) (d : Z) : option (list line) :=
  match fuel with
  | O => None
  | S f =>
      let l := ("\t%s\ttype %d\n"%string, [d_name d; load8 m (d + 7)]) in
      let d := d + d_rec_len m d in
      if negb (d_inode m d =? 0) then (l ::.) <$> ls f m d else Some [l]
  end.

Fixpoint lsroot_loop (fuel : nat) (m : mem) (d sum limit : Z) : option (list line) :=
  match fuel with
  | O => None
  | S f =>
      let sum := sum + d_rec_len m d in
      let l := ("%2d  %10s\t%2d %3d\n"%string, [d_inode m d; d_name d; d_name_len m d; d_rec_len m d]) in
      let d := d + d_rec_len m d in
      if sum <? limit then (l ::.) <$> lsroot_loop f m d sum limit else Some [l]
  end.

Section fs.
Context `{BC : BlockCache}.

(** [buf] is the block [malloc] returned; it is freed at the end. *)
Definition lsroot (m : mem) (buf : Z) : mem * option (list line) :=
  let i := ext2_inode m 1 2 in
  let m1 := read_dir m i buf in
  (m1, lsroot_loop (S (Z.to_nat (1024 * i_blocks m i / 2))) m1 buf 0 (1024 * i_blocks m i / 2)).

(** [None]: a bitmap without a free bit, for which [ext_first_free] returns
    nothing. *)
Definition bg_dump (m : mem) (bg : Z) : option (list line) :=
  let bbm := blk 1 (bg_block_bitmap m bg) in
  let ibm := blk 1 (bg_inode_bitmap m bg) in
  match ext_first_free m bbm 1024, ext_first_free m ibm 1024 with
  | Some b, Some i =>
      Some [("Block bitmap %d\n"%string, [bg_block_bitmap m bg]); ("Inode bitmap %d\n"%string, [bg_inode_bitmap m bg]);
            ("Inode table  %d\n"%string, [bg_inode_table m bg]); ("Free blocks  %d\n"%string, [load16 m (bg + 12)]);
            ("Free inodes  %d\n"%string, [load16 m (bg + 14)]); ("Used dirs    %d\n"%string, [load16 m (bg + 16)]);
            ("First free BBM: %d\n"%string, [b]); ("First free IBM: %d\n"%string, [i])]
  | _, _ => None
  end.
End fs.

Definition sb_dump (m : mem) (sb : Z) : list line :=
  [("EXT2 Magic  \t%x\n"%string, [sb_magic m sb]);
   ("Inodes Count\t%d\t"%string, [load32 m sb]); ("Blocks Count\t%d\t"%string, [load32 m (sb + 4)]);
   ("RBlock Count\t%d\n"%string, [load32 m (sb + 8)]); ("FBlock Count\t%d\t"%string, [load32 m (sb + 12)]);
   ("FInode Count\t%d\t"%string, [load32 m (sb + 16)]); ("First Data B\t%d\n"%string, [load32 m (sb + 20)]);
   ("Block Sz    \t%d\t"%string, [u32 (1024 .<< (load32 m (sb + 24) mod 32))]);
   ("Fragment Sz \t%d\t"%string, [u32 (1024 .<< (load32 m (sb + 28) mod 32))]);
   ("Block/Group \t%d\n"%string, [load32 m (sb + 32)]); ("Frag/Group  \t%d\t"%string, [load32 m (sb + 36)]);
   ("Inode/Group \t%d\t"%string, [sb_inodes_per_group m sb]); ("mtime;\t%x\n"%string, [load32 m (sb + 44)]);
   ("wtime;\t%x\t"%string, [load32 m (sb + 48)]); ("Mnt #\t%x\t"%string, [load16 m (sb + 52)]);
   ("Max mnt\t%x\n"%string, [load16 m (sb + 54)]); ("State\t%x\t"%string, [load16 m (sb + 58)]);
   ("Errors\t%x\t"%string, [load16 m (sb + 60)]); ("Minor\t%x\n"%string, [load16 m (sb + 62)]);
   ("Last Chk\t%x\t"%string, [load32 m (sb + 64)]); ("Chk int\t%x\t"%string, [load32 m (sb + 68)]);
   ("OS\t%x\n"%string, [load32 m (sb + 72)]); ("Rev #\t%x\t"%string, [load32 m (sb + 76)]);
   ("ResUID\t%x\t"%string, [load16 m (sb + 80)]); ("ResGID\t%x\n"%string, [load16 m (sb + 82)])].

(** ** The buffer cache *)

(** The words of a buffer, most significant byte first, zeros left out and a
    new line before every eighth.  A failed [assert]
    prints and goes on; [al] are its four arguments. *)
Definition buffer_dump (al : list Z) (b : Ide.buffer) : list line :=
  (if flags b .& B_VALID =? 0 then [("ASSERT FAILED: %s %s:%d:%s\n"%string, al)] else []) ++
  concat ((fun k : nat =>
    let i := 4 * Z.of_nat k in
    let at_ j := nth (4 * k + j) (Ide.data b) 0 in
    let o := byte_order (at_ 0%nat + 0x100 * at_ 1%nat + 0x10000 * at_ 2%nat + 0x1000000 * at_ 3%nat) in
    (if (i mod 32 =? 0) && negb (i =? 0) then [("\n"%string, [])] else []) ++
    (if negb (o =? 0) then [("%x "%string, [o])] else [])) <$> seq 0 256).

Fixpoint buffer_traverse_loop (fuel : nat) (s : ide_state) (p i : Z) : option (list line) :=
  match fuel with
  | O => None
  | S f =>
      if p =? 0 then Some []
      else (("%d this %x (%x) that %x\n"%string, [i; p; flags (at_buf s p); next (at_buf s p)]) ::.) <$>
             buffer_traverse_loop f s (next (at_buf s p)) (i + 1)
  end.
Definition buffer_traverse (s : ide_state) : option (list line) :=
  (.++ [("IDEque %x\n"%string, [idequeue s])]) <$> buffer_traverse_loop (S (size (bufs s))) s (cache_list s) 0.

(** ** Physical memory and colours *)

Definition mm_debug (s : mm_state) : list line :=
  let ptidx := mm_first_free (mm_mem s) (MM_CURRENT_PT s) in
  let pdidx := mm_first_free (mm_mem s) (MM_CURRENT_PD s) in
  [("Physical Memory Manager: First free address: 0x%x\n"%string, [u32 (pdidx * 0x00400000 + ptidx * 0x1000)]);
   ("PT (%d):\t%b\n"%string, [Z.rem ptidx 32; load32 (mm_mem s) (MM_CURRENT_PT s + 4 * Z.quot ptidx 32)]);
   ("PD (%d):\t%b\n"%string, [Z.rem pdidx 32; load32 (mm_mem s) (MM_CURRENT_PD s + 4 * Z.quot pdidx 32)])].

(** The fifteen strings lie at [lit 0], [lit 1], ... *)
Definition vga_test (lit : nat -> Z) (s : vga_state) : option vga_state :=
  foldl (fun o k => match o with Some s => vga_pretty (lit k) (nth k [1; 2; 3; 4; 5; 6; 7; 8; 9; 10; 11; 12; 13; 14; 15] 0) s | None => None end)
    (Some s) (seq 0 15).

(** ** What the lists show *)

(** The line of block [i]. *)
Definition block_line (start : Z) (bl : list Malloc.block) (i : nat) (b : Malloc.block) : line :=
  ("Block (%d) 0x%x\tUsed: %d\tSize: %d\tLink 0x%x\n"%string,
   [Z.of_nat i; start + 4 * Z.of_nat i; if b.1 then 1 else 0; b.2; block_addr bl i]).

Lemma block_used_val b : 0 < b.2 < bit31 -> block_used (word_of b) = if b.1 then 1 else 0.
Proof.
  intros H. unfold block_used, word_of. rewrite Z.shiftr_div_pow2 by lia. change (2 ^ 31) with bit31. unfold bit31 in *.
  destruct b.1; dlia.
Qed.

Section traverse.
Context (tbl : Z) (supply : nat -> pg_state -> Prop) `{HS : PageSupply tbl supply} (j : nat).
Context (bl : list Malloc.block) (i : nat) (b : Malloc.block).
Hypothesis Hbf : best_fit 256 (256 * 3) 0 bl None = Some i.
Hypothesis Hi : bl !! i = Some b.

(** The heap between two lines. *)
Record listing (top : Z) (s : heap_state) : Prop := {
  li_tbl : BLOCKCHAIN_START s = tbl;
  li_ok : heap_ok s bl;
  li_lock : memlock s = 0;
  li_supply : supply j (hp_pg s);
  li_top : K_HEAP_TOP s = top;
}.

Lemma lprintf_run top f args s l : listing top s -> exists s', lprintf f args (s, l) = Ok tt (s', l ++ [(f, args)]) /\ listing top s'.
Proof using All.
  intros [H1 H2 H3 H4 H5]. destruct (printf_spec s bl i b supply j) as (s' & E & A1 & A2 & A3 & A4 & A5 & _); try assumption.
  - rewrite H1. exact HS.
  - exists s'. unfold lprintf. rewrite E. split; [reflexivity|]. split; (assumption || congruence).
Qed.

Lemma traverse_run top : forall n k fuel total s l, listing top s -> (k + n = length bl)%nat -> (n < fuel)%nat ->
  exists s', traverse_loop fuel (Z.of_nat k) (tbl + 4 * Z.of_nat k) total (s, l) =
      Ok tt (s', l ++ imap (fun o => block_line tbl bl (k + o)) (drop k bl)) /\ listing top s'.
Proof using All.
  induction n as [|n IH]; intros k fuel total s l Hs Hk Hf; (destruct fuel as [|fuel]; [lia|]); cbn [traverse_loop];
    pose proof Hs as [H1 H2 H3 H4 H5]; pose proof (ok_table _ _ H2) as Ht; unfold bind at 1; unfold on_heap at 1, gets at 1;
    rewrite (ok_count _ _ Ht).
  - replace (Z.of_nat k <? Z.of_nat (length bl)) with false by lia. rewrite drop_ge by lia. cbn [imap]. rewrite app_nil_r.
    exists s. split; [reflexivity|exact Hs].
  - replace (Z.of_nat k <? Z.of_nat (length bl)) with true by lia.
    destruct (lookup_lt_is_Some_2 bl k ltac:(lia)) as [c Hc].
    pose proof (Forall_lookup_1 _ _ _ _ (ok_sizes _ _ Ht) Hc) as Hsz. cbn beta in Hsz.
    pose proof (sizes_nonneg bl (ok_sizes _ _ Ht)). destruct (ok_top _ _ H2) as [Htop _].
    unfold bind at 1. unfold on_heap at 1, gets at 1. unfold bind at 1. unfold on_heap at 1.
    rewrite <- H1. rewrite (translate_spec printf s bl k Ht) by (lia || (apply (ok_last _ _ H2))).
    rewrite (deref_block s bl k c Ht Hc). rewrite H1.
    rewrite block_used_val, block_size_word by assumption.
    unfold bind at 1. set (args := [_; _; _; _; _]).
    destruct (lprintf_run top "Block (%d) 0x%x\tUsed: %d\tSize: %d\tLink 0x%x\n" args s l Hs) as (s1 & E1 & Hs1). rewrite E1.
    replace (Z.of_nat k + 1) with (Z.of_nat (S k)) by lia.
    replace (tbl + 4 * Z.of_nat k + 4) with (tbl + 4 * Z.of_nat (S k)) by lia.
    destruct (IH (S k) fuel (u32 (total + c.2)) s1 (l ++ [("Block (%d) 0x%x\tUsed: %d\tSize: %d\tLink 0x%x\n"%string, args)]) Hs1
      ltac:(lia) ltac:(lia)) as (s2 & E2 & Hs2).
    exists s2. split; [|exact Hs2]. rewrite E2, (drop_S _ _ _ Hc). cbn [imap]. rewrite <- app_assoc, Nat.add_0_r. cbn [app]. do 4 f_equal.
    apply imap_ext. intros o x Hx. cbn. f_equal. lia.
Qed.
End traverse.

(** Listing the heap.  When a free block can hold a line of output, so that
    printing does not change the table, [traverse_blockchain] lists every block
    once, in order, with its place in the table, its use, its size and its
    address, then the bytes and blocks in all and the two limits; the heap is
    as before. *)
Theorem traverse_lists_blocks s bl i b supply j :
  PageSupply (BLOCKCHAIN_START s) supply -> heap_ok s bl -> memlock s = 0 -> supply j (hp_pg s) ->
  best_fit 256 (256 * 3) 0 bl None = Some i -> bl !! i = Some b ->
  exists s', traverse_blockchain (s, []) = Ok tt (s',
      imap (block_line (BLOCKCHAIN_START s) bl) bl ++
      [("%d bytes allocated across %d blocks\n"%string, [sizes bl; Z.of_nat (length bl)]);
       ("%x HEAP_BRK, %x LAST_ALLOC\n"%string, [K_HEAP_TOP s; K_HEAP_BOTTOM + sizes bl])]) /\
    heap_ok s' bl /\ memlock s' = 0 /\ supply j (hp_pg s').
Proof.
  intros HS Hok Hlk Hsup Hbf Hi. set (tbl := BLOCKCHAIN_START s) in *.
  assert (Hs : listing tbl supply j bl (K_HEAP_TOP s) s) by (split; (assumption || reflexivity)).
  pose proof (ok_max _ _ (ok_table _ _ Hok)) as Hmax.
  destruct (traverse_run tbl supply j bl i b Hbf Hi (K_HEAP_TOP s) (length bl) 0 1027 0 s [] Hs) as (s1 & E1 & Hs1); [lia|lia|].
  unfold traverse_blockchain. unfold bind at 1. unfold on_heap at 1, gets at 1. fold tbl.
  change (Z.of_nat 0) with 0 in E1. rewrite Z.mul_0_r, Z.add_0_r in E1. unfold bind at 1. rewrite E1.
  pose proof Hs1 as [_ Hok1 _ _ Htop1]. unfold bind at 1. unfold on_heap at 1, get at 1. unfold bind at 1.
  match goal with |- context [lprintf ?f ?a (s1, ?l)] => destruct (lprintf_run tbl supply j bl i b Hbf Hi _ f a s1 l Hs1) as (s2 & E2 & Hs2) end.
  rewrite E2. pose proof Hs2 as [_ Hok2 _ _ Htop2]. unfold bind at 1. unfold on_heap at 1, get at 1.
  match goal with |- context [lprintf ?f ?a (s2, ?l)] => destruct (lprintf_run tbl supply j bl i b Hbf Hi _ f a s2 l Hs2) as (s3 & E3 & [_ H3 L3 S3 _]) end.
  rewrite E3. exists s3. split; [|repeat split; (assumption || apply H3)].
  rewrite (ok_count _ _ (ok_table _ _ Hok1)), (ok_last _ _ Hok1), (ok_last _ _ Hok2), Htop2. cbn [drop app].
  pose proof (sizes_nonneg bl (ok_sizes _ _ (ok_table _ _ Hok))). destruct (ok_top _ _ Hok) as [Ht _]. rewrite (ok_last _ _ Hok) in Ht.
  unfold K_HEAP_MAX, K_HEAP_BOTTOM in *. rewrite u32_small by lia. rewrite <- app_assoc. cbn [app]. do 7 f_equal. lia.
Qed.

(** ** Page directories *)

(** Entries carry flags below 0x400, and an entry that is not zero is present. *)
Definition entry_ok (e : Z) : Prop := e <> 0 -> present e = true /\ e mod 0x1000 < 0x400.
Record all_present (m : mem) (pd : Z) : Prop := {
  ap_slots : forall i, 0 <= i < 1024 -> entry_ok (ldw m pd i);
  ap_entries : forall i q, 0 <= i < 1024 -> 0 <= q < 1024 -> ldw m pd i <> 0 ->
    entry_ok (ldw m (P2V (page_base (ldw m pd i))) q);
}.

Lemma frame_page e : 0 <= e < 0x100000000 -> entry_ok e -> frame_of e = page_base e.
Proof.
  intros He H. rewrite frame_of_eq by assumption. unfold page_base. destruct (Z.eq_dec e 0) as [->|Hne]; [reflexivity|].
  destruct (H Hne) as [_ Hf]. dlia.
Qed.

(** A table is the same words through its physical address. *)
Lemma table_low m f q : 0 <= f < 0x400000 -> f mod 0x1000 = 0 -> 0 <= q < 1024 -> ldw m f q = ldw m (P2V f) q.
Proof.
  intros Hf Ha Hq. rewrite P2V_low by lia. unfold ldw, canon, KERNEL_VIRT.
  replace ((0 <=? f + 4 * q) && (f + 4 * q <? 0x400000)) with true by dlia.
  replace ((0 <=? f + 0xC0000000 + 4 * q) && (f + 0xC0000000 + 4 * q <? 0x400000)) with false by lia. f_equal. lia.
Qed.

Lemma walk_elem m pd e va : ("%x -> %x\n"%string, [e; va]) ∈ walk_pagedir m pd <->
  exists i q, 0 <= i < 1024 /\ 0 <= q < 1024 /\ frame_of (ldw m pd i) <> 0 /\
    e = ldw m (frame_of (ldw m pd i)) q /\ frame_of e <> 0 /\ va = u32 (u32 (i .<< 22) + (q .<< 12)).
Proof.
  assert (HL : forall x, x ∈ seqZ 0 1024 <-> 0 <= x < 1024) by (intros x; rewrite elem_of_seqZ; lia).
  unfold walk_pagedir, walk_table. revert HL. generalize (seqZ 0 1024). intros L HL.
  rewrite elem_of_app, list_elem_of_singleton. split.
  - intros [H|H]; [|discriminate]. apply list_elem_of_join in H as (l & Hl & Hin).
    apply list_elem_of_fmap in Hin as (i & -> & Hi). apply HL in Hi.
    destruct (Z.eqb_spec (frame_of (ldw m pd i)) 0) as [|Hn]; cbn [negb] in Hl; [apply not_elem_of_nil in Hl; contradiction|].
    apply list_elem_of_omap in Hl as (q & Hq & Hs). apply HL in Hq.
    destruct (Z.eqb_spec (frame_of (ldw m (frame_of (ldw m pd i)) q)) 0); cbn [negb] in Hs; [discriminate|].
    injection Hs as <- <-. exists i, q. repeat split; (assumption || lia).
  - intros (i & q & Hi & Hq & H1 & -> & H2 & ->). left. apply HL in Hi, Hq. apply list_elem_of_join.
    eexists. split; [|apply list_elem_of_fmap; exists i; split; [reflexivity|exact Hi]].
    rewrite (proj2 (Z.eqb_neq _ _) H1). apply list_elem_of_omap. exists q. split; [exact Hq|].
    rewrite (proj2 (Z.eqb_neq _ _) H2). reflexivity.
Qed.

(** C40: Listing a page directory.  On a directory whose entries are present, the
    pages listed are exactly the pages the processor translates to a frame other
    than frame 0, each with its table entry. *)
Theorem walk_pagedir_lists_mapped m pd e va :
  pd_wf m pd -> all_present m pd ->
  ("%x -> %x\n"%string, [e; va]) ∈ walk_pagedir m pd <->
  0 <= va < 0x100000000 /\ va mod 0x1000 = 0 /\
  e = ldw m (P2V (page_base (ldw m pd (va / 0x400000)))) ((va / 0x1000) mod 1024) /\
  mmu m pd va = Some (page_base e) /\ page_base e <> 0.
Proof.
  intros [Hd Hslot Hsep] [Hp Ht]. rewrite walk_elem.
  assert (Hidx : forall i q, 0 <= i < 1024 -> 0 <= q < 1024 -> u32 (u32 (i .<< 22) + (q .<< 12)) = i * 0x400000 + q * 0x1000).
  { intros i q Hi Hq. rewrite !Z.shiftl_mul_pow2 by lia. change (2 ^ 22) with 0x400000. change (2 ^ 12) with 0x1000. csimp. reflexivity. }
  assert (Htab : forall i q, 0 <= i < 1024 -> 0 <= q < 1024 -> ldw m pd i <> 0 ->
    frame_of (ldw m pd i) = page_base (ldw m pd i) /\ page_base (ldw m pd i) <> 0 /\
    ldw m (frame_of (ldw m pd i)) q = ldw m (P2V (page_base (ldw m pd i))) q).
  { intros i q Hi Hq Hn. destruct (Hslot i Hi Hn) as [Hs1 Hs2]. rewrite frame_page by (apply ldw_range || auto).
    unfold page_base. split; [reflexivity|]. split; [dlia|]. apply table_low; dlia. }
  split.
  - intros (i & q & Hi & Hq & H1 & He & H2 & Hva). assert (Hn : ldw m pd i <> 0) by (intros E; rewrite E in H1; apply H1; reflexivity).
    destruct (Htab i q Hi Hq Hn) as (E1 & E2 & E3). rewrite Hidx in Hva by assumption.
    replace (va / 0x400000) with i by dlia. replace ((va / 0x1000) mod 1024) with q by dlia. rewrite He, E3 in *.
    set (pte := ldw m (P2V (page_base (ldw m pd i))) q) in *.
    assert (Hne : pte <> 0) by (intros E; rewrite E in H2; apply H2; reflexivity).
    split; [lia|]. split; [dlia|]. split; [reflexivity|]. split.
    + unfold mmu. replace (va / 0x400000) with i by dlia. replace ((va / 0x1000) mod 1024) with q by dlia.
      rewrite (proj1 (Hp i Hi Hn)). cbv zeta.
      rewrite (proj1 (Ht i q Hi Hq Hn Hne)). fold pte. f_equal. dlia.
    + rewrite <- frame_page; [exact H2|apply ldw_range|apply Ht; assumption].
  - intros (Hva & Hal & He & Hm & Hb). exists (va / 0x400000), ((va / 0x1000) mod 1024).
    assert (Hi : 0 <= va / 0x400000 < 1024) by dlia. assert (Hq : 0 <= (va / 0x1000) mod 1024 < 1024) by (apply Z.mod_pos_bound; lia).
    assert (Hn : ldw m pd (va / 0x400000) <> 0) by (intros E; unfold mmu in Hm; rewrite E in Hm; discriminate).
    destruct (Htab _ _ Hi Hq Hn) as (E1 & E2 & E3). rewrite E3, Hidx by assumption.
    split; [assumption|]. split; [assumption|]. split; [congruence|]. split; [exact He|]. split.
    + rewrite frame_page; [exact Hb|rewrite He; apply ldw_range|rewrite He; apply Ht; assumption].
    + dlia.
Qed.

(** ** Directories *)

Definition entry_line (d : Z) (e : entry) : line :=
  ("%2d  %10s\t%2d %3d\n"%string, [e_inode e; d_name d; Z.of_nat (length (e_name e)); e_rec_len e]).
(** The lines of entries laid out from [d] on. *)
Fixpoint dir_lines (d : Z) (l : list entry) : list line :=
  match l with
  | [] => []
  | e :: l' => entry_line d e :: dir_lines (d + e_rec_len e) l'
  end.

Lemma lsroot_loop_spec m : forall l d sum fuel, dir_rep m d l -> l <> [] -> total_len l < Z.of_nat fuel ->
  lsroot_loop fuel m d sum (sum + total_len l) = Some (dir_lines d l).
Proof.
  induction l as [|e l IH]; intros d sum fuel Hr Hne Hf; [congruence|]. pose proof Hr as (Hi & Hl & Hp & Hn & _ & _ & Hr').
  cbn [total_len dir_lines] in *. assert (0 <= total_len l) by (destruct l as [|x l']; [simpl; lia|pose proof (total_len_pos m _ _ Hr' ltac:(discriminate)); lia]).
  destruct fuel as [|f]; [lia|]. cbn [lsroot_loop]. rewrite Hi, Hl, Hn. fold (entry_line d e).
  destruct l as [|x l'].
  - cbn [total_len]. replace (sum + e_rec_len e <? sum + (e_rec_len e + 0)) with false by lia. reflexivity.
  - pose proof (total_len_pos m _ _ Hr' ltac:(discriminate)). replace (sum + e_rec_len e <? _) with true by lia.
    replace (sum + (e_rec_len e + total_len (x :: l'))) with (sum + e_rec_len e + total_len (x :: l')) by lia.
    rewrite IH by (assumption || discriminate || lia). reflexivity.
Qed.

(** Listing the root directory: the entries that fill its blocks, in order, each
    with its inode, name and lengths. *)
Theorem lsroot_lists_entries `{BC : BlockCache} m buf l :
  let ino := ext2_inode m 1 2 in
  dir_rep (read_dir m ino buf) buf l -> l <> [] -> total_len l = 1024 * i_blocks m ino / 2 ->
  lsroot m buf = (read_dir m ino buf, Some (dir_lines buf l)).
Proof.
  intros ino Hr Hne Hl. unfold lsroot. fold ino. f_equal. rewrite <- Hl.
  apply (lsroot_loop_spec _ l buf 0); [assumption..|]. pose proof (total_len_pos _ _ _ Hr Hne). lia.
Qed.

(** ** The buffer cache *)

Lemma buffer_traverse_loop_spec s head l : chain (fun p => next (at_buf s p)) head l ->
  forall n k fuel, (k + n = length l)%nat -> (n < fuel)%nat ->
  buffer_traverse_loop fuel s (default 0 (l !! k)) (Z.of_nat k) =
    Some (imap (fun o p => ("%d this %x (%x) that %x\n"%string, [Z.of_nat (k + o); p; flags (at_buf s p); next (at_buf s p)])) (drop k l)).
Proof.
  intros [_ Hnext _ Hnn]. induction n as [|n IH]; intros k fuel Hk Hf; (destruct fuel as [|fuel]; [lia|]).
  - rewrite drop_ge, lookup_ge_None_2 by lia. reflexivity.
  - destruct (lookup_lt_is_Some_2 l k ltac:(lia)) as [p Hp]. rewrite Hp. cbn [default from_option id buffer_traverse_loop].
    pose proof (Forall_lookup_1 _ _ _ _ Hnn Hp) as Hp0. cbn beta in Hp0. replace (p =? 0) with false by lia.
    pose proof (Hnext k p Hp) as Hnx. cbn beta in Hnx. rewrite Hnx.
    replace (Z.of_nat k + 1) with (Z.of_nat (S k)) by lia. rewrite IH by lia.
    rewrite (drop_S _ _ _ Hp). cbn [imap fmap option_fmap option_map]. rewrite Nat.add_0_r, Hnx. do 2 f_equal.
    apply imap_ext. intros o x Hx. cbn. do 3 f_equal. lia.
Qed.

(** Listing the cache: every buffer of the list once, in order, then the queue. *)
Theorem buffer_traverse_lists s l :
  chain (fun p => next (at_buf s p)) (cache_list s) l -> (length l <= size (bufs s))%nat ->
  buffer_traverse s = Some (imap (fun i p => ("%d this %x (%x) that %x\n"%string, [Z.of_nat i; p; flags (at_buf s p); next (at_buf s p)])) l ++
    [("IDEque %x\n"%string, [idequeue s])]).
Proof.
  intros Hc Hl. unfold buffer_traverse. rewrite (ch_head _ _ _ Hc).
  rewrite (buffer_traverse_loop_spec s (cache_list s) l Hc (length l) 0) by lia. reflexivity.
Qed.

(** ** Examples *)

Lemma traverse_lists_blocks_witness :
  exists s', traverse_blockchain (trap_heap, []) = Ok tt (s',
      [block_line (BLOCKCHAIN_START trap_heap) [(false, 256)] 0 (false, 256);
       ("%d bytes allocated across %d blocks\n"%string, [256; 1]);
       ("%x HEAP_BRK, %x LAST_ALLOC\n"%string, [K_HEAP_TOP trap_heap; K_HEAP_BOTTOM + 256])]) /\
    heap_ok s' [(false, 256)] /\ memlock s' = 0 /\ kernel_supply (BLOCKCHAIN_START trap_heap) 9 (hp_pg s').
Proof.
  apply (traverse_lists_blocks trap_heap [(false, 256)] 0 (false, 256) (kernel_supply (BLOCKCHAIN_START trap_heap)) 9
    (kernel_page_supply _) trap_heap_ok); try reflexivity. apply trap_heap_supply. lia.
Defined.

(** The directory that start.s builds. *)
Definition start_mem : mem := start_tables 0xC0111000 0xC0110000 ∅.

Lemma start_mem_dir : pd_wf start_mem 0xC0111000 /\ all_present start_mem 0xC0111000.
Proof.
  assert (Hw1 : in_window 0xC0111000) by (split; [unfold KERNEL_VIRT; lia|reflexivity]).
  assert (Hw2 : in_window 0xC0110000) by (split; [unfold KERNEL_VIRT; lia|reflexivity]).
  assert (H0 : forall i, 0 <= i < 1024 -> ldw (∅ : mem) 0xC0111000 i = 0)
    by (intros i _; unfold ldw, load32, load8; rewrite !lookup_empty; reflexivity).
  assert (Hs : forall i, 0 <= i < 1024 -> ldw start_mem 0xC0111000 i = if (i =? 0) || (i =? 768) then 0x110003 else 0)
    by (intros i Hi; apply (start_slots ∅ 0xC0111000 0xC0110000 Hw1 Hw2); [lia|exact H0|exact Hi]).
  assert (Ht : forall i, 0 <= i < 1024 -> ldw start_mem 0xC0110000 i = i * 0x1000 + 3)
    by (intros i Hi; apply (start_entries ∅ 0xC0111000 0xC0110000 Hw1 Hw2); [lia|exact Hi]).
  split; split; [assumption| | | |].
  - intros i Hi. rewrite Hs by assumption. destruct (_ || _); [intros _; split; [reflexivity|lia]|congruence].
  - intros i Hi. rewrite Hs by assumption. destruct (_ || _); vm_compute; discriminate.
  - intros i Hi. rewrite Hs by assumption. destruct (_ || _); intros H; [split; reflexivity|congruence].
  - intros i q Hi Hq. rewrite Hs by assumption. destruct (_ || _); [|congruence]. intros _ _.
    change (P2V (page_base 0x110003)) with 0xC0110000. rewrite Ht by assumption. split; [|dlia].
    rewrite present_flags by dlia. reflexivity.
Qed.

Lemma walk_pagedir_lists_mapped_witness :
  ("%x -> %x\n"%string, [0x1003; 0xC0001000]) ∈ walk_pagedir start_mem 0xC0111000 <->
  0 <= 0xC0001000 < 0x100000000 /\ 0xC0001000 mod 0x1000 = 0 /\
  0x1003 = ldw start_mem (P2V (page_base (ldw start_mem 0xC0111000 (0xC0001000 / 0x400000)))) ((0xC0001000 / 0x1000) mod 1024) /\
  mmu start_mem 0xC0111000 0xC0001000 = Some (page_base 0x1003) /\ page_base 0x1003 <> 0.
Proof. apply walk_pagedir_lists_mapped; apply start_mem_dir. Defined.
