(* ===== verification/SelfTest.v ===== *)
(** * The kernel's own tests

    [mm_test] (kernel/mem/mm.c), [k_heap_test] (kernel/mem/malloc.c) and
    [mutex_test] (kernel/mutex.c), with their output as in Listings.
    [vga_pretty] writes to the screen only and is a line with its colour. *)

From stdpp Require Import base numbers list gmap strings.
From Stdlib Require Import ZArith Lia.
From S2P Require Import Prelude Memory Mm Paging Malloc HeapPages Boot Listings Trap.
Open Scope Z_scope.

Definition lpretty (text : string) (color : Z) : M (heap_state * list line) unit :=
  modify (fun '(s, l) => (s, l ++ [(text, [color])])).
Definition on_pages {A : Type} (c : M mm_state A) : M (heap_state * list line) A := on_heap (on_pg (on_mm c)).

(** [MM_CURRENT_PT[mm_first_free(MM_CURRENT_PT)/32]] *)
Definition pt_word (s : mm_state) : Z :=
  load32 (mm_mem s) (MM_CURRENT_PT s + 4 * Z.quot (mm_first_free (mm_mem s) (MM_CURRENT_PT s)) 32).

(** The body of the loop of three. *)
Definition test_alloc : M (heap_state * list line) unit :=
  v <-- on_pages k_page_alloc ;;
  result <-- use v ;;
  if s32 result =? ERR_NO_MEM then lpretty "[FAIL] no memory left" 0x4
  else
    w <-- on_pages (gets pt_word) ;;
    lprintf "Testing allocation: 0x%x : PT$ %b\n" [result; w].

Definition mm_test : M (heap_state * list line) unit :=
  x <-- on_pages get ;;
  let ff_pdb := u32 (mm_first_free (mm_mem x) (MM_CURRENT_PD x)) in
  let ff_ptb := u32 (mm_first_free (mm_mem x) (MM_CURRENT_PT x)) in
  lprintf "PD @ %x | PT @ %x\n" [MM_CURRENT_PD x; MM_CURRENT_PT x] ;;;
  lprintf "ff_pdb %d\n" [ff_pdb] ;;;
  lprintf "ff_ptb %d\n" [ff_ptb] ;;;
  let first_address := u32 (ff_pdb * 0x1000 * 0x400 + ff_ptb * 0x1000) in
  test_alloc ;;; test_alloc ;;; test_alloc ;;;
  on_pages (k_page_free (u32 (first_address + 0x30))) ;;;
  w <-- on_pages (gets pt_word) ;;
  lprintf "Testing free offset: 0x%x :PT$ %b\n" [first_address; w] ;;;
  v <-- on_pages k_page_alloc ;;
  next <-- use v ;;
  if next =? first_address then lpretty "Success!\n" 0x0A
  else
    lpretty "Something went wrong\n" 0x4 ;;;
    lprintf "Current ff_pdb: 0x%x\n" [ff_pdb] ;;;
    w <-- on_pages (gets (fun x => load32 (mm_mem x) (MM_CURRENT_PD x + 4))) ;;
    lprintf "Current bitmap value: %b\n" [w].

Definition k_heap_test : M (heap_state * list line) unit :=
  a <-- on_heap (malloc_a 4096) ;;
  on_heap (free a) ;;;
  on_heap (malloc_a 4096) ;;;
  traverse_blockchain.

(** [ml] is the lock word before; the value is the word after.  [acquire]
    spins while it is not 0, and [release] sets it to 0. *)
Definition mutex_test (ml : Z) : M (heap_state * list line) Z :=
  lprintf "Begin mutex test\n" [] ;;;
  (if ml =? 0 then ret tt else fun _ => Spin) ;;;
  let ml := 0 in
  lprintf "release: %d\n" [ml] ;;;
  ret ml.

(** Reading the allocator's state changes nothing. *)
Lemma on_pages_gets {A : Type} (f : mm_state -> A) s l : on_pages (gets f) (s, l) = Ok (f (pg_mm (hp_pg s))) (s, l).
Proof. destruct s as [[? ?] ? ? ? ? ? ?]. reflexivity. Qed.

(** ** The page allocator passes its test *)

(** [n] pages of the current region are free. *)
Definition room (n : nat) (P : pool) : Prop :=
  region P < 1024 /\ (forall x, x ∈ used P -> 0 <= x < 1024) /\ (size (used P) + n <= 1024)%nat.

Lemma room_alloc n P p : room (S n) P -> 0 <= p < 1024 -> p ∉ used P -> room n (MkPool (region P) ({[p]} ∪ used P) (heap P)).
Proof.
  intros (Hd & Hu & Hsz) Hp Hn. split; [exact Hd|]. cbn [used]. split; [set_solver|].
  rewrite size_union, size_singleton by set_solver. lia.
Qed.

Section test.
Context (tbl : Z) (bl : list Malloc.block) (i : nat) (b : Malloc.block).
Hypothesis Hbf : best_fit 256 (256 * 3) 0 bl None = Some i.
Hypothesis Hi : bl !! i = Some b.
Hypothesis Htbl : tbl + 0x4000 <= K_HEAP_BOTTOM.

(** The bitmaps represent [P] and lie below the block table. *)
Definition pool_at (P : pool) (k : nat) (s : pg_state) : Prop :=
  k = 0%nat /\ pool_rel (pg_mm s) P /\ KERNEL_VIRT <= MM_CURRENT_PD (pg_mm s) /\ MM_CURRENT_PT (pg_mm s) + 128 <= tbl.

Lemma pool_at_frame P k s m : pool_at P k s -> (forall a, a < tbl -> load8 m a = load8 (pg_mem s) a) -> pool_at P k (set_pg_mem m s).
Proof using All.
  intros (-> & HR & H1 & H2) Hm. split; [reflexivity|]. split; [|auto].
  assert (HR' : pool_rel (set_mem m (pg_mm s)) (MkPool (region P) (used P) (MM_HEAP (pg_mm s)))).
  { apply (pool_rel_frame (pg_mm s) (set_mem m (pg_mm s)) P); try reflexivity; try assumption; [|apply HR].
    intros a Ha. apply Hm. lia. }
  rewrite <- (rel_heap_pool _ _ HR) in HR'. exact HR'.
Qed.

#[local] Instance pool_at_supply P : PageSupply tbl (pool_at P).
Proof using All.
  split.
  - intros k va s [Hk _]. discriminate.
  - intros k s q v Hs Hq. apply pool_at_frame; [exact Hs|]. intros a Ha.
    destruct Hs as (_ & HR & H1 & H2). pose proof (rel_lay _ _ HR).
    unfold stw. rewrite table_canon by (unfold KERNEL_VIRT in *; lia). apply load8_store32_ne. lia.
  - intros k s m Hs Hm. apply pool_at_frame; [exact Hs|]. intros a Ha. apply Hm. lia.
Qed.

(** The kernel between two steps of the test. *)
Record testing (P : pool) (s : heap_state) : Prop := {
  te_tbl : BLOCKCHAIN_START s = tbl;
  te_ok : heap_ok s bl;
  te_lock : memlock s = 0;
  te_pool : pool_at P 0 (hp_pg s);
}.

Lemma testing_print P f args s l : testing P s ->
  exists s', lprintf f args (s, l) = Ok tt (s', l ++ [(f, args)]) /\ testing P s'.
Proof using All.
  intros [H1 H2 H3 H4]. destruct (printf_spec s bl i b (pool_at P) 0) as (s' & E & A1 & A2 & A3 & _ & A5 & _); try assumption.
  - rewrite H1. apply pool_at_supply.
  - exists s'. unfold lprintf. rewrite E. split; [reflexivity|]. split; (assumption || congruence).
Qed.

(** Changing the page bitmap leaves the block table alone. *)
Lemma testing_bitmap P P' s m : testing P s ->
  same_outside (MM_CURRENT_PT (pg_mm (hp_pg s))) (MM_CURRENT_PT (pg_mm (hp_pg s)) + 128) (hp_mem s) m ->
  pool_rel (set_mem m (pg_mm (hp_pg s))) P' -> testing P' (set_hp_mem m s).
Proof using All.
  intros [H1 H2 H3 (_ & HR & H4 & H5)] Hm HR'. pose proof (rel_lay _ _ HR). split; try assumption.
  - destruct H2 as [Hok Hl Htop]. split; [|exact Hl|exact Htop].
    apply (table_ok_frame s); try reflexivity; [exact Hok|]. intros q Hq. unfold ldw. rewrite H1.
    rewrite table_canon by (unfold KERNEL_VIRT in *; lia). apply load32_ext. intros o Ho. apply Hm. lia.
  - split; [reflexivity|]. split; [exact HR'|]. split; assumption.
Qed.

Lemma testing_alloc P p s l : testing P s -> region P < 1024 -> pool_free_page P = Some p -> 0 <= p < 1024 ->
  exists s', on_pages k_page_alloc (s, l) = Ok (Some (page_addr (region P) p)) (s', l) /\
    testing (MkPool (region P) ({[p]} ∪ used P) (heap P)) s'.
Proof using All.
  intros Hs Hd Hp Hr. pose proof (te_pool _ _ Hs) as (_ & HR & _).
  destruct (k_page_alloc_page _ P p HR Hd Hp Hr) as [E HR1].
  eexists. split; [unfold on_pages, on_heap, on_pg, on_mm; rewrite E; reflexivity|].
  apply (testing_bitmap P _ s); [exact Hs|apply set_bit_same_outside; exact Hr|exact HR1].
Qed.

Lemma testing_free P a s l : testing P s -> 0 <= a < 0x100000000 ->
  exists s', on_pages (k_page_free a) (s, l) = Ok a (s', l) /\ testing (pool_free a P) s'.
Proof using All.
  intros Hs Ha. pose proof (te_pool _ _ Hs) as (_ & HR & _). pose proof (rel_free _ _ HR a Ha) as HR1.
  eexists. split; [reflexivity|]. apply (testing_bitmap P _ s); [exact Hs| |exact HR1].
  rewrite page_index by assumption. apply unset_bit_same_outside. apply Z.mod_pos_bound. lia.
Qed.

Lemma testing_step n P s l : testing P s -> room (S n) P ->
  exists p s' w, pool_free_page P = Some p /\ 0 <= p < 1024 /\ p ∉ used P /\
    test_alloc (s, l) = Ok tt (s', l ++ [("Testing allocation: 0x%x : PT$ %b\n"%string, [page_addr (region P) p; w])]) /\
    testing (MkPool (region P) ({[p]} ∪ used P) (heap P)) s' /\ room n (MkPool (region P) ({[p]} ∪ used P) (heap P)).
Proof using All.
  intros Hs (Hd & Hu & Hsz). destruct (pool_has_page P Hu ltac:(lia)) as (p & Hp & Hr & Hn).
  destruct (testing_alloc P p s l Hs Hd Hp Hr) as (s1 & E1 & Hs1).
  pose proof (te_pool _ _ Hs) as (_ & HR & _). pose proof (rel_region _ _ HR).
  destruct (testing_print _ "Testing allocation: 0x%x : PT$ %b\n" [page_addr (region P) p; pt_word (pg_mm (hp_pg s1))] s1 l Hs1)
    as (s2 & E2 & Hs2).
  exists p, s2, (pt_word (pg_mm (hp_pg s1))). do 3 (split; [assumption|]). split; [|split; [exact Hs2|apply room_alloc; (assumption || split; auto)]].
  unfold test_alloc. rewrite (bind_Ok _ _ _ _ _ E1). unfold use. rewrite bind_ret_l.
  replace (s32 (page_addr (region P) p) =? ERR_NO_MEM) with false; [rewrite (bind_Ok _ _ _ _ _ (on_pages_gets pt_word s1 l)); exact E2|].
  symmetry. apply Z.eqb_neq. unfold s32, ERR_NO_MEM, page_addr. dlia.
Qed.
End test.

(** One printed line, and one round of the loop, of a run in state [testing]. *)
Ltac print_step :=
  match goal with Hs : testing ?tbl ?bl ?P ?s, Hbf : best_fit _ _ _ ?bl _ = Some ?i, Hi : ?bl !! ?i = Some ?b, Ht : ?tbl + _ <= _
    |- context [bind (lprintf ?f ?a) ?k (?s, ?l)] =>
      let s' := fresh "s" in let E := fresh "E" in let Hs' := fresh "Hs" in
      destruct (testing_print tbl bl i b Hbf Hi Ht P f a s l Hs) as (s' & E & Hs'); rewrite (bind_Ok _ k _ _ _ E); clear E Hs
  end.
Ltac alloc_step Hp Hn :=
  match goal with Hroom : room (S _) ?P, Hs : testing ?tbl ?bl ?P ?s, Hbf : best_fit _ _ _ ?bl _ = Some ?i, Hi : ?bl !! ?i = Some ?b, Ht : ?tbl + _ <= _
    |- context [bind test_alloc ?k (?s, ?l)] =>
      let s' := fresh "s" in let E := fresh "E" in let Hs' := fresh "Hs" in let p := fresh "p" in let w := fresh "w" in let Hr := fresh "Hr" in
      let Hm := fresh "Hm" in
      destruct (testing_step tbl bl i b Hbf Hi Ht _ P s l Hs Hroom) as (p & s' & w & Hp & Hr & Hn & E & Hs' & Hm);
        rewrite (bind_Ok _ k _ _ _ E); clear E Hs Hroom
  end.

(** C3: The test of the page allocator.  With three free pages in the current
    region, and a free block that holds a line of output, [mm_test] ends with
    its message of success: the page it freed through an address inside it comes
    back.  The pages it took stay in use. *)
Theorem mm_test_succeeds tbl s bl i b P :
  testing tbl bl P s -> best_fit 256 (256 * 3) 0 bl None = Some i -> bl !! i = Some b -> tbl + 0x4000 <= K_HEAP_BOTTOM ->
  room 3 P ->
  exists s' l P', mm_test (s, []) = Ok tt (s', l ++ [("Success!\n"%string, [0x0A])]) /\ testing tbl bl P' s' /\
    used P ⊆ used P' /\ size (used P') = (size (used P) + 3)%nat.
Proof.
  intros Hs Hbf Hi Ht Hroom. pose proof Hroom as (Hd & Hu & Hsz). pose proof (te_pool _ _ _ _ Hs) as (_ & HR & _). pose proof (rel_region _ _ HR) as Hreg.
  destruct (pool_has_page P Hu ltac:(lia)) as (p & Hp & Hr & Hn).
  pose proof (rel_free_page _ _ HR) as Hff. rewrite Hp in Hff.
  assert (Epd := mm_first_free_eq _ _ _ (rel_first_region _ _ HR Hd)). assert (Ept := mm_first_free_eq _ _ _ Hff).
  set (first := page_addr (region P) p).
  assert (Hfirst : 0 <= first < 0xFFFFF001 /\ (first + 0x30) / 0x1000 mod 1024 = p) by (unfold first, page_addr; dlia).
  unfold mm_test. change get with (gets (fun x : mm_state => x)).
  rewrite (bind_Ok _ _ _ _ _ (on_pages_gets (fun x => x) s [])). rewrite Epd, Ept, (u32_small p), (u32_small (region P)) by lia.
  replace (region P * 0x1000 * 0x400 + p * 0x1000) with first by (unfold first, page_addr; lia).
  destruct Hfirst as [Hfirst Hidx]. rewrite (u32_small first), (u32_small (first + 0x30)) by lia.
  do 3 print_step.
  alloc_step Hp1 Hn1. rewrite Hp in Hp1. injection Hp1 as <-.
  alloc_step Hp2 Hn2. alloc_step Hp3 Hn3. cbn [region used heap] in *.
  match goal with Hs : testing _ _ ?Q ?x |- context [bind (on_pages (k_page_free ?a)) ?k (?x, ?l)] =>
    destruct (testing_free tbl bl i b Hbf Hi Ht Q a x l Hs ltac:(lia)) as (s6 & E6 & Hs6); rewrite (bind_Ok _ k _ _ _ E6) end.
  match goal with |- context [bind (on_pages (gets pt_word)) ?k (?x, ?l)] => rewrite (bind_Ok _ k _ _ _ (on_pages_gets pt_word x l)) end.
  print_step.
  set (U := {[p1]} ∪ ({[p0]} ∪ ({[p]} ∪ used P))) in *.
  match goal with Hs : testing _ _ (pool_free ?a (MkPool ?d U ?h)) ?x |- context [bind (on_pages k_page_alloc) ?k (?x, ?l)] =>
    destruct (testing_alloc tbl bl i b Hbf Hi Ht (pool_free a (MkPool d U h)) p x l Hs Hd) as (s8 & E8 & Hs8);
      [apply (pool_refree P); [exact Hp|set_solver|exact Hidx]|exact Hr|rewrite (bind_Ok _ k _ _ _ E8)] end.
  unfold use. rewrite bind_ret_l. unfold pool_free in *. cbn [region used heap] in *. fold first. rewrite Z.eqb_refl.
  eexists _, _, _. split; [reflexivity|]. split; [exact Hs8|]. cbn [used]. rewrite Hidx.
  split; [set_solver|]. rewrite (union_comm_L {[p]}), difference_union_L, (union_comm_L U), subseteq_union_1_L by set_solver.
  unfold U. rewrite !size_union, !size_singleton by set_solver. lia.
Qed.

(** ** Example *)

Lemma trap_heap_testing : testing 0xC0128000 [(false, 256)] (MkPool 1 ∅ 0xC012C000) trap_heap.
Proof.
  split; [reflexivity|exact trap_heap_ok|reflexivity|].
  apply (pool_at_frame 0xC0128000 [(false, 256)] 0 (false, 256) eq_refl eq_refl ltac:(discriminate) (MkPool 1 ∅ 0xC012C000) 0 boot_state).
  - split; [reflexivity|]. split; [apply boot_supply|]. split; discriminate.
  - intros a Ha. unfold stw. rewrite table_canon by (unfold KERNEL_VIRT; lia). apply load8_store32_ne. lia.
Qed.

Lemma mm_test_succeeds_witness :
  exists s' l P', mm_test (trap_heap, []) = Ok tt (s', l ++ [("Success!\n"%string, [0x0A])]) /\
    testing 0xC0128000 [(false, 256)] P' s' /\ (∅ : gset Z) ⊆ used P' /\ size (used P') = 3%nat.
Proof.
  apply (mm_test_succeeds 0xC0128000 trap_heap [(false, 256)] 0 (false, 256) (MkPool 1 ∅ 0xC012C000) trap_heap_testing);
    [reflexivity|reflexivity|discriminate|]. split; [reflexivity|]. split; [cbn; set_solver|]. cbn [used]. rewrite size_empty. lia.
Defined.

(** The heap's test from an empty heap.  The block that was freed is not used
    again: [malloc_a] always adds a block, here the second; the third is the
    one of the first printed line. *)
Lemma k_heap_test_listing :
  match k_heap_test (boot_heap, []) with
  | Ok _ (_, l) => l =
      imap (block_line 0xC0128000 [(false, 4096); (true, 4096); (false, 256)]) [(false, 4096); (true, 4096); (false, 256)] ++
      [("%d bytes allocated across %d blocks\n"%string, [8448; 3]);
       ("%x HEAP_BRK, %x LAST_ALLOC\n"%string, [0xC0303000; 0xC0302100])]
  | _ => False
  end.
Proof. vm_compute. reflexivity. Qed.
