(* ===== verification/UserCalls.v ===== *)
(** * The edge between programs and the kernel

    The system call stubs of libc/usr/glue.c with two and three arguments and
    [open], [printf] of libc/usr/stdio/vsnprintf.c, user/user.c, and on the
    kernel's side [elf_execute] (kernel/elf.c).  The stubs move their arguments
    to registers in separate asm statements, whose constraints name the register
    the compiler loads first; their order decides what the kernel sees. *)

From stdpp Require Import base numbers list gmap strings.
From Stdlib Require Import ZArith Lia.
From S2P Require Import Prelude Memory CString KStdlib UserLib Paging Malloc HeapPages Ext2 ElfLoad Path Trap.
Open Scope Z_scope.

(** ** Stubs *)

(** One statement: the compiler loads the operand into the register of the
    constraint, the instruction copies it to its target. *)
Definition set_ecx (v : Z) (r : regs_t) : regs_t :=
  MkRegs (rg_ds r) (rg_edi r) (rg_esi r) (rg_ebp r) (rg_esp r) (rg_ebx r) (rg_edx r) v (rg_eax r) (int_no r) (err_code r) (rg_eip r) (rg_cs r).
Definition set_edx (v : Z) (r : regs_t) : regs_t :=
  MkRegs (rg_ds r) (rg_edi r) (rg_esi r) (rg_ebp r) (rg_esp r) (rg_ebx r) v (rg_ecx r) (rg_eax r) (int_no r) (err_code r) (rg_eip r) (rg_cs r).
(** [mov %0, %%ecx : "c"(v)] *)
Definition mov_ecx (v : Z) (r : regs_t) : regs_t := set_ecx v r.
(** [mov %0, %%edx : "c"(v)] *)
Definition mov_edx_via_ecx (v : Z) (r : regs_t) : regs_t := let r := set_ecx v r in set_edx (rg_ecx r) r.

Definition syscall_two_regs (eax ebx ecx : Z) (r : regs_t) : regs_t := syscall_one_regs eax ebx (mov_ecx ecx r).
Definition syscall_three_regs (eax ebx ecx edx : Z) (r : regs_t) : regs_t :=
  syscall_one_regs eax ebx (mov_edx_via_ecx edx (mov_ecx ecx r)).

Section calls.
Context `{BC : BlockCache} (i : trap_in).

(** [int $0x80], and the value the kernel leaves in [eax]. *)
Definition int80 (regs : regs_t -> regs_t) : M kernel Z :=
  modify (fun k => with_regs (regs (k_regs k)) k) ;;;
  trap i ;;;
  Prelude.gets (fun k => rg_eax (k_regs k)).
Definition syscall_one (eax ebx : Z) : M kernel Z := int80 (syscall_one_regs eax ebx).
Definition syscall_two (eax ebx ecx : Z) : M kernel Z := int80 (syscall_two_regs eax ebx ecx).
Definition syscall_three (eax ebx ecx edx : Z) : M kernel Z := int80 (syscall_three_regs eax ebx ecx edx).

Definition user_open (filename : Z) : M kernel Z := syscall_one 0x10 filename.

(** The program's memory [m] as it sees it; [bufp] is the address of the local
    array and [scratch] the block of the formatter. *)
Definition user_printf (m : mem) (fmtp args bufp scratch : Z) : M kernel (Z * mem) :=
  match UserLib.vsnprintf m bufp 256 fmtp args scratch with
  | None => fun _ => Spin
  | Some (m', n) => syscall_one 1 bufp ;;; ret (n, m')
  end.

(** user/user.c; [fmtp] is the address of its string. *)
Definition user_main (m : mem) (fmtp args bufp scratch : Z) : M kernel Z :=
  user_printf m fmtp args bufp scratch ;;; ret 0.
End calls.

Definition functwo (x : Z) : Z := UserLib.pow x 2.

(** ** Starting a program by its path *)

(** [elf_load(pathize(path))]: the number is not tested. *)
Definition elf_execute `{BlockCache} (ptr path delim : Z) (bufs : nat -> Z) (buf lit : Z) : M proc_state (Z * Z) := fun s =>
  match pathize (pg_mem (pr_pg s)) ptr path delim bufs with
  | None => Spin
  | Some (m, ino) => elf_load ino buf lit (MkProc (set_pg_mem m (pr_pg s)) (cp_mmap s))
  end.

(** ** What the kernel receives *)

(** [syscall_three] passes its fourth argument twice: loading it for [edx] goes
    through [ecx], over the third argument. *)
Theorem syscall_three_overwrites_ecx eax ebx ecx edx r :
  let r' := syscall_three_regs eax ebx ecx edx r in
  rg_eax r' = eax /\ rg_ebx r' = ebx /\ rg_edx r' = edx /\ rg_ecx r' = edx /\ int_no r' = 0x80.
Proof. repeat split. Qed.

(** With two arguments every register holds its own. *)
Lemma syscall_two_args eax ebx ecx r :
  let r' := syscall_two_regs eax ebx ecx r in
  rg_eax r' = eax /\ rg_ebx r' = ebx /\ rg_ecx r' = ecx /\ rg_edx r' = rg_edx r /\ int_no r' = 0x80.
Proof. repeat split. Qed.

(** [functwo] is meant to square. *)
Lemma functwo_identity x : functwo x = x.
Proof. apply pow_returns_base. Qed.

(** The user's [printf] formats its text into the buffer as [vsnprintf] does,
    makes one system call and returns the length, but the kernel prints the
    string the caller's [edx] points to. *)
Theorem user_printf_prints_edx `{BC : BlockCache} supply i k m fmtp args bufp scratch m' n bl q b j :
  UserLib.vsnprintf m bufp 256 fmtp args scratch = Some (m', n) ->
  PageSupply (BLOCKCHAIN_START (k_hp k)) supply -> heap_ok (k_hp k) bl -> memlock (k_hp k) = 0 ->
  best_fit 256 (256 * 3) 0 bl None = Some q -> bl !! q = Some b -> supply j (hp_pg (k_hp k)) ->
  exists k', user_printf i m fmtp args bufp scratch k = Ok (n, m') k' /\
    k_log k' = ("write(%s)\n"%string, [rg_edx (k_regs k)]) :: k_log k.
Proof.
  intros Ev HS Hok Hl Hbf Hq Hs. destruct (user_puts_prints_edx supply i k bufp bl q b j HS Hok Hl Hbf Hq Hs) as (k' & E & Elog).
  exists k'. split; [|exact Elog]. unfold user_printf. rewrite Ev. unfold syscall_one, int80.
  unfold user_puts in E. unfold bind at 1. unfold bind at 1. unfold modify. unfold bind at 1. rewrite E. reflexivity.
Qed.

(** A program is loaded from the inode its path names. *)
Lemma elf_execute_resolved `{BlockCache} ptr path delim bufs buf lit s m ino :
  pathize (pg_mem (pr_pg s)) ptr path delim bufs = Some (m, ino) ->
  elf_execute ptr path delim bufs buf lit s = elf_load ino buf lit (MkProc (set_pg_mem m (pr_pg s)) (cp_mmap s)).
Proof. intros E. unfold elf_execute. rewrite E. reflexivity. Qed.
