(* ===== verification/PageCopy.v ===== *)
(** * kernel/mem/paging.c: copying pages between address spaces

    [page_copy] translates each page in both directories, makes both frames
    visible in the current directory (mapping them at blocks of the kernel heap
    when they are not) and copies through those addresses.  [panic] and
    [printf] are the heap effects of printing. *)

From stdpp Require Import base numbers list gmap.
From Stdlib Require Import ZArith Lia.
From S2P Require Import Prelude Memory CString Mm Paging Malloc HeapPages Ext2 Elf AddrSpace ElfLoad Boot.
Open Scope Z_scope.

(** The address at which frame [pa] is visible: [va] when it is mapped, or a
    fresh block of the heap mapped to it, with the flag that says so. *)
Definition temp_map (pa va : Z) : M heap_state (Z * bool) :=
  if va =? 0 then
    va <-- malloc_a 0x1000 ;;
    on_pg (modify (k_paging_map pa va 0x7)) ;;;
    ret (va, true)
  else ret (va, false).

Definition unmap (va : Z) : M heap_state unit := on_pg (modify (fun p => (k_paging_unmap va p).2)).

(** The loop body runs once per 4 KB of [n]; [va0] moves before it is used. *)
Fixpoint page_copy_loop (k : nat) (dest src va0 off sz : Z) : M heap_state unit :=
  match k with
  | O => ret tt
  | S k' =>
      let va0 := u32 (va0 + 0x1000) in
      let cp := if 0x1000 <=? sz then u32 (0x1000 - off) else sz in
      s <-- get ;;
      let pa_src := _virt_to_phys (hp_mem s) src va0 in
      let pa_dest := _virt_to_phys (hp_mem s) dest va0 in
      if pa_src =? 0 then printf ;;; printf
      else if pa_dest =? 0 then printf
      else
        let va_src := k_phys_to_virt pa_src (hp_pg s) in
        let va_dest := k_phys_to_virt pa_dest (hp_pg s) in
        a <-- temp_map pa_src va_src ;;
        b <-- temp_map pa_dest va_dest ;;
        on_pg (vmemcpy (u32 (b.1 + off)) (u32 (a.1 + off)) cp) ;;;
        (if (b.2 : bool) then free b.1 ;;; unmap b.1 else ret tt) ;;;
        (if (a.2 : bool) then unmap a.1 ;;; free a.1 ;;; ret tt else ret tt) ;;;
        page_copy_loop k' dest src va0 0 (u32 (sz - cp))
  end.
Definition page_copy (dest src virt n : Z) : M heap_state unit :=
  let va0 := virt .& not32 0xFFF in
  let off := u32 (virt - va0) in
  page_copy_loop (Z.to_nat ((n + 0xFFF) / 0x1000)) dest src va0 off n.

Lemma page_round va : 0 <= va < 0x100000000 -> va .& not32 0xFFF = va - va mod 0x1000.
Proof. intros H. change 0xFFF with (Z.ones 12). rewrite land_not_ones by lia. reflexivity. Qed.

(** The page that holds [virt] is never looked at: for up to 4 KB, [page_copy]
    asks for the page after it, and when the source has none it prints and
    returns, with nothing copied. *)
Theorem page_copy_skips_first dest src virt n s :
  0 <= virt < 0xFFFFF000 -> 0 < n <= 0x1000 ->
  _virt_to_phys (hp_mem s) src (virt - virt mod 0x1000 + 0x1000) = 0 ->
  page_copy dest src virt n s = (printf ;;; printf) s.
Proof.
  intros Hv Hn H0. unfold page_copy. rewrite page_round by lia.
  replace (Z.to_nat ((n + 0xFFF) / 0x1000)) with 1%nat by dlia. cbn [page_copy_loop]. cbv zeta.
  unfold get, bind at 1. rewrite u32_small by dlia. rewrite H0. reflexivity.
Qed.

(** ** A concrete run

    After boot, two directories map pages 1 and 2 of the user range to frames
    of their own; the source frames hold 0x11 and 0x22. *)
Definition two_pages (pd f1 f2 : Z) (s : pg_state) : pg_state :=
  _paging_map pd f2 0x402000 7 (_paging_map pd f1 0x401000 7 s).
Definition copy_setup : heap_state :=
  match boot_memory 0xC0120000 0xC0111000 (power_on (start_tables 0xC0111000 0xC0110000 ∅)) with
  | Ok _ s =>
      let pg := two_pages 0xC011F000 0x811000 0x812000 (two_pages 0xC011E000 0x801000 0x802000 (hp_pg s)) in
      set_pg (set_pg_mem (store8 (store8 (pg_mem pg) 0x801000 0x11) 0x802000 0x22) pg) s
  | _ => power_on ∅
  end.

(** Asked for the page at 0x401000, the code copies the one at 0x402000. *)
Example page_copy_copies_next :
  match page_copy 0xC011F000 0xC011E000 0x401000 0x1000 copy_setup with
  | Ok _ s => Some (load8 (hp_mem s) 0x811000, load8 (hp_mem s) 0x812000)
  | _ => None
  end = Some (0, 0x22).
Proof. vm_compute. reflexivity. Qed.

(** A range that starts inside a page loses its tail: of the 0x1000 bytes from
    0x400800 on, one pass copies 0x800. *)
Example page_copy_short_tail :
  match page_copy 0xC011F000 0xC011E000 0x400800 0x1000
          (set_hp_mem (store8 (hp_mem copy_setup) 0x801800 0x33) copy_setup) with
  | Ok _ s => Some (load8 (hp_mem s) 0x811800, load8 (hp_mem s) 0x812000)
  | _ => None
  end = Some (0x33, 0).
Proof. vm_compute. reflexivity. Qed.
