(* ===== verification/Lists.v ===== *)
(** * list.c, lquad.c, pmm_test.c: the stand-alone programs

    Three small programs beside the kernel: the ring of [list_head] links in
    the Linux style, the linked list "lquad" whose first node knows the last
    one, and a bitmap with one bit per physical page.  Structures are maps from
    addresses to fields, so that shared nodes are shared. *)

From stdpp Require Import base numbers list gmap.
From Stdlib Require Import ZArith Lia.
From S2P Require Import Prelude.
Open Scope Z_scope.

(** A field of the nodes of a structure: address to value. *)
Abbreviation field := (gmap Z Z).
Definition fld (f : field) (p : Z) : Z := default 0 (f !! p).

Lemma fld_eq f p v : fld (<[p := v]> f) p = v.
Proof. unfold fld. rewrite lookup_insert_eq. reflexivity. Qed.

Lemma fld_ne f p q v : q <> p -> fld (<[p := v]> f) q = fld f q.
Proof. intros H. unfold fld. rewrite lookup_insert_ne by congruence. reflexivity. Qed.

Create Rewrite HintDb fields.
#[export] Hint Rewrite fld_eq : fields.
#[export] Hint Rewrite fld_ne using congruence : fields.

(** ** list.c *)
Module Ring.

Record list_head := MkLinks { next : field; prev : field }.
Definition set_next (p v : Z) (s : list_head) : list_head := MkLinks (<[p := v]> (next s)) (prev s).
Definition set_prev (p v : Z) (s : list_head) : list_head := MkLinks (next s) (<[p := v]> (prev s)).

(** The structure that contains the member at [off]. *)
Definition list_entry (ptr off : Z) : Z := ptr - off.

Definition __list_add (new prv nxt : Z) (s : list_head) : list_head :=
  let s := set_prev nxt new s in
  let s := set_next new nxt s in
  let s := set_prev new prv s in
  set_next prv new s.

Definition list_add (new head : Z) (s : list_head) : list_head := __list_add new head (fld (next s) head) s.
Definition list_add_tail (new head : Z) (s : list_head) : list_head := __list_add new (fld (prev s) head) head s.

(** The links [main] gives to the ten elements; element [i] has its [queue] at
    [q i]. *)
Definition main_links (q : Z -> Z) (s : list_head) : list_head :=
  for_up 10 0 (fun i s =>
    set_next (q i) (q (if i =? 10 then 0 else i + 1))
      (set_prev (q i) (q (if i =? 0 then 0 else i - 1)) s)) s.

(** From [x] through [l] to [y], linked both ways. *)
Fixpoint chain (s : list_head) (x : Z) (l : list Z) (y : Z) : Prop :=
  match l with
  | [] => fld (next s) x = y /\ fld (prev s) y = x
  | z :: l' => fld (next s) x = z /\ fld (prev s) z = x /\ chain s z l' y
  end.
(** The ring of [head] holds the elements [l] in order. *)
Definition ring (s : list_head) (head : Z) (l : list Z) : Prop := NoDup (head :: l) /\ chain s head l head.

Lemma chain_app s l1 : forall x z l2 y, chain s x (l1 ++ z :: l2) y <-> chain s x l1 z /\ chain s z l2 y.
Proof. induction l1 as [|w l1 IH]; intros x z l2 y; simpl; [tauto|]. rewrite IH. tauto. Qed.

(** A chain depends on the [next] of its elements but the last and on the
    [prev] of its elements but the first. *)
Lemma links_ext s s' l : forall x y,
  (forall p, p ∈ x :: l -> fld (next s') p = fld (next s) p) ->
  (forall p, p ∈ l ++ [y] -> fld (prev s') p = fld (prev s) p) -> chain s x l y -> chain s' x l y.
Proof.
  induction l as [|z l IH]; intros x y Hn Hp H; simpl in *.
  - rewrite Hn, Hp by apply list_elem_of_here. exact H.
  - destruct H as (H1 & H2 & H3). rewrite Hn, Hp by apply list_elem_of_here.
    split; [assumption|]. split; [assumption|].
    apply IH; [intros p Hm; apply Hn|intros p Hm; apply Hp|assumption]; apply list_elem_of_further; assumption.
Qed.

Section insert.
Context (s : list_head) (new a b : Z).
Hypothesis Hna : new <> a.
Hypothesis Hnb : new <> b.
Let s' := __list_add new a b s.

Lemma add_next p : fld (next s') p = if decide (p = a) then new else if decide (p = new) then b else fld (next s) p.
Proof using Hna. unfold s', __list_add. cbn. repeat case_decide; subst; autorewrite with fields; reflexivity. Qed.

Lemma add_prev p : fld (prev s') p = if decide (p = new) then a else if decide (p = b) then new else fld (prev s) p.
Proof using Hnb. unfold s', __list_add. cbn. repeat case_decide; subst; autorewrite with fields; reflexivity. Qed.

End insert.

(** Case analysis on the links a goal asks for. *)
Local Ltac links :=
  rewrite ?add_next, ?add_prev by congruence;
  repeat (case_decide; subst; try congruence; try reflexivity).

Lemma ring_out s head l new : ring s head l -> new ∉ head :: l -> NoDup (head :: l) /\ new <> head /\ new ∉ l /\ head ∉ l.
Proof.
  intros [Hd _] Hn. repeat rewrite not_elem_of_cons in Hn. pose proof (NoDup_cons_1_1 _ _ Hd). tauto.
Qed.

Lemma list_add_chain s head l new :
  ring s head l -> new ∉ head :: l -> chain (list_add new head s) head (new :: l) head.
Proof.
  intros Hr Hn. destruct (ring_out _ _ _ _ Hr Hn) as (Hd & H1 & H2 & H3). destruct Hr as [_ Hc]. unfold list_add.
  destruct l as [|z l]; cbn [chain] in Hc |- *.
  - destruct Hc as [-> _]. repeat split; links.
  - destruct Hc as (-> & Hz & Hc). apply not_elem_of_cons in H2 as [H2 H2'], H3 as [H3 H3'].
    assert (Hzl : z ∉ l) by (apply NoDup_cons_1_2, NoDup_cons_1_1 in Hd; exact Hd).
    split; [links|]. split; [links|]. split; [links|]. split; [links|].
    apply (links_ext s); [| |exact Hc].
    + intros p Hp. assert (p <> new /\ p <> head) as [? ?] by (apply list_elem_of_In in Hp as [<-|Hp%list_elem_of_In]; split; congruence).
      links.
    + intros p Hp. apply elem_of_app in Hp as [Hp|Hp%list_elem_of_singleton];
        (assert (p <> new /\ p <> z) as [? ?] by (split; congruence)); links.
Qed.

Lemma list_add_tail_chain s head l new :
  ring s head l -> new ∉ head :: l -> chain (list_add_tail new head s) head (l ++ [new]) head.
Proof.
  intros Hr Hn. destruct (ring_out _ _ _ _ Hr Hn) as (Hd & H1 & H2 & H3). destruct Hr as [_ Hc]. unfold list_add_tail.
  destruct l as [|x l _] using rev_ind; cbn [app].
  - cbn [chain] in Hc |- *. destruct Hc as [_ ->]. repeat split; links.
  - rewrite <- app_assoc. cbn [app]. apply chain_app in Hc as [Hc Hx]. cbn [chain] in Hx. destruct Hx as [Hx1 ->].
    rewrite elem_of_app, list_elem_of_singleton in H2, H3.
    assert (Hxl : x ∉ l) by (apply NoDup_cons_1_2, NoDup_app in Hd as (_ & Hd & _); intros Hm; apply (Hd x Hm); apply list_elem_of_here).
    assert (x <> new /\ x <> head) as [Hxn Hxh] by (split; intros ->; tauto).
    apply chain_app. split.
    + apply (links_ext s); [| |exact Hc].
      * intros p Hp. assert (p <> new /\ p <> x) as [? ?]
          by (apply list_elem_of_In in Hp as [<-|Hp%list_elem_of_In]; split; intros ->; tauto). links.
      * intros p Hp. apply elem_of_app in Hp as [Hp|Hp%list_elem_of_singleton];
          (assert (p <> new /\ p <> head) as [? ?] by (split; intros ->; subst; tauto)); links.
    + cbn [chain]. repeat split; links.
Qed.

(** The two insertions of list.c.  On the ring of [head] with elements [l]
    and a node that is not on it, [list_add] puts the node first and
    [list_add_tail] puts it last; the result is again a ring, linked both
    ways. *)
Theorem list_add_inserts s head l new :
  ring s head l -> new ∉ head :: l ->
  ring (list_add new head s) head (new :: l) /\ ring (list_add_tail new head s) head (l ++ [new]).
Proof.
  intros Hr Hn. destruct (ring_out _ _ _ _ Hr Hn) as (Hd & H1 & H2 & H3).
  apply NoDup_cons in Hd as [_ Hd]. split; split.
  - repeat constructor; [rewrite not_elem_of_cons; split; [congruence|assumption]|assumption|assumption].
  - apply list_add_chain; assumption.
  - constructor; [rewrite elem_of_app, list_elem_of_singleton; intros [?|?]; [tauto|congruence]|].
    apply NoDup_app. split; [assumption|]. split; [|repeat constructor; apply not_elem_of_nil].
    intros x Hx Hx'%list_elem_of_singleton. subst. tauto.
  - apply list_add_tail_chain; assumption.
Qed.

(** An empty ring points to itself. *)
Lemma empty_ring : ring (MkLinks {[100 := 100]} {[100 := 100]}) 100 [].
Proof. split; [apply NoDup_singleton|]. split; reflexivity. Qed.

Lemma list_add_inserts_witness :
  let s := MkLinks {[100 := 100]} {[100 := 100]} in
  ring (list_add 200 100 s) 100 [200] /\ ring (list_add_tail 200 100 s) 100 [200].
Proof. apply (list_add_inserts _ 100 [] 200 empty_ring). rewrite list_elem_of_singleton. discriminate. Defined.

(** [main] never closes its ring: the test [i == 10] is false for all ten
    elements, the last one points behind the array and the first one to itself. *)
Theorem main_ring_open q s :
  (forall i j, 0 <= i <= 10 -> 0 <= j <= 10 -> q i = q j -> i = j) ->
  fld (next (main_links q s)) (q 9) = q 10 /\ fld (prev (main_links q s)) (q 0) = q 0.
Proof.
  intros Hq. assert (Hne : forall i, 1 <= i <= 9 -> q 0 <> q i) by (intros i Hi H; apply Hq in H; lia).
  unfold main_links. cbn. split; [apply fld_eq|].
  rewrite !fld_ne by (apply Hne; lia). apply fld_eq.
Qed.
End Ring.

(** ** lquad.c *)
Module Quad.

(** The fields of the nodes, and the variables that hold a list's first node. *)
Record nodes := MkNodes { nprev : field; nnext : field; nlast : field; nhead : field; vars : field }.

(** [new_node]: [p] is the address [malloc] returned. *)
Definition new_node (p : Z) (s : nodes) : nodes :=
  MkNodes (<[p := 0]> (nprev s)) (<[p := 0]> (nnext s)) (<[p := 0]> (nlast s)) (<[p := 0]> (nhead s)) (vars s).

(** [n->next] keeps the value it had. *)
Definition push (head n : Z) (s : nodes) : nodes :=
  let first := fld (vars s) head in
  let s := MkNodes (<[n := fld (nlast s) first]> (nprev s)) (nnext s) (nlast s) (nhead s) (vars s) in
  let s := MkNodes (nprev s) (<[fld (nlast s) first := n]> (nnext s)) (nlast s) (nhead s) (vars s) in
  let s := MkNodes (nprev s) (nnext s) (<[first := n]> (nlast s)) (nhead s) (vars s) in
  MkNodes (nprev s) (nnext s) (nlast s) (<[n := head]> (nhead s)) (vars s).

Definition pop (head : Z) (s : nodes) : Z := fld (nlast s) (fld (vars s) head).

(** The loop of [list_size]; [p] is the node the cursor points to. *)
Fixpoint size_loop (fuel : nat) (s : nodes) (p i : Z) : option Z :=
  match fuel with
  | O => None
  | S f => if p =? 0 then Some i else size_loop f s (fld (nnext s) p) (i + 1)
  end.
Definition list_size (head : Z) (s : nodes) : option Z :=
  size_loop (S (S (size (nnext s)))) s (fld (vars s) head) 0.

(** The nodes from [p] on, linked by [next] and ended by NULL. *)
Fixpoint nexts (s : nodes) (p : Z) (l : list Z) : Prop :=
  match l with
  | [] => fld (nnext s) p = 0
  | q :: l' => fld (nnext s) p = q /\ nexts s q l'
  end.
(** The last node. *)
Fixpoint last_of (p : Z) (l : list Z) : Z := match l with [] => p | q :: l' => last_of q l' end.
(** The list in variable [head]: its first node, then [l]. *)
Record quad (s : nodes) (head first : Z) (l : list Z) : Prop := {
  q_var : fld (vars s) head = first;
  q_nodes : NoDup (first :: l) /\ 0 ∉ first :: l /\ Forall (fun p => is_Some (nnext s !! p)) (first :: l);
  q_next : nexts s first l;
  q_last : fld (nlast s) first = last_of first l;
}.

Lemma last_of_in p l : last_of p l ∈ p :: l.
Proof.
  revert p. induction l as [|q l IH]; intros p; [apply list_elem_of_here|]. apply list_elem_of_further. apply IH.
Qed.

Lemma last_of_snoc p l n : last_of p (l ++ [n]) = n.
Proof. revert p. induction l as [|q l IH]; intros p; [reflexivity|]. apply IH. Qed.

Lemma nexts_snoc s s' n : forall l p, nexts s p l -> n ∉ p :: l -> NoDup (p :: l) ->
  (forall x, fld (nnext s') x = if decide (x = last_of p l) then n else fld (nnext s) x) ->
  fld (nnext s) n = 0 -> nexts s' p (l ++ [n]).
Proof.
  induction l as [|q l IH]; intros p H Hn Hd Hf H0; cbn [nexts app last_of] in *.
  - rewrite !Hf. rewrite decide_True by reflexivity. split; [reflexivity|].
    rewrite decide_False by (apply not_elem_of_cons in Hn; tauto). assumption.
  - destruct H as [H1 H2]. apply not_elem_of_cons in Hn as [Hn1 Hn2]. apply NoDup_cons in Hd as [Hd1 Hd2]. split.
    + rewrite Hf, decide_False; [assumption|]. intros ->. apply Hd1, last_of_in.
    + apply IH; assumption.
Qed.

Lemma size_loop_spec s : forall l fuel p i, nexts s p l -> 0 ∉ p :: l -> (length l + 2 <= fuel)%nat ->
  size_loop fuel s p i = Some (i + 1 + Z.of_nat (length l)).
Proof.
  induction l as [|q l IH]; intros fuel p i H H0 Hf; (destruct fuel as [|[|f]]; [lia|simpl in Hf; lia|]);
    apply not_elem_of_cons in H0 as [Hp H0].
  - cbn [nexts] in H. cbn [size_loop]. replace (p =? 0) with false by lia. rewrite H. cbn. f_equal. lia.
  - destruct H as [H1 H2]. cbn [size_loop]. replace (p =? 0) with false by lia. rewrite H1.
    change (if q =? 0 then Some (i + 1) else size_loop f s (fld (nnext s) q) (i + 1 + 1)) with (size_loop (S f) s q (i + 1)).
    rewrite (IH (S f) q (i + 1) H2 H0) by (simpl in Hf; lia). f_equal. simpl length. lia.
Qed.

(** Distinct nodes: the fuel of [list_size] is enough. *)
Lemma nodes_bound (f : field) l : NoDup l -> Forall (fun p => is_Some (f !! p)) l -> (length l <= size f)%nat.
Proof.
  intros Hd Hf. rewrite <- size_dom, <- (size_list_to_set (C := gset Z) l Hd). apply subseteq_size.
  intros p Hp. apply elem_of_list_to_set in Hp. apply elem_of_dom. rewrite Forall_forall in Hf. auto.
Qed.

Lemma quad_size s head first l : quad s head first l -> list_size head s = Some (1 + Z.of_nat (length l)).
Proof.
  intros [Hv (Hd & H0 & Hf) Hn _]. unfold list_size. rewrite Hv. pose proof (nodes_bound _ _ Hd Hf) as Hb.
  rewrite (size_loop_spec s l) by (assumption || (simpl in Hb; lia)). reflexivity.
Qed.

Lemma nexts_ext s s' l : forall p, (forall x, x ∈ p :: l -> fld (nnext s') x = fld (nnext s) x) -> nexts s p l -> nexts s' p l.
Proof.
  induction l as [|q l IH]; intros p He H; cbn [nexts] in *; rewrite He by apply list_elem_of_here; [exact H|].
  destruct H as [H1 H2]. split; [exact H1|]. apply IH; [|exact H2]. intros x Hx. apply He, list_elem_of_further, Hx.
Qed.

(** A new node is on no list. *)
Lemma new_quad s head first l n : quad s head first l -> n ∉ first :: l -> quad (new_node n s) head first l.
Proof.
  intros [Hv (Hd & H0 & Hf) Hn Hl] Hnew. split; cbn [new_node vars nnext nlast].
  - exact Hv.
  - split; [assumption|]. split; [assumption|]. eapply Forall_impl; [exact Hf|].
    intros p Hp. cbn. rewrite lookup_insert_is_Some'. tauto.
  - apply (nexts_ext s); [|exact Hn]. intros x Hx. apply fld_ne. intros ->. contradiction.
  - rewrite fld_ne; [exact Hl|]. apply not_elem_of_cons in Hnew. intuition congruence.
Qed.

Lemma push_quad s head first l n :
  quad s head first l -> n ∉ first :: l -> n <> 0 -> nnext s !! n = Some 0 -> quad (push head n s) head first (l ++ [n]).
Proof.
  intros [Hv (Hd & H0 & Hf) Hn Hl] Hnew Hnz Hn0. unfold push. cbn [vars nnext nlast nprev nhead]. rewrite Hv, Hl. split; cbn [vars nnext nlast].
  - exact Hv.
  - rewrite app_comm_cons. split; [|split].
    + apply NoDup_app. split; [assumption|]. split; [|apply NoDup_singleton].
      intros x Hx Hx'%list_elem_of_singleton. subst. contradiction.
    + rewrite elem_of_app, list_elem_of_singleton. intros [?|?]; [contradiction|congruence].
    + apply Forall_app. split; [|constructor; [|constructor]].
      * eapply Forall_impl; [exact Hf|]. intros p Hp. cbn. rewrite lookup_insert_is_Some'. tauto.
      * rewrite lookup_insert_is_Some', Hn0. eauto.
  - apply (nexts_snoc s); [assumption|assumption|assumption| |unfold fld; rewrite Hn0; reflexivity].
    intros x. cbn [nnext]. case_decide as E; [rewrite E; apply fld_eq|apply fld_ne; assumption].
  - rewrite fld_eq, last_of_snoc. reflexivity.
Qed.

(** The loop of lquad.c's [main]: fresh nodes pushed one after the other. *)
Fixpoint push_all (head : Z) (ps : list Z) (s : nodes) : nodes :=
  match ps with
  | [] => s
  | p :: ps' => push_all head ps' (push head p (new_node p s))
  end.

Lemma push_all_quad head first ps : forall l s,
  quad s head first l -> NoDup (first :: l ++ ps) -> 0 ∉ ps -> quad (push_all head ps s) head first (l ++ ps).
Proof.
  induction ps as [|p ps IH]; intros l s Hq Hd H0; cbn [push_all].
  - rewrite app_nil_r. exact Hq.
  - apply not_elem_of_cons in H0 as [Hp H0]. replace (l ++ p :: ps) with ((l ++ [p]) ++ ps) in * by (rewrite <- app_assoc; reflexivity).
    assert (Hnew : p ∉ first :: l).
    { rewrite app_comm_cons, app_comm_cons in Hd. apply NoDup_app in Hd as [Hd _].
      apply NoDup_app in Hd as (_ & Hd & _). intros Hm. apply (Hd p Hm), list_elem_of_here. }
    apply IH; [|assumption|assumption]. apply push_quad; [apply new_quad; assumption|assumption|congruence|].
    cbn. apply lookup_insert_eq.
Qed.

(** The list of lquad.c.  Pushing fresh nodes one by one onto the list in
    [head] keeps them in order behind the first node; [list_size] returns the
    number of nodes, the first one included, and [pop] returns the node pushed
    last. *)
Theorem pushes_keep_order s head first l ps n :
  quad s head first l -> NoDup (first :: l ++ ps ++ [n]) -> 0 ∉ ps ++ [n] ->
  let s' := push_all head (ps ++ [n]) s in
  quad s' head first (l ++ ps ++ [n]) /\
  list_size head s' = Some (2 + Z.of_nat (length l + length ps)) /\ pop head s' = n.
Proof.
  intros Hq Hd H0 s'. assert (Hq' : quad s' head first (l ++ ps ++ [n])) by (apply push_all_quad; assumption).
  split; [exact Hq'|]. split.
  - rewrite (quad_size _ _ _ _ Hq'), !length_app. f_equal. simpl. lia.
  - unfold pop. rewrite (q_var _ _ _ _ Hq'), (q_last _ _ _ _ Hq'), app_assoc. apply last_of_snoc.
Qed.

(** The list [main] starts from: one node at 0x100, its own last. *)
Definition main_start : nodes :=
  let s := new_node 0x100 (MkNodes ∅ ∅ ∅ ∅ {[0x10 := 0x100]}) in
  MkNodes (nprev s) (nnext s) (<[0x100 := 0x100]> (nlast s)) (<[0x100 := 0x10]> (nhead s)) (vars s).

Lemma main_start_quad : quad main_start 0x10 0x100 [].
Proof.
  split; [reflexivity| |reflexivity|reflexivity]. split; [apply NoDup_singleton|].
  split; [rewrite list_elem_of_singleton; discriminate|]. repeat constructor. exists 0. reflexivity.
Qed.

Lemma pushes_keep_order_witness :
  let s' := push_all 0x10 [0x200; 0x300] main_start in
  quad s' 0x10 0x100 [0x200; 0x300] /\ list_size 0x10 s' = Some 3 /\ pop 0x10 s' = 0x300.
Proof.
  apply (pushes_keep_order main_start 0x10 0x100 [] [0x200] 0x300 main_start_quad).
  - apply (bool_decide_unpack _). vm_compute. exact I.
  - apply (bool_decide_unpack _). vm_compute. exact I.
Defined.

(** What [main] prints: 24 nodes pushed, 25 on the list. *)
Example main_counts :
  list_size 0x10 (push_all 0x10 ((fun i => 0x200 + 0x20 * i) <$> seqZ 0 24) main_start) = Some 25.
Proof. vm_compute. reflexivity. Qed.

(** [pop] leaves the list as it is: popping twice gives the same node. *)
Theorem pop_does_not_remove s head first l n :
  quad s head first (l ++ [n]) -> pop head s = n /\ list_size head s = Some (2 + Z.of_nat (length l)).
Proof.
  intros Hq. split; [|rewrite (quad_size _ _ _ _ Hq), length_app; f_equal; simpl; lia].
  unfold pop. rewrite (q_var _ _ _ _ Hq), (q_last _ _ _ _ Hq). apply last_of_snoc.
Qed.
End Quad.

(** ** pmm_test.c *)
Module Pmm.

(** [pp.blocks[i].bitmap[q]] is word [32 * i + q]. *)
Definition TEST (num bit : Z) : Z := num .& u32 (1 .<< bit).
Definition SET (num bit : Z) : Z := num .| u32 (1 .<< bit).
Definition CLEAR (num bit : Z) : Z := num .& not32 (1 .<< bit).

(** The value is an [int]; [val] other than 0 and 1 only tests. *)
Definition find_and_mark (address val : Z) (p : field) : Z * field :=
  let i := address / 0x00400000 in
  let q := (address / 0x20000) mod 32 in
  let j := (u32 (address - q * 0x20000) / 0x1000) mod 32 in
  let w := 32 * i + q in
  let p := if val =? 1 then <[w := SET (fld p w) j]> p else p in
  let p := if val =? 0 then <[w := CLEAR (fld p w) j]> p else p in
  (s32 (TEST (fld p w) j), p).

Definition mm_free (address : Z) (p : field) : Z * field := find_and_mark address 0 p.

Definition mm_request (address : Z) (p : field) : Z * field :=
  let '(used, p) := find_and_mark address (-1) p in
  if used =? 0 then find_and_mark address 1 p else (-1, p).

(** [main]: every page is marked used, then page 0 is requested, freed and
    requested again; the two values printed. *)
Definition main : Z * Z :=
  let p := for_up 1024 0 (fun q p => for_up 32 0 (fun i p => <[32 * q + i := 0xFFFFFFFF]> p) p) ∅ in
  let '(a, p) := mm_request 0 p in
  let '(_, p) := mm_free 0 p in
  let '(b, _) := mm_request 0 p in
  (a, b).

(** The specification: one bit per page. *)
Definition used (p : field) (k : Z) : bool := Z.testbit (fld p (k / 32)) (k mod 32).

(** The indices of the code are those of the page number. *)
Lemma mark_index a : 0 <= a < 0x100000000 ->
  32 * (a / 0x400000) + (a / 0x20000) mod 32 = a / 0x1000 / 32 /\
  (u32 (a - (a / 0x20000) mod 32 * 0x20000) / 0x1000) mod 32 = (a / 0x1000) mod 32.
Proof. intros Ha. rewrite u32_small by dlia. split; dlia. Qed.

Lemma TEST_bit w j : 0 <= j < 32 -> TEST w j = if Z.testbit w j then 1 .<< j else 0.
Proof.
  intros Hj. unfold TEST. bitwise i. destruct (Z.testbit w j) eqn:E.
  - rewrite testbit_one_shift by lia. destruct (Z.eqb_spec i j) as [->|]; [rewrite E; replace (j <? 32) with true by lia; reflexivity|].
    rewrite !andb_false_r. reflexivity.
  - rewrite Z.bits_0. destruct (Z.eqb_spec i j) as [->|]; [rewrite E; reflexivity|]. rewrite !andb_false_r. reflexivity.
Qed.

Lemma one_shift_nz j : 0 <= j < 32 -> s32 (1 .<< j) <> 0.
Proof.
  intros Hj. rewrite Z.shiftl_1_l. assert (0 < 2 ^ j <= 0x80000000).
  { split; [apply Z.pow_pos_nonneg; lia|]. change 0x80000000 with (2 ^ 31). apply Z.pow_le_mono_r; lia. }
  unfold s32. destruct (Z.eq_dec (2 ^ j) 0x80000000) as [->|]; [discriminate|]. rewrite Z.mod_small by lia. lia.
Qed.

Section mark.
Context (p : field) (a : Z).
Hypothesis Ha : 0 <= a < 0x100000000.
Let k := a / 0x1000.

Lemma k_bit : 0 <= k mod 32 < 32.
Proof using All. apply Z.mod_pos_bound. lia. Qed.

(** Writing one bit of the word of page [k]. *)
Lemma used_insert f c : (forall w i, 0 <= i < 32 -> Z.testbit (f w) i = if i =? k mod 32 then c else Z.testbit w i) ->
  forall x, used (<[k / 32 := f (fld p (k / 32))]> p) x = if x =? k then c else used p x.
Proof using All.
  intros Hf x. unfold used. destruct (Z.eq_dec (x / 32) (k / 32)) as [E|E].
  - rewrite E, fld_eq, Hf by (apply Z.mod_pos_bound; lia).
    destruct (Z.eqb_spec x k) as [->|Hne]; [rewrite Z.eqb_refl; reflexivity|].
    replace (x mod 32 =? k mod 32) with false by dlia. reflexivity.
  - rewrite fld_ne by assumption. destruct (Z.eqb_spec x k); [congruence|reflexivity].
Qed.

Lemma mark_test : find_and_mark a (-1) p = (s32 (if used p k then 1 .<< (k mod 32) else 0), p).
Proof using All.
  unfold find_and_mark. destruct (mark_index a Ha) as [E1 E2]. rewrite E1, E2. cbn [Z.eqb].
  rewrite TEST_bit by exact k_bit. reflexivity.
Qed.

Lemma mark_set : exists p', find_and_mark a 1 p = (s32 (1 .<< (k mod 32)), p') /\ forall x, used p' x = (x =? k) || used p x.
Proof using All.
  unfold find_and_mark. destruct (mark_index a Ha) as [E1 E2]. rewrite E1, E2. cbn [Z.eqb Pos.eqb]. fold k.
  assert (Hu : forall x, used (<[k / 32 := SET (fld p (k / 32)) (k mod 32)]> p) x = if x =? k then true else used p x).
  { apply (used_insert (fun w => SET w (k mod 32))). intros w i Hi. unfold SET. pose proof k_bit.
    autorewrite with bits. replace (i <? 32) with true by lia. cbn [andb].
    destruct (i =? k mod 32); [apply orb_true_r|apply orb_false_r]. }
  eexists. split; [|intros x; rewrite Hu; destruct (x =? k); reflexivity].
  f_equal. rewrite TEST_bit by exact k_bit. specialize (Hu k). unfold used in Hu. rewrite Z.eqb_refl in Hu. rewrite Hu. reflexivity.
Qed.

Lemma mark_clear : exists p', find_and_mark a 0 p = (0, p') /\ forall x, used p' x = negb (x =? k) && used p x.
Proof using All.
  unfold find_and_mark. destruct (mark_index a Ha) as [E1 E2]. rewrite E1, E2. cbn [Z.eqb Pos.eqb]. fold k.
  assert (Hu : forall x, used (<[k / 32 := CLEAR (fld p (k / 32)) (k mod 32)]> p) x = if x =? k then false else used p x).
  { apply (used_insert (fun w => CLEAR w (k mod 32))). intros w i Hi. unfold CLEAR. pose proof k_bit.
    autorewrite with bits. replace (i <? 32) with true by lia. cbn [andb].
    destruct (i =? k mod 32); [apply andb_false_r|apply andb_true_r]. }
  eexists. split; [|intros x; rewrite Hu; destruct (x =? k); reflexivity].
  f_equal. rewrite TEST_bit by exact k_bit. specialize (Hu k). unfold used in Hu. rewrite Z.eqb_refl in Hu. rewrite Hu. reflexivity.
Qed.
End mark.

(** Requesting a physical page.  [mm_request] of a page in use returns -1
    and changes nothing; of a free page it returns the page's bit (as an [int])
    and marks exactly that page; [mm_free] clears exactly that page, after
    which a request for it succeeds again. *)
Theorem mm_request_marks p a :
  0 <= a < 0x100000000 -> let k := a / 0x1000 in
  (used p k = true -> mm_request a p = (-1, p)) /\
  (used p k = false -> exists p', mm_request a p = (s32 (1 .<< (k mod 32)), p') /\
     forall x, used p' x = (x =? k) || used p x) /\
  exists p1 p2, mm_free a p = (0, p1) /\ (forall x, used p1 x = negb (x =? k) && used p x) /\
    mm_request a p1 = (s32 (1 .<< (k mod 32)), p2).
Proof.
  intros Ha k. assert (Hfree : forall p, used p k = false -> mm_request a p = find_and_mark a 1 p).
  { intros p0 H. unfold mm_request. rewrite (mark_test p0 a Ha). fold k. rewrite H. reflexivity. }
  split; [|split].
  - intros H. unfold mm_request. rewrite (mark_test p a Ha). fold k. rewrite H.
    pose proof (one_shift_nz (k mod 32) ltac:(apply Z.mod_pos_bound; lia)).
    destruct (Z.eqb_spec (s32 (1 .<< (k mod 32))) 0); [contradiction|reflexivity].
  - intros H. rewrite (Hfree p H). apply (mark_set p a Ha).
  - destruct (mark_clear p a Ha) as (p1 & E1 & H1). fold k in H1.
    destruct (mark_set p1 a Ha) as (p2 & E2 & _). exists p1, p2. split; [exact E1|]. split; [exact H1|].
    rewrite Hfree by (rewrite H1, Z.eqb_refl; reflexivity). exact E2.
Qed.

Lemma mm_request_marks_witness :
  (used ∅ 0x2A = true -> mm_request 0x2A123 ∅ = (-1, ∅)) /\
  (used ∅ 0x2A = false -> exists p', mm_request 0x2A123 ∅ = (0x400, p') /\ forall x, used p' x = (x =? 0x2A) || used ∅ x) /\
  exists p1 p2, mm_free 0x2A123 ∅ = (0, p1) /\ (forall x, used p1 x = negb (x =? 0x2A) && used ∅ x) /\
    mm_request 0x2A123 p1 = (0x400, p2).
Proof. apply (mm_request_marks ∅ 0x2A123). lia. Defined.

(** "Returns 1 on success": only for the first page of every 32. *)
Example request_returns_bit : fst (mm_request 0x1F000 ∅) = -0x80000000 /\ fst (mm_request 0x20000 ∅) = 1.
Proof. split; reflexivity. Qed.

Example main_output : main = (-1, 1).
Proof. vm_compute. reflexivity. Qed.
End Pmm.
