(* ===== verification/Cpuid.v ===== *)
(** * kernel/cpuid.c: what the processor says about itself

    The registers that the CPUID instruction returns for a leaf are an argument
    [cpu] of the definitions.  [cpuid_vendor] and [cpuid_name] build strings in
    a local array at [vendor] and show them; of [cpuid_features] and
    [cpuid_detect] the formats they print, with arguments, are modelled. *)

From stdpp Require Import base numbers list gmap strings.
From Stdlib Require Import ZArith Lia.
From S2P Require Import Prelude Memory CString Vga.
Open Scope Z_scope.

(** eax, ebx, ecx, edx *)
Record leaf := MkLeaf { l_eax : Z; l_ebx : Z; l_ecx : Z; l_edx : Z }.

(** Feature bits of edx for leaf 1. *)
Definition feat_edx : list (Z * string) :=
  [(0, "Floating Point Unit"%string); (1, "Virutal 8086"%string); (3, "Page Size Extension"%string);
   (5, "Model Specific Registers"%string); (6, "Physical Address Extension"%string); (9, "Local APIC"%string);
   (11, "Fast system call"%string); (18, "Processor Serial Number"%string); (22, "ACPI"%string);
   (23, "MMX Technology"%string); (25, "Streaming SIMD Extensions"%string);
   (26, "Streaming SIMD Extensions 2"%string); (28, "Hyperthreading"%string); (30, "64-bit processor"%string)].

(** One call of [printf]: the format, then strings and numbers. *)
Inductive arg := Str (s : string) | Num (z : Z).
Definition line : Type := string * list arg.

Section cpu.
Context (cpu : Z -> leaf).

Definition cpuid_vendor (vendor : Z) (s : vga_state) : option vga_state :=
  let r := cpu 0 in
  let m := for_up 4 0 (fun i m =>
    let m := store8 m (vendor + i) (l_ebx r .>> (8 * i)) in
    let m := store8 m (vendor + (i + 4)) (l_edx r .>> (8 * i)) in
    store8 m (vendor + (i + 8)) (l_ecx r .>> (8 * i))) (vmem s) in
  vga_puts vendor (set_vmem (store8 m (vendor + 12) 0) s).

Definition cpuid_features : list line :=
  let edx := l_edx (cpu 1) in
  let ext := l_edx (cpu 0x80000001) in
  [("CPU Features:\n"%string, [])] ++
  omap (fun f : Z * string => if negb (edx .& u32 (1 .<< f.1) =? 0) then Some ("\t%s\n"%string, [Str f.2]) else None) feat_edx ++
  [("Extended Features (%b):\n"%string, [Num ext])] ++
  (if negb (ext .& u32 (1 .<< 29) =? 0) then [("\tAMD64 Compliant\n"%string, [])] else []).

(** One part of the name: 16 bytes and a word of zeros behind them. *)
Definition name_part (vendor q : Z) (s : vga_state) : option vga_state :=
  let r := cpu q in
  let m := store32 (vmem s) vendor (l_eax r) in
  let m := store32 m (vendor + 4) (l_ebx r) in
  let m := store32 m (vendor + 8) (l_ecx r) in
  let m := store32 m (vendor + 12) (l_edx r) in
  let m := store32 m (vendor + 16) 0 in
  vga_puts vendor (set_vmem m s).
(** [q] counts from 0x80000002 to 0x80000004 as an [int] that is compared as
    [unsigned]; the fields of leaf 1 are computed and not used. *)
Definition cpuid_name (vendor : Z) (s : vga_state) : option vga_state :=
  match name_part vendor 0x80000002 s with
  | None => None
  | Some s1 =>
      match name_part vendor 0x80000003 s1 with
      | None => None
      | Some s2 =>
          match name_part vendor 0x80000004 s2 with
          | None => None
          | Some s3 => Some (vga_putc 10 s3)
          end
      end
  end.

(** The screen and the lines printed after the names; [v1] and [v2] are the
    arrays of the two functions. *)
Definition cpuid_detect (v1 v2 : Z) (s : vga_state) : option (vga_state * list line) :=
  let ebx := l_ebx (cpu 0) in
  if (ebx =? 0x756E6547) || (ebx =? 0x68747541) then
    match cpuid_vendor v1 s with
    | None => None
    | Some s1 =>
        match cpuid_name v2 (vga_putc 9 s1) with
        | None => None
        | Some s2 => Some (s2, cpuid_features)
        end
    end
  else Some (s, [("Unknown x86 CPU (0x%X) Detected\n"%string, [Num ebx])]).

(** ** The strings *)

(** The four bytes of a register, lowest first. *)
Definition reg_bytes (w : Z) : list Z := [u8 w; u8 (w .>> 8); u8 (w .>> 16); u8 (w .>> 24)].
Definition vendor_id : list Z := reg_bytes (l_ebx (cpu 0)) ++ reg_bytes (l_edx (cpu 0)) ++ reg_bytes (l_ecx (cpu 0)).
Definition name_bytes (q : Z) : list Z :=
  reg_bytes (l_eax (cpu q)) ++ reg_bytes (l_ebx (cpu q)) ++ reg_bytes (l_ecx (cpu q)) ++ reg_bytes (l_edx (cpu q)).
Definition brand : list Z := name_bytes 0x80000002 ++ name_bytes 0x80000003 ++ name_bytes 0x80000004.

(** A string whose bytes are stored one by one. *)
Lemma cstr_printable m p l :
  Forall printable l -> (forall i c, l !! i = Some c -> load8 m (p + Z.of_nat i) = c) ->
  load8 m (p + Z.of_nat (length l)) = 0 -> cstr m p l.
Proof using.
  intros Hp Hl Hz. apply cstr_intro; [|exact Hz]. intros i Hi.
  destruct (lookup_lt_is_Some_2 l (Z.to_nat i)) as [c Hc]; [lia|]. exists c. split; [exact Hc|].
  rewrite Forall_forall in Hp. specialize (Hp c (list_elem_of_lookup_2 _ _ _ Hc)). unfold printable in Hp.
  rewrite <- (Hl _ _ Hc), Z2Nat.id by lia. split; [reflexivity|]. rewrite <- (Z2Nat.id i) by lia. rewrite (Hl _ _ Hc). lia.
Qed.

(** Byte [k] of a word in memory. *)
Lemma load8_store32_byte m a w k : 0 <= k < 4 -> load8 (store32 m a w) (a + k) = u8 (w .>> (8 * k)).
Proof using.
  intros Hk. unfold store32. assert (k = 0 \/ k = 1 \/ k = 2 \/ k = 3) as [-> | [-> | [-> | ->]]] by lia;
    rewrite ?Z.add_0_r; autorewrite with memory; reflexivity.
Qed.

(** Looking a byte up in a literal list. *)
Local Ltac byte_cases H :=
  match type of H with
  | _ !! ?i = _ => repeat (destruct i as [|i]; [injection H as <-|]); [..|discriminate]
  end.

Lemma vendor_string m v : Forall printable vendor_id ->
  cstr (store8 (for_up 4 0 (fun i m =>
    let m := store8 m (v + i) (l_ebx (cpu 0) .>> (8 * i)) in
    let m := store8 m (v + (i + 4)) (l_edx (cpu 0) .>> (8 * i)) in
    store8 m (v + (i + 8)) (l_ecx (cpu 0) .>> (8 * i))) m) (v + 12) 0) v vendor_id.
Proof using.
  intros Hp. apply cstr_printable; [exact Hp| |cbn; apply load8_store8_eq].
  intros i c Hi. cbn in Hi. byte_cases Hi; cbn [for_up]; cbn [Z.of_nat Pos.of_succ_nat Pos.succ]; cbv zeta;
    repeat (rewrite load8_store8_ne by lia); (rewrite load8_store8_eq || (replace (v + 0) with v by lia; rewrite load8_store8_eq)); reflexivity.
Qed.

(** [cpuid_vendor] shows the twelve letters of ebx, edx and ecx. *)
Lemma vendor_shown v s :
  Forall printable vendor_id -> v + 13 <= VGA_MEMORY \/ screen_end <= v ->
  0 <= CURRENT_X s -> CURRENT_X s + 24 < 160 -> 0 <= CURRENT_Y s < 25 -> 0 <= CURRENT_ATTRIB s < 0x100 ->
  exists s', cpuid_vendor v s = Some s' /\
    shows (vmem s') (VGA_MEMORY + (CURRENT_X s + CURRENT_Y s * 160)) (CURRENT_ATTRIB s) vendor_id /\
    CURRENT_X s' = CURRENT_X s + 24 /\ CURRENT_Y s' = CURRENT_Y s.
Proof using.
  intros Hp Hv Hx Hx2 Hy Ha. unfold cpuid_vendor. set (s1 := set_vmem _ s).
  destruct (vga_puts_row vendor_id v s1) as (s' & E & Hs & Ex & Ey & _); try assumption.
  - apply vendor_string. assumption.
  - unfold screen_end in Hv. change (Z.of_nat (length vendor_id)) with 12. lia.
  - exists s'. auto.
Qed.

(** Printing keeps the colour. *)
Lemma putc_attrib c s : CURRENT_ATTRIB (vga_putc c s) = CURRENT_ATTRIB s.
Proof using.
  unfold vga_putc, vga_scroll, vga_kputc, vga_update_cursor, vga_move_cursor.
  repeat (match goal with |- context [if ?b then _ else _] => destruct b end; cbn); reflexivity.
Qed.

Lemma puts_attrib p s s' : vga_puts p s = Some s' -> CURRENT_ATTRIB s' = CURRENT_ATTRIB s.
Proof using.
  unfold vga_puts. generalize (strfuel (vmem s)). intros fuel. revert p s.
  induction fuel as [|f IH]; intros p s; cbn [vga_puts_loop]; destruct (char_at (vmem s) p =? 0); try congruence.
  intros H. rewrite (IH _ _ H). apply putc_attrib.
Qed.

Lemma part_string m v q : Forall printable (name_bytes q) ->
  cstr (store32 (store32 (store32 (store32 (store32 m v (l_eax (cpu q))) (v + 4) (l_ebx (cpu q)))
    (v + 8) (l_ecx (cpu q))) (v + 12) (l_edx (cpu q))) (v + 16) 0) v (name_bytes q).
Proof using.
  intros Hp. set (t := store32 _ (v + 16) 0).
  assert (H : forall b w, (b, w) ∈ [(0, l_eax (cpu q)); (4, l_ebx (cpu q)); (8, l_ecx (cpu q)); (12, l_edx (cpu q)); (16, 0)] ->
    forall k, 0 <= k < 4 -> load8 t (v + b + k) = u8 (w .>> (8 * k))).
  { intros b w Hb k Hk. unfold t. apply list_elem_of_In in Hb.
    repeat (destruct Hb as [[= <- <-]|Hb]; [rewrite ?Z.add_0_r, ?load8_store32_ne by lia; apply load8_store32_byte; assumption|]). destruct Hb. }
  assert (Hn : forall z b k w, z = b + k -> (b, w) ∈ [(0, l_eax (cpu q)); (4, l_ebx (cpu q)); (8, l_ecx (cpu q)); (12, l_edx (cpu q)); (16, 0)] ->
    0 <= k < 4 -> load8 t (v + z) = u8 (w .>> (8 * k))).
  { intros z b k w -> Hb Hk. rewrite Z.add_assoc. apply (H b w Hb k Hk). }
  clearbody t. clear H. apply cstr_printable; [exact Hp| |].
  - intros i c Hi. cbn in Hi. byte_cases Hi; cbn [Z.of_nat Pos.of_succ_nat Pos.succ];
      match goal with |- load8 _ (v + ?z) = _ =>
        let b := eval vm_compute in (z / 4 * 4) in let k := eval vm_compute in (z mod 4) in
        erewrite (Hn z b k); [reflexivity|reflexivity| |lia]; repeat constructor end.
  - apply (Hn 16 16 0 0); [reflexivity|repeat constructor|lia].
Qed.

Section parts.
Context (v : Z).
Hypothesis Hv : v + 20 <= VGA_MEMORY \/ screen_end <= v.

(** One part on the row: 16 letters, and the word behind the array is zero. *)
Lemma part_shown q s :
  Forall printable (name_bytes q) ->
  0 <= CURRENT_X s -> CURRENT_X s + 32 < 160 -> 0 <= CURRENT_Y s < 25 -> 0 <= CURRENT_ATTRIB s < 0x100 ->
  let a := VGA_MEMORY + (CURRENT_X s + CURRENT_Y s * 160) in
  exists s', name_part v q s = Some s' /\ shows (vmem s') a (CURRENT_ATTRIB s) (name_bytes q) /\
    CURRENT_X s' = CURRENT_X s + 32 /\ CURRENT_Y s' = CURRENT_Y s /\ CURRENT_ATTRIB s' = CURRENT_ATTRIB s /\
    (forall b, b < a \/ a + 32 <= b -> b < v \/ v + 20 <= b -> load8 (vmem s') b = load8 (vmem s) b) /\
    load32 (vmem s') (v + 16) = 0.
Proof using Hv.
  intros Hp Hx Hx2 Hy Ha a. unfold name_part. set (s1 := set_vmem _ s).
  destruct (vga_puts_row (name_bytes q) v s1) as (s' & E & Hs & Ex & Ey & Ho); try assumption.
  - apply part_string. assumption.
  - unfold screen_end in Hv. change (Z.of_nat (length (name_bytes q))) with 16. lia.
  - change (Z.of_nat (length (name_bytes q))) with 16 in *. exists s'. split; [exact E|]. split; [exact Hs|].
    split; [rewrite Ex; cbn; lia|]. split; [exact Ey|]. split; [apply (puts_attrib _ _ _ E)|].
    change (CURRENT_X s1) with (CURRENT_X s) in Ho. change (CURRENT_Y s1) with (CURRENT_Y s) in Ho. fold a in Ho. split.
    + intros b Hb Hb'. rewrite Ho by lia. unfold s1. cbn [set_vmem vmem]. rewrite !load8_store32_ne by lia. reflexivity.
    + rewrite (same_outside_load32 _ _ _ _ _ Ho) by (unfold a, screen_end in *; lia). apply load32_store32_eq.
Qed.
End parts.

Lemma shows_app m a attr l1 l2 :
  shows m a attr l1 -> shows m (a + 2 * Z.of_nat (length l1)) attr l2 -> shows m a attr (l1 ++ l2).
Proof using.
  intros H1 H2 i c Hi. apply lookup_app_Some in Hi as [Hi|[Hge Hi]]; [apply H1; assumption|].
  rewrite <- (H2 _ _ Hi). f_equal. lia.
Qed.

Lemma shows_frame m m' a attr l :
  (forall b, a <= b < a + 2 * Z.of_nat (length l) -> load8 m' b = load8 m b) -> shows m a attr l -> shows m' a attr l.
Proof using.
  intros Hm H i c Hi. pose proof (lookup_lt_Some _ _ _ Hi). rewrite <- (H i c Hi). unfold load16. rewrite !Hm by lia. reflexivity.
Qed.

Lemma newline_plain s : CURRENT_Y s < 24 ->
  vmem (vga_putc 10 s) = vmem s /\ CURRENT_X (vga_putc 10 s) = 0 /\ CURRENT_Y (vga_putc 10 s) = CURRENT_Y s + 1.
Proof using.
  intros H. unfold vga_putc, vga_scroll. cbn [Z.eqb Pos.eqb set_xy CURRENT_Y].
  replace (25 <=? CURRENT_Y s + 1) with false by lia. repeat split.
Qed.

Lemma name_shown v s :
  v + 20 <= VGA_MEMORY \/ screen_end <= v -> Forall printable brand ->
  0 <= CURRENT_X s -> CURRENT_X s + 96 < 160 -> 0 <= CURRENT_Y s < 24 -> 0 <= CURRENT_ATTRIB s < 0x100 ->
  exists s', cpuid_name v s = Some s' /\
    shows (vmem s') (VGA_MEMORY + (CURRENT_X s + CURRENT_Y s * 160)) (CURRENT_ATTRIB s) brand /\
    CURRENT_X s' = 0 /\ CURRENT_Y s' = CURRENT_Y s + 1 /\ load32 (vmem s') (v + 16) = 0.
Proof using.
  intros Hv Hp Hx Hx2 Hy Ha. set (a := VGA_MEMORY + _). unfold brand in *.
  apply Forall_app in Hp as [Hp1 Hp]. apply Forall_app in Hp as [Hp2 Hp3]. unfold cpuid_name.
  destruct (part_shown v Hv 0x80000002 s Hp1) as (s1 & E1 & S1 & X1 & Y1 & A1 & _ & _); try lia. rewrite E1.
  destruct (part_shown v Hv 0x80000003 s1 Hp2) as (s2 & E2 & S2 & X2 & Y2 & A2 & F2 & _); try lia. rewrite E2.
  destruct (part_shown v Hv 0x80000004 s2 Hp3) as (s3 & E3 & S3 & X3 & Y3 & A3 & F3 & Z3); try lia. rewrite E3.
  destruct (newline_plain s3 ltac:(lia)) as (N1 & N2 & N3). eexists. split; [reflexivity|]. rewrite N1, N2, N3.
  rewrite X2, Y2, A2, X1, Y1, A1 in *. clear E1 E2 E3. unfold screen_end in Hv.
  replace (VGA_MEMORY + (CURRENT_X s + 32 + CURRENT_Y s * 160)) with (a + 32) in * by (unfold a; lia).
  replace (VGA_MEMORY + (CURRENT_X s + 32 + 32 + CURRENT_Y s * 160)) with (a + 64) in * by (unfold a; lia).
  assert (Hab : VGA_MEMORY <= a /\ a + 96 <= VGA_MEMORY + 0x2000) by (unfold a; lia).
  split; [|split; [reflexivity|split; [lia|exact Z3]]].
  apply shows_app; [|apply shows_app].
  - apply (shows_frame (vmem s2)); [|apply (shows_frame (vmem s1)); [|exact S1]]; cbn [name_bytes reg_bytes length app]; intros b Hb.
    + apply F3; lia.
    + apply F2; lia.
  - apply (shows_frame (vmem s2)); [|exact S2]. cbn [name_bytes reg_bytes length app]. intros b Hb. apply F3; lia.
  - cbn [name_bytes reg_bytes length app]. replace (a + 2 * Z.of_nat 16 + 2 * Z.of_nat 16) with (a + 64) by lia. exact S3.
Qed.
End cpu.

(** Naming the processor.  When the three leaves of the brand string hold
    printable characters and the row has room, [cpuid_name] shows their 48
    characters in register order from the cursor on, in the current colour, and
    ends the line; the word behind its 16-byte array has become zero. *)
Theorem cpuid_name_shows_brand cpu vendor s :
  vendor + 20 <= VGA_MEMORY \/ screen_end <= vendor -> Forall printable (brand cpu) ->
  0 <= CURRENT_X s -> CURRENT_X s + 96 < 160 -> 0 <= CURRENT_Y s < 24 -> 0 <= CURRENT_ATTRIB s < 0x100 ->
  exists s', cpuid_name cpu vendor s = Some s' /\
    shows (vmem s') (VGA_MEMORY + (CURRENT_X s + CURRENT_Y s * 160)) (CURRENT_ATTRIB s) (brand cpu) /\
    CURRENT_X s' = 0 /\ CURRENT_Y s' = CURRENT_Y s + 1 /\ load32 (vmem s') (vendor + 16) = 0.
Proof. exact (name_shown cpu vendor s). Qed.

(** A processor whose brand string is 48 letters "A", of an unknown vendor. *)
Definition demo_cpu (q : Z) : leaf := MkLeaf 0x41414141 0x41414141 0x41414141 0x41414141.

Lemma cpuid_name_shows_brand_witness :
  exists s', cpuid_name demo_cpu 0xC0200000 hello_screen = Some s' /\
    shows (vmem s') (VGA_MEMORY + (10 + 3 * 160)) 7 (brand demo_cpu) /\
    CURRENT_X s' = 0 /\ CURRENT_Y s' = 4 /\ load32 (vmem s') 0xC0200010 = 0.
Proof.
  apply (cpuid_name_shows_brand demo_cpu 0xC0200000 hello_screen); try (cbn; lia).
  - right. unfold screen_end, VGA_MEMORY. lia.
  - cbv -[printable]. repeat constructor; unfold printable; lia.
Defined.

(** An unknown vendor: nothing is read beyond leaf 0. *)
Lemma cpuid_detect_unknown cpu v1 v2 s :
  l_ebx (cpu 0) <> 0x756E6547 -> l_ebx (cpu 0) <> 0x68747541 ->
  cpuid_detect cpu v1 v2 s = Some (s, [("Unknown x86 CPU (0x%X) Detected\n"%string, [Num (l_ebx (cpu 0))])]).
Proof.
  intros H1 H2. unfold cpuid_detect. destruct (Z.eqb_spec (l_ebx (cpu 0)) 0x756E6547); [congruence|].
  destruct (Z.eqb_spec (l_ebx (cpu 0)) 0x68747541); [congruence|]. reflexivity.
Qed.

(** The test of a feature bit. *)
Lemma feature_test edx b : 0 <= b < 32 -> negb (edx .& u32 (1 .<< b) =? 0) = Z.testbit edx b.
Proof.
  intros Hb. assert (E : edx .& u32 (1 .<< b) = if Z.testbit edx b then 1 .<< b else 0).
  { bitwise i. destruct (Z.testbit edx b) eqn:E.
    - rewrite testbit_one_shift by lia. destruct (Z.eqb_spec i b) as [->|]; [rewrite E; replace (b <? 32) with true by lia; reflexivity|].
      rewrite !andb_false_r. reflexivity.
    - rewrite Z.bits_0. destruct (Z.eqb_spec i b) as [->|]; [rewrite E; reflexivity|]. rewrite !andb_false_r. reflexivity. }
  rewrite E. destruct (Z.testbit edx b); [|reflexivity]. rewrite Z.shiftl_1_l.
  pose proof (Z.pow_pos_nonneg 2 b). destruct (Z.eqb_spec (2 ^ b) 0); [lia|reflexivity].
Qed.

Lemma feat_bits : Forall (fun f : Z * string => 0 <= f.1 < 32) feat_edx.
Proof. repeat constructor; cbn; lia. Qed.

Lemma feat_names : NoDup (snd <$> feat_edx).
Proof. apply (bool_decide_unpack _). vm_compute. exact I. Qed.

(** A feature is listed exactly when its bit is set. *)
Theorem features_listed cpu b d : (b, d) ∈ feat_edx ->
  ("\t%s\n"%string, [Str d]) ∈ cpuid_features cpu <-> Z.testbit (l_edx (cpu 1)) b = true.
Proof.
  intros Hin. pose proof feat_bits as Hb. rewrite Forall_forall in Hb. unfold cpuid_features.
  rewrite !elem_of_app, list_elem_of_singleton, list_elem_of_omap, list_elem_of_singleton. split.
  - intros [H|[(f & Hf & H)|[H|H]]]; [discriminate| |discriminate|].
    + destruct (negb _) eqn:E in H; [|discriminate]. injection H as Ed. rewrite feature_test in E by (apply Hb; assumption).
      assert (f = (b, d)) as ->; [|exact E].
      apply list_elem_of_lookup in Hf as [i Hi], Hin as [j Hj].
      assert (i = j) as ->; [|congruence]. apply (NoDup_lookup _ _ _ d feat_names); rewrite list_lookup_fmap, ?Hi, ?Hj; cbn; congruence.
    + destruct (negb _); [apply list_elem_of_singleton in H; discriminate|apply not_elem_of_nil in H; contradiction].
  - intros H. right. left. exists (b, d). split; [exact Hin|]. rewrite feature_test by (apply (Hb (b, d)); assumption).
    cbn [fst snd]. rewrite H. reflexivity.
Qed.
