(* ===== verification/Vfs.v ===== *)
(** * kernel/fs/vfs.c and kernel/drivers/vesa.c

    The root entry of the virtual file system, allocated on the kernel heap,
    and the pixel routine of the graphics mode. *)

From stdpp Require Import base numbers list gmap.
From Stdlib Require Import ZArith Lia.
From S2P Require Import Prelude Memory CString Mm Paging Malloc.
Open Scope Z_scope.

Definition VFS_DIR : Z := 2.

(** The fields of [vfs_entry], one word each: dev, inode, type, name, parent.
    [name] is read as the block left it; [lit] is the literal "/". *)
Definition vfs_init (lit : Z) : M heap_state Z :=
  root <-- malloc 20 ;;
  modify (fun s => set_hp_mem (stw (hp_mem s) root 0 1) s) ;;;
  modify (fun s => set_hp_mem (stw (hp_mem s) root 1 2) s) ;;;
  modify (fun s => set_hp_mem (stw (hp_mem s) root 2 VFS_DIR) s) ;;;
  modify (fun s => set_hp_mem (stw (hp_mem s) root 4 NULL) s) ;;;
  modify (fun s => set_hp_mem (strcpy (hp_mem s) (canon (ldw (hp_mem s) root 3)) lit).1 s) ;;;
  ret root.

Definition RGB (r g b : Z) : Z := ((r .& 0xFF) .<< 16) .| ((g .& 0xFF) .<< 8) .| (b .& 0xFF).

Definition putpixel (screen x y color : Z) (m : mem) : mem :=
  let where_ := u32 (x * 3 + y * 768 * 4) in
  let m := store8 m (screen + where_) (color .& 255) in
  let m := store8 m (screen + u32 (where_ + 1)) ((color .>> 8) .& 255) in
  store8 m (screen + u32 (where_ + 2)) ((color .>> 16) .& 255).

(** ** The root entry *)

(** [vfs_init] sets dev, inode, type and parent, but not the pointer [name]: the
    slash is stored at whatever address the block held there. *)
Theorem vfs_init_stray_write lit s r s1 :
  malloc 20 s = Ok r s1 -> KERNEL_VIRT <= r -> let p := canon (ldw (hp_mem s1) r 3) in
  cstr (hp_mem s1) lit [47] -> (lit + 1 < r \/ r + 20 <= lit) -> (p < lit \/ lit + 1 < p) -> (p < r \/ r + 20 <= p) ->
  exists s', vfs_init lit s = Ok r s' /\ load8 (hp_mem s') p = 47 /\
    ldw (hp_mem s') r 0 = 1 /\ ldw (hp_mem s') r 1 = 2 /\ ldw (hp_mem s') r 2 = VFS_DIR.
Proof.
  intros Hm Hr p Hl Hlr Hpl Hpr.
  assert (Ep : canon (load32 (hp_mem s1) (r + 4 * 3)) = p) by (unfold p, ldw; rewrite table_canon by lia; reflexivity).
  clearbody p. unfold vfs_init. rewrite (bind_Ok _ _ _ _ _ Hm). unfold bind, modify, ret.
  cbn [hp_mem set_hp_mem hp_pg set_pg pg_mem set_pg_mem set_mm pg_mm set_mem mm_mem].
  change (mm_mem (pg_mm (hp_pg s1))) with (hp_mem s1) in *. set (m := hp_mem s1) in *.
  unfold ldw, stw in *. rewrite !(table_canon r) in * by lia.
  set (m4 := store32 (store32 (store32 (store32 m (r + 4 * 0) 1) (r + 4 * 1) 2) (r + 4 * 2) VFS_DIR) (r + 4 * 4) NULL).
  assert (E3 : load32 m4 (r + 4 * 3) = load32 m (r + 4 * 3)) by (unfold m4; rewrite !load32_store32_ne by lia; reflexivity).
  rewrite E3, Ep.
  assert (Hl4 : cstr m4 lit [47]).
  { apply (cstr_frame m _ _ _ Hl). intros i Hi. cbn in Hi. unfold m4. rewrite !load8_store32_ne by lia. reflexivity. }
  pose proof (strcpy_bytes m4 p lit [47] Hl4 ltac:(cbn; lia) ltac:(cbn; lia)) as Hc.
  destruct (strcpy m4 p lit) as [m5 r5]. destruct Hc as (_ & Hb & Hso). cbn [fst length] in *.
  eexists. split; [reflexivity|]. cbn [hp_mem set_hp_mem hp_pg set_pg pg_mem set_pg_mem set_mm pg_mm set_mem mm_mem].
  rewrite !(same_outside_load32 _ _ _ _ _ Hso) by lia.
  split; [unfold bytes_at in Hb; cbn in Hb; injection Hb; rewrite Z.add_0_r; auto|].
  unfold m4. repeat split.
  - rewrite !(load32_store32_ne _ _ _ (r + 4 * 0)) by lia. apply load32_store32_eq.
  - rewrite !(load32_store32_ne _ _ _ (r + 4 * 1)) by lia. apply load32_store32_eq.
  - rewrite !(load32_store32_ne _ _ _ (r + 4 * 2)) by lia. apply load32_store32_eq.
Qed.

(** ** Pixels *)

(** The colour of a pixel: blue, green, red. *)
Definition getpixel (screen x y : Z) (m : mem) : Z :=
  let a := screen + (3 * x + 3072 * y) in load8 m a + 0x100 * load8 m (a + 1) + 0x10000 * load8 m (a + 2).

Lemma land255 z : z .& 255 = z mod 256.
Proof. change 255 with (Z.ones 8). rewrite land_ones_mod by lia. reflexivity. Qed.

(** A pixel is set and no other one.  On the 1024 by 768 screen with three
    bytes per pixel, after [putpixel] the pixel has the 24 bits of the colour
    and every other pixel keeps its colour. *)
Theorem putpixel_sets screen x y color m x' y' :
  0 <= x < 1024 -> 0 <= y < 768 -> 0 <= x' < 1024 -> 0 <= y' < 768 ->
  getpixel screen x' y' (putpixel screen x y color m) =
    if (x' =? x) && (y' =? y) then color mod 0x1000000 else getpixel screen x' y' m.
Proof.
  intros Hx Hy Hx' Hy'. unfold putpixel, getpixel. rewrite !u32_small by lia. rewrite !land255, !Z.shiftr_div_pow2 by lia.
  change (2 ^ 8) with 0x100. change (2 ^ 16) with 0x10000.
  replace (x * 3 + y * 768 * 4) with (3 * x + 3072 * y) by lia.
  destruct (Z.eqb_spec x' x) as [->|Hnx]; [destruct (Z.eqb_spec y' y) as [->|Hny]|]; cbn [andb].
  - rewrite <- !Z.add_assoc. rewrite !load8_store8. rewrite !Z.eqb_refl.
    repeat match goal with |- context [?a =? ?b] => replace (a =? b) with false by lia end. unfold u8. dlia.
  - rewrite !load8_store8_ne by lia. reflexivity.
  - rewrite !load8_store8_ne by lia. reflexivity.
Qed.

Lemma putpixel_sets_witness :
  getpixel 0xFD000000 5 7 (putpixel 0xFD000000 5 7 (RGB 1 2 3) ∅) = 0x010203.
Proof. rewrite (putpixel_sets 0xFD000000 5 7 (RGB 1 2 3) ∅ 5 7) by lia. reflexivity. Defined.
