(* ===== verification/Sched.v ===== *)
(** * kernel/kernel.c: handing the machine to all processors

    The end of [kernel_initialize] with several processors ([mp_start_ap] and
    [mp_enter] of kernel/arch/lapic.c included), and [scheduler]: the first
    processor holds the lock [km] while it starts the others, waits until all
    are counted, announces it, and releases the lock; every processor then
    announces itself in [scheduler] under the same lock and stays idle.  Any
    interleaving of the processors' steps is possible.

    A step is an access to a shared word: an [xchg] of [km] or [proc_m], the
    load and the store of [ncpu++], the store or the load of the word under
    0x8000 that passes a stack to a started processor, one read of the delivery
    status in [lapic_init] ([busy] is the answer of the controller), or a line
    on the console.  What a processor does with its own tables and controller
    between those steps is in Apic and X86. *)

From stdpp Require Import base numbers list relations.
From Stdlib Require Import ZArith Lia.
From S2P Require Import Prelude.
Open Scope Z_scope.

(** In [scheduler]: trying the lock, holding it, message printed, done. *)
Inductive sched_pc := Trying | Holding | Printed | Idle.
(** The first processor: at [if (nproc > 1)], waiting for [km], holding it, in
    the wait of [lapic_init], starting processor [k], in the loop on
    [mp_number_of_processors], all started, in [scheduler]. *)
Inductive bsp_pc := BTest | BAcquire | BFound | BLapic | BStart (k : nat) | BWait | BStarted | BSched (c : sched_pc).
(** The others: not started, in the entry code, at [acquire(&proc_m)], at the
    load and at the store of [ncpu++], in the wait of [lapic_init], at
    [release(&proc_m)], in [scheduler]. *)
Inductive ap_pc := AOff | ABoot | AProc | ALoad | AStore (v : Z) | ALapic | ALeave | ASched (c : sched_pc).

#[export] Instance sched_pc_eq_dec : EqDecision sched_pc.
Proof. solve_decision. Defined.
#[export] Instance smp_ap_eq_dec : EqDecision ap_pc.
Proof. solve_decision. Defined.

(** What the console shows: "Found %d processors", "All processors started!"
    and "CPU %d initialized", latest first. *)
Inductive event := Found | AllStarted | CpuInitialized (id : nat).

(** [word] is the stack in the word under 0x8000 (that of processor [k]), [stk]
    the stacks the processors run on.  [ncpu] stays below the range of [int]. *)
Record smp := MkSmp {
  km : Z; proc_m : Z; ncpu : Z; word : option nat; stk : list (option nat);
  bsp : bsp_pc; aps : list ap_pc; shown : list event;
}.
Definition set_bsp (b : bsp_pc) (s : smp) : smp := MkSmp (km s) (proc_m s) (ncpu s) (word s) (stk s) b (aps s) (shown s).
Definition set_ap (i : nat) (a : ap_pc) (s : smp) : smp :=
  MkSmp (km s) (proc_m s) (ncpu s) (word s) (stk s) (bsp s) (<[i := a]> (aps s)) (shown s).
Definition set_km (v : Z) (s : smp) : smp := MkSmp v (proc_m s) (ncpu s) (word s) (stk s) (bsp s) (aps s) (shown s).
Definition set_proc (v : Z) (s : smp) : smp := MkSmp (km s) v (ncpu s) (word s) (stk s) (bsp s) (aps s) (shown s).
Definition set_ncpu (v : Z) (s : smp) : smp := MkSmp (km s) (proc_m s) v (word s) (stk s) (bsp s) (aps s) (shown s).
Definition set_word (k : nat) (s : smp) : smp := MkSmp (km s) (proc_m s) (ncpu s) (Some k) (stk s) (bsp s) (aps s) (shown s).
Definition read_stack (i : nat) (s : smp) : smp :=
  MkSmp (km s) (proc_m s) (ncpu s) (word s) (<[i := word s]> (stk s)) (bsp s) (aps s) (shown s).
Definition show (e : event) (s : smp) : smp := MkSmp (km s) (proc_m s) (ncpu s) (word s) (stk s) (bsp s) (aps s) (e :: shown s).

(** One [xchg] of [acquire(&km)], and what follows it when the word was 0. *)
Definition try_km (got : smp -> smp) (s : smp) : smp := if km s =? 0 then got (set_km 1 s) else set_km 1 s.
Definition try_proc (got : smp -> smp) (s : smp) : smp := if proc_m s =? 0 then got (set_proc 1 s) else set_proc 1 s.

(** The next step of [scheduler] on processor [id] at [c]; [put] stores where
    the processor is. *)
Definition scheduler (id : nat) (put : sched_pc -> smp -> smp) (c : sched_pc) (s : smp) : smp :=
  match c with
  | Trying => try_km (put Holding) s
  | Holding => put Printed (show (CpuInitialized id) s)
  | Printed => put Idle (set_km 0 s)
  | Idle => s
  end.

(** [mp_number_of_processors] *)
Definition mp_number_of_processors (s : smp) : Z := ncpu s + 1.
Definition nproc (s : smp) : Z := Z.of_nat (length (aps s)) + 1.

(** The first processor, from [if (nproc > 1)] on. *)
Definition bsp_step (busy : bool) (s : smp) : smp :=
  match bsp s with
  | BTest => if 1 <? nproc s then set_bsp BAcquire s else set_bsp (BSched Trying) s
  | BAcquire => try_km (set_bsp BFound) s
  | BFound => set_bsp BLapic (show Found s)
  | BLapic => if busy then s else set_bsp (BStart 0) s
  | BStart k =>
      if decide (k < length (aps s))%nat then set_bsp (BStart (S k)) (set_ap k ABoot (set_word k s)) else set_bsp BWait s
  | BWait => if mp_number_of_processors s =? nproc s then set_bsp BStarted (show AllStarted s) else s
  | BStarted => set_bsp (BSched Trying) (set_km 0 s)
  | BSched c => scheduler 0 (fun c => set_bsp (BSched c)) c s
  end.

(** Processor [i + 1]: the entry code, [mp_enter], then [scheduler]. *)
Definition ap_step (busy : bool) (i : nat) (s : smp) : smp :=
  match aps s !! i with
  | Some ABoot => set_ap i AProc (read_stack i s)
  | Some AProc => try_proc (set_ap i ALoad) s
  | Some ALoad => set_ap i (AStore (ncpu s)) s
  | Some (AStore v) => set_ap i ALapic (set_ncpu (v + 1) s)
  | Some ALapic => if busy then s else set_ap i ALeave s
  | Some ALeave => set_ap i (ASched Trying) (set_proc 0 s)
  | Some (ASched c) => scheduler (S i) (fun c => set_ap i (ASched c)) c s
  | _ => s
  end.

Inductive smp_step : smp -> smp -> Prop :=
| step_bsp busy s : smp_step s (bsp_step busy s)
| step_ap busy i s : (i < length (aps s))%nat -> smp_step s (ap_step busy i s).

(** [n] other processors, none of them running. *)
Definition smp_boot (n : nat) : smp := MkSmp 0 0 0 None (replicate n None) BTest (replicate n AOff) [].

(** ** The invariant *)

Definition sched_holds (c : sched_pc) : nat := match c with Holding | Printed => 1 | _ => 0 end.
Definition bsp_holds (b : bsp_pc) : nat := match b with BTest | BAcquire => 0 | BSched c => sched_holds c | _ => 1 end.
Definition ap_holds (a : ap_pc) : nat := match a with ASched c => sched_holds c | _ => 0 end.
(** Inside the section guarded by [proc_m]; counted in [ncpu]. *)
Definition ap_inside (a : ap_pc) : nat := match a with ALoad | AStore _ | ALapic | ALeave => 1 | _ => 0 end.
Definition ap_counted (a : ap_pc) : nat := match a with ALapic | ALeave | ASched _ => 1 | _ => 0 end.
Definition holders (s : smp) : nat := (bsp_holds (bsp s) + sum_list_with ap_holds (aps s))%nat.
(** Whether a processor has printed its message. *)
Definition sched_shown (c : sched_pc) : bool := match c with Printed | Idle => true | _ => false end.
Definition bsp_shown (b : bsp_pc) : bool := match b with BSched c => sched_shown c | _ => false end.
Definition ap_shown (a : ap_pc) : bool := match a with ASched c => sched_shown c | _ => false end.
Definition shown_by (s : smp) (id : nat) : bool :=
  match id with
  | O => bsp_shown (bsp s)
  | S i => match aps s !! i with Some a => ap_shown a | None => false end
  end.
(** The first processor has not yet released [km]; it has announced the others;
    it has shown their number. *)
Definition starting (b : bsp_pc) : bool := match b with BSched _ => false | _ => true end.
Definition announced (b : bsp_pc) : bool := match b with BStarted | BSched _ => true | _ => false end.
Definition found (b : bsp_pc) : bool := match b with BTest | BAcquire | BFound => false | _ => true end.
Definition started (b : bsp_pc) (n : nat) : nat :=
  match b with BTest | BAcquire | BFound | BLapic => 0 | BStart k => k | _ => n end.

(** The two lines before the processors' own; none on a single processor. *)
Definition banner (n : nat) (b : bsp_pc) : list event :=
  if decide (n = 0%nat) then [] else (if announced b then [AllStarted] else []) ++ (if found b then [Found] else []).

(** The console: the banner comes first, then one line per processor that has
    printed. *)
Definition log_ok (s : smp) : Prop :=
  exists ids, NoDup ids /\ (forall id, id ∈ ids <-> shown_by s id = true) /\
    shown s = (CpuInitialized <$> ids) ++ banner (length (aps s)) (bsp s).

Record smp_inv (s : smp) : Prop := {
  sm_lock : km s = Z.of_nat (holders s) /\ (holders s <= 1)%nat;
  sm_proc : proc_m s = Z.of_nat (sum_list_with ap_inside (aps s)) /\ (sum_list_with ap_inside (aps s) <= 1)%nat;
  sm_count : ncpu s = Z.of_nat (sum_list_with ap_counted (aps s));
  sm_loaded : forall i v, aps s !! i = Some (AStore v) -> v = ncpu s;
  sm_wait : starting (bsp s) = true -> forall i c, aps s !! i = Some (ASched c) -> c = Trying;
  sm_on : forall i a, aps s !! i = Some a -> a = AOff <-> (started (bsp s) (length (aps s)) <= i)%nat;
  sm_start : (started (bsp s) (length (aps s)) <= length (aps s))%nat;
  sm_alone : length (aps s) = 0%nat -> match bsp s with BTest | BSched _ => True | _ => False end;
  sm_all : announced (bsp s) = true -> sum_list_with ap_counted (aps s) = length (aps s);
  sm_log : log_ok s;
}.

Lemma log_same s s' : shown s' = shown s -> length (aps s') = length (aps s) ->
  banner (length (aps s)) (bsp s') = banner (length (aps s)) (bsp s) ->
  (forall id, shown_by s' id = shown_by s id) -> log_ok s -> log_ok s'.
Proof.
  intros E1 El E2 E3 (ids & H1 & H2 & H3). exists ids. rewrite E1, El, E2. split; [assumption|]. split; [|assumption].
  intros id. rewrite E3. apply H2.
Qed.

Lemma log_add s s' x : shown s' = CpuInitialized x :: shown s -> length (aps s') = length (aps s) ->
  banner (length (aps s)) (bsp s') = banner (length (aps s)) (bsp s) ->
  shown_by s x = false -> (forall id, shown_by s' id = if decide (id = x) then true else shown_by s id) ->
  log_ok s -> log_ok s'.
Proof.
  intros E1 El E2 Hx E3 (ids & H1 & H2 & H3). exists (x :: ids). rewrite E1, El, E2, H3. split; [|split; [|reflexivity]].
  - constructor; [rewrite H2, Hx; discriminate|assumption].
  - intros id. rewrite elem_of_cons, E3, H2. destruct (decide (id = x)); naive_solver.
Qed.

(** A line of the banner, while no processor has printed. *)
Lemma log_banner s s' e : shown s' = e :: shown s -> length (aps s') = length (aps s) ->
  banner (length (aps s)) (bsp s') = e :: banner (length (aps s)) (bsp s) ->
  (forall id, shown_by s id = false) -> (forall id, shown_by s' id = false) -> log_ok s -> log_ok s'.
Proof.
  intros E1 El E2 Hq Hq' (ids & H1 & H2 & H3).
  assert (ids = []) as ->.
  { destruct ids as [|x ids]; [reflexivity|]. pose proof (proj1 (H2 x) ltac:(apply list_elem_of_here)) as Hx. rewrite Hq in Hx. discriminate. }
  exists []. split; [constructor|]. split; [|rewrite E1, El, E2, H3; reflexivity].
  intros id. rewrite Hq'. split; [intros H; inversion H|discriminate].
Qed.

(** Before [km] is released nobody has printed. *)
Lemma quiet s : smp_inv s -> starting (bsp s) = true -> forall id, shown_by s id = false.
Proof.
  intros Hi Hs [|i]; unfold shown_by.
  - destruct (bsp s); [reflexivity..|discriminate].
  - destruct (aps s !! i) as [[]|] eqn:E; try reflexivity. rewrite (sm_wait _ Hi Hs i _ E). reflexivity.
Qed.

Lemma shown_insert s t i a0 a : aps s !! i = Some a0 -> aps t = <[i := a]> (aps s) -> bsp t = bsp s ->
  forall id, shown_by t id = if decide (id = S i) then ap_shown a else shown_by s id.
Proof.
  intros Hi Et Eb [|j]; unfold shown_by; rewrite ?Et, ?Eb; [reflexivity|].
  pose proof (lookup_lt_Some _ _ _ Hi). destruct (decide (S j = S i)) as [[= ->]|Hne].
  - rewrite list_lookup_insert_eq by assumption. reflexivity.
  - rewrite list_lookup_insert_ne by congruence. reflexivity.
Qed.

(** A step of another processor that prints nothing. *)
Lemma log_ap s t i a0 a : aps s !! i = Some a0 -> aps t = <[i := a]> (aps s) -> bsp t = bsp s -> shown t = shown s ->
  ap_shown a = ap_shown a0 -> log_ok s -> log_ok t.
Proof.
  intros Hi Et Eb Es E H. apply (log_same s); try assumption; [rewrite Et; apply length_insert|rewrite Eb; reflexivity|].
  intros id. rewrite (shown_insert s t i a0 a) by assumption. destruct (decide (id = S i)) as [->|]; [|reflexivity]. cbn. rewrite Hi. exact E.
Qed.

(** A lock word is 0 or 1. *)
Lemma km_cases s : smp_inv s ->
  (km s = 0 /\ bsp_holds (bsp s) = O /\ sum_list_with ap_holds (aps s) = O) \/ km s = 1.
Proof. intros Hi. destruct (sm_lock _ Hi). unfold holders in *. lia. Qed.

Lemma set_km_id s v : km s = v -> set_km v s = s.
Proof. destruct s. cbn. intros ->. reflexivity. Qed.

Lemma set_proc_id s v : proc_m s = v -> set_proc v s = s.
Proof. destruct s. cbn. intros ->. reflexivity. Qed.

(** A step of the first processor that starts no other. *)
Lemma inv_bsp s t : smp_inv s -> aps t = aps s -> proc_m t = proc_m s -> ncpu t = ncpu s ->
  km t = Z.of_nat (bsp_holds (bsp t) + sum_list_with ap_holds (aps s)) -> (bsp_holds (bsp t) + sum_list_with ap_holds (aps s) <= 1)%nat ->
  (starting (bsp t) = true -> starting (bsp s) = true) ->
  started (bsp t) (length (aps s)) = started (bsp s) (length (aps s)) ->
  (length (aps s) = 0%nat -> match bsp t with BTest | BSched _ => True | _ => False end) ->
  (announced (bsp t) = true -> sum_list_with ap_counted (aps s) = length (aps s)) ->
  log_ok t -> smp_inv t.
Proof.
  intros [H1 H2 H3 HL H4 H5 H6 HA H7 H8] Ea Ep En E1 E2 E3 E4 E5 E6 E7. split; unfold holders; rewrite ?Ea, ?Ep, ?En, ?E4; auto. intros Hb. apply H4, E3, Hb.
Qed.

Lemma counted_max l : (sum_list_with ap_counted l <= length l)%nat.
Proof. induction l as [|[] l IH]; cbn; lia. Qed.

Lemma counted_all l i a : sum_list_with ap_counted l = length l -> l !! i = Some a -> ap_counted a = 1%nat.
Proof.
  intros Hall Ha. pose proof (sum_insert ap_counted l i a (ASched Idle) Ha) as Hs. pose proof (counted_max (<[i := ASched Idle]> l)) as Hm.
  rewrite length_insert in Hm. cbn in Hs. destruct a; cbn in *; lia.
Qed.

(** A step of one of the other processors. *)
Lemma inv_ap s t i a0 a : smp_inv s -> aps s !! i = Some a0 -> a0 <> AOff -> a <> AOff ->
  aps t = <[i := a]> (aps s) -> bsp t = bsp s ->
  km t + Z.of_nat (ap_holds a0) = km s + Z.of_nat (ap_holds a) -> 0 <= km t <= 1 ->
  proc_m t + Z.of_nat (ap_inside a0) = proc_m s + Z.of_nat (ap_inside a) -> 0 <= proc_m t <= 1 ->
  ncpu t + Z.of_nat (ap_counted a0) = ncpu s + Z.of_nat (ap_counted a) -> (ap_counted a0 <= ap_counted a)%nat ->
  (forall j v, <[i := a]> (aps s) !! j = Some (AStore v) -> v = ncpu t) ->
  (starting (bsp s) = true -> forall c, a = ASched c -> c = Trying) ->
  log_ok t -> smp_inv t.
Proof.
  intros [[H1 H1'] [H2 H2'] H3 HL H4 H5 H6 HA H7 H8] Hi Hoff0 Hoff Et Eb Ek Ek1 Ep Ep1 En Ec Ev Ew El.
  pose proof (sum_insert ap_holds _ _ _ a Hi) as Sh. pose proof (sum_insert ap_inside _ _ _ a Hi) as Si.
  pose proof (sum_insert ap_counted _ _ _ a Hi) as Sc. unfold holders in *.
  split; unfold holders; rewrite ?Et, ?Eb, ?length_insert; try assumption; try lia.
  - intros Hs j c Hj. apply list_lookup_insert_Some in Hj as [(_ & -> & _)|[_ Hj]]; [apply (Ew Hs c eq_refl)|exact (H4 Hs j c Hj)].
  - intros j b Hj. apply list_lookup_insert_Some in Hj as [(<- & <- & _)|[_ Hj]]; [|apply H5; exact Hj].
    specialize (H5 i a0 Hi). tauto.
  - intros Ha. specialize (H7 Ha). pose proof (counted_max (<[i := a]> (aps s))) as Hmax. rewrite length_insert in Hmax. lia.
Qed.

(** What is left of a step when the shape of the state is known. *)
Ltac by_parts := cbn [km proc_m ncpu word stk bsp aps shown set_bsp set_ap set_km set_proc set_ncpu set_word read_stack show
  bsp_holds starting announced found started ap_holds ap_inside ap_counted ap_shown sched_holds sched_shown] in *.

Lemma inv_trying s : smp_inv s -> km s = 1 -> smp_inv (set_km 1 s).
Proof. intros Hi E. rewrite set_km_id by assumption. exact Hi. Qed.

Lemma bsp_shown_same s t : aps t = aps s -> bsp_shown (bsp t) = bsp_shown (bsp s) -> forall id, shown_by t id = shown_by s id.
Proof. intros Ea Eb [|i]; unfold shown_by; [exact Eb|rewrite Ea; reflexivity]. Qed.

(** Starting processor [k]. *)
Lemma start_preserves s k : smp_inv s -> bsp s = BStart k -> (k < length (aps s))%nat ->
  smp_inv (set_bsp (BStart (S k)) (set_ap k ABoot (set_word k s))).
Proof.
  intros Hi Eb Hlt. pose proof Hi as [[H1 H1'] [H2 H2'] H3 HL H4 H5 H6 HA H7 H8]. unfold holders in *. rewrite Eb in *. by_parts.
  destruct (lookup_lt_is_Some_2 _ _ Hlt) as [a Ha]. assert (a = AOff) as -> by (apply (H5 k a Ha); lia).
  pose proof (sum_insert ap_holds _ _ _ ABoot Ha) as Sh. pose proof (sum_insert ap_inside _ _ _ ABoot Ha) as Si.
  pose proof (sum_insert ap_counted _ _ _ ABoot Ha) as Sc. by_parts.
  split; unfold holders; by_parts; rewrite ?length_insert; try discriminate; try lia.
  - intros i v Hv. apply list_lookup_insert_Some in Hv as [(_ & [=] & _)|[_ Hv]]. exact (HL i v Hv).
  - intros Hs i c Hc. apply list_lookup_insert_Some in Hc as [(_ & [=] & _)|[_ Hc]]. exact (H4 Hs i c Hc).
  - intros i a Hia. apply list_lookup_insert_Some in Hia as [(<- & <- & _)|[Hne Hia]]; [split; [discriminate|lia]|].
    rewrite (H5 i a Hia). lia.
  - apply (log_same s); by_parts; rewrite ?length_insert, ?Eb; try reflexivity; [|exact H8].
    intros id. rewrite (shown_insert (set_bsp (BStart (S k)) s) _ k AOff ABoot Ha) by reflexivity.
    destruct id as [|i]; cbn; rewrite ?Eb; [reflexivity|]. destruct (decide (S i = S k)) as [[= ->]|]; [rewrite Ha|]; reflexivity.
Qed.

Lemma bsp_preserves d s : smp_inv s -> smp_inv (bsp_step d s).
Proof.
  intros Hi. pose proof (km_cases s Hi) as Hk. pose proof (quiet s Hi) as Hq. pose proof Hi as [[H1 H1'] _ _ _ _ _ _ HA H7 H8].
  unfold bsp_step. destruct (bsp s) as [| | | |k| | |c] eqn:Eb; unfold holders in *; rewrite ?Eb in *; by_parts.
  - unfold nproc. destruct (Z.ltb_spec 1 (Z.of_nat (length (aps s)) + 1)) as [Hn|Hn].
    + apply (inv_bsp s); by_parts; rewrite ?Eb; auto; try lia. apply (log_same s); by_parts; rewrite ?Eb; auto.
      apply bsp_shown_same; by_parts; rewrite ?Eb; reflexivity.
    + assert (E0 : length (aps s) = 0%nat) by lia. apply length_zero_iff_nil in E0.
      apply (inv_bsp s); by_parts; rewrite ?Eb, ?E0 in *; auto; try (cbn; lia). apply (log_same s); by_parts; rewrite ?Eb, ?E0; auto.
      apply bsp_shown_same; by_parts; rewrite ?Eb, ?E0; reflexivity.
  - unfold try_km. destruct Hk as [(E & _ & Hz)|E]; rewrite E; cbn [Z.eqb]; [|apply inv_trying; assumption].
    apply (inv_bsp s); by_parts; rewrite ?Hz, ?Eb; auto. apply (log_same s); by_parts; rewrite ?Eb; auto.
    apply bsp_shown_same; by_parts; rewrite ?Eb; reflexivity.
  - apply (inv_bsp s); by_parts; rewrite ?Eb; auto; try lia. apply (log_banner s _ Found); by_parts; rewrite ?Eb; auto.
    + unfold banner. destruct (decide _) as [E0|]; [destruct (HA E0)|reflexivity].
    + intros id. rewrite <- (Hq eq_refl id). apply bsp_shown_same; by_parts; rewrite ?Eb; reflexivity.
  - destruct d; [exact Hi|]. apply (inv_bsp s); by_parts; rewrite ?Eb; auto; try lia. apply (log_same s); by_parts; rewrite ?Eb; auto.
    apply bsp_shown_same; by_parts; rewrite ?Eb; reflexivity.
  - destruct (decide (k < length (aps s))%nat) as [Hlt|Hge]; [apply start_preserves; assumption|].
    pose proof (sm_start _ Hi) as Hst. rewrite Eb in Hst. by_parts.
    apply (inv_bsp s); by_parts; rewrite ?Eb; auto; try (by_parts; lia); try discriminate. apply (log_same s); by_parts; rewrite ?Eb; auto.
    apply bsp_shown_same; by_parts; rewrite ?Eb; reflexivity.
  - destruct (Z.eqb_spec (mp_number_of_processors s) (nproc s)) as [E|E]; [|exact Hi].
    unfold mp_number_of_processors, nproc in E. rewrite (sm_count _ Hi) in E.
    apply (inv_bsp s); by_parts; rewrite ?Eb; auto; try lia. apply (log_banner s _ AllStarted); by_parts; rewrite ?Eb; auto.
    + unfold banner. destruct (decide _) as [E0|]; [destruct (HA E0)|reflexivity].
    + intros id. rewrite <- (Hq eq_refl id). apply bsp_shown_same; by_parts; rewrite ?Eb; reflexivity.
  - assert (Hz : sum_list_with ap_holds (aps s) = O) by lia.
    apply (inv_bsp s); by_parts; rewrite ?Hz, ?Eb; auto; try discriminate. apply (log_same s); by_parts; rewrite ?Eb; auto.
    apply bsp_shown_same; by_parts; rewrite ?Eb; reflexivity.
  - destruct c; cbn [scheduler]; by_parts.
    + unfold try_km. destruct Hk as [(E & _ & Hz)|E]; rewrite E; cbn [Z.eqb]; [|apply inv_trying; assumption].
      apply (inv_bsp s); by_parts; rewrite ?Hz, ?Eb; auto; try discriminate. apply (log_same s); by_parts; rewrite ?Eb; auto.
      apply bsp_shown_same; by_parts; rewrite ?Eb; reflexivity.
    + apply (inv_bsp s); by_parts; rewrite ?Eb; auto; try discriminate.
      apply (log_add s _ O); by_parts; rewrite ?Eb; try reflexivity; [cbn; rewrite Eb; reflexivity| |exact H8]. intros [|i]; reflexivity.
    + assert (Hz : sum_list_with ap_holds (aps s) = O) by lia.
      apply (inv_bsp s); by_parts; rewrite ?Hz, ?Eb; auto; try discriminate. apply (log_same s); by_parts; rewrite ?Eb; auto.
      apply bsp_shown_same; by_parts; rewrite ?Eb; reflexivity.
    + exact Hi.
Qed.

(** Which value of [ncpu] the processors between load and store have. *)
Lemma loaded_keep s i a : smp_inv s -> (forall v, a = AStore v -> v = ncpu s) ->
  forall j v, <[i := a]> (aps s) !! j = Some (AStore v) -> v = ncpu s.
Proof.
  intros Hi Ha j v Hj. apply list_lookup_insert_Some in Hj as [(_ & -> & _)|[_ Hj]]; [apply Ha; reflexivity|exact (sm_loaded _ Hi j v Hj)].
Qed.

(** The section guarded by [proc_m], step by step. *)
Lemma enter_preserves d s i a : smp_inv s -> aps s !! i = Some a -> (forall c, a <> ASched c) -> smp_inv (ap_step d i s).
Proof.
  intros Hi Ea Hns. pose proof Hi as [[H1 H1'] [H2 H2'] H3 HL _ _ _ _ _ H8]. unfold ap_step. rewrite Ea.
  pose proof (sum_at ap_inside _ _ _ Ea) as Hin. unfold holders in *.
  destruct a as [| | | |v| | |c]; by_parts; try exact Hi; [| | | | | |destruct (Hns c eq_refl)].
  - apply (inv_ap s _ i ABoot AProc); by_parts; try assumption; try discriminate; try reflexivity; try lia;
      [apply loaded_keep; [exact Hi|discriminate]|apply (log_ap s _ i ABoot AProc); by_parts; auto].
  - unfold try_proc. destruct (Z.eqb_spec (proc_m s) 0) as [E|E]; [|rewrite set_proc_id by lia; exact Hi].
    apply (inv_ap s _ i AProc ALoad); by_parts; try assumption; try discriminate; try reflexivity; try lia;
      [apply loaded_keep; [exact Hi|discriminate]|apply (log_ap s _ i AProc ALoad); by_parts; auto].
  - apply (inv_ap s _ i ALoad (AStore (ncpu s))); by_parts; try assumption; try discriminate; try reflexivity; try lia;
      [apply loaded_keep; [exact Hi|congruence]|apply (log_ap s _ i ALoad (AStore (ncpu s))); by_parts; auto].
  - assert (v = ncpu s) as -> by exact (HL i v Ea). apply (inv_ap s _ i (AStore (ncpu s)) ALapic); by_parts; try assumption; try discriminate; try reflexivity; try lia;
      [|apply (log_ap s _ i (AStore (ncpu s)) ALapic); by_parts; auto].
    intros j w Hj. apply list_lookup_insert_Some in Hj as [(_ & [=] & _)|[Hne Hj]].
    pose proof (sum_two ap_inside _ i j _ _ Hne Ea Hj) as H4. by_parts. lia.
  - destruct d; [exact Hi|]. apply (inv_ap s _ i ALapic ALeave); by_parts; try assumption; try discriminate; try reflexivity; try lia;
      [apply loaded_keep; [exact Hi|discriminate]|apply (log_ap s _ i ALapic ALeave); by_parts; auto].
  - apply (inv_ap s _ i ALeave (ASched Trying)); by_parts; try assumption; try discriminate; try reflexivity; try lia;
      [apply loaded_keep; [exact Hi|discriminate]|congruence|apply (log_ap s _ i ALeave (ASched Trying)); by_parts; auto].
Qed.

Lemma scheduler_preserves s i c : smp_inv s -> aps s !! i = Some (ASched c) -> smp_inv (scheduler (S i) (fun c => set_ap i (ASched c)) c s).
Proof.
  intros Hi Ea. pose proof (km_cases s Hi) as Hk. pose proof Hi as [[H1 H1'] [H2 H2'] _ _ H4 H5 _ _ _ H8]. unfold holders in *.
  assert (Hrun : sched_holds c = 1%nat -> starting (bsp s) = false).
  { intros Hc. destruct (starting (bsp s)) eqn:Es; [|reflexivity]. rewrite (H4 eq_refl i c Ea) in Hc. discriminate. }
  assert (Hl : forall c', forall j v, <[i := ASched c']> (aps s) !! j = Some (AStore v) -> v = ncpu s)
    by (intros c'; apply loaded_keep; [exact Hi|discriminate]).
  pose proof (sum_at ap_holds _ _ _ Ea) as Hh. destruct c; cbn [scheduler]; by_parts.
  - unfold try_km. destruct Hk as [(E & Hb & Hz)|E]; rewrite E; cbn [Z.eqb]; [|apply inv_trying; assumption].
    assert (Hst : starting (bsp s) = false).
    { destruct (bsp s) eqn:Eb; try discriminate Hb; [| |reflexivity]; pose proof (proj2 (H5 i _ Ea) ltac:(cbn; lia)); discriminate. }
    apply (inv_ap s _ i (ASched Trying) (ASched Holding)); by_parts; try assumption; try discriminate; try reflexivity; try lia;
      [apply Hl|congruence|apply (log_ap s _ i (ASched Trying) (ASched Holding)); by_parts; auto].
  - apply (inv_ap s _ i (ASched Holding) (ASched Printed)); by_parts; try assumption; try discriminate; try reflexivity; try lia;
      [apply Hl|rewrite Hrun by reflexivity; discriminate|].
    apply (log_add s _ (S i)); by_parts; rewrite ?length_insert; try reflexivity; [cbn; rewrite Ea; reflexivity| |exact H8].
    apply (shown_insert s _ i (ASched Holding) (ASched Printed)); auto.
  - apply (inv_ap s _ i (ASched Printed) (ASched Idle)); by_parts; try assumption; try discriminate; try reflexivity; try lia;
      [apply Hl|rewrite Hrun by reflexivity; discriminate|apply (log_ap s _ i (ASched Printed) (ASched Idle)); by_parts; auto].
  - exact Hi.
Qed.

Lemma ap_preserves d s i : smp_inv s -> smp_inv (ap_step d i s).
Proof.
  intros Hi. destruct (aps s !! i) as [a|] eqn:Ea; [|unfold ap_step; rewrite Ea; exact Hi].
  destruct a as [| | | | | | |c]; try (apply (enter_preserves d s i _ Hi Ea); discriminate).
  unfold ap_step. rewrite Ea. apply scheduler_preserves; assumption.
Qed.

Lemma smp_inv_step s s' : smp_inv s -> smp_step s s' -> smp_inv s'.
Proof. intros Hi Hs. inversion Hs; subst; [apply bsp_preserves|apply ap_preserves]; assumption. Qed.

Lemma smp_inv_boot n : smp_inv (smp_boot n).
Proof.
  assert (H0 : forall f, f AOff = O -> sum_list_with f (replicate n AOff) = O)
    by (intros f Hf; induction n as [|n IH]; [reflexivity|]; cbn; rewrite Hf; exact IH).
  assert (Hoff : forall i a, replicate n AOff !! i = Some a -> a = AOff) by (intros i a H; apply lookup_replicate_1 in H; tauto).
  split; unfold holders; cbn; rewrite ?H0 by reflexivity; try discriminate; try lia.
  - intros i v H. apply Hoff in H. discriminate.
  - intros _ i c H. apply Hoff in H. discriminate.
  - intros i a H. apply Hoff in H. split; [lia|auto].
  - exists []. split; [constructor|]. split; [|unfold banner; destruct (decide _); reflexivity]. intros id. split; [intros H; inversion H|].
    intros H. exfalso. destruct id; cbn in H; [discriminate|].
    destruct (replicate n AOff !! id) as [[]|] eqn:E; try discriminate. apply Hoff in E. discriminate.
Qed.

Lemma scheduler_length id put c s : (forall c s, length (aps (put c s)) = length (aps s)) -> length (aps (scheduler id put c s)) = length (aps s).
Proof.
  intros Hp. destruct c; cbn; unfold try_km; rewrite ?Hp; try reflexivity. destruct (km s =? 0); rewrite ?Hp; reflexivity.
Qed.

Lemma smp_length s s' : smp_step s s' -> length (aps s') = length (aps s).
Proof.
  intros H. inversion H; subst.
  - unfold bsp_step. destruct (bsp s); cbn; try reflexivity.
    + destruct (1 <? _); reflexivity.
    + unfold try_km. destruct (km s =? 0); reflexivity.
    + destruct busy; reflexivity.
    + destruct (decide _); cbn; rewrite ?length_insert; reflexivity.
    + destruct (_ =? _); reflexivity.
    + apply scheduler_length. reflexivity.
  - unfold ap_step. destruct (aps s !! i) as [[]|]; cbn; rewrite ?length_insert; try reflexivity.
    + unfold try_proc. destruct (proc_m s =? 0); cbn; rewrite ?length_insert; reflexivity.
    + destruct busy; cbn; rewrite ?length_insert; reflexivity.
    + apply scheduler_length. intros c' t. cbn. apply length_insert.
Qed.

Lemma smp_reachable n s : rtc smp_step (smp_boot n) s -> smp_inv s /\ length (aps s) = n.
Proof.
  intros H. assert (Hl : length (aps (smp_boot n)) = n) by apply length_replicate.
  pose proof (smp_inv_boot n) as Hi. induction H as [s|s t u Hst _ IH]; [auto|].
  apply IH; [|eapply smp_inv_step; eassumption]. rewrite (smp_length _ _ Hst). assumption.
Qed.

(** ** Progress *)

(** Every processor that has read its stack runs on its own, and one in the
    entry code finds its own in the word: no processor has been started before
    the one before it had read. *)
Definition paced (s : smp) : Prop := forall i a, aps s !! i = Some a ->
  match a with AOff => True | ABoot => word s = Some i | _ => stk s !! i = Some (Some i) end.

Definition sched_rank (c : sched_pc) : nat := match c with Trying => 3 | Holding => 2 | Printed => 1 | Idle => 0 end.
Definition ap_rank (a : ap_pc) : nat :=
  match a with AOff => 10 | ABoot => 9 | AProc => 8 | ALoad => 7 | AStore _ => 6 | ALapic => 5 | ALeave => 4 | ASched c => sched_rank c end.
Definition bsp_rank (b : bsp_pc) (n : nat) : nat :=
  match b with
  | BTest => n + 11 | BAcquire => n + 10 | BFound => n + 9 | BLapic => n + 8
  | BStart k => n - k + 6
  | BWait => 5
  | BStarted => 4
  | BSched c => sched_rank c
  end.
(** Steps that are left when nobody has to wait. *)
Definition rank (s : smp) : nat := (bsp_rank (bsp s) (length (aps s)) + sum_list_with ap_rank (aps s))%nat.

Definition all_idle (s : smp) : Prop := bsp s = BSched Idle /\ Forall (fun a => a = ASched Idle) (aps s).

(** A step towards the end that keeps the processors paced. *)
Definition advances (s : smp) : Prop := exists s', smp_step s s' /\ paced s' /\ (rank s' < rank s)%nat.

Lemma sum_zero (f : ap_pc -> nat) l : (forall i a, l !! i = Some a -> f a = O) -> sum_list_with f l = O.
Proof.
  intros H. induction l as [|a l IH]; [reflexivity|]. cbn. rewrite (H O a eq_refl), IH; [reflexivity|].
  intros i b Hb. exact (H (S i) b Hb).
Qed.

Lemma sum_some (f : ap_pc -> nat) l : sum_list_with f l <> O -> exists i a, l !! i = Some a /\ f a <> O.
Proof.
  induction l as [|a l IH]; cbn; [lia|]. intros H. destruct (f a) as [|k] eqn:E; [|exists O, a; split; [reflexivity|lia]].
  destruct (IH ltac:(lia)) as (i & b & Hb & Hn). exists (S i), b. auto.
Qed.

Lemma sum_short l : (sum_list_with ap_counted l < length l)%nat -> exists i a, l !! i = Some a /\ ap_counted a = O.
Proof.
  induction l as [|a l IH]; cbn; [lia|]. intros H. destruct (ap_counted a) as [|k] eqn:E; [exists O, a; auto|].
  destruct IH as (i & b & Hb & Hz); [destruct a; cbn in E; try discriminate; lia|]. exists (S i), b. auto.
Qed.

(** A step of processor [i] to [a] that changes neither the word nor a stack. *)
Lemma ap_advances d s i a0 a t : ap_step d i s = t -> aps s !! i = Some a0 -> a0 <> AOff -> a0 <> ABoot -> a <> AOff -> a <> ABoot ->
  aps t = <[i := a]> (aps s) -> bsp t = bsp s -> word t = word s -> stk t = stk s -> (ap_rank a < ap_rank a0)%nat -> paced s -> advances s.
Proof.
  intros Et Hi H1 H2 H3 H4 Ea Eb Ew Ek Hr Hp. exists t. split; [rewrite <- Et; constructor; apply (lookup_lt_Some _ _ _ Hi)|]. split.
  - intros j b Hj. rewrite Ea in Hj. rewrite Ew, Ek. apply list_lookup_insert_Some in Hj as [(<- & <- & _)|[_ Hj]]; [|exact (Hp j b Hj)].
    specialize (Hp i a0 Hi). destruct a0, a; tauto.
  - unfold rank. rewrite Ea, Eb, length_insert. pose proof (sum_insert ap_rank _ _ _ a Hi). lia.
Qed.

(** A processor inside the section guarded by [proc_m] goes on, once its
    controller is ready. *)
Lemma inside_advances s i a : smp_inv s -> paced s -> aps s !! i = Some a -> ap_inside a = 1%nat -> advances s.
Proof.
  intros Hi Hp Ha Hin. destruct a as [| | | |v| | |c] eqn:Ea; try discriminate Hin.
  - apply (ap_advances false s i ALoad (AStore (ncpu s)) _ eq_refl Ha); unfold ap_step; rewrite ?Ha; by_parts; auto; try discriminate; cbn; lia.
  - apply (ap_advances false s i (AStore v) ALapic _ eq_refl Ha); unfold ap_step; rewrite ?Ha; by_parts; auto; try discriminate; cbn; lia.
  - apply (ap_advances false s i ALapic ALeave _ eq_refl Ha); unfold ap_step; rewrite ?Ha; by_parts; auto; try discriminate; cbn; lia.
  - apply (ap_advances false s i ALeave (ASched Trying) _ eq_refl Ha); unfold ap_step; rewrite ?Ha; by_parts; auto; try discriminate; cbn; lia.
Qed.

(** In the entry code the processor reads its word. *)
Lemma boot_advances s i : paced s -> (length (stk s) = length (aps s)) -> aps s !! i = Some ABoot -> advances s.
Proof.
  intros Hp Hl Ha. pose proof (lookup_lt_Some _ _ _ Ha) as Hlt. exists (ap_step false i s). split; [constructor; exact Hlt|].
  unfold ap_step. rewrite Ha. split.
  - intros j b Hj. by_parts. apply list_lookup_insert_Some in Hj as [(<- & <- & _)|[Hne Hj]].
    + rewrite list_lookup_insert_eq by lia. f_equal. exact (Hp i ABoot Ha).
    + rewrite list_lookup_insert_ne by assumption. exact (Hp j b Hj).
  - unfold rank. by_parts. rewrite length_insert. pose proof (sum_insert ap_rank _ _ _ AProc Ha) as Hs. cbn [ap_rank] in Hs. lia.
Qed.

(** A processor that is not yet counted, or the one that keeps it waiting. *)
Lemma uncounted_advances s i a : smp_inv s -> paced s -> length (stk s) = length (aps s) ->
  aps s !! i = Some a -> a <> AOff -> ap_counted a = O -> advances s.
Proof.
  intros Hi Hp Hl Ha Hoff Hc. destruct (Nat.eq_dec (ap_inside a) 1) as [Hin|Hout]; [apply (inside_advances s i a); assumption|].
  destruct a; try discriminate Hc; try congruence; cbn in Hout; try lia; [apply (boot_advances s i); assumption|].
  destruct (Nat.eq_dec (sum_list_with ap_inside (aps s)) 0) as [Hz|Hn].
  - pose proof (proj1 (sm_proc _ Hi)) as E. rewrite Hz in E.
    apply (ap_advances false s i AProc ALoad _ eq_refl Ha); unfold ap_step, try_proc; rewrite ?Ha, ?E; by_parts; auto; try discriminate; cbn; lia.
  - destruct (sum_some _ _ Hn) as (j & b & Hb & Hbn). apply (inside_advances s j b Hi Hp Hb). destruct b; cbn in *; lia.
Qed.

(** A processor in [scheduler] that does not have to wait. *)
Lemma sched_ap_advances s i c : paced s -> aps s !! i = Some (ASched c) -> c <> Idle -> (c = Trying -> km s = 0) -> advances s.
Proof.
  intros Hp Ha Hc Hk. destruct c; [| | |congruence].
  - apply (ap_advances false s i (ASched Trying) (ASched Holding) _ eq_refl Ha); unfold ap_step, scheduler, try_km; rewrite ?Ha, ?Hk;
      by_parts; auto; try discriminate; cbn; lia.
  - apply (ap_advances false s i (ASched Holding) (ASched Printed) _ eq_refl Ha); unfold ap_step; rewrite ?Ha; by_parts; auto; try discriminate; cbn; lia.
  - apply (ap_advances false s i (ASched Printed) (ASched Idle) _ eq_refl Ha); unfold ap_step; rewrite ?Ha; by_parts; auto; try discriminate; cbn; lia.
Qed.

(** A step of the first processor that starts no other. *)
Lemma bsp_advances s t : bsp_step false s = t -> aps t = aps s -> word t = word s -> stk t = stk s ->
  (bsp_rank (bsp t) (length (aps s)) < bsp_rank (bsp s) (length (aps s)))%nat -> paced s -> advances s.
Proof.
  intros Et Ea Ew Ek Hr Hp. exists t. split; [rewrite <- Et; constructor|]. split.
  - intros i a. rewrite Ea, Ew, Ek. apply Hp.
  - unfold rank. rewrite Ea. lia.
Qed.

(** Before [km] is released no other processor has it. *)
Lemma starting_free s : smp_inv s -> starting (bsp s) = true -> sum_list_with ap_holds (aps s) = O.
Proof.
  intros Hi Hs. apply sum_zero. intros i [] Ha; try reflexivity. rewrite (sm_wait _ Hi Hs i _ Ha). reflexivity.
Qed.

Lemma start_advances s k : smp_inv s -> paced s -> length (stk s) = length (aps s) -> bsp s = BStart k -> advances s.
Proof.
  intros Hi Hp Hl Eb. destruct (decide (Exists (fun a => a = ABoot) (aps s))) as [He|Hn].
  { apply Exists_exists in He as (a & Hin & ->). apply list_elem_of_lookup in Hin as [i Ha]. apply (boot_advances s i); assumption. }
  assert (Hnb : forall i, aps s !! i <> Some ABoot).
  { intros i Ha. apply Hn, Exists_exists. exists ABoot. split; [apply list_elem_of_lookup_2 with i; exact Ha|reflexivity]. }
  destruct (decide (k < length (aps s))%nat) as [Hlt|Hge].
  - destruct (lookup_lt_is_Some_2 _ _ Hlt) as [a Ha].
    assert (a = AOff) as -> by (apply (sm_on _ Hi k a Ha); rewrite Eb; cbn; lia).
    exists (bsp_step false s). split; [constructor|]. unfold bsp_step. rewrite Eb. destruct (decide _) as [_|Hc]; [|contradiction]. split.
    + intros i b Hb. by_parts. apply list_lookup_insert_Some in Hb as [(<- & <- & _)|[Hne Hb]]; [reflexivity|].
      specialize (Hp i b Hb). destruct b; try assumption. destruct (Hnb i Hb).
    + unfold rank. by_parts. rewrite length_insert, Eb. pose proof (sum_insert ap_rank _ _ _ ABoot Ha) as Hr. cbn [ap_rank bsp_rank] in *. lia.
  - assert (E : bsp_step false s = set_bsp BWait s) by (unfold bsp_step; rewrite Eb; destruct (decide _); [contradiction|reflexivity]).
    apply (bsp_advances s _ E); by_parts; auto. rewrite Eb. cbn. lia.
Qed.

Lemma starting_advances s : smp_inv s -> paced s -> length (stk s) = length (aps s) -> starting (bsp s) = true -> advances s.
Proof.
  intros Hi Hp Hl Hs. pose proof (starting_free s Hi Hs) as Hz. pose proof (sm_lock _ Hi) as [Hlock _]. unfold holders in Hlock.
  pose proof (bsp_advances s _ eq_refl) as Hb. unfold bsp_step in Hb. destruct (bsp s) as [| | | |k| | |c] eqn:Eb; try discriminate Hs.
  - apply Hb; destruct (1 <? nproc s); by_parts; auto; cbn; lia.
  - unfold try_km in Hb. assert (E0 : km s = 0) by (rewrite Hlock, Hz; reflexivity). rewrite E0 in Hb. cbn [Z.eqb] in Hb. apply Hb; by_parts; auto. cbn. lia.
  - apply Hb; by_parts; auto. cbn. lia.
  - apply Hb; by_parts; auto. cbn. lia.
  - apply (start_advances s k); assumption.
  - destruct (Z.eqb_spec (mp_number_of_processors s) (nproc s)) as [E|E]; [apply Hb; by_parts; auto; cbn; lia|].
    unfold mp_number_of_processors, nproc in E. pose proof (sm_count _ Hi) as Hc. pose proof (counted_max (aps s)) as Hmax.
    destruct (sum_short (aps s) ltac:(lia)) as (i & a & Ha & Hc0). apply (uncounted_advances s i a); try assumption.
    intros ->. pose proof (proj1 (sm_on _ Hi i _ Ha) eq_refl) as Hle. rewrite Eb in Hle. cbn in Hle. pose proof (lookup_lt_Some _ _ _ Ha). lia.
  - apply Hb; by_parts; auto.
Qed.

Lemma sched_advances s : smp_inv s -> paced s -> starting (bsp s) = false -> all_idle s \/ advances s.
Proof.
  intros Hi Hp Hs. destruct (bsp s) as [| | | | | | |c] eqn:Eb; cbn in Hs; try discriminate. clear Hs.
  destruct (Nat.eq_dec (sum_list_with ap_holds (aps s)) 0) as [Hz|Hn].
  2:{ right. destruct (sum_some _ _ Hn) as (i & a & Ha & Hh). destruct a as [| | | | | | |c']; cbn in Hh; try lia.
      apply (sched_ap_advances s i c' Hp Ha); intros ->; cbn in Hh; lia. }
  pose proof (sm_lock _ Hi) as [Hl _]. unfold holders in Hl. rewrite Eb, Hz in Hl. cbn in Hl.
  assert (Hmove : c <> Idle -> advances s).
  { intros Hc. pose proof (bsp_advances s _ eq_refl) as Hb. unfold bsp_step in Hb. rewrite Eb in Hb.
    destruct c; try congruence; cbn [scheduler] in Hb; [unfold try_km in Hb; cbn in Hl; rewrite Hl in Hb|..]; apply Hb; by_parts; auto; cbn; lia. }
  destruct (decide (c = Idle)) as [->|Hc]; [|right; apply Hmove; exact Hc].
  destruct (decide (Forall (fun a => a = ASched Idle) (aps s))) as [Hall|Hnall]; [left; split; assumption|right].
  apply not_Forall_Exists in Hnall; [|intros a; apply _]. apply Exists_exists in Hnall as (a & Hin & Hna).
  apply list_elem_of_lookup in Hin as [i Ha].
  assert (Hall : sum_list_with ap_counted (aps s) = length (aps s)) by (apply (sm_all _ Hi); rewrite Eb; reflexivity).
  pose proof (counted_all _ _ _ Hall Ha) as Hca.
  destruct a as [| | | | | | |c']; try discriminate Hca; try (apply (inside_advances s i _ Hi Hp Ha); reflexivity).
  apply (sched_ap_advances s i c' Hp Ha); [congruence|intros _; exact Hl].
Qed.

Lemma smp_stk s s' : smp_step s s' -> length (stk s') = length (stk s).
Proof.
  assert (Hs : forall id put c s, (forall c s, length (stk (put c s)) = length (stk s)) -> length (stk (scheduler id put c s)) = length (stk s)).
  { intros id put c t Hp. destruct c; cbn; unfold try_km; rewrite ?Hp; try reflexivity. destruct (km t =? 0); rewrite ?Hp; reflexivity. }
  intros H. inversion H; subst.
  - unfold bsp_step. destruct (bsp s); cbn; try reflexivity.
    + destruct (1 <? _); reflexivity.
    + unfold try_km. destruct (km s =? 0); reflexivity.
    + destruct busy; reflexivity.
    + destruct (decide _); reflexivity.
    + destruct (_ =? _); reflexivity.
    + apply Hs. reflexivity.
  - unfold ap_step. destruct (aps s !! i) as [[]|]; cbn; rewrite ?length_insert; try reflexivity.
    + unfold try_proc. destruct (proc_m s =? 0); reflexivity.
    + destruct busy; reflexivity.
    + apply Hs. reflexivity.
Qed.

Lemma smp_stk_reachable n s : rtc smp_step (smp_boot n) s -> length (stk s) = n.
Proof.
  intros H. assert (Hl : length (stk (smp_boot n)) = n) by apply length_replicate.
  induction H as [s|s t u Hst _ IH]; [exact Hl|]. apply IH. rewrite (smp_stk _ _ Hst). exact Hl.
Qed.

Lemma smp_runs k : forall s, smp_inv s -> paced s -> length (stk s) = length (aps s) -> (rank s < k)%nat ->
  exists s', rtc smp_step s s' /\ all_idle s' /\ paced s'.
Proof.
  induction k as [|k IH]; intros s Hi Hp Hl Hk; [lia|].
  assert (Hstep : all_idle s \/ advances s).
  { destruct (starting (bsp s)) eqn:E; [right; apply starting_advances; assumption|apply sched_advances; assumption]. }
  destruct Hstep as [H|(s1 & Hs & Hp1 & Hr)]; [exists s; split; [apply rtc_refl|auto]|].
  destruct (IH s1 (smp_inv_step _ _ Hi Hs) Hp1 ltac:(rewrite (smp_stk _ _ Hs), (smp_length _ _ Hs); exact Hl) ltac:(lia)) as (s' & Hrt & Hf).
  exists s'. split; [eapply rtc_l; eassumption|exact Hf].
Qed.

(** ** What the boot of several processors shows *)

(** C27: the order of the announcements.  In every reachable state the console
    shows at most one line per processor, no processor announces itself before
    the first one has shown their number and announced that all are started,
    and when one has, all [n] other processors have been counted.  A single
    processor shows neither of the two lines. *)
Theorem smp_console_order n s :
  rtc smp_step (smp_boot n) s ->
  exists ids, NoDup ids /\ (forall id, id ∈ ids -> (id <= n)%nat) /\
    shown s = (CpuInitialized <$> ids) ++
      (if decide (n = 0%nat) then [] else (if announced (bsp s) then [AllStarted] else []) ++ (if found (bsp s) then [Found] else [])) /\
    (ids <> [] -> announced (bsp s) = true /\ ncpu s = Z.of_nat n).
Proof.
  intros H. destruct (smp_reachable n s H) as [Hi Hn]. destruct (sm_log _ Hi) as (ids & H1 & H2 & H3). rewrite Hn in H3.
  exists ids. split; [assumption|]. split; [|split; [exact H3|]].
  - intros [|id] Hid; [lia|]. apply H2 in Hid. cbn in Hid. destruct (aps s !! id) eqn:E; [|discriminate].
    apply lookup_lt_Some in E. lia.
  - intros Hne. destruct ids as [|x ids]; [congruence|].
    pose proof (proj1 (H2 x) ltac:(apply list_elem_of_here)) as Hx.
    assert (Hst : starting (bsp s) = false)
      by (destruct (starting (bsp s)) eqn:E; [rewrite (quiet s Hi E) in Hx; discriminate|reflexivity]).
    assert (Ha : announced (bsp s) = true) by (destruct (bsp s); cbn in *; congruence).
    split; [assumption|]. rewrite (sm_count _ Hi), (sm_all _ Hi Ha), Hn. reflexivity.
Qed.

(** C26: the boot of several processors never gets stuck, as long as no two
    processors were given the same stack.  From every reachable state in which
    each started processor has its own stack, or will read it, there is a
    continuation in which all processors are idle, each on its own stack, with
    both locks free and all [n] counted, and the console shows the banner
    followed by one line for each of the [n + 1] processors.  (Nothing makes
    [mp_start_ap] wait until the stack was read: [mp_start_shares_stack].) *)
Theorem smp_boot_completes n s :
  rtc smp_step (smp_boot n) s -> paced s ->
  exists s' ids, rtc smp_step s s' /\ all_idle s' /\ km s' = 0 /\ proc_m s' = 0 /\ ncpu s' = Z.of_nat n /\
    (forall i, (i < n)%nat -> stk s' !! i = Some (Some i)) /\
    shown s' = (CpuInitialized <$> ids) ++ (if decide (n = 0%nat) then [] else [AllStarted; Found]) /\ ids ≡ₚ seq 0 (S n).
Proof.
  intros H Hp. destruct (smp_reachable n s H) as [Hi Hn0].
  destruct (smp_runs (S (rank s)) s Hi Hp) as (s' & Hr & [Hb Ha] & Hp'); [rewrite Hn0; apply smp_stk_reachable, H|lia|].
  destruct (smp_reachable n s' (transitivity H Hr)) as [Hi' Hn].
  destruct (sm_log _ Hi') as (ids & H1 & H2 & H3). rewrite Hb, Hn in H3. rewrite Forall_lookup in Ha. exists s', ids.
  assert (Hz : forall f, f (ASched Idle) = O -> sum_list_with f (aps s') = O) by (intros f Hf; apply sum_zero; intros i a E; rewrite (Ha i a E); exact Hf).
  split; [assumption|]. split; [split; [assumption|rewrite Forall_lookup; exact Ha]|]. split; [|split; [|split; [|split; [|split; [exact H3|]]]]].
  - rewrite (proj1 (sm_lock _ Hi')). unfold holders. rewrite Hb, Hz by reflexivity. reflexivity.
  - rewrite (proj1 (sm_proc _ Hi')), Hz by reflexivity. reflexivity.
  - rewrite (sm_count _ Hi'), (sm_all _ Hi'), Hn by (rewrite Hb; reflexivity). reflexivity.
  - intros i Hlt. rewrite <- Hn in Hlt. destruct (lookup_lt_is_Some_2 _ _ Hlt) as [a E]. pose proof (Hp' i a E) as Hk. rewrite (Ha i a E) in Hk. exact Hk.
  - apply NoDup_Permutation; [assumption|apply NoDup_seq|]. intros id. rewrite H2, elem_of_seq.
    destruct id as [|i]; cbn; [rewrite Hb; cbn; split; [lia|reflexivity]|].
    destruct (aps s' !! i) as [a|] eqn:E.
    + rewrite (Ha i a E). apply lookup_lt_Some in E. cbn. split; [lia|reflexivity].
    + apply lookup_ge_None in E. split; [discriminate|lia].
Qed.

(** Two processors: the other one is counted, and waits for its controller,
    while the first one still holds [km]. *)
Definition demo_smp : smp := MkSmp 1 1 1 (Some 0%nat) [Some 0%nat] BWait [ALapic] [Found].

Lemma demo_smp_reachable : rtc smp_step (smp_boot 1) demo_smp.
Proof.
  do 3 (eapply rtc_l; [apply (step_bsp false)|]). eapply rtc_l; [apply (step_bsp true)|].
  do 3 (eapply rtc_l; [apply (step_bsp false)|]).
  do 4 (eapply rtc_l; [apply (step_ap true 0); vm_compute; lia|]). apply rtc_refl.
Qed.

Lemma smp_console_order_witness :
  exists ids, NoDup ids /\ (forall id, id ∈ ids -> (id <= 1)%nat) /\
    shown demo_smp = (CpuInitialized <$> ids) ++ [Found] /\ (ids <> [] -> false = true /\ 1 = 1).
Proof. exact (smp_console_order 1 demo_smp demo_smp_reachable). Defined.

Lemma smp_boot_completes_witness :
  exists s' ids, rtc smp_step demo_smp s' /\ all_idle s' /\ km s' = 0 /\ stk s' !! 0%nat = Some (Some 0%nat) /\
    shown s' = (CpuInitialized <$> ids) ++ [AllStarted; Found] /\ ids ≡ₚ [0; 1]%nat.
Proof.
  destruct (smp_boot_completes 1 demo_smp demo_smp_reachable) as (s' & ids & H1 & H2 & H3 & _ & _ & H4 & H5 & H6).
  - intros [|i] a Ha; cbn in Ha; [injection Ha as <-; reflexivity|discriminate].
  - exists s', ids. pose proof (H4 O ltac:(lia)). auto 10.
Defined.
